(** * iRacing driver statistics: the three Lambda functions

    A shallow embedding of [lambda/ir_auth], [lambda/ir_custid] and
    [lambda/ir_drivers]: the token lifecycle manager, the customer-id
    resolution service and the driver-profile service, together with the
    properties their design document states about them.

    Conventions of the embedding:
    - Python strings are sequences of code points below 256 ([string]),
      with [lower], [strip] and UTF-8 encoding defined on that range; the
      integers are [Z].
    - A function that talks to the outside (clock, DynamoDB, Secrets
      Manager, HTTP, Lambda invocation) is a computation in a
      state-and-exception monad over an explicit [World]: the clock, the
      three DynamoDB tables as finite maps keyed by their partition key,
      and the trace of everything done so far.
    - The services are an [Env] of functions from the trace so far to an
      answer, so that an answer may depend on everything that happened
      before; a service that fails is an answer of its own ([ClientError],
      [HTTPError], [URLError], a body that is not JSON).
    - The JSON documents that the code reads field by field are records
      with optional fields; a profile is a [json] value.  A value stored
      with [json.dumps] and read back with [json.loads] is kept as the
      value.
    - The clock is [int(time.time())] and moves only in [time.sleep].
    - A [for attempt in range(MAX_RETRIES)] loop is a fixpoint over the
      attempts still to make; [continue] is the recursive call.
    - Logging is left out; the names of tables, functions and the secret
      are the defaults of the environment variables.
    - An invoked Lambda function runs on the same [World] as its caller. *)

From Stdlib Require Import ZArith List Ascii String Bool Lia.
From Stdlib Require Import DecimalString DecimalZ DecimalPos.
From stdpp Require Import base option gmap strings list.

Local Open Scope string_scope.
Local Open Scope Z_scope.

(** ** Python strings *)

Module Py.

Definition ord (c : ascii) : Z := Z.of_N (N_of_ascii c).
Definition chr (z : Z) : ascii := ascii_of_N (Z.to_N z).

(** [str.isspace] on the code points below 256. *)
Definition isspace (c : ascii) : bool :=
  let n := ord c in
  ((9 <=? n) && (n <=? 13)) || ((28 <=? n) && (n <=? 32))
  || (n =? 133) || (n =? 160).

(** [str.lower] on one code point below 256: the ASCII capitals and the
    Latin-1 capitals (all of 0xC0..0xDE except the multiplication sign). *)
Definition lower_char (c : ascii) : ascii :=
  let n := ord c in
  if ((65 <=? n) && (n <=? 90))
     || ((192 <=? n) && (n <=? 222) && negb (n =? 215))
  then chr (n + 32) else c.

Fixpoint lower (s : string) : string :=
  match s with
  | EmptyString => EmptyString
  | String c s' => String (lower_char c) (lower s')
  end.

Fixpoint lstrip (s : string) : string :=
  match s with
  | EmptyString => EmptyString
  | String c s' => if isspace c then lstrip s' else s
  end.

Fixpoint rstrip (s : string) : string :=
  match s with
  | EmptyString => EmptyString
  | String c s' =>
      match rstrip s' with
      | EmptyString => if isspace c then EmptyString else String c EmptyString
      | r => String c r
      end
  end.

(** [str.strip()] with no argument. *)
Definition strip (s : string) : string := lstrip (rstrip s).

(** [s.encode('utf-8')] for code points below 256. *)
Fixpoint encode_utf8 (s : string) : list Z :=
  match s with
  | EmptyString => []
  | String c s' =>
      let n := ord c in
      if n <? 128 then n :: encode_utf8 s'
      else Z.lor 192 (Z.shiftr n 6) :: Z.lor 128 (Z.land n 63) :: encode_utf8 s'
  end.

(** [bool(s)] for a string. *)
Definition truthy_str (s : string) : bool :=
  match s with EmptyString => false | _ => true end.

(** [str(n)] for an integer. *)
Definition str (z : Z) : string := NilZero.string_of_int (Z.to_int z).

(** [int(s)] for a string: surrounding whitespace, an optional sign and
    decimal digits; [None] stands for [ValueError].  (Python also accepts
    single underscores between digits; no string in this program has
    them.) *)
Definition int (s : string) : option Z :=
  match strip s with
  | String "+" s' =>
      match s' with
      | String "-" _ => None
      | _ => Z.of_int <$> NilZero.int_of_string s'
      end
  | s' => Z.of_int <$> NilZero.int_of_string s'
  end.

(** [sep.join(l)] *)
Fixpoint join (sep : string) (l : list string) : string :=
  match l with
  | [] => EmptyString
  | [x] => x
  | x :: l' => x +:+ sep +:+ join sep l'
  end.

(** [s.split(',')]: the pieces between the commas, at least one. *)
Fixpoint split_comma (s : string) : list string :=
  match s with
  | EmptyString => [EmptyString]
  | String c s' =>
      if Ascii.eqb c ","%char then EmptyString :: split_comma s'
      else match split_comma s' with
           | [] => [String c EmptyString]
           | p :: ps => String c p :: ps
           end
  end.

End Py.

(** ** [hashlib.sha256] and [base64.b64encode] *)

Module Hashlib.

Definition w32 (x : Z) : Z := Z.land x 4294967295.
Definition add32 (x y : Z) : Z := w32 (x + y).
Definition rotr (n x : Z) : Z :=
  Z.lor (Z.shiftr x n) (w32 (Z.shiftl x (32 - n))).
Definition Ch (x y z : Z) : Z :=
  Z.lxor (Z.land x y) (Z.land (Z.lnot x) z).
Definition Maj (x y z : Z) : Z :=
  Z.lxor (Z.land x y) (Z.lxor (Z.land x z) (Z.land y z)).
Definition Sigma0 (x : Z) : Z :=
  Z.lxor (rotr 2 x) (Z.lxor (rotr 13 x) (rotr 22 x)).
Definition Sigma1 (x : Z) : Z :=
  Z.lxor (rotr 6 x) (Z.lxor (rotr 11 x) (rotr 25 x)).
Definition sigma0 (x : Z) : Z :=
  Z.lxor (rotr 7 x) (Z.lxor (rotr 18 x) (Z.shiftr x 3)).
Definition sigma1 (x : Z) : Z :=
  Z.lxor (rotr 17 x) (Z.lxor (rotr 19 x) (Z.shiftr x 10)).

(** The round constants are the first 32 bits of the fractional parts of
    the cube roots of the first 64 primes, the initial state those of the
    square roots of the first 8; they are computed here rather than
    tabulated. *)
Definition is_prime (n : Z) : bool :=
  forallb (fun d => negb (n mod d =? 0))
    (List.map Z.of_nat (seq 2 (Z.to_nat (Z.sqrt n) - 1))).

Definition primes_below (n : nat) : list Z :=
  List.filter is_prime (List.map Z.of_nat (seq 2 (n - 2))).

(** The integer cube root below [2 ^ bits], by bisection on the bits. *)
Fixpoint cube_root (bits : nat) (x acc : Z) : Z :=
  match bits with
  | O => acc
  | S bits' =>
      let c := acc + 2 ^ Z.of_nat bits' in
      if c * c * c <=? x then cube_root bits' x c else cube_root bits' x acc
  end.

Definition K256 : list Z :=
  Eval vm_compute in
    List.map (fun p => w32 (cube_root 40 (Z.shiftl p 96) 0)) (primes_below 312).

Definition H256 : list Z :=
  Eval vm_compute in
    List.map (fun p => w32 (Z.sqrt (Z.shiftl p 64))) (primes_below 20).

(** Big-endian bytes of a word, and back. *)
Fixpoint be_bytes (n : nat) (x : Z) : list Z :=
  match n with
  | O => []
  | S n' => Z.land (Z.shiftr x (8 * Z.of_nat n')) 255 :: be_bytes n' x
  end.

Definition be_word (bs : list Z) : Z :=
  fold_left (fun acc b => Z.lor (Z.shiftl acc 8) b) bs 0.

(** Message padding: a one bit, zeros, and the bit length on 64 bits. *)
Definition pad (msg : list Z) : list Z :=
  let len := Z.of_nat (List.length msg) in
  let zeros := Z.to_nat ((55 - len) mod 64) in
  msg ++ 128 :: List.repeat 0 zeros ++ be_bytes 8 (8 * len).

Fixpoint chunks {A} (fuel size : nat) (l : list A) : list (list A) :=
  match fuel with
  | O => []
  | S fuel' =>
      match l with
      | [] => []
      | _ => firstn size l :: chunks fuel' size (skipn size l)
      end
  end.

(** The message schedule, kept newest word first. *)
Fixpoint schedule (n : nat) (rev_w : list Z) : list Z :=
  match n with
  | O => rev_w
  | S n' =>
      let w := add32 (add32 (sigma1 (nth 1 rev_w 0)) (nth 6 rev_w 0))
                     (add32 (sigma0 (nth 14 rev_w 0)) (nth 15 rev_w 0)) in
      schedule n' (w :: rev_w)
  end.

Definition round (st : list Z) (kw : Z * Z) : list Z :=
  match st with
  | [a; b; c; d; e; f; g; h] =>
      let t1 := add32 (add32 (add32 h (Sigma1 e)) (add32 (Ch e f g) (fst kw)))
                      (snd kw) in
      let t2 := add32 (Sigma0 a) (Maj a b c) in
      [add32 t1 t2; a; b; c; add32 d t1; e; f; g]
  | _ => st
  end.

Definition compress (st : list Z) (block : list Z) : list Z :=
  let w16 := List.map be_word (chunks 16 4 block) in
  let w := rev (schedule 48 (rev w16)) in
  let st' := fold_left round (combine K256 w) st in
  List.map (fun p => add32 (fst p) (snd p)) (combine st st').

(** [hashlib.sha256(data).digest()] *)
Definition sha256 (data : list Z) : list Z :=
  let p := pad data in
  let st := fold_left compress (chunks (List.length p) 64 p) H256 in
  concat (List.map (be_bytes 4) st).

Definition b64_alphabet : string :=
  "ABCDEFGHIJKLMNOPQRSTUVWXYZabcdefghijklmnopqrstuvwxyz0123456789+/".

Definition b64_char (i : Z) : ascii :=
  match String.get (Z.to_nat i) b64_alphabet with
  | Some c => c
  | None => "="%char
  end.

Fixpoint b64_go (fuel : nat) (bs : list Z) : string :=
  match fuel with
  | O => EmptyString
  | S fuel' =>
      match bs with
      | [] => EmptyString
      | [a] =>
          String (b64_char (Z.shiftr a 2))
            (String (b64_char (Z.shiftl (Z.land a 3) 4)) "==")
      | [a; b] =>
          String (b64_char (Z.shiftr a 2))
            (String (b64_char (Z.lor (Z.shiftl (Z.land a 3) 4) (Z.shiftr b 4)))
               (String (b64_char (Z.shiftl (Z.land b 15) 2)) "="))
      | a :: b :: c :: rest =>
          String (b64_char (Z.shiftr a 2))
            (String (b64_char (Z.lor (Z.shiftl (Z.land a 3) 4) (Z.shiftr b 4)))
               (String (b64_char (Z.lor (Z.shiftl (Z.land b 15) 2) (Z.shiftr c 6)))
                  (String (b64_char (Z.land c 63)) (b64_go fuel' rest))))
      end
  end.

(** [base64.b64encode(bs).decode('utf-8')] *)
Definition b64encode (bs : list Z) : string := b64_go (List.length bs) bs.

End Hashlib.


(** ** JSON values and [json.dumps] *)

#[warnings="-register-all"]
Inductive json :=
| JNull
| JBool (b : bool)
| JInt (z : Z)
| JStr (s : string)
| JList (l : list json)
| JDict (kv : list (string * json)).

Module Json.

Definition dquote : ascii := Py.chr 34.
Definition backslash : ascii := Py.chr 92.

Definition hex_digit (n : Z) : ascii :=
  if n <? 10 then Py.chr (48 + n) else Py.chr (87 + n).

(** One character of a string literal, as [json.dumps] escapes it with
    [ensure_ascii=True]. *)
Definition escape_char (c : ascii) : string :=
  let n := Py.ord c in
  if n =? 34 then String backslash (String dquote EmptyString)
  else if n =? 92 then String backslash (String backslash EmptyString)
  else if n =? 10 then String backslash "n"
  else if n =? 13 then String backslash "r"
  else if n =? 9 then String backslash "t"
  else if n =? 8 then String backslash "b"
  else if n =? 12 then String backslash "f"
  else if (n <? 32) || (126 <? n) then
    String backslash
      ("u00" +:+ String (hex_digit (n / 16)) (String (hex_digit (n mod 16)) EmptyString))
  else String c EmptyString.

Fixpoint escape (s : string) : string :=
  match s with
  | EmptyString => EmptyString
  | String c s' => escape_char c +:+ escape s'
  end.

Definition quote (s : string) : string :=
  String dquote (escape s +:+ String dquote EmptyString).

(** [json.dumps(j)] with the default separators. *)
Fixpoint dumps (j : json) : string :=
  match j with
  | JNull => "null"
  | JBool true => "true"
  | JBool false => "false"
  | JInt z => Py.str z
  | JStr s => quote s
  | JList l => "[" +:+ Py.join ", " (List.map dumps l) +:+ "]"
  | JDict kv =>
      "{" +:+ Py.join ", "
                (List.map (fun p => quote (fst p) +:+ ": " +:+ dumps (snd p)) kv)
          +:+ "}"
  end.

(** [bool(j)] *)
Definition truthy (j : json) : bool :=
  match j with
  | JNull => false
  | JBool b => b
  | JInt z => negb (z =? 0)
  | JStr s => Py.truthy_str s
  | JList l => match l with [] => false | _ => true end
  | JDict kv => match kv with [] => false | _ => true end
  end.

(** [d[k] = v] on a dict given as its items: an existing key keeps its
    place, a new one goes last. *)
Fixpoint set (k : string) (v : json) (kv : list (string * json))
  : list (string * json) :=
  match kv with
  | [] => [(k, v)]
  | (k', v') :: kv' =>
      if String.eqb k k' then (k, v) :: kv' else (k', v') :: set k v kv'
  end.

(** [str(j)] for the values that are formatted into a URL. *)
Definition format (j : json) : string :=
  match j with
  | JNull => "None"
  | JBool true => "True"
  | JBool false => "False"
  | JInt z => Py.str z
  | JStr s => s
  | _ => dumps j
  end.

(** [int(j)]; [None] stands for [ValueError] or [TypeError]. *)
Definition int (j : json) : option Z :=
  match j with
  | JInt z => Some z
  | JBool b => Some (if b then 1 else 0)
  | JStr s => Py.int s
  | _ => None
  end.

(** [d.get(k)] on a dict given as its items, first binding of [k]. *)
Fixpoint get (k : string) (kv : list (string * json)) : option json :=
  match kv with
  | [] => None
  | (k', v) :: kv' => if String.eqb k k' then Some v else get k kv'
  end.

End Json.

(** ** Exceptions *)

Inductive exn :=
| AuthenticationError (msg : string)
| RateLimitError (msg : string)
| APIError (msg : string)
| ClientError (msg : string)
| JSONDecodeError (msg : string)
| ValueError (msg : string)
| KeyError (key : string)
| TypeError (msg : string)
| OverflowError (msg : string).

(** [str(e)] *)
Definition str_exn (e : exn) : string :=
  match e with
  | AuthenticationError m | RateLimitError m | APIError m | ClientError m
  | JSONDecodeError m | ValueError m | TypeError m | OverflowError m => m
  | KeyError k => "'" +:+ k +:+ "'"
  end.

Inductive result (A : Type) :=
| Ok (a : A)
| Raise (e : exn).
Arguments Ok {A} a.
Arguments Raise {A} e.

(** ** The outside world *)

(** Everything the three functions do to the outside, newest first in
    [trace]. *)
Inductive Event :=
| GetSecretValue
| GetItem (table key : string)
| PutItem (table key : string)
| OAuthToken (form : list (string * string))
| LookupDrivers (search_term access_token : string)
| FetchDrivers (link : string)
| MemberProfile (cust_id access_token : string)
| FetchProfile (link : string)
| Sleep (seconds : Z)
| Invoke (function : string).

(** The [Retry-After] header of a reply, as [int(...)] sees it. *)
Inductive RetryAfter :=
| NoRetryAfter
| RetryAfterInt (seconds : Z)
| RetryAfterOther (text : string).

(** What [json.loads(response.read().decode('utf-8'))] yields. *)
Inductive Body (B : Type) :=
| Json (b : B)
| BadJson (msg : string).
Arguments Json {B} b.
Arguments BadJson {B} msg.

(** What [urllib.request.urlopen] does: it returns a response, raises
    [HTTPError] or raises a plain [URLError]. *)
Inductive HttpReply (B : Type) :=
| Response (status : Z) (retry_after : RetryAfter) (body : Body B)
| HTTPError (code : Z) (reason : string) (retry_after : RetryAfter)
| URLError (reason : string).
Arguments Response {B} status retry_after body.
Arguments HTTPError {B} code reason retry_after.
Arguments URLError {B} reason.

(** The JSON document of the OAuth token endpoint. *)
Record OAuthResponse := {
  oa_access_token : option string;
  oa_token_type : option string;
  oa_expires_in : option Z;
  oa_scope : option string;
  oa_refresh_token : option string;
  oa_refresh_token_expires_in : option Z;
}.

(** The JSON document of an authenticated data call: a link, if any. *)
Record LinkDoc := { link : option string }.

(** One candidate of the driver lookup. *)
Record Driver := { display_name : string; cust_id : Z }.

Inductive SecretReply :=
| SecretClientError (msg : string)
| SecretBadJson (msg : string)
| SecretString (credentials : gmap string string).

Inductive InvokeReply :=
| InvokeClientError (msg : string)
| InvokeStatusCode (status : Z).

(** The behaviour of the services the code calls.  Each answer may depend
    on everything that happened before the call. *)
Record Env := {
  unquote : string -> string;
  get_secret_value : list Event -> SecretReply;
  dynamodb_error : list Event -> option string;
  oauth_token : list Event -> list (string * string) -> HttpReply OAuthResponse;
  lookup_drivers : list Event -> string -> string -> HttpReply LinkDoc;
  fetch_drivers : list Event -> string -> HttpReply (list Driver);
  member_profile : list Event -> string -> string -> HttpReply LinkDoc;
  fetch_profile : list Event -> string -> HttpReply json;
  lambda_invoke : list Event -> string -> InvokeReply;
}.

(** An item of the token table [ir_auth]; every attribute but the key is
    read with a default or may be missing. *)
Record TokenItem := {
  ti_access_token : option string;
  ti_token_type : option string;
  ti_expires_in : option Z;
  ti_scope : option string;
  ti_ttl : option Z;
  ti_refresh_token : option string;
  ti_refresh_token_expires_in : option Z;
  ti_refresh_token_ttl : option Z;
}.

(** An item of the profile table [ir_drivers]: the profile document (kept
    as the value whose [json.dumps] is stored) and its expiry. *)
Record ProfileItem := {
  pi_profile : json;
  pi_ttl : option Z;
}.

Record World := {
  clock : Z;
  ir_auth : gmap string TokenItem;
  ir_custid : gmap string Z;
  ir_drivers : gmap string ProfileItem;
  trace : list Event;
}.

(** ** The monad of the embedding: state and exceptions *)

Definition M (A : Type) : Type := World -> result A * World.

Definition ret {A} (a : A) : M A := fun w => (Ok a, w).

Definition bind {A B} (m : M A) (k : A -> M B) : M B :=
  fun w => match m w with
           | (Ok a, w') => k a w'
           | (Raise e, w') => (Raise e, w')
           end.

Definition raise {A} (e : exn) : M A := fun w => (Raise e, w).

(** [try: m except Exception as e: h e] *)
Definition try_except {A} (m : M A) (h : exn -> M A) : M A :=
  fun w => match m w with
           | (Ok a, w') => (Ok a, w')
           | (Raise e, w') => h e w'
           end.

Declare Scope py_scope.
Delimit Scope py_scope with py.
Notation "x <- m ;; k" := (bind m (fun x => k))
  (at level 100, m at next level, right associativity) : py_scope.
Notation "m ;; k" := (bind m (fun _ => k))
  (at level 100, right associativity) : py_scope.
Local Open Scope py_scope.

Definition gets {A} (f : World -> A) : M A := fun w => (Ok (f w), w).
Definition modify (f : World -> World) : M unit := fun w => (Ok tt, f w).

(** The world after one more event, and after [d] more seconds. *)
Definition record (ev : Event) (w : World) : World :=
  {| clock := clock w; ir_auth := ir_auth w; ir_custid := ir_custid w;
     ir_drivers := ir_drivers w; trace := ev :: trace w |}.

Definition advance (d : Z) (w : World) : World :=
  {| clock := clock w + d; ir_auth := ir_auth w; ir_custid := ir_custid w;
     ir_drivers := ir_drivers w; trace := trace w |}.

Definition emit (ev : Event) : M unit := modify (record ev).

(** [int(time.time())] *)
Definition time_time : M Z := gets clock.

(** The longest sleep [time.sleep] takes, in seconds: the length is first
    converted to nanoseconds in a signed 64-bit integer. *)
Definition SLEEP_MAX : Z := (2 ^ 63 - 1) / 10 ^ 9.

(** [time.sleep(d)]: a length whose nanoseconds do not fit 64 bits is an
    [OverflowError], a negative length is a [ValueError]; the clock of the
    model moves only here. *)
Definition time_sleep (d : Z) : M unit :=
  if (d <? - SLEEP_MAX) || (SLEEP_MAX <? d) then
    raise (OverflowError "timestamp too large to convert to C _PyTime_t")
  else if d <? 0 then raise (ValueError "sleep length must be non-negative")
  else
    emit (Sleep d);;
    modify (advance d).

(** [d[k]] *)
Definition getitem (k : string) (d : gmap string string) : M string :=
  match d !! k with
  | Some v => ret v
  | None => raise (KeyError k)
  end.

Definition MAX_RETRIES : Z := 3.
Definition BASE_BACKOFF_DELAY : Z := 1.

(** [range(n)] *)
Definition range (n : Z) : list Z := List.map Z.of_nat (seq 0 (Z.to_nat n)).

(** What a Lambda handler returns; [body] is the value whose [json.dumps]
    goes on the wire. *)
Record HttpResponse := {
  statusCode : Z;
  headers : list (string * string);
  body : json;
}.

(** A call to DynamoDB: recorded, and failing when the service says so. *)
Definition dynamodb_call (env : Env) (ev : Event) : M unit :=
  h <- gets trace;;
  emit ev;;
  match dynamodb_error env h with
  | Some msg => raise (ClientError msg)
  | None => ret tt
  end.

(** [urllib.request.urlopen]: recorded, answered by the service. *)
Definition urlopen {B} (ev : Event) (service : list Event -> HttpReply B)
  : M (HttpReply B) :=
  h <- gets trace;;
  emit ev;;
  ret (service h).

(** The status of a reply, whether returned or raised, and its
    [Retry-After] header. *)
Definition reply_status {B} (r : HttpReply B) : option Z :=
  match r with
  | Response status _ _ => Some status
  | HTTPError code _ _ => Some code
  | URLError _ => None
  end.

Definition reply_retry_after {B} (r : HttpReply B) : RetryAfter :=
  match r with
  | Response _ h _ | HTTPError _ _ h => h
  | URLError _ => NoRetryAfter
  end.

(** [int(headers.get('Retry-After', default))] *)
Definition retry_after_seconds (h : RetryAfter) (default : Z) : M Z :=
  match h with
  | NoRetryAfter => ret default
  | RetryAfterInt n => ret n
  | RetryAfterOther t =>
      raise (ValueError ("invalid literal for int() with base 10: '" +:+ t +:+ "'"))
  end.

(** The [access_token] field of a response body, when it is a string. *)
Definition response_token (r : HttpResponse) : option string :=
  match body r with
  | JDict kv =>
      match Json.get "access_token" kv with
      | Some (JStr t) => Some t
      | _ => None
      end
  | _ => None
  end.

(** ** [lambda/ir_auth/lambda_function.py] *)

Module IrAuth.

Definition OAUTH_TOKEN_URL : string := "https://oauth.iracing.com/oauth2/token".
Definition ACCESS_TOKEN_LIFETIME : Z := 600.
Definition REFRESH_TOKEN_LIFETIME : Z := 7 * 24 * 60 * 60.

Definition normalize_string (value : string) : string :=
  Py.strip (Py.lower value).

Definition mask_client_secret (client_secret client_id : string) : string :=
  let normalized_client_id := normalize_string client_id in
  let combined := client_secret +:+ normalized_client_id in
  let hash_bytes := Hashlib.sha256 (Py.encode_utf8 combined) in
  Hashlib.b64encode hash_bytes.

Definition mask_password (password username : string) : string :=
  let normalized_username := normalize_string username in
  let combined := password +:+ normalized_username in
  let hash_bytes := Hashlib.sha256 (Py.encode_utf8 combined) in
  Hashlib.b64encode hash_bytes.

(** What [get_existing_tokens] returns when it returns a dict. *)
Inductive ExistingTokens :=
| ValidTokens (access_token token_type : string) (expires_in : Z)
    (scope : string) (refresh_token : option string)
    (refresh_token_expires_in : Z)
| ExpiredTokens (refresh_token : string).

Section WithEnv.

Context (env : Env).

Fixpoint check_required (keys : list string) (credentials : gmap string string)
  : M unit :=
  match keys with
  | [] => ret tt
  | key :: keys' =>
      match credentials !! key with
      | None => raise (ValueError ("Missing required credential: " +:+ key))
      | Some _ => check_required keys' credentials
      end
  end.

Definition get_oauth_credentials : M (gmap string string) :=
  h <- gets trace;;
  emit GetSecretValue;;
  match get_secret_value env h with
  | SecretClientError msg => raise (ClientError msg)
  | SecretBadJson msg => raise (JSONDecodeError msg)
  | SecretString credentials =>
      check_required ["client_id"; "client_secret"; "username"; "password"]
        credentials;;
      ret credentials
  end.

(** The form of the token request. *)
Definition oauth_form (credentials : gmap string string) (grant_type : string)
    (refresh_token : option string) : M (list (string * string)) :=
  if String.eqb grant_type "password_limited" then
    client_id <- getitem "client_id" credentials;;
    client_secret <- getitem "client_secret" credentials;;
    username <- getitem "username" credentials;;
    password <- getitem "password" credentials;;
    ret [ ("grant_type", "password_limited");
          ("client_id", client_id);
          ("client_secret", mask_client_secret client_secret client_id);
          ("username", username);
          ("password", mask_password password username);
          ("scope", "iracing.auth") ]
  else if String.eqb grant_type "refresh_token" then
    match refresh_token with
    | Some token =>
        if Py.truthy_str token then
          client_id <- getitem "client_id" credentials;;
          client_secret <- getitem "client_secret" credentials;;
          ret [ ("grant_type", "refresh_token");
                ("client_id", client_id);
                ("client_secret", mask_client_secret client_secret client_id);
                ("refresh_token", token) ]
        else raise (ValueError "Refresh token required for refresh_token grant")
    | None => raise (ValueError "Refresh token required for refresh_token grant")
    end
  else raise (ValueError ("Unsupported grant type: " +:+ grant_type)).

(** The branches on a status other than 200; they are the same for a
    returned response and for a raised [HTTPError]. *)
Definition oauth_failure (status : Z) (retry_after : RetryAfter) (attempt : Z)
    (continue : M OAuthResponse) : M OAuthResponse :=
  if status =? 429 then
    seconds <- retry_after_seconds retry_after (BASE_BACKOFF_DELAY * 2 ^ attempt);;
    if attempt <? MAX_RETRIES - 1 then time_sleep seconds;; continue
    else raise (RateLimitError "Rate limited after 3 attempts")
  else if (status =? 401) || (status =? 403) then
    raise (AuthenticationError ("Authentication failed: " +:+ Py.str status))
  else
    if attempt <? MAX_RETRIES - 1 then
      time_sleep (BASE_BACKOFF_DELAY * 2 ^ attempt);; continue
    else raise (AuthenticationError "OAuth request failed after 3 attempts").

(** The body of [for attempt in range(MAX_RETRIES)], over the attempts
    still to make. *)
Fixpoint oauth_attempts (form : list (string * string)) (attempts : list Z)
  : M OAuthResponse :=
  match attempts with
  | [] => raise (AuthenticationError "Max retries exceeded")
  | attempt :: rest =>
      let continue := oauth_attempts form rest in
      reply <- urlopen (OAuthToken form) (fun h => oauth_token env h form);;
      match reply with
      | Response status retry_after body =>
          if status =? 200 then
            match body with
            | Json response_data => ret response_data
            | BadJson msg =>
                if attempt <? MAX_RETRIES - 1 then
                  time_sleep (BASE_BACKOFF_DELAY * 2 ^ attempt);; continue
                else raise (AuthenticationError
                              ("Invalid JSON response after 3 attempts: " +:+ msg))
            end
          else oauth_failure status retry_after attempt continue
      | HTTPError code _ retry_after =>
          oauth_failure code retry_after attempt continue
      | URLError reason =>
          if attempt <? MAX_RETRIES - 1 then
            time_sleep (BASE_BACKOFF_DELAY * 2 ^ attempt);; continue
          else raise (AuthenticationError
                        ("Request failed after 3 attempts: <urlopen error "
                         +:+ reason +:+ ">"))
      end
  end.

Definition make_oauth_request (credentials : gmap string string)
    (grant_type : string) (refresh_token : option string) : M OAuthResponse :=
  form <- oauth_form credentials grant_type refresh_token;;
  oauth_attempts form (range MAX_RETRIES).

Definition store_tokens_in_dynamodb (username : string)
    (oauth_response : OAuthResponse) : M unit :=
  current_time <- time_time;;
  let access_token_ttl :=
    current_time + default ACCESS_TOKEN_LIFETIME (oa_expires_in oauth_response) in
  let refresh_token_ttl :=
    current_time + default REFRESH_TOKEN_LIFETIME
                     (oa_refresh_token_expires_in oauth_response) in
  access_token <- match oa_access_token oauth_response with
                  | Some t => ret t
                  | None => raise (KeyError "access_token")
                  end;;
  let has_refresh := bool_decide (is_Some (oa_refresh_token oauth_response)) in
  let item :=
    {| ti_access_token := Some access_token;
       ti_token_type := Some (default "Bearer" (oa_token_type oauth_response));
       ti_expires_in :=
         Some (default ACCESS_TOKEN_LIFETIME (oa_expires_in oauth_response));
       ti_scope := Some (default "iracing.auth" (oa_scope oauth_response));
       ti_ttl := Some access_token_ttl;
       ti_refresh_token := oa_refresh_token oauth_response;
       ti_refresh_token_expires_in :=
         if has_refresh
         then Some (default REFRESH_TOKEN_LIFETIME
                      (oa_refresh_token_expires_in oauth_response))
         else None;
       ti_refresh_token_ttl :=
         if has_refresh then Some refresh_token_ttl else None |} in
  dynamodb_call env (PutItem "ir_auth" username);;
  modify (fun w => {| clock := clock w;
                      ir_auth := <[username := item]> (ir_auth w);
                      ir_custid := ir_custid w; ir_drivers := ir_drivers w;
                      trace := trace w |}).

Definition get_existing_tokens (username : string) : M (option ExistingTokens) :=
  try_except
    (dynamodb_call env (GetItem "ir_auth" username);;
     response <- gets (fun w => ir_auth w !! username);;
     match response with
     | Some item =>
         current_time <- time_time;;
         let ttl := default 0 (ti_ttl item) in
         if ttl >? current_time then
           access_token <- match ti_access_token item with
                           | Some t => ret t
                           | None => raise (KeyError "access_token")
                           end;;
           ret (Some (ValidTokens access_token
                        (default "Bearer" (ti_token_type item))
                        (default 0 (ti_expires_in item))
                        (default "" (ti_scope item))
                        (ti_refresh_token item)
                        (default 0 (ti_refresh_token_expires_in item))))
         else
           let refresh_token_ttl := default 0 (ti_refresh_token_ttl item) in
           match ti_refresh_token item with
           | Some token =>
               if refresh_token_ttl >? current_time
               then ret (Some (ExpiredTokens token))
               else ret None
           | None => ret None
           end
     | None => ret None
     end)
    (fun e => match e with
              | ClientError _ => ret None
              | _ => raise e
              end).

Definition json_headers : list (string * string) :=
  [("Content-Type", "application/json")].

Definition token_response (message access_token token_type : string)
    (expires_in : Z) (scope : string) : HttpResponse :=
  {| statusCode := 200;
     headers := json_headers;
     body := JDict [ ("message", JStr message);
                     ("access_token", JStr access_token);
                     ("token_type", JStr token_type);
                     ("expires_in", JInt expires_in);
                     ("scope", JStr scope) ] |}.

Definition fresh_response (message : string) (oauth_response : OAuthResponse)
  : M HttpResponse :=
  access_token <- match oa_access_token oauth_response with
                  | Some t => ret t
                  | None => raise (KeyError "access_token")
                  end;;
  ret (token_response message access_token
         (default "Bearer" (oa_token_type oauth_response))
         (default ACCESS_TOKEN_LIFETIME (oa_expires_in oauth_response))
         (default "iracing.auth" (oa_scope oauth_response))).

Definition error_response (status : Z) (extra : list (string * string))
    (error message : string) : HttpResponse :=
  {| statusCode := status;
     headers := json_headers ++ extra;
     body := JDict [("error", JStr error); ("message", JStr message)] |}.

(** The [except] clauses of the handler. *)
Definition on_exception (e : exn) : HttpResponse :=
  match e with
  | AuthenticationError msg =>
      error_response 401 [] "Authentication failed" msg
  | RateLimitError msg =>
      error_response 429 [("Retry-After", "60")] "Rate limited" msg
  | ClientError _ =>
      error_response 503 [] "Service unavailable"
        "AWS service temporarily unavailable"
  | _ =>
      error_response 500 [] "Internal server error"
        "An unexpected error occurred"
  end.

(** The handler: the event and the context are not read. *)
Definition lambda_handler : M HttpResponse :=
  try_except
    (credentials <- get_oauth_credentials;;
     username <- getitem "username" credentials;;
     existing_tokens <- get_existing_tokens username;;
     match existing_tokens with
     | Some (ValidTokens access_token token_type expires_in scope _ _) =>
         ret (token_response "Authentication successful (cached)"
                access_token token_type expires_in scope)
     | _ =>
         refreshed <-
           match existing_tokens with
           | Some (ExpiredTokens token) =>
               if Py.truthy_str token then
                 try_except
                   (oauth_response <-
                      make_oauth_request credentials "refresh_token" (Some token);;
                    store_tokens_in_dynamodb username oauth_response;;
                    r <- fresh_response "Authentication successful (refreshed)"
                           oauth_response;;
                    ret (Some r))
                   (fun e => match e with
                             | AuthenticationError _ | RateLimitError _ => ret None
                             | _ => raise e
                             end)
               else ret None
           | _ => ret None
           end;;
         match refreshed with
         | Some r => ret r
         | None =>
             oauth_response <-
               make_oauth_request credentials "password_limited" None;;
             store_tokens_in_dynamodb username oauth_response;;
             fresh_response "Authentication successful" oauth_response
         end
     end)
    (fun e => ret (on_exception e)).

End WithEnv.

End IrAuth.

(** ** [lambda/ir_custid/lambda_function.py] *)

Module IrCustid.

(** The event of the handler: only [rawQueryString] is read. *)
Record Request := { rawQueryString : option string }.

Definition json_headers : list (string * string) :=
  [("Content-Type", "application/json")].

Definition error_response (status : Z) (error message : string) : HttpResponse :=
  {| statusCode := status;
     headers := json_headers;
     body := JDict [("error", JStr error); ("message", JStr message)] |}.

(** The [except] clauses of the handler. *)
Definition on_exception (e : exn) : HttpResponse :=
  match e with
  | AuthenticationError msg => error_response 401 "Authentication failed" msg
  | APIError msg => error_response 502 "API error" msg
  | ClientError _ =>
      error_response 503 "Service unavailable"
        "AWS service temporarily unavailable"
  | _ =>
      error_response 500 "Internal server error"
        "An unexpected error occurred"
  end.

(** The dict that [search_driver_with_auth] and the cache branch build. *)
Definition custid_dict (custid : json) (name origin : string) : json :=
  JDict [("custid", custid); ("name", JStr name); ("origin", JStr origin)].

(** [if not access_token]: [None] and the empty string. *)
Definition usable_token (access_token : option string) : option string :=
  match access_token with
  | Some t => if Py.truthy_str t then Some t else None
  | None => None
  end.

Section WithEnv.

Context (env : Env).

Definition get_oauth_credentials : M (gmap string string) :=
  h <- gets trace;;
  emit GetSecretValue;;
  match get_secret_value env h with
  | SecretClientError msg => raise (ClientError msg)
  | SecretBadJson msg => raise (JSONDecodeError msg)
  | SecretString credentials =>
      match credentials !! "username" with
      | None => raise (ValueError "Missing required credential: username")
      | Some _ => ret credentials
      end
  end.

Definition get_access_token (username : string) : M (option string) :=
  try_except
    (dynamodb_call env (GetItem "ir_auth" username);;
     response <- gets (fun w => ir_auth w !! username);;
     match response with
     | Some item =>
         current_time <- time_time;;
         let ttl := default 0 (ti_ttl item) in
         if ttl >? current_time then
           match ti_access_token item with
           | Some access_token => ret (Some access_token)
           | None => raise (KeyError "access_token")
           end
         else ret None
     | None => ret None
     end)
    (fun _ => ret None).

(** The synchronous invocation of [ir_auth]: the handler runs on the same
    tables and clock. *)
Definition invoke_auth_lambda : M unit :=
  try_except
    (h <- gets trace;;
     emit (Invoke "ir_auth");;
     match lambda_invoke env h "ir_auth" with
     | InvokeClientError msg => raise (ClientError msg)
     | InvokeStatusCode status =>
         payload <- IrAuth.lambda_handler env;;
         if negb (status =? 200) then
           raise (AuthenticationError
                    ("ir_auth Lambda returned status " +:+ Py.str status))
         else if negb (statusCode payload =? 200) then
           raise (AuthenticationError
                    ("ir_auth Lambda failed: " +:+ Json.dumps (body payload)))
         else ret tt
     end)
    (fun e => match e with
              | ClientError msg =>
                  raise (AuthenticationError
                           ("Failed to invoke authentication: " +:+ msg))
              | _ =>
                  raise (AuthenticationError
                           ("Authentication invocation failed: " +:+ str_exn e))
              end).

Definition cache_driver_result (name : string) (cust_id : Z) : M unit :=
  try_except
    (dynamodb_call env (PutItem "ir_custid" name);;
     modify (fun w => {| clock := clock w; ir_auth := ir_auth w;
                         ir_custid := <[name := cust_id]> (ir_custid w);
                         ir_drivers := ir_drivers w; trace := trace w |}))
    (fun e => match e with
              | ClientError _ => ret tt
              | _ => raise e
              end).

(** [if attempt < MAX_RETRIES - 1: sleep, continue; else: raise final] *)
Definition backoff_or_raise {A} (attempt : Z) (continue : M A) (final : exn)
  : M A :=
  if attempt <? MAX_RETRIES - 1 then
    time_sleep (BASE_BACKOFF_DELAY * 2 ^ attempt);; continue
  else raise final.

(** The branches of the first request on a status other than 200. *)
Definition search_failure {A} (status attempt : Z) (continue : M A) : M A :=
  if status =? 401 then
    raise (AuthenticationError "Access token expired or invalid")
  else if status =? 429 then
    backoff_or_raise attempt continue
      (APIError "Rate limited after maximum retries")
  else
    backoff_or_raise attempt continue
      (APIError ("Search request failed: " +:+ Py.str status)).

(** The branches of the second request on a status other than 200. *)
Definition driver_data_failure {A} (status attempt : Z) (continue : M A) : M A :=
  if status =? 401 then
    raise (AuthenticationError "Access token expired or invalid")
  else
    backoff_or_raise attempt continue
      (APIError ("Driver data request failed: " +:+ Py.str status)).

Definition found (driver : Driver) : M json :=
  cache_driver_result (display_name driver) (cust_id driver);;
  ret (custid_dict (JStr (Py.str (cust_id driver))) (display_name driver)
         "iRacing").

(** What the loop body does with the decoded candidate list. *)
Definition choose_driver (search_term : string) (drivers_data : list Driver)
  : M json :=
  match drivers_data with
  | [] => ret (custid_dict (JInt 0) ("Not found: " +:+ search_term) "iRacing")
  | first :: _ =>
      let exact :=
        if 1 <? Z.of_nat (List.length drivers_data)
        then List.find (fun driver => String.eqb (display_name driver) search_term)
               drivers_data
        else None in
      match exact with
      | Some driver => found driver
      | None => found first
      end
  end.

Fixpoint search_attempts (search_term access_token : string) (attempts : list Z)
  : M json :=
  match attempts with
  | [] => raise (APIError "Max retries exceeded")
  | attempt :: rest =>
      let continue := search_attempts search_term access_token rest in
      let second (search_data : LinkDoc) : M json :=
        match link search_data with
        | None => raise (APIError "Invalid search response format")
        | Some driver_url =>
            reply <- urlopen (FetchDrivers driver_url)
                       (fun h => fetch_drivers env h driver_url);;
            match reply with
            | Response status _ body =>
                if status =? 200 then
                  match body with
                  | Json drivers_data => choose_driver search_term drivers_data
                  | BadJson msg =>
                      backoff_or_raise attempt continue
                        (APIError ("Invalid JSON response after 3 attempts: "
                                   +:+ msg))
                  end
                else driver_data_failure status attempt continue
            | HTTPError code _ _ => driver_data_failure code attempt continue
            | URLError reason =>
                backoff_or_raise attempt continue
                  (APIError ("Request failed after 3 attempts: <urlopen error "
                             +:+ reason +:+ ">"))
            end
        end in
      reply <- urlopen (LookupDrivers search_term access_token)
                 (fun h => lookup_drivers env h search_term access_token);;
      match reply with
      | Response status _ body =>
          if status =? 200 then
            match body with
            | Json search_data => second search_data
            | BadJson msg =>
                backoff_or_raise attempt continue
                  (APIError ("Invalid JSON response after 3 attempts: " +:+ msg))
            end
          else search_failure status attempt continue
      | HTTPError code _ _ => search_failure code attempt continue
      | URLError reason =>
          backoff_or_raise attempt continue
            (APIError ("Request failed after 3 attempts: <urlopen error "
                       +:+ reason +:+ ">"))
      end
  end.

Definition search_driver_with_auth (search_term access_token : string) : M json :=
  search_attempts search_term access_token (range MAX_RETRIES).

(** [invoke_auth_lambda(); access_token = get_access_token(username)] and
    the check that follows. *)
Definition reauthenticate (username message : string) : M string :=
  invoke_auth_lambda;;
  access_token <- get_access_token username;;
  match usable_token access_token with
  | Some t => ret t
  | None => raise (AuthenticationError message)
  end.

(** The credentials, then a token from the table, after one invocation of
    [ir_auth] when the table has none: the username and the token. *)
Definition acquire_token : M (string * string) :=
  credentials <- get_oauth_credentials;;
  username <- getitem "username" credentials;;
  access_token <- get_access_token username;;
  access_token <-
    match usable_token access_token with
    | Some t => ret t
    | None =>
        reauthenticate username
          "Failed to obtain access token after authentication"
    end;;
  ret (username, access_token).

Definition lambda_handler (event : Request) : M HttpResponse :=
  try_except
    (let search_term := unquote env (default "" (rawQueryString event)) in
     if negb (Py.truthy_str search_term) then
       ret (error_response 400 "Bad Request" "Search term is required")
     else
       dynamodb_call env (GetItem "ir_custid" search_term);;
       response <- gets (fun w => ir_custid w !! search_term);;
       custid <-
         match response with
         | Some n => ret (custid_dict (JStr (Py.str n)) search_term "DynamoDB")
         | None =>
             token <- acquire_token;;
             let username := fst token in
             let access_token := snd token in
             try_except
               (search_driver_with_auth search_term access_token)
               (fun e =>
                  match e with
                  | AuthenticationError _ =>
                      access_token <-
                        reauthenticate username
                          "Failed to obtain access token after re-authentication";;
                      search_driver_with_auth search_term access_token
                  | _ => raise e
                  end)
         end;;
       ret {| statusCode := 200; headers := json_headers; body := custid |})
    (fun e => ret (on_exception e)).

End WithEnv.

End IrCustid.

(** ** [lambda/ir_drivers/lambda_function.py] *)

Module IrDrivers.

Definition CACHE_TTL_SECONDS : Z := 3600.

(** The event of the handler: only [queryStringParameters] is read. *)
Record Request := { queryStringParameters : option (gmap string string) }.

Definition cors_headers : list (string * string) :=
  [ ("Content-Type", "application/json");
    ("Access-Control-Allow-Headers", "Content-Type");
    ("Access-Control-Allow-Origin", "*");
    ("Access-Control-Allow-Methods", "GET") ].

Definition error_response (status : Z) (error message : string) : HttpResponse :=
  {| statusCode := status;
     headers := cors_headers;
     body := JDict [("error", JStr error); ("message", JStr message)] |}.

(** The [except] clauses of the handler. *)
Definition on_exception (e : exn) : HttpResponse :=
  match e with
  | AuthenticationError msg => error_response 401 "Authentication failed" msg
  | APIError msg => error_response 502 "API error" msg
  | ClientError _ =>
      error_response 503 "Service unavailable"
        "AWS service temporarily unavailable"
  | _ =>
      error_response 500 "Internal server error"
        "An unexpected error occurred"
  end.

(** The per-name error object. *)
Definition error_entry (message : string) : json :=
  JDict [("error", JStr message)].

(** The outer [except] clauses of [process_driver]. *)
Definition driver_error (name : string) (e : exn) : json :=
  match e with
  | APIError _ | AuthenticationError _ =>
      error_entry ("iRacing API error for " +:+ name +:+ ": " +:+ str_exn e)
  | _ =>
      error_entry ("Unexpected error for " +:+ name +:+ ": " +:+ str_exn e)
  end.

(** The names of the query: split on commas, stripped, empty ones dropped. *)
Definition parse_names (env : Env) (event : Request) : list string :=
  match queryStringParameters event with
  | Some params =>
      if bool_decide (params = ∅) then []
      else
        let names_param := default "" (params !! "names") in
        let drivers := Py.split_comma (unquote env names_param) in
        List.map Py.strip
          (List.filter (fun name => Py.truthy_str (Py.strip name)) drivers)
  | None => []
  end.

(** [if cached_profile]: [None] and the documents that Python takes for
    false, such as the empty object. *)
Definition truthy_profile (cached_profile : option json) : option json :=
  match cached_profile with
  | Some profile => if Json.truthy profile then Some profile else None
  | None => None
  end.

Section WithEnv.

Context (env : Env).

(** The next three functions have the same text as in [ir_custid]. *)
Definition get_oauth_credentials : M (gmap string string) :=
  IrCustid.get_oauth_credentials env.

Definition get_access_token (username : string) : M (option string) :=
  IrCustid.get_access_token env username.

Definition invoke_auth_lambda : M unit := IrCustid.invoke_auth_lambda env.

(** The lines of the handler from the credentials to the token have the
    same text as well. *)
Definition acquire_token : M (string * string) := IrCustid.acquire_token env.

(** The synchronous invocation of [ir_custid]. *)
Definition invoke_custid_lambda (driver_name : string) : M json :=
  try_except
    (h <- gets trace;;
     emit (Invoke "ir_custid");;
     match lambda_invoke env h "ir_custid" with
     | InvokeClientError msg => raise (ClientError msg)
     | InvokeStatusCode status =>
         response_payload <-
           IrCustid.lambda_handler env
             {| IrCustid.rawQueryString := Some driver_name |};;
         if negb (status =? 200) then
           raise (APIError ("ir_custid Lambda returned status " +:+ Py.str status))
         else if negb (statusCode response_payload =? 200) then
           raise (APIError ("ir_custid Lambda failed: "
                            +:+ Json.dumps (body response_payload)))
         else
           match body response_payload with
           | JDict kv => ret (default (JStr "0") (Json.get "custid" kv))
           | _ => raise (TypeError "body is not an object")
           end
     end)
    (fun e => match e with
              | ClientError msg =>
                  raise (APIError ("Failed to invoke customer ID lookup: " +:+ msg))
              | _ =>
                  raise (APIError ("Customer ID lookup failed: " +:+ str_exn e))
              end).

(** The branches of the first request on a status other than 200. *)
Definition profile_failure {A} (status attempt : Z) (continue : M A) : M A :=
  if status =? 401 then
    raise (AuthenticationError "Access token expired or invalid")
  else if status =? 429 then
    IrCustid.backoff_or_raise attempt continue
      (APIError "Rate limited after maximum retries")
  else
    IrCustid.backoff_or_raise attempt continue
      (APIError ("Profile request failed: " +:+ Py.str status)).

(** The branches of the second request on a status other than 200. *)
Definition profile_detail_failure {A} (status attempt : Z) (continue : M A)
  : M A :=
  if status =? 401 then
    raise (AuthenticationError "Access token expired or invalid")
  else
    IrCustid.backoff_or_raise attempt continue
      (APIError ("Profile detail request failed: " +:+ Py.str status)).

Fixpoint profile_attempts (cust_id access_token : string) (attempts : list Z)
  : M json :=
  match attempts with
  | [] => raise (APIError "Max retries exceeded")
  | attempt :: rest =>
      let continue := profile_attempts cust_id access_token rest in
      let second (profile_data : LinkDoc) : M json :=
        match link profile_data with
        | None => raise (APIError "Invalid profile response format")
        | Some profile_detail_url =>
            reply <- urlopen (FetchProfile profile_detail_url)
                       (fun h => fetch_profile env h profile_detail_url);;
            match reply with
            | Response status _ body =>
                if status =? 200 then
                  match body with
                  | Json driver_profile => ret driver_profile
                  | BadJson msg =>
                      IrCustid.backoff_or_raise attempt continue
                        (APIError ("Invalid JSON response after 3 attempts: "
                                   +:+ msg))
                  end
                else profile_detail_failure status attempt continue
            | HTTPError code _ _ => profile_detail_failure code attempt continue
            | URLError reason =>
                IrCustid.backoff_or_raise attempt continue
                  (APIError ("Request failed after 3 attempts: <urlopen error "
                             +:+ reason +:+ ">"))
            end
        end in
      reply <- urlopen (MemberProfile cust_id access_token)
                 (fun h => member_profile env h cust_id access_token);;
      match reply with
      | Response status _ body =>
          if status =? 200 then
            match body with
            | Json profile_data => second profile_data
            | BadJson msg =>
                IrCustid.backoff_or_raise attempt continue
                  (APIError ("Invalid JSON response after 3 attempts: " +:+ msg))
            end
          else profile_failure status attempt continue
      | HTTPError code _ _ => profile_failure code attempt continue
      | URLError reason =>
          IrCustid.backoff_or_raise attempt continue
            (APIError ("Request failed after 3 attempts: <urlopen error "
                       +:+ reason +:+ ">"))
      end
  end.

Definition get_driver_profile_with_auth (cust_id access_token : string) : M json :=
  profile_attempts cust_id access_token (range MAX_RETRIES).

Definition cache_driver_profile (name : string) (profile : json) : M unit :=
  try_except
    (current_time <- time_time;;
     let ttl := current_time + CACHE_TTL_SECONDS in
     dynamodb_call env (PutItem "ir_drivers" name);;
     modify (fun w => {| clock := clock w; ir_auth := ir_auth w;
                         ir_custid := ir_custid w;
                         ir_drivers :=
                           <[name := {| pi_profile := profile; pi_ttl := Some ttl |}]>
                             (ir_drivers w);
                         trace := trace w |}))
    (fun e => match e with
              | ClientError _ => ret tt
              | _ => raise e
              end).

Definition get_cached_driver_profile (name : string) : M (option json) :=
  try_except
    (dynamodb_call env (GetItem "ir_drivers" name);;
     response <- gets (fun w => ir_drivers w !! name);;
     match response with
     | Some item =>
         current_time <- time_time;;
         let ttl := default 0 (pi_ttl item) in
         if ttl >? current_time then ret (Some (pi_profile item))
         else ret None
     | None => ret None
     end)
    (fun _ => ret None).

Definition get_customer_id_from_cache (name : string) : M (option string) :=
  try_except
    (dynamodb_call env (GetItem "ir_custid" name);;
     response <- gets (fun w => ir_custid w !! name);;
     match response with
     | Some n => ret (Some (Py.str n))
     | None => ret None
     end)
    (fun _ => ret None).

(** [profile = get_driver_profile_with_auth(...); cache_driver_profile(...)] *)
Definition fetch_and_cache (name : string) (cust_id : json) (access_token : string)
  : M json :=
  profile <- get_driver_profile_with_auth (Json.format cust_id) access_token;;
  cache_driver_profile name profile;;
  ret profile.

(** The inner [try] of [process_driver]: the fetch, and on an
    authentication error one re-authentication and one more fetch. *)
Definition profile_with_reauth (name : string) (cust_id : json)
    (username access_token : string) : M json :=
  try_except
    (fetch_and_cache name cust_id access_token)
    (fun e =>
       match e with
       | AuthenticationError _ =>
           new_access_token <-
             IrCustid.reauthenticate env username
               "Failed to obtain access token after re-authentication";;
           fetch_and_cache name cust_id new_access_token
       | _ => raise e
       end).

(** [if not cust_id or int(cust_id) <= 0] *)
Definition invalid_cust_id (cust_id : json) : M bool :=
  if negb (Json.truthy cust_id) then ret true
  else match Json.int cust_id with
       | Some n => ret (n <=? 0)
       | None =>
           raise (ValueError ("invalid literal for int() with base 10: '"
                              +:+ Json.format cust_id +:+ "'"))
       end.

Definition process_driver (name username access_token : string) : M json :=
  try_except
    (cached_profile <- get_cached_driver_profile name;;
     match truthy_profile cached_profile with
     | Some profile => ret profile
     | None =>
         cached_id <- get_customer_id_from_cache name;;
         cust_id <-
           match IrCustid.usable_token cached_id with
           | Some s => ret (JStr s)
           | None => invoke_custid_lambda name
           end;;
         invalid <- invalid_cust_id cust_id;;
         if (invalid : bool) then
           ret (error_entry ("Driver not found: " +:+ name))
         else profile_with_reauth name cust_id username access_token
     end)
    (fun e => ret (driver_error name e)).

(** [for name in drivers: drivers_info[name] = process_driver(...)] *)
Fixpoint process_all (drivers : list string) (username access_token : string)
    (drivers_info : list (string * json)) : M (list (string * json)) :=
  match drivers with
  | [] => ret drivers_info
  | name :: rest =>
      entry <- process_driver name username access_token;;
      process_all rest username access_token (Json.set name entry drivers_info)
  end.

Definition lambda_handler (event : Request) : M HttpResponse :=
  try_except
    (let drivers := parse_names env event in
     match drivers with
     | [] =>
         ret (error_response 400 "Bad Request"
                ("Driver names are required in query parameter "
                 +:+ String Json.dquote ("names" +:+ String Json.dquote "")))
     | _ =>
         token <- acquire_token;;
         drivers_info <- process_all drivers (fst token) (snd token) [];;
         ret {| statusCode := 200; headers := cors_headers;
                body := JDict drivers_info |}
     end)
    (fun e => ret (on_exception e)).

End WithEnv.

End IrDrivers.

(** ** Concrete services and worlds, for the examples *)

Module Scenario.

Definition credentials : gmap string string :=
  <["client_id" := "forum-addon"]>
    (<["client_secret" := "s3cret"]>
       (<["username" := "racer@example.com"]>
          (<["password" := "hunter2"]> ∅))).

Definition username : string := "racer@example.com".

Definition no_link : LinkDoc := {| link := None |}.

(** Services that are up but know nothing: the secret is there, DynamoDB
    and Lambda answer, every HTTP endpoint answers 500. *)
Definition down : Env :=
  {| unquote := fun s => s;
     get_secret_value := fun _ => SecretString credentials;
     dynamodb_error := fun _ => None;
     oauth_token := fun _ _ => HTTPError 500 "Internal Server Error" NoRetryAfter;
     lookup_drivers := fun _ _ _ => HTTPError 500 "Internal Server Error" NoRetryAfter;
     fetch_drivers := fun _ _ => HTTPError 500 "Internal Server Error" NoRetryAfter;
     member_profile := fun _ _ _ => HTTPError 500 "Internal Server Error" NoRetryAfter;
     fetch_profile := fun _ _ => HTTPError 500 "Internal Server Error" NoRetryAfter;
     lambda_invoke := fun _ _ => InvokeStatusCode 200 |}.

Definition with_oauth (f : list Event -> list (string * string)
                           -> HttpReply OAuthResponse) (env : Env) : Env :=
  {| unquote := unquote env; get_secret_value := get_secret_value env;
     dynamodb_error := dynamodb_error env; oauth_token := f;
     lookup_drivers := lookup_drivers env; fetch_drivers := fetch_drivers env;
     member_profile := member_profile env; fetch_profile := fetch_profile env;
     lambda_invoke := lambda_invoke env |}.

Definition with_lookup (f : list Event -> string -> string -> HttpReply LinkDoc)
    (g : list Event -> string -> HttpReply (list Driver)) (env : Env) : Env :=
  {| unquote := unquote env; get_secret_value := get_secret_value env;
     dynamodb_error := dynamodb_error env; oauth_token := oauth_token env;
     lookup_drivers := f; fetch_drivers := g;
     member_profile := member_profile env; fetch_profile := fetch_profile env;
     lambda_invoke := lambda_invoke env |}.

Definition with_profile (f : list Event -> string -> string -> HttpReply LinkDoc)
    (g : list Event -> string -> HttpReply json) (env : Env) : Env :=
  {| unquote := unquote env; get_secret_value := get_secret_value env;
     dynamodb_error := dynamodb_error env; oauth_token := oauth_token env;
     lookup_drivers := lookup_drivers env; fetch_drivers := fetch_drivers env;
     member_profile := f; fetch_profile := g;
     lambda_invoke := lambda_invoke env |}.

(** An OAuth endpoint that grants a ten-minute token. *)
Definition granted : OAuthResponse :=
  {| oa_access_token := Some "access-1";
     oa_token_type := Some "Bearer";
     oa_expires_in := Some 600;
     oa_scope := Some "iracing.auth";
     oa_refresh_token := Some "refresh-1";
     oa_refresh_token_expires_in := Some 604800 |}.

Definition granting : Env :=
  with_oauth (fun _ _ => Response 200 NoRetryAfter (Json granted)) down.

(** An OAuth endpoint that always answers 429, with a hint of 5 seconds. *)
Definition throttling : Env :=
  with_oauth (fun _ _ => HTTPError 429 "Too Many Requests" (RetryAfterInt 5)) down.

(** A data API whose lookup always answers 429, with a hint. *)
Definition lookup_throttling : Env :=
  with_lookup
    (fun _ _ _ => HTTPError 429 "Too Many Requests" (RetryAfterInt 5))
    (fun _ _ => HTTPError 500 "Internal Server Error" NoRetryAfter) down.

(** A data API whose lookup answers with a link to the given candidates. *)
Definition drivers_link : string := "https://data.example/drivers.json".

Definition resolving (candidates : list Driver) : Env :=
  with_lookup
    (fun _ _ _ => Response 200 NoRetryAfter (Json {| link := Some drivers_link |}))
    (fun _ _ => Response 200 NoRetryAfter (Json candidates)) down.

Definition bob_smith : Driver := {| display_name := "Bob Smith"; cust_id := 42 |}.
Definition bob : Driver := {| display_name := "bob"; cust_id := 7 |}.

(** A data API that serves every profile but the one of customer 2. *)
Definition profile_link (cust_id : string) : string :=
  "https://data.example/profile/" +:+ cust_id.

Definition profile_document (url : string) : json :=
  JDict [("source", JStr url)].

Definition profiles : Env :=
  with_profile
    (fun _ cust_id _ =>
       if String.eqb cust_id "2"
       then HTTPError 500 "Internal Server Error" NoRetryAfter
       else Response 200 NoRetryAfter
              (Json {| link := Some (profile_link cust_id) |}))
    (fun _ url => Response 200 NoRetryAfter (Json (profile_document url)))
    down.

(** A data API that rejects every token. *)
Definition unauthorized : Env :=
  with_profile
    (fun _ _ _ => HTTPError 401 "Unauthorized" NoRetryAfter)
    (fun _ _ => HTTPError 500 "Internal Server Error" NoRetryAfter) down.

Definition batch_event : IrDrivers.Request :=
  {| IrDrivers.queryStringParameters := Some {[ "names" := "A,B,C" ]} |}.

(** Data APIs that answer 429 at the link of the lookup, at the profile
    request, and at the link of the profile. *)
Definition link_throttling : Env :=
  with_lookup
    (fun _ _ _ => Response 200 NoRetryAfter (Json {| link := Some drivers_link |}))
    (fun _ _ => HTTPError 429 "Too Many Requests" (RetryAfterInt 5)) down.

Definition profile_throttling : Env :=
  with_profile
    (fun _ _ _ => HTTPError 429 "Too Many Requests" (RetryAfterInt 5))
    (fun _ _ => HTTPError 500 "Internal Server Error" NoRetryAfter) down.

Definition profile_link_throttling : Env :=
  with_profile
    (fun _ cust_id _ =>
       Response 200 NoRetryAfter (Json {| link := Some (profile_link cust_id) |}))
    (fun _ _ => HTTPError 429 "Too Many Requests" (RetryAfterInt 5)) down.

Definition empty_world (now : Z) : World :=
  {| clock := now; ir_auth := ∅; ir_custid := ∅; ir_drivers := ∅; trace := [] |}.

(** A stored token that is good until [expiry]. *)
Definition stored_token (expiry : Z) : TokenItem :=
  {| ti_access_token := Some "access-0";
     ti_token_type := Some "Bearer";
     ti_expires_in := Some 600;
     ti_scope := Some "iracing.auth";
     ti_ttl := Some expiry;
     ti_refresh_token := None;
     ti_refresh_token_expires_in := None;
     ti_refresh_token_ttl := None |}.

Definition signed_in (now : Z) : World :=
  {| clock := now; ir_auth := {[ username := stored_token (now + 300) ]};
     ir_custid := ∅; ir_drivers := ∅; trace := [] |}.

(** Signed in, with the identifiers of A, B and C in the cache. *)
Definition batch_world (now : Z) : World :=
  {| clock := now; ir_auth := {[ username := stored_token (now + 300) ]};
     ir_custid := <["A" := 1]> (<["B" := 2]> (<["C" := 3]> ∅));
     ir_drivers := ∅; trace := [] |}.

End Scenario.

(** ** The vocabulary of the statements *)


(** A reply that is a 429 whose [Retry-After], if any, is a number of
    seconds that [time.sleep] takes. *)
Definition usable_hint (ra : RetryAfter) : Prop :=
  match ra with
  | NoRetryAfter => True
  | RetryAfterInt n => 0 <= n <= SLEEP_MAX
  | RetryAfterOther _ => False
  end.

(** The seconds slept after a 429 with that header at that attempt. *)
Definition hint_delay (ra : RetryAfter) (attempt : Z) : Z :=
  match ra with
  | RetryAfterInt n => n
  | _ => BASE_BACKOFF_DELAY * 2 ^ attempt
  end.

(** The secret has the four keys that [ir_auth] requires. *)
Definition full_credentials (credentials : gmap string string) : Prop :=
  is_Some (credentials !! "client_id")
  /\ is_Some (credentials !! "client_secret")
  /\ is_Some (credentials !! "username")
  /\ is_Some (credentials !! "password").

(** The secret is served and DynamoDB does not fail. *)
Definition services_up (env : Env) (credentials : gmap string string) : Prop :=
  (forall h, dynamodb_error env h = None)
  /\ (forall h, get_secret_value env h = SecretString credentials).

(** The token table holds an unexpired, non-empty access token. *)
Definition token_ready (w : World) (username access_token : string) : Prop :=
  exists item ttl,
    ir_auth w !! username = Some item
    /\ ti_ttl item = Some ttl
    /\ clock w < ttl
    /\ ti_access_token item = Some access_token
    /\ Py.truthy_str access_token = true.

(** What holds between the two ends of an OAuth exchange: time has not
    gone back, the token table is as it was, and a result is the document
    of some 200 reply. *)
Definition exchanged (env : Env) (form : list (string * string))
    (w : World) (res : result OAuthResponse) (w' : World) : Prop :=
  clock w <= clock w'
  /\ ir_auth w' = ir_auth w
  /\ forall resp, res = Ok resp ->
       exists h status ra, oauth_token env h form = Response status ra (Json resp).

(** The token of a response was granted by the token endpoint with a
    negative lifetime. *)
Definition granted_negative (env : Env) (r : HttpResponse) : Prop :=
  exists h form status ra resp n,
    oauth_token env h form = Response status ra (Json resp)
    /\ oa_access_token resp = response_token r
    /\ oa_expires_in resp = Some n
    /\ n < 0.

(** The token of a response is the one recorded for [username], and its
    recorded expiry (0 when the item has none, as the readers take it) is
    not before [call_time]. *)
Definition token_not_expired (call_time : Z) (username : string)
    (r : HttpResponse) (w' : World) : Prop :=
  exists tok item,
    response_token r = Some tok
    /\ ir_auth w' !! username = Some item
    /\ ti_access_token item = Some tok
    /\ call_time <= default 0 (ti_ttl item).

(** How the token of a response is recorded for [username] when a call
    made in [w] returns in [w']: the item was in the table before the call
    with an expiry after the time of the call (the cached branch), or it
    was stored during the call from a document of the token endpoint, with
    the expiry [now + expires_in] (600 by default), [now] being the time
    at which the call returns. *)
Definition token_recorded (env : Env) (w : World) (username : string)
    (r : HttpResponse) (w' : World) : Prop :=
  exists tok item,
    response_token r = Some tok
    /\ ir_auth w' !! username = Some item
    /\ ti_access_token item = Some tok
    /\ ((ir_auth w !! username = Some item
         /\ clock w < default 0 (ti_ttl item))
        \/ exists h form status ra resp,
             oauth_token env h form = Response status ra (Json resp)
             /\ oa_access_token resp = Some tok
             /\ clock w <= clock w'
             /\ ti_ttl item
                = Some (clock w' + default IrAuth.ACCESS_TOKEN_LIFETIME
                                     (oa_expires_in resp))).

(** Whatever [m] returns or raises, the worlds before and after it are
    related by [R]. *)
Definition preserves {A} (R : World -> World -> Prop) (m : M A) : Prop :=
  forall w res w', m w = (res, w') -> R w w'.

(** Events and sleeps change the trace and the clock only; they are
    within every frame that speaks of the tables alone. *)
Class TablesOnly (R : World -> World -> Prop) : Prop := {
  tables_record : forall ev w, R w (record ev w);
  tables_advance : forall d w, R w (advance d w);
}.

(** The identifier and profile tables are as they were. *)
Definition caches_kept (w w' : World) : Prop :=
  ir_custid w' = ir_custid w /\ ir_drivers w' = ir_drivers w.

(** The dict returned when the upstream has no candidate. *)
Definition not_found (search_term : string) : json :=
  IrCustid.custid_dict (JInt 0) ("Not found: " +:+ search_term) "iRacing".

(** The outcome of a search against the upstream: the sentinel and no
    write, or a candidate and the write of that candidate under its
    display name (lost only when DynamoDB fails), or an exception and no
    write. *)
Definition resolved (env : Env) (search_term : string)
    (w : World) (res : result json) (w' : World) : Prop :=
  match res with
  | Ok j =>
      (j = not_found search_term /\ ir_custid w' = ir_custid w)
      \/ (exists d,
             j = IrCustid.custid_dict (JStr (Py.str (cust_id d)))
                   (display_name d) "iRacing"
             /\ (ir_custid w' = <[display_name d := cust_id d]> (ir_custid w)
                 \/ (ir_custid w' = ir_custid w
                     /\ exists h, is_Some (dynamodb_error env h))))
  | Raise _ => ir_custid w' = ir_custid w
  end.

(** No character of [s] is whitespace. *)
Fixpoint no_space (s : string) : bool :=
  match s with
  | EmptyString => true
  | String c s' => negb (Py.isspace c) && no_space s'
  end.

(** A profile for [name] read in the world [w]: an unexpired record of
    the profile cache of [w], or the document of a reply of the upstream. *)
Definition is_profile (env : Env) (name : string) (w : World) (entry : json)
  : Prop :=
  (exists item,
      ir_drivers w !! name = Some item /\ pi_profile item = entry
      /\ clock w < default 0 (pi_ttl item))
  \/ (exists h url status ra,
         fetch_profile env h url = Response status ra (Json entry)).

(** An entry of the response: the per-name error object or a profile. *)
Definition is_entry (env : Env) (name : string) (w : World) (entry : json)
  : Prop :=
  (exists message, entry = IrDrivers.error_entry message)
  \/ is_profile env name w entry.

(** A batch processed in order: every name is given its entry by
    [process_driver], run in the world that the names before it left. *)
Inductive processed (env : Env) (username access_token : string)
  : World -> list string -> list (string * json) -> World -> Prop :=
| processed_nil w : processed env username access_token w [] [] w
| processed_cons w name entry w1 rest entries w' :
    IrDrivers.process_driver env name username access_token w = (Ok entry, w1) ->
    is_entry env name w entry ->
    processed env username access_token w1 rest entries w' ->
    processed env username access_token w (name :: rest)
      ((name, entry) :: entries) w'.

(** [drivers_info[name] = entry] for every pair, in order. *)
Definition set_all (entries : list (string * json))
    (drivers_info : list (string * json)) : list (string * json) :=
  fold_left (fun info p => Json.set (fst p) (snd p) info) entries drivers_info.

(** ** Concrete services with faults, for the examples *)

Module Faulty.

(** A secret that lacks the password. *)
Definition partial_credentials : gmap string string :=
  <["client_id" := "forum-addon"]>
    (<["client_secret" := "s3cret"]>
       (<["username" := "racer@example.com"]> ∅)).

Definition with_secret (f : list Event -> SecretReply) (env : Env) : Env :=
  {| unquote := unquote env; get_secret_value := f;
     dynamodb_error := dynamodb_error env; oauth_token := oauth_token env;
     lookup_drivers := lookup_drivers env; fetch_drivers := fetch_drivers env;
     member_profile := member_profile env; fetch_profile := fetch_profile env;
     lambda_invoke := lambda_invoke env |}.

Definition with_dynamodb (f : list Event -> option string) (env : Env) : Env :=
  {| unquote := unquote env; get_secret_value := get_secret_value env;
     dynamodb_error := f; oauth_token := oauth_token env;
     lookup_drivers := lookup_drivers env; fetch_drivers := fetch_drivers env;
     member_profile := member_profile env; fetch_profile := fetch_profile env;
     lambda_invoke := lambda_invoke env |}.

(** The secret is there but incomplete. *)
Definition incomplete_secret : Env :=
  with_secret (fun _ => SecretString partial_credentials) Scenario.down.

(** An OAuth endpoint that rejects the credentials. *)
Definition rejecting : Env :=
  Scenario.with_oauth (fun _ _ => HTTPError 403 "Forbidden" NoRetryAfter)
    Scenario.down.

(** An OAuth endpoint that answers 429 with a date for [Retry-After]. *)
Definition throttling_until : Env :=
  Scenario.with_oauth
    (fun _ _ => HTTPError 429 "Too Many Requests"
                  (RetryAfterOther "Wed, 21 Oct 2026 07:28:00 GMT"))
    Scenario.down.

(** An OAuth endpoint whose document has no access token. *)
Definition tokenless : OAuthResponse :=
  {| oa_access_token := None;
     oa_token_type := Some "Bearer";
     oa_expires_in := Some 600;
     oa_scope := None;
     oa_refresh_token := None;
     oa_refresh_token_expires_in := None |}.

Definition granting_nothing : Env :=
  Scenario.with_oauth (fun _ _ => Response 200 NoRetryAfter (Json tokenless))
    Scenario.down.

(** DynamoDB answers the reads and fails the writes: it fails as soon as
    a request to the outside has been made. *)
Definition is_request (ev : Event) : bool :=
  match ev with
  | OAuthToken _ | LookupDrivers _ _ | FetchDrivers _ | MemberProfile _ _
  | FetchProfile _ => true
  | _ => false
  end.

Definition read_only (h : list Event) : option string :=
  if existsb is_request h then Some "ProvisionedThroughputExceededException"
  else None.

Definition granting_unstored : Env := with_dynamodb read_only Scenario.granting.


(** A stored item whose access token expired at [expiry] and whose
    refresh token is good for a day more. *)
Definition lapsed_token (expiry : Z) : TokenItem :=
  {| ti_access_token := Some "access-0";
     ti_token_type := Some "Bearer";
     ti_expires_in := Some 600;
     ti_scope := Some "iracing.auth";
     ti_ttl := Some expiry;
     ti_refresh_token := Some "refresh-0";
     ti_refresh_token_expires_in := Some 604800;
     ti_refresh_token_ttl := Some (expiry + 86400) |}.

Definition lapsed (now : Z) : World :=
  {| clock := now;
     ir_auth := {[ Scenario.username := lapsed_token (now - 60) ]};
     ir_custid := ∅; ir_drivers := ∅; trace := [] |}.

(** A token endpoint that renews but does not hand out a new refresh
    token. *)
Definition renewed : OAuthResponse :=
  {| oa_access_token := Some "access-2";
     oa_token_type := None;
     oa_expires_in := None;
     oa_scope := None;
     oa_refresh_token := None;
     oa_refresh_token_expires_in := None |}.

Definition grant_type_of (form : list (string * string)) : string :=
  match form with
  | (_, grant_type) :: _ => grant_type
  | [] => ""
  end.

Definition renewing : Env :=
  Scenario.with_oauth
    (fun _ form =>
       if String.eqb (grant_type_of form) "refresh_token"
       then Response 200 NoRetryAfter (Json renewed)
       else HTTPError 500 "Internal Server Error" NoRetryAfter)
    Scenario.down.

(** A token endpoint that no longer accepts refresh tokens. *)
Definition not_renewing : Env :=
  Scenario.with_oauth
    (fun _ form =>
       if String.eqb (grant_type_of form) "refresh_token"
       then HTTPError 401 "Unauthorized" NoRetryAfter
       else Response 200 NoRetryAfter (Json Scenario.granted))
    Scenario.down.

(** DynamoDB is down from the start. *)
Definition no_dynamodb : Env :=
  with_dynamodb (fun _ => Some "ServiceUnavailable") Scenario.down.

(** The lookup finds Bob Smith and bob, and the cache cannot be written. *)
Definition resolving_unstored : Env :=
  with_dynamodb read_only
    (Scenario.resolving [Scenario.bob_smith; Scenario.bob]).

(** A data API whose lookup rejects every token. *)
Definition lookup_unauthorized : Env :=
  Scenario.with_lookup
    (fun _ _ _ => HTTPError 401 "Unauthorized" NoRetryAfter)
    (fun _ _ => HTTPError 500 "Internal Server Error" NoRetryAfter)
    Scenario.down.

(** Data APIs that answer 200 without a link. *)
Definition linkless : Env :=
  Scenario.with_profile
    (fun _ _ _ => Response 200 NoRetryAfter (Json Scenario.no_link))
    (fun _ _ => HTTPError 500 "Internal Server Error" NoRetryAfter)
    (Scenario.with_lookup
       (fun _ _ _ => Response 200 NoRetryAfter (Json Scenario.no_link))
       (fun _ _ => HTTPError 500 "Internal Server Error" NoRetryAfter)
       Scenario.down).

(** Signed in, with the identifier 0 cached for a name. *)
Definition zero_cached (now : Z) : World :=
  {| clock := now;
     ir_auth := {[ Scenario.username := Scenario.stored_token (now + 300) ]};
     ir_custid := {[ "Ghost" := 0 ]}; ir_drivers := ∅; trace := [] |}.

(** Signed in, the identifier of A cached, and an empty profile cached
    for A that has not expired. *)
Definition empty_profile_cached (now : Z) : World :=
  {| clock := now;
     ir_auth := {[ Scenario.username := Scenario.stored_token (now + 300) ]};
     ir_custid := {[ "A" := 1 ]};
     ir_drivers := {[ "A" := {| pi_profile := JDict [];
                                pi_ttl := Some (now + 1800) |} ]};
     trace := [] |}.

(** A data API that accepts the token of the table and no other. *)
Definition accepting_stored : Env :=
  Scenario.with_profile
    (fun _ cust_id tok =>
       if String.eqb tok "access-0"
       then Response 200 NoRetryAfter
              (Json {| link := Some (Scenario.profile_link cust_id) |})
       else HTTPError 401 "Unauthorized" NoRetryAfter)
    (fun _ url => Response 200 NoRetryAfter (Json (Scenario.profile_document url)))
    Scenario.down.

(** A token endpoint that grants a token which has already expired. *)
Definition expired_grant : OAuthResponse :=
  {| oa_access_token := Some "access-3";
     oa_token_type := None;
     oa_expires_in := Some 0;
     oa_scope := None;
     oa_refresh_token := None;
     oa_refresh_token_expires_in := None |}.

Definition granting_expired : Env :=
  Scenario.with_oauth (fun _ _ => Response 200 NoRetryAfter (Json expired_grant))
    Scenario.down.

(** A token endpoint that grants a token whose lifetime is negative. *)
Definition backdated_grant : OAuthResponse :=
  {| oa_access_token := Some "access-4";
     oa_token_type := None;
     oa_expires_in := Some (-100);
     oa_scope := None;
     oa_refresh_token := None;
     oa_refresh_token_expires_in := None |}.

Definition granting_backdated : Env :=
  Scenario.with_oauth (fun _ _ => Response 200 NoRetryAfter (Json backdated_grant))
    Scenario.down.


(** The token of the table has expired, its refresh token has not, and
    the identifier of A is in the cache. *)
Definition lapsed_batch (now : Z) : World :=
  {| clock := now;
     ir_auth := {[ Scenario.username := lapsed_token (now - 60) ]};
     ir_custid := {[ "A" := 1 ]}; ir_drivers := ∅; trace := [] |}.

(** A data API that rejects every token at the profile request and
    resolves every name to Bob Smith, with a token endpoint that grants. *)
Definition rejecting_profiles : Env :=
  Scenario.with_profile
    (fun _ _ _ => HTTPError 401 "Unauthorized" NoRetryAfter)
    (fun _ _ => HTTPError 500 "Internal Server Error" NoRetryAfter)
    (Scenario.with_oauth
       (fun _ _ => Response 200 NoRetryAfter (Json Scenario.granted))
       (Scenario.resolving [Scenario.bob_smith])).

(** A data API that resolves every name to Bob Smith and serves every
    profile, with a token endpoint that grants. *)
Definition serving : Env :=
  Scenario.with_profile
    (fun _ cust_id _ =>
       Response 200 NoRetryAfter
         (Json {| link := Some (Scenario.profile_link cust_id) |}))
    (fun _ url => Response 200 NoRetryAfter (Json (Scenario.profile_document url)))
    (Scenario.with_oauth
       (fun _ _ => Response 200 NoRetryAfter (Json Scenario.granted))
       (Scenario.resolving [Scenario.bob_smith])).

End Faulty.

(** ** More vocabulary *)

(** The secret that [ir_auth] cannot use: the service fails, the string
    is not JSON, or one of the four keys is missing. *)
Definition secret_unusable (reply : SecretReply) : Prop :=
  match reply with
  | SecretString credentials => ~ full_credentials credentials
  | _ => True
  end.

(** The [Retry-After] of a 429 that cannot be slept: not an integer, a
    negative one, or one longer than [time.sleep] takes. *)
Definition unusable_hint (ra : RetryAfter) : Prop :=
  match ra with
  | NoRetryAfter => False
  | RetryAfterInt n => n < 0 \/ SLEEP_MAX < n
  | RetryAfterOther _ => True
  end.


(** The token table holds, for [username], an access token that has
    expired and a refresh token that has not. *)
Definition refresh_ready (w : World) (username refresh_token : string) : Prop :=
  exists item,
    ir_auth w !! username = Some item
    /\ default 0 (ti_ttl item) <= clock w
    /\ ti_refresh_token item = Some refresh_token
    /\ clock w < default 0 (ti_refresh_token_ttl item)
    /\ Py.truthy_str refresh_token = true.

(** The two forms that [make_oauth_request] posts. *)
Definition refresh_form (client_id client_secret refresh_token : string)
  : list (string * string) :=
  [ ("grant_type", "refresh_token");
    ("client_id", client_id);
    ("client_secret", IrAuth.mask_client_secret client_secret client_id);
    ("refresh_token", refresh_token) ].

Definition password_form (client_id client_secret username password : string)
  : list (string * string) :=
  [ ("grant_type", "password_limited");
    ("client_id", client_id);
    ("client_secret", IrAuth.mask_client_secret client_secret client_id);
    ("username", username);
    ("password", IrAuth.mask_password password username);
    ("scope", "iracing.auth") ].

(** The secret holds these four values. *)
Definition credentials_are (credentials : gmap string string)
    (client_id client_secret username password : string) : Prop :=
  credentials !! "client_id" = Some client_id
  /\ credentials !! "client_secret" = Some client_secret
  /\ credentials !! "username" = Some username
  /\ credentials !! "password" = Some password.

(** The item that [store_tokens_in_dynamodb] writes at the time [now]. *)
Definition stored_item (now : Z) (resp : OAuthResponse) (item : TokenItem)
  : Prop :=
  ti_access_token item = oa_access_token resp
  /\ ti_ttl item
     = Some (now + default IrAuth.ACCESS_TOKEN_LIFETIME (oa_expires_in resp))
  /\ ti_refresh_token item = oa_refresh_token resp
  /\ ti_refresh_token_ttl item
     = (if bool_decide (is_Some (oa_refresh_token resp))
        then Some (now + default IrAuth.REFRESH_TOKEN_LIFETIME
                           (oa_refresh_token_expires_in resp))
        else None).

(** What [acquire_token] can raise: never an [APIError]. *)
Definition token_failure (e : exn) : Prop :=
  match e with
  | AuthenticationError _ | ClientError _ | JSONDecodeError _ | ValueError _
  | KeyError _ => True
  | _ => False
  end.

(** The candidate that [search_driver_with_auth] answers with: the first
    one whose display name is the search term, the first one when there is
    none. *)
Definition chosen (search_term : string) (first : Driver) (rest : list Driver)
  : Driver :=
  default first
    (List.find (fun driver => String.eqb (display_name driver) search_term)
       (first :: rest)).

Definition found_dict (driver : Driver) : json :=
  IrCustid.custid_dict (JStr (Py.str (cust_id driver))) (display_name driver)
    "iRacing".

(** No character of [s] is a comma. *)
Fixpoint no_comma (s : string) : bool :=
  match s with
  | EmptyString => true
  | String c s' => negb (Ascii.eqb c ","%char) && no_comma s'
  end.

(** A piece of the [names] parameter that names nobody. *)
Definition blank (piece : string) : Prop := Py.strip piece = "".

(** The [names] parameter of the query, as the handler reads it. *)
Definition names_param (env : Env) (params : gmap string string) : string :=
  unquote env (default "" (params !! "names")).

(** The profile cache is as it was; as it was for every name outside
    [names]. *)
Definition profiles_kept (w w' : World) : Prop := ir_drivers w' = ir_drivers w.

Definition profiles_kept_outside (names : list string) (w w' : World) : Prop :=
  forall other, ~ In other names -> ir_drivers w' !! other = ir_drivers w !! other.

(** ** Counting what a computation did *)

(** The cost of the events of [l], for a cost given per event. *)
Definition total (cost : Event -> Z) (l : list Event) : Z :=
  fold_right (fun ev acc => cost ev + acc) 0 l.

(** One for every event of a kind; the seconds of a sleep. *)
Definition one (p : Event -> bool) (ev : Event) : Z := if p ev then 1 else 0.

Definition seconds (ev : Event) : Z :=
  match ev with Sleep d => d | _ => 0 end.

Definition is_oauth_token (ev : Event) : bool :=
  match ev with OAuthToken _ => true | _ => false end.
Definition is_lookup (ev : Event) : bool :=
  match ev with LookupDrivers _ _ => true | _ => false end.
Definition is_fetch_drivers (ev : Event) : bool :=
  match ev with FetchDrivers _ => true | _ => false end.
Definition is_member_profile (ev : Event) : bool :=
  match ev with MemberProfile _ _ => true | _ => false end.
Definition is_fetch_profile (ev : Event) : bool :=
  match ev with FetchProfile _ => true | _ => false end.
Definition is_sleep (ev : Event) : bool :=
  match ev with Sleep _ => true | _ => false end.
Definition is_put (ev : Event) : bool :=
  match ev with PutItem _ _ => true | _ => false end.

(** From [w] to [w'] the trace has grown by events that cost at most [n]
    in all; a computation costs at most [n] when that holds of every run
    of it. *)
Definition charged (cost : Event -> Z) (n : Z) (w w' : World) : Prop :=
  exists l, trace w' = (l ++ trace w)%list /\ total cost l <= n.

Definition costs {A} (cost : Event -> Z) (n : Z) (m : M A) : Prop :=
  forall w res w', m w = (res, w') -> charged cost n w w'.

(** The sleeps that the attempts still to make may need. *)
Definition backoffs (each : Z -> Z) (attempts : list Z) : Z :=
  fold_right
    (fun attempt acc =>
       (if attempt <? MAX_RETRIES - 1
        then each (BASE_BACKOFF_DELAY * 2 ^ attempt) else 0) + acc)
    0 attempts.

(** ** The vocabulary of the retry policies and of the refetch *)

(** The world after the events [l], newest first: the trace has grown by
    them, the clock by the seconds slept, and the tables are as they
    were. *)
Definition happened (l : list Event) (w : World) : World :=
  {| clock := clock w + total seconds l; ir_auth := ir_auth w;
     ir_custid := ir_custid w; ir_drivers := ir_drivers w;
     trace := l ++ trace w |}.

(** Three attempts at [ev], with sleeps of [d0] and then [d1] seconds
    between them. *)
Definition three (ev : Event) (d0 d1 : Z) : list Event :=
  [ev; Sleep d1; ev; Sleep d0; ev].

(** Three attempts at a request and its link: the link is fetched after
    every request. *)
Definition three_pairs (request fetch : Event) (d0 d1 : Z) : list Event :=
  [fetch; request; Sleep d1; fetch; request; Sleep d0; fetch; request].

(** The three posts of [form] from [w] when each is answered 429: the
    sleeps are those of the first two replies. *)
Definition throttled (env : Env) (form : list (string * string)) (w : World)
  : World :=
  let d0 := hint_delay (reply_retry_after (oauth_token env (trace w) form)) 0 in
  let h1 := Sleep d0 :: OAuthToken form :: trace w in
  let d1 := hint_delay (reply_retry_after (oauth_token env h1 form)) 1 in
  happened (three (OAuthToken form) d0 d1) w.

(** What the handler of [ir_auth] does with what [get_existing_tokens]
    returned: nothing to exchange when the access token is valid; the
    refresh token to try first, when there is one that Python takes for
    true. *)
Definition no_valid_token (existing : option IrAuth.ExistingTokens) : Prop :=
  match existing with
  | Some (IrAuth.ValidTokens _ _ _ _ _ _) => False
  | _ => True
  end.

Definition refresh_candidate (existing : option IrAuth.ExistingTokens)
  : option string :=
  match existing with
  | Some (IrAuth.ExpiredTokens token) =>
      if Py.truthy_str token then Some token else None
  | _ => None
  end.

(** The password exchange of the handler of [ir_auth], with the store and
    the response. *)
Definition password_exchange (env : Env) (credentials : gmap string string)
    (username : string) : M HttpResponse :=
  oauth_response <-
    IrAuth.make_oauth_request env credentials "password_limited" None;;
  IrAuth.store_tokens_in_dynamodb env username oauth_response;;
  IrAuth.fresh_response "Authentication successful" oauth_response.

(** The lines of [process_driver] that obtain the identifier of a name:
    from the identifier cache, else from [ir_custid]. *)
Definition customer_id (env : Env) (name : string) : M json :=
  cached_id <- IrDrivers.get_customer_id_from_cache env name;;
  match IrCustid.usable_token cached_id with
  | Some s => ret (JStr s)
  | None => IrDrivers.invoke_custid_lambda env name
  end.

(** The events of a run of [ir_auth] and of a read of the token table. *)
Definition auth_event (ev : Event) : bool :=
  match ev with
  | GetSecretValue | OAuthToken _ | Sleep _ => true
  | GetItem table _ | PutItem table _ => String.eqb table "ir_auth"
  | _ => false
  end.

Definition is_invoke (ev : Event) : bool :=
  match ev with Invoke _ => true | _ => false end.

Definition not_member_profile (ev : Event) : bool := negb (is_member_profile ev).

(** From [w] to [w'] the trace has grown by events that [ok] accepts. *)
Definition only (ok : Event -> bool) (w w' : World) : Prop :=
  exists l, trace w' = (l ++ trace w)%list /\ Forall (fun ev => ok ev = true) l.

(** The message of the re-authentication that [process_driver] and the
    handler of [ir_custid] raise when no token can be read back. *)
Definition no_token_after_reauth : string :=
  "Failed to obtain access token after re-authentication".

(** A profile came from the upstream and was written to the cache: the
    last three events of [w'] are the request, the fetch of its link,
    answered 200 with the profile, and the write, whose record for the name
    expires 3600 seconds after the time of [w']. *)
Definition refetched (env : Env) (name : string) (entry : json) (w' : World)
  : Prop :=
  exists cust_id access_token url ra rest,
    trace w' = PutItem "ir_drivers" name :: FetchProfile url
               :: MemberProfile cust_id access_token :: rest
    /\ fetch_profile env (MemberProfile cust_id access_token :: rest) url
       = Response 200 ra (Json entry)
    /\ ir_drivers w' !! name
       = Some {| pi_profile := entry;
                 pi_ttl := Some (clock w' + IrDrivers.CACHE_TTL_SECONDS) |}.

(** * Properties *)

(** ** Strings and masking *)

Example sha256_abc :
  Hashlib.b64encode (Hashlib.sha256 (Py.encode_utf8 "abc"))
  = "ungWv48Bz+pBQUDeXa4iI7ADYaOWF3qctBD/YfIAFa0=".
Proof. vm_compute. reflexivity. Qed.

Example mask_password_hunter2 :
  IrAuth.mask_password "hunter2" " Bob"
  = "tslRDkyI/eDxENHz0N5maXYA+7wbh0WCO1pZx4/LQ20=".
Proof. vm_compute. reflexivity. Qed.

Lemma isspace_lower_char c : Py.isspace (Py.lower_char c) = Py.isspace c.
Proof. destruct c as [[] [] [] [] [] [] [] []]; reflexivity. Qed.

Lemma lower_char_idem c : Py.lower_char (Py.lower_char c) = Py.lower_char c.
Proof. destruct c as [[] [] [] [] [] [] [] []]; reflexivity. Qed.

Lemma lower_idem s : Py.lower (Py.lower s) = Py.lower s.
Proof.
  induction s as [|c s IH]; simpl; [reflexivity|].
  now rewrite lower_char_idem, IH.
Qed.

Lemma lower_lstrip s : Py.lower (Py.lstrip s) = Py.lstrip (Py.lower s).
Proof.
  induction s as [|c s IH]; simpl; [reflexivity|].
  rewrite isspace_lower_char. destruct (Py.isspace c); [exact IH|reflexivity].
Qed.

Lemma lower_rstrip s : Py.lower (Py.rstrip s) = Py.rstrip (Py.lower s).
Proof.
  induction s as [|c s IH]; simpl; [reflexivity|].
  rewrite <- IH, isspace_lower_char.
  destruct (Py.rstrip s); simpl; [|reflexivity].
  destruct (Py.isspace c); reflexivity.
Qed.

Lemma lower_strip s : Py.lower (Py.strip s) = Py.strip (Py.lower s).
Proof. unfold Py.strip. now rewrite lower_lstrip, lower_rstrip. Qed.

Lemma rstrip_cons c s :
  Py.rstrip (String c s)
  = match Py.rstrip s with
    | EmptyString => if Py.isspace c then EmptyString else String c EmptyString
    | r => String c r
    end.
Proof. reflexivity. Qed.

Lemma rstrip_idem s : Py.rstrip (Py.rstrip s) = Py.rstrip s.
Proof.
  induction s as [|c s IH]; [reflexivity|].
  rewrite rstrip_cons. destruct (Py.rstrip s) as [|c' r] eqn:E.
  - destruct (Py.isspace c) eqn:Ec; [reflexivity|].
    simpl. now rewrite Ec.
  - rewrite rstrip_cons, IH. reflexivity.
Qed.

Lemma lstrip_idem s : Py.lstrip (Py.lstrip s) = Py.lstrip s.
Proof.
  induction s as [|c s IH]; [reflexivity|]. simpl.
  destruct (Py.isspace c) eqn:Ec; [exact IH|]. simpl. now rewrite Ec.
Qed.

Lemma lstrip_rstrip s : Py.lstrip (Py.rstrip s) = Py.rstrip (Py.lstrip s).
Proof.
  induction s as [|c s IH]; [reflexivity|].
  rewrite rstrip_cons. destruct (Py.isspace c) eqn:Ec.
  - simpl Py.lstrip at 2. rewrite Ec, <- IH.
    destruct (Py.rstrip s) as [|c' r]; [reflexivity|].
    simpl. now rewrite Ec.
  - simpl Py.lstrip at 2. rewrite Ec, rstrip_cons, Ec.
    destruct (Py.rstrip s) as [|c' r]; simpl; now rewrite Ec.
Qed.

Lemma strip_idem s : Py.strip (Py.strip s) = Py.strip s.
Proof.
  unfold Py.strip.
  now rewrite (lstrip_rstrip s), rstrip_idem, lstrip_rstrip, lstrip_idem.
Qed.

Lemma normalize_lower_strip c :
  IrAuth.normalize_string (Py.lower (Py.strip c)) = IrAuth.normalize_string c.
Proof.
  unfold IrAuth.normalize_string.
  now rewrite lower_idem, lower_strip, strip_idem.
Qed.

(** C5: masking depends on its context argument only through the
    lower-cased, stripped context: [mask(s, c) = mask(s, lowercase(trim(c)))]
    for the password and for the client secret, so that the contexts
    ["Bob "], ["bob"] and [" BOB"] give one masked value. *)
Theorem mask_context_normalized (s c : string) :
  IrAuth.mask_password s c = IrAuth.mask_password s (Py.lower (Py.strip c))
  /\ IrAuth.mask_client_secret s c
     = IrAuth.mask_client_secret s (Py.lower (Py.strip c))
  /\ IrAuth.mask_password s "Bob " = IrAuth.mask_password s "bob"
  /\ IrAuth.mask_password s " BOB" = IrAuth.mask_password s "bob".
Proof.
  unfold IrAuth.mask_password, IrAuth.mask_client_secret.
  rewrite normalize_lower_strip.
  repeat split; reflexivity.
Qed.

(** ** Stepping through the monad *)

Ltac mstep :=
  cbn [bind ret raise try_except gets modify emit urlopen dynamodb_call
       time_time getitem fst snd record advance
       clock trace ir_auth ir_custid ir_drivers].

Ltac zground :=
  repeat match goal with
  | |- context [Z.ltb ?a ?b] =>
      let v := eval vm_compute in (Z.ltb a b) in
      lazymatch v with
      | true => change (Z.ltb a b) with true
      | false => change (Z.ltb a b) with false
      end
  | |- context [Z.eqb ?a ?b] =>
      let v := eval vm_compute in (Z.eqb a b) in
      lazymatch v with
      | true => change (Z.eqb a b) with true
      | false => change (Z.eqb a b) with false
      end
  end.

Lemma bind_Ok {A B} (m : M A) (k : A -> M B) w a w1 :
  m w = (Ok a, w1) -> bind m k w = k a w1.
Proof. intros H. unfold bind. now rewrite H. Qed.

Lemma bind_Raise {A B} (m : M A) (k : A -> M B) w e w1 :
  m w = (Raise e, w1) -> bind m k w = (Raise e, w1).
Proof. intros H. unfold bind. now rewrite H. Qed.

Lemma try_except_Ok {A} (m : M A) h w a w1 :
  m w = (Ok a, w1) -> try_except m h w = (Ok a, w1).
Proof. intros H. unfold try_except. now rewrite H. Qed.

Lemma try_except_Raise {A} (m : M A) h w e w1 :
  m w = (Raise e, w1) -> try_except m h w = h e w1.
Proof. intros H. unfold try_except. now rewrite H. Qed.

Lemma time_sleep_nonneg d w :
  0 <= d <= SLEEP_MAX ->
  time_sleep d w = (Ok tt, advance d (record (Sleep d) w)).
Proof.
  intros Hd. unfold time_sleep.
  assert (0 < SLEEP_MAX) by reflexivity.
  destruct (Z.ltb_spec d (- SLEEP_MAX)); [lia|].
  destruct (Z.ltb_spec SLEEP_MAX d); [lia|].
  destruct (Z.ltb_spec d 0); [lia|]. reflexivity.
Qed.

Lemma time_sleep_refused d w :
  d < 0 \/ SLEEP_MAX < d ->
  exists e, time_sleep d w = (Raise e, w)
            /\ match e with
               | ValueError _ | OverflowError _ => True
               | _ => False
               end.
Proof.
  intros Hd. unfold time_sleep.
  destruct ((d <? - SLEEP_MAX) || (SLEEP_MAX <? d)) eqn:E.
  - eexists. split; [reflexivity|exact I].
  - apply orb_false_iff in E as (_ & E). apply Z.ltb_ge in E.
    destruct (Z.ltb_spec d 0); [|lia].
    eexists. split; [reflexivity|exact I].
Qed.

Ltac sleep_step :=
  match goal with
  | |- context [bind (time_sleep ?d) ?k ?w] =>
      rewrite (bind_Ok (time_sleep d) k w tt _
                 (time_sleep_nonneg d w
                    ltac:(split; vm_compute; discriminate)))
  end.

(** ** The OAuth retry loop *)

Lemma oauth_attempt_failure env form attempt rest w s :
  reply_status (oauth_token env (trace w) form) = Some s ->
  s <> 200 ->
  IrAuth.oauth_attempts env form (attempt :: rest) w
  = IrAuth.oauth_failure s (reply_retry_after (oauth_token env (trace w) form))
      attempt (IrAuth.oauth_attempts env form rest)
      (record (OAuthToken form) w).
Proof.
  intros Hs Hne. cbn [IrAuth.oauth_attempts]. mstep.
  destruct (oauth_token env (trace w) form) as [st ra b|code reason ra|reason];
    cbn in Hs; try discriminate; injection Hs as ->; cbn [reply_retry_after].
  - apply Z.eqb_neq in Hne. now rewrite Hne.
  - reflexivity.
Qed.



Tactic Notation "wsimpl" :=
  cbn [fst snd record advance clock trace ir_auth ir_custid ir_drivers].
Tactic Notation "wsimpl" "in" hyp(H) :=
  cbn [fst snd record advance clock trace ir_auth ir_custid ir_drivers] in H.

Ltac munfold :=
  cbv beta iota zeta delta
    [try_except bind dynamodb_call urlopen gets emit modify ret raise
     time_time getitem];
  cbn [fst snd record advance clock trace ir_auth ir_custid ir_drivers].

Lemma hint_delay_nonneg ra attempt :
  usable_hint ra -> 0 <= attempt <= 2 ->
  0 <= hint_delay ra attempt <= SLEEP_MAX.
Proof.
  assert (4 <= SLEEP_MAX) by (vm_compute; discriminate).
  destruct ra; cbn; intros Hu Ha; try lia; try contradiction.
  all: unfold BASE_BACKOFF_DELAY;
    pose proof (Z.pow_nonneg 2 attempt ltac:(lia));
    pose proof (Z.pow_le_mono_r 2 attempt 2 ltac:(lia) ltac:(lia));
    change (2 ^ 2) with 4 in *; lia.
Qed.

Lemma oauth_failure_429 ra attempt (k : M OAuthResponse) w :
  usable_hint ra ->
  IrAuth.oauth_failure 429 ra attempt k w
  = if attempt <? MAX_RETRIES - 1
    then (time_sleep (hint_delay ra attempt);; k)%py w
    else (Raise (RateLimitError "Rate limited after 3 attempts"), w).
Proof.
  intros Hra. unfold IrAuth.oauth_failure. change (429 =? 429) with true.
  cbn iota. destruct ra; cbn in Hra; try contradiction;
    unfold retry_after_seconds, hint_delay, bind, ret;
    destruct (attempt <? MAX_RETRIES - 1); reflexivity.
Qed.

Lemma oauth_attempts_429 env form w :
  (forall h, reply_status (oauth_token env h form) = Some 429
             /\ usable_hint (reply_retry_after (oauth_token env h form))) ->
  let d0 := hint_delay (reply_retry_after (oauth_token env (trace w) form)) 0 in
  let h1 := Sleep d0 :: OAuthToken form :: trace w in
  let d1 := hint_delay (reply_retry_after (oauth_token env h1 form)) 1 in
  IrAuth.oauth_attempts env form (range MAX_RETRIES) w
  = (Raise (RateLimitError "Rate limited after 3 attempts"),
     {| clock := clock w + d0 + d1; ir_auth := ir_auth w;
        ir_custid := ir_custid w; ir_drivers := ir_drivers w;
        trace := [OAuthToken form; Sleep d1; OAuthToken form; Sleep d0;
                  OAuthToken form] ++ trace w |}).
Proof.
  intros H d0 h1 d1. change (range MAX_RETRIES) with [0; 1; 2].
  destruct (H (trace w)) as (Hs0 & Hh0).
  rewrite (oauth_attempt_failure _ _ _ _ _ _ Hs0 ltac:(discriminate)),
    oauth_failure_429 by assumption.
  zground. cbn iota. fold d0.
  rewrite (bind_Ok _ _ _ _ _ (time_sleep_nonneg d0 _
             (hint_delay_nonneg _ 0 Hh0 ltac:(lia)))).
  match goal with |- context [IrAuth.oauth_attempts _ _ _ ?w1] =>
    change (trace w1) with h1 in *;
    destruct (H h1) as (Hs1 & Hh1);
    rewrite (oauth_attempt_failure env form 1 [2] w1 429 Hs1 ltac:(discriminate));
    change (trace w1) with h1
  end.
  rewrite oauth_failure_429 by assumption.
  zground. cbn iota. fold d1.
  rewrite (bind_Ok _ _ _ _ _ (time_sleep_nonneg d1 _
             (hint_delay_nonneg _ 1 Hh1 ltac:(lia)))).
  match goal with |- context [IrAuth.oauth_attempts _ _ _ ?w1] =>
    destruct (H (trace w1)) as (Hs2 & Hh2);
    rewrite (oauth_attempt_failure env form 2 [] w1 429 Hs2 ltac:(discriminate))
  end.
  rewrite oauth_failure_429 by assumption.
  zground. reflexivity.
Qed.

(** ** The first steps of the [ir_auth] handler *)

Lemma auth_get_oauth_credentials_ok env w credentials :
  get_secret_value env (trace w) = SecretString credentials ->
  full_credentials credentials ->
  IrAuth.get_oauth_credentials env w = (Ok credentials, record GetSecretValue w).
Proof.
  intros Hs ([a Ha] & [b Hb] & [c Hc] & [d Hd]).
  unfold IrAuth.get_oauth_credentials. munfold. rewrite Hs.
  cbn [IrAuth.check_required]. now rewrite Ha, Hb, Hc, Hd.
Qed.

Lemma get_existing_tokens_absent env username w :
  ir_auth w !! username = None ->
  IrAuth.get_existing_tokens env username w
  = (Ok None, record (GetItem "ir_auth" username) w).
Proof.
  intros H. unfold IrAuth.get_existing_tokens. munfold.
  destruct (dynamodb_error env (trace w)); [reflexivity|]. wsimpl.
  now rewrite H.
Qed.

Lemma oauth_form_password credentials :
  full_credentials credentials ->
  exists form, forall w,
    IrAuth.oauth_form credentials "password_limited" None w = (Ok form, w).
Proof.
  intros ([a Ha] & [b Hb] & [c Hc] & [d Hd]).
  eexists. intros w. unfold IrAuth.oauth_form.
  change ("password_limited" =? "password_limited")%string with true.
  cbn iota. munfold. rewrite Ha, Hb, Hc, Hd. reflexivity.
Qed.


(** ** The lookup retry loop of [ir_custid] *)

Lemma backoff_or_raise_eq {A} attempt (k : M A) final w :
  IrCustid.backoff_or_raise attempt k final w
  = if attempt <? MAX_RETRIES - 1
    then (time_sleep (BASE_BACKOFF_DELAY * 2 ^ attempt);; k)%py w
    else (Raise final, w).
Proof.
  unfold IrCustid.backoff_or_raise.
  destruct (attempt <? MAX_RETRIES - 1); reflexivity.
Qed.

Lemma search_attempt_failure env term tok attempt rest w s :
  reply_status (lookup_drivers env (trace w) term tok) = Some s ->
  s <> 200 ->
  IrCustid.search_attempts env term tok (attempt :: rest) w
  = IrCustid.search_failure s attempt (IrCustid.search_attempts env term tok rest)
      (record (LookupDrivers term tok) w).
Proof.
  intros Hs Hne. cbn [IrCustid.search_attempts]. munfold.
  destruct (lookup_drivers env (trace w) term tok) as [st ra b|code reason ra|reason];
    cbn in Hs; try discriminate; injection Hs as ->.
  - apply Z.eqb_neq in Hne. now rewrite Hne.
  - reflexivity.
Qed.

Lemma search_attempts_429 env term tok w :
  (forall h, reply_status (lookup_drivers env h term tok) = Some 429) ->
  IrCustid.search_driver_with_auth env term tok w
  = (Raise (APIError "Rate limited after maximum retries"),
     {| clock := clock w + 1 + 2; ir_auth := ir_auth w;
        ir_custid := ir_custid w; ir_drivers := ir_drivers w;
        trace := [LookupDrivers term tok; Sleep 2; LookupDrivers term tok;
                  Sleep 1; LookupDrivers term tok] ++ trace w |}).
Proof.
  intros H. unfold IrCustid.search_driver_with_auth.
  change (range MAX_RETRIES) with [0; 1; 2].
  rewrite (search_attempt_failure _ _ _ _ _ _ _ (H _) ltac:(discriminate)).
  unfold IrCustid.search_failure at 1. zground. cbn iota.
  rewrite backoff_or_raise_eq. zground. cbn iota. sleep_step.
  rewrite (search_attempt_failure _ _ _ _ _ _ _ (H _) ltac:(discriminate)).
  unfold IrCustid.search_failure at 1. zground. cbn iota.
  rewrite backoff_or_raise_eq. zground. cbn iota. sleep_step.
  rewrite (search_attempt_failure _ _ _ _ _ _ _ (H _) ltac:(discriminate)).
  unfold IrCustid.search_failure at 1. zground. cbn iota.
  rewrite backoff_or_raise_eq. zground. reflexivity.
Qed.

(** ** Acquiring the token in [ir_custid] and [ir_drivers] *)

Lemma get_access_token_ready env w username access_token :
  dynamodb_error env (trace w) = None ->
  token_ready w username access_token ->
  IrCustid.get_access_token env username w
  = (Ok (Some access_token), record (GetItem "ir_auth" username) w).
Proof.
  intros Hdb (item & ttl & Hi & Httl & Hlt & Htok & _).
  unfold IrCustid.get_access_token. munfold. rewrite Hdb. wsimpl.
  rewrite Hi, Httl. change (default 0 (Some ttl)) with ttl. wsimpl.
  destruct (ttl >? clock w) eqn:E; [|rewrite Z.gtb_ltb in E; apply Z.ltb_ge in E; lia].
  now rewrite Htok.
Qed.

Lemma acquire_token_ready env w credentials username access_token :
  services_up env credentials ->
  credentials !! "username" = Some username ->
  token_ready w username access_token ->
  IrCustid.acquire_token env w
  = (Ok (username, access_token),
     record (GetItem "ir_auth" username) (record GetSecretValue w)).
Proof.
  intros [Hdb Hsec] Hu Hready. unfold IrCustid.acquire_token.
  assert (Hc : IrCustid.get_oauth_credentials env w
               = (Ok credentials, record GetSecretValue w)).
  { unfold IrCustid.get_oauth_credentials. munfold. now rewrite Hsec, Hu. }
  rewrite (bind_Ok _ _ _ _ _ Hc).
  unfold getitem at 1. rewrite Hu.
  rewrite (bind_Ok (ret username) _ _ username _ eq_refl).
  rewrite (bind_Ok _ _ _ _ _
             (get_access_token_ready env (record GetSecretValue w) _ _
                (Hdb _) Hready)).
  unfold IrCustid.usable_token.
  destruct Hready as (_ & _ & _ & _ & _ & _ & Ht). rewrite Ht. reflexivity.
Qed.

(** A miss in the identifier cache followed by a search that raises
    something other than an authentication error. *)
Lemma custid_handler_miss_raises env w credentials username access_token raw e w1 :
  services_up env credentials ->
  credentials !! "username" = Some username ->
  token_ready w username access_token ->
  Py.truthy_str (unquote env raw) = true ->
  ir_custid w !! unquote env raw = None ->
  (forall msg, e <> AuthenticationError msg) ->
  IrCustid.search_driver_with_auth env (unquote env raw) access_token
    (record (GetItem "ir_auth" username)
       (record GetSecretValue
          (record (GetItem "ir_custid" (unquote env raw)) w)))
  = (Raise e, w1) ->
  IrCustid.lambda_handler env {| IrCustid.rawQueryString := Some raw |} w
  = (Ok (IrCustid.on_exception e), w1).
Proof.
  intros Hup Hu Hready Hterm Hmiss Hne Hsearch.
  unfold IrCustid.lambda_handler.
  erewrite try_except_Raise; [reflexivity|].
  change (default "" (IrCustid.rawQueryString
                        {| IrCustid.rawQueryString := Some raw |})) with raw.
  rewrite Hterm. cbn [negb].
  assert (Hget : dynamodb_call env (GetItem "ir_custid" (unquote env raw)) w
                 = (Ok tt, record (GetItem "ir_custid" (unquote env raw)) w)).
  { unfold dynamodb_call. munfold. now rewrite (proj1 Hup). }
  rewrite (bind_Ok _ _ _ _ _ Hget).
  unfold gets at 1. unfold bind at 1. wsimpl. rewrite Hmiss.
  apply bind_Raise. cbn iota.
  rewrite (bind_Ok _ _ _ _ _
             (acquire_token_ready env
                (record (GetItem "ir_custid" (unquote env raw)) w) _ _ _
                Hup Hu Hready)).
  cbn [fst snd].
  erewrite try_except_Raise; [|exact Hsearch].
  destruct e; try reflexivity. exfalso. eapply Hne. reflexivity.
Qed.

(** C3, on the code: the lookup of [ir_custid] answered 429 with a hint
    of 5 seconds is retried after 1 and 2 seconds and ends in a 502 with
    no [Retry-After] header. *)
Lemma lookup_429_is_surfaced_as_502 :
  let rw := IrCustid.lambda_handler Scenario.lookup_throttling
              {| IrCustid.rawQueryString := Some "Bob" |}
              (Scenario.signed_in 1000) in
  (forall h term tok,
      lookup_drivers Scenario.lookup_throttling h term tok
      = HTTPError 429 "Too Many Requests" (RetryAfterInt 5))
  /\ fst rw = Ok {| statusCode := 502;
                    headers := [("Content-Type", "application/json")];
                    body := JDict [("error", JStr "API error");
                                   ("message",
                                    JStr "Rate limited after maximum retries")] |}
  /\ trace (snd rw)
     = [LookupDrivers "Bob" "access-0"; Sleep 2;
        LookupDrivers "Bob" "access-0"; Sleep 1;
        LookupDrivers "Bob" "access-0";
        GetItem "ir_auth" Scenario.username; GetSecretValue;
        GetItem "ir_custid" "Bob"].
Proof.
  cbv zeta. split; [reflexivity|]. split; vm_compute; reflexivity.
Qed.

(** ** Inversion of the monadic combinators *)

Lemma bind_inv {A B} (m : M A) (k : A -> M B) w r w' :
  bind m k w = (r, w') ->
  (exists a w1, m w = (Ok a, w1) /\ k a w1 = (r, w'))
  \/ (exists e, m w = (Raise e, w') /\ r = Raise e).
Proof.
  unfold bind. destruct (m w) as [[a|e] w1]; intros H.
  - left. eauto.
  - right. injection H as <- <-. eauto.
Qed.

Lemma bind_inv_Ok {A B} (m : M A) (k : A -> M B) w b w' :
  bind m k w = (Ok b, w') ->
  exists a w1, m w = (Ok a, w1) /\ k a w1 = (Ok b, w').
Proof.
  intros H. apply bind_inv in H as [H|(e & _ & H)]; [exact H|discriminate].
Qed.

Lemma try_except_inv {A} (m : M A) h w r w' :
  try_except m h w = (r, w') ->
  (exists a, m w = (Ok a, w') /\ r = Ok a)
  \/ (exists e w1, m w = (Raise e, w1) /\ h e w1 = (r, w')).
Proof.
  unfold try_except. destruct (m w) as [[a|e] w1]; intros H.
  - left. injection H as <- <-. eauto.
  - right. eauto.
Qed.

Lemma time_sleep_inv d w r w' :
  time_sleep d w = (r, w') ->
  clock w <= clock w' /\ ir_auth w' = ir_auth w /\ ir_custid w' = ir_custid w
  /\ ir_drivers w' = ir_drivers w.
Proof.
  unfold time_sleep. destruct ((d <? - SLEEP_MAX) || (SLEEP_MAX <? d)).
  - intros [= <- <-]. repeat split; lia.
  - destruct (d <? 0) eqn:E.
    + intros [= <- <-]. repeat split; lia.
    + apply Z.ltb_ge in E. munfold. intros [= <- <-]. wsimpl.
      repeat split; lia.
Qed.

(** ** The token handler: what a 200 means *)

Lemma exchanged_after_sleep env form d (k : M OAuthResponse) w res w' :
  (forall w0 res0 w1, k w0 = (res0, w1) -> exchanged env form w0 res0 w1) ->
  (time_sleep d;; k)%py w = (res, w') ->
  exchanged env form w res w'.
Proof.
  intros Hk H. apply bind_inv in H as [(a & w1 & Hs & Hk1)|(e & Hs & ->)].
  - apply time_sleep_inv in Hs as (Hc & Ha & _).
    apply Hk in Hk1 as (Hc1 & Ha1 & Hp).
    split; [lia|]. split; [congruence|exact Hp].
  - apply time_sleep_inv in Hs as (Hc & Ha & _).
    split; [lia|]. split; [exact Ha|discriminate].
Qed.

Lemma exchanged_raise env form w e : exchanged env form w (Raise e) w.
Proof. split; [lia|]. split; [reflexivity|discriminate]. Qed.

Lemma exchanged_backoff env form attempt (k : M OAuthResponse) e w res w' :
  (forall w0 res0 w1, k w0 = (res0, w1) -> exchanged env form w0 res0 w1) ->
  (if attempt <? MAX_RETRIES - 1
   then (time_sleep (BASE_BACKOFF_DELAY * 2 ^ attempt);; k)%py
   else raise e) w = (res, w') ->
  exchanged env form w res w'.
Proof.
  intros Hk. destruct (attempt <? MAX_RETRIES - 1).
  - apply exchanged_after_sleep, Hk.
  - intros [= <- <-]. apply exchanged_raise.
Qed.

Lemma oauth_failure_exchanged env form status ra attempt (k : M OAuthResponse)
    w res w' :
  (forall w0 res0 w1, k w0 = (res0, w1) -> exchanged env form w0 res0 w1) ->
  IrAuth.oauth_failure status ra attempt k w = (res, w') ->
  exchanged env form w res w'.
Proof.
  intros Hk. unfold IrAuth.oauth_failure.
  destruct (status =? 429).
  - intros H. apply bind_inv in H as [(s & w1 & Hs & H)|(e & Hs & ->)].
    + assert (w1 = w) as ->.
      { destruct ra; cbn in Hs; injection Hs; congruence. }
      revert H. destruct (attempt <? MAX_RETRIES - 1).
      * apply exchanged_after_sleep, Hk.
      * intros [= <- <-]. apply exchanged_raise.
    + destruct ra; cbn in Hs; try discriminate.
      injection Hs as <- <-. apply exchanged_raise.
  - destruct ((status =? 401) || (status =? 403)).
    + intros [= <- <-]. apply exchanged_raise.
    + apply exchanged_backoff, Hk.
Qed.

Lemma exchanged_record env form ev w res w' :
  exchanged env form (record ev w) res w' -> exchanged env form w res w'.
Proof. intros H. exact H. Qed.

Lemma oauth_attempts_exchanged env form attempts :
  forall w res w',
    IrAuth.oauth_attempts env form attempts w = (res, w') ->
    exchanged env form w res w'.
Proof.
  induction attempts as [|attempt rest IH]; intros w res w'.
  - intros [= <- <-]. apply exchanged_raise.
  - cbn [IrAuth.oauth_attempts]. munfold.
    destruct (oauth_token env (trace w) form) as [st ra b|code reason ra|reason]
      eqn:Hreply; intros H; apply (exchanged_record env form (OAuthToken form)).
    + destruct (st =? 200).
      * destruct b as [resp|msg].
        -- injection H as <- <-. split; [lia|]. split; [reflexivity|].
           intros resp' [= <-]. eauto.
        -- eapply exchanged_backoff; [exact IH|exact H].
      * eapply oauth_failure_exchanged; [exact IH|exact H].
    + eapply oauth_failure_exchanged; [exact IH|exact H].
    + eapply exchanged_backoff; [exact IH|exact H].
Qed.

Lemma getitem_inv k d w res w' : getitem k d w = (res, w') -> w' = w.
Proof. unfold getitem. destruct (d !! k); intros [= <- <-]; reflexivity. Qed.

Ltac getitem_steps H :=
  repeat (let Hg := fresh "Hg" in
          apply bind_inv in H as [(? & ? & Hg & H)|(? & Hg & ->)];
          [apply getitem_inv in Hg as ->|now apply getitem_inv in Hg]).

Lemma oauth_form_inv credentials grant_type refresh_token w res w' :
  IrAuth.oauth_form credentials grant_type refresh_token w = (res, w') -> w' = w.
Proof.
  unfold IrAuth.oauth_form. intros H.
  destruct (grant_type =? "password_limited")%string.
  { getitem_steps H. now injection H as <- <-. }
  destruct (grant_type =? "refresh_token")%string.
  2:{ now injection H as <- <-. }
  destruct refresh_token as [token|]; [|now injection H as <- <-].
  destruct (Py.truthy_str token); [|now injection H as <- <-].
  getitem_steps H. now injection H as <- <-.
Qed.

Lemma make_oauth_request_inv env credentials grant_type refresh_token w res w' :
  IrAuth.make_oauth_request env credentials grant_type refresh_token w = (res, w') ->
  clock w <= clock w'
  /\ ir_auth w' = ir_auth w
  /\ forall resp, res = Ok resp ->
       exists h form status ra,
         oauth_token env h form = Response status ra (Json resp).
Proof.
  unfold IrAuth.make_oauth_request. intros H.
  apply bind_inv in H as [(form & w1 & Hf & H)|(e & Hf & ->)].
  - apply oauth_form_inv in Hf as ->.
    apply oauth_attempts_exchanged in H as (Hc & Ha & Hp).
    repeat split; try assumption.
    intros resp Hr. destruct (Hp resp Hr) as (h & st & ra & Hh). eauto 6.
  - apply oauth_form_inv in Hf as ->. repeat split; try lia. discriminate.
Qed.

Lemma get_existing_tokens_inv env username w res w' :
  IrAuth.get_existing_tokens env username w = (res, w') ->
  clock w' = clock w /\ ir_auth w' = ir_auth w
  /\ forall tok tt ei sc rt rei,
       res = Ok (Some (IrAuth.ValidTokens tok tt ei sc rt rei)) ->
       exists item,
         ir_auth w !! username = Some item
         /\ ti_access_token item = Some tok
         /\ clock w < default 0 (ti_ttl item).
Proof.
  unfold IrAuth.get_existing_tokens. munfold.
  destruct (dynamodb_error env (trace w)).
  { intros [= <- <-]. repeat split. discriminate. }
  wsimpl. destruct (ir_auth w !! username) as [item|] eqn:Hi.
  2:{ intros [= <- <-]. repeat split. discriminate. }
  munfold.
  destruct (default 0 (ti_ttl item) >? clock w) eqn:Httl.
  - destruct (ti_access_token item) as [tok|] eqn:Htok; munfold.
    + intros [= <- <-]. repeat split.
      intros tok' tt ei sc rt rei Heq. injection Heq as <-.
      exists item. repeat split; try assumption.
      rewrite Z.gtb_ltb in Httl. now apply Z.ltb_lt in Httl.
    + intros [= <- <-]. repeat split. discriminate.
  - destruct (ti_refresh_token item) as [rt|].
    + destruct (default 0 (ti_refresh_token_ttl item) >? clock w);
        intros [= <- <-]; repeat split; discriminate.
    + intros [= <- <-]. repeat split. discriminate.
Qed.

Lemma store_tokens_inv env username resp w w' :
  IrAuth.store_tokens_in_dynamodb env username resp w = (Ok tt, w') ->
  clock w' = clock w
  /\ exists tok item,
       oa_access_token resp = Some tok
       /\ ir_auth w' !! username = Some item
       /\ ti_access_token item = Some tok
       /\ ti_ttl item
          = Some (clock w + default IrAuth.ACCESS_TOKEN_LIFETIME (oa_expires_in resp)).
Proof.
  unfold IrAuth.store_tokens_in_dynamodb. munfold.
  destruct (oa_access_token resp) as [tok|]; [|discriminate].
  destruct (dynamodb_error env (trace w)); [discriminate|].
  intros [= <-]. wsimpl. split; [reflexivity|].
  eexists tok, _. split; [reflexivity|].
  rewrite lookup_insert_eq. repeat split.
Qed.

Lemma fresh_response_inv message resp w r w' :
  IrAuth.fresh_response message resp w = (Ok r, w') ->
  w' = w /\ statusCode r = 200
  /\ exists tok, oa_access_token resp = Some tok /\ response_token r = Some tok.
Proof.
  unfold IrAuth.fresh_response. munfold.
  destruct (oa_access_token resp) as [tok|]; [|discriminate].
  intros [= <- <-]. repeat split. exists tok. split; reflexivity.
Qed.

Lemma auth_on_exception_not_200 e : statusCode (IrAuth.on_exception e) <> 200.
Proof. destruct e; discriminate. Qed.

(** A successful exchange followed by the store and the response. *)
Lemma exchange_store_respond env credentials grant rt username message
    called w r w' :
  clock called <= clock w ->
  (oauth_response <- IrAuth.make_oauth_request env credentials grant rt;;
   IrAuth.store_tokens_in_dynamodb env username oauth_response;;
   IrAuth.fresh_response message oauth_response)%py w = (Ok r, w') ->
  statusCode r = 200 /\ token_recorded env called username r w'.
Proof.
  intros Hcall H.
  apply bind_inv_Ok in H as (resp & w1 & Hreq & H).
  apply bind_inv_Ok in H as ([] & w2 & Hstore & H).
  apply make_oauth_request_inv in Hreq as (Hc1 & _ & Hp).
  destruct (Hp resp eq_refl) as (h & form & st & ra & Hreply).
  apply store_tokens_inv in Hstore as (Hc2 & tok & item & Htok & Hi & Hit & Httl).
  apply fresh_response_inv in H as (-> & H200 & tok' & Htok' & Hr).
  split; [exact H200|].
  exists tok, item. repeat split; try assumption; try congruence.
  right. exists h, form, st, ra, resp.
  split; [assumption|]. split; [assumption|]. split; [lia|].
  rewrite Hc2. exact Httl.
Qed.

(** The recorded expiry is before the call only for a grant whose lifetime
    is negative. *)
Lemma recorded_not_expired env w username r w' :
  token_recorded env w username r w' ->
  token_not_expired (clock w) username r w' \/ granted_negative env r.
Proof.
  intros (tok & item & Hr & Hi & Htok & Hcase).
  destruct Hcase as [[_ Hlt]|(h & form & st & ra & resp & Hreply & Hgrant & Hle & Httl)].
  - left. exists tok, item. repeat split; try assumption. lia.
  - destruct (oa_expires_in resp) as [n|] eqn:En.
    + destruct (Z.lt_ge_cases n 0) as [Hneg|Hpos].
      * right. exists h, form, st, ra, resp, n.
        repeat split; try assumption. congruence.
      * left. exists tok, item. repeat split; try assumption.
        rewrite Httl. cbn. lia.
    + left. exists tok, item. repeat split; try assumption.
      rewrite Httl. cbn. unfold IrAuth.ACCESS_TOKEN_LIFETIME. lia.
Qed.

Lemma auth_get_oauth_credentials_inv env w res w' :
  IrAuth.get_oauth_credentials env w = (res, w') ->
  w' = record GetSecretValue w
  /\ forall credentials, res = Ok credentials ->
       get_secret_value env (trace w) = SecretString credentials.
Proof.
  unfold IrAuth.get_oauth_credentials. munfold.
  destruct (get_secret_value env (trace w)) as [msg|msg|credentials];
    try (intros [= <- <-]; split; [reflexivity|discriminate]).
  cbn [IrAuth.check_required]. munfold.
  repeat match goal with
         | |- context [match credentials !! ?k with _ => _ end] =>
             destruct (credentials !! k)
         end;
    intros [= <- <-]; split; try reflexivity; try discriminate.
  now intros c [= <-].
Qed.

Lemma store_tokens_clock env username resp w res w' :
  IrAuth.store_tokens_in_dynamodb env username resp w = (res, w') ->
  clock w' = clock w.
Proof.
  unfold IrAuth.store_tokens_in_dynamodb. munfold.
  destruct (oa_access_token resp); [|now intros [= <- <-]].
  destruct (dynamodb_error env (trace w)); now intros [= <- <-].
Qed.

Lemma fresh_response_world message resp w res w' :
  IrAuth.fresh_response message resp w = (res, w') -> w' = w.
Proof.
  unfold IrAuth.fresh_response. munfold.
  destruct (oa_access_token resp); now intros [= <- <-].
Qed.

(** The refresh attempt of the handler, with its [except] clause. *)
Lemma refresh_attempt_inv env credentials username token called w res w' :
  clock called <= clock w ->
  try_except
    (oauth_response <-
       IrAuth.make_oauth_request env credentials "refresh_token" (Some token);;
     IrAuth.store_tokens_in_dynamodb env username oauth_response;;
     r <- IrAuth.fresh_response "Authentication successful (refreshed)"
            oauth_response;;
     ret (Some r))%py
    (fun e => match e with
              | AuthenticationError _ | RateLimitError _ => ret None
              | _ => raise e
              end) w = (res, w') ->
  clock w <= clock w'
  /\ forall r, res = Ok (Some r) ->
       statusCode r = 200 /\ token_recorded env called username r w'.
Proof.
  intros Hcall H. apply try_except_inv in H as [(a & H & ->)|(e & w1 & H & Hh)].
  - apply bind_inv_Ok in H as (resp & w1 & Hreq & H).
    apply bind_inv_Ok in H as ([] & w2 & Hstore & H).
    apply bind_inv_Ok in H as (r & w3 & Hfresh & H).
    injection H as <- <-.
    pose proof Hreq as Hreq'. apply make_oauth_request_inv in Hreq' as (Hc1 & _).
    pose proof (store_tokens_clock _ _ _ _ _ _ Hstore) as Hc2.
    pose proof (fresh_response_world _ _ _ _ _ Hfresh) as ->.
    split; [lia|]. intros r' [= <-].
    eapply (exchange_store_respond env credentials "refresh_token" (Some token));
      [exact Hcall|].
    rewrite (bind_Ok _ _ _ _ _ Hreq), (bind_Ok _ _ _ _ _ Hstore). exact Hfresh.
  - assert (Hc : clock w <= clock w1).
    { apply bind_inv in H as [(resp & w2 & Hreq & H)|(e' & Hreq & _)].
      2:{ now apply make_oauth_request_inv in Hreq as (Hc1 & _). }
      apply make_oauth_request_inv in Hreq as (Hc1 & _).
      apply bind_inv in H as [([] & w3 & Hstore & H)|(e' & Hstore & _)].
      2:{ apply store_tokens_clock in Hstore. lia. }
      apply store_tokens_clock in Hstore.
      apply bind_inv in H as [(r & w4 & Hfresh & H)|(e' & Hfresh & _)].
      2:{ apply fresh_response_world in Hfresh as ->. lia. }
      apply fresh_response_world in Hfresh as ->. discriminate. }
    destruct e; cbn in Hh; injection Hh as <- <-; (split; [exact Hc|discriminate]).
Qed.

(** C1, on the code: an endpoint that grants a token with the lifetime
    -100 at the time 1000 is answered 200, and the expiry recorded for the
    token of the answer is 900, before the call. *)
Lemma negative_lifetime_recorded_in_the_past :
  let rw := IrAuth.lambda_handler Faulty.granting_backdated
              (Scenario.empty_world 1000) in
  exists r item,
    fst rw = Ok r
    /\ statusCode r = 200
    /\ response_token r = Some "access-4"
    /\ ir_auth (snd rw) !! Scenario.username = Some item
    /\ ti_access_token item = Some "access-4"
    /\ ti_ttl item = Some 900
    /\ ~ token_not_expired 1000 Scenario.username r (snd rw).
Proof.
  cbv zeta.
  destruct (IrAuth.lambda_handler Faulty.granting_backdated
              (Scenario.empty_world 1000)) as [[r|e] w'] eqn:E;
    [|vm_compute in E; discriminate].
  vm_compute in E. injection E as <- <-.
  eexists _, _. split; [reflexivity|]. split; [reflexivity|].
  split; [reflexivity|]. split; [vm_compute; reflexivity|].
  split; [reflexivity|]. split; [reflexivity|].
  intros (tok & item & _ & Hi & _ & Hle).
  vm_compute in Hi. injection Hi as <-. cbn in Hle. lia.
Qed.

(** C1, as the code has it: whenever the token handler answers 200, the
    access token of the response is the one recorded for the user of the
    secret, and it was recorded in one of two ways: the cached branch
    found it in the table with [ttl > now], or an exchange of this call
    stored it with the expiry [now + expires_in] (600 by default) before
    the answer.  Hence the recorded expiry is not before the time of the
    call, unless the endpoint granted the token with a negative
    [expires_in], which the code stores as it is. *)
Theorem ensure_token_not_expired env w r w' :
  IrAuth.lambda_handler env w = (Ok r, w') ->
  statusCode r = 200 ->
  exists credentials username,
    get_secret_value env (trace w) = SecretString credentials
    /\ credentials !! "username" = Some username
    /\ token_recorded env w username r w'
    /\ (token_not_expired (clock w) username r w' \/ granted_negative env r).
Proof.
  intros H H200.
  enough (exists credentials username,
             get_secret_value env (trace w) = SecretString credentials
             /\ credentials !! "username" = Some username
             /\ token_recorded env w username r w')
    as (credentials & username & Hs & Hu & Hrec).
  { exists credentials, username. repeat split; try assumption.
    now apply (recorded_not_expired env w). }
  unfold IrAuth.lambda_handler in H.
  apply try_except_inv in H as [(r0 & H & [= <-])|(e & w1 & _ & Hh)].
  2:{ injection Hh as <- <-. now apply auth_on_exception_not_200 in H200. }
  apply bind_inv_Ok in H as (credentials & w1 & Hcred & H).
  apply auth_get_oauth_credentials_inv in Hcred as (-> & Hsec).
  specialize (Hsec _ eq_refl).
  apply bind_inv_Ok in H as (username & w2 & Hu & H).
  assert (credentials !! "username" = Some username /\ w2 = record GetSecretValue w)
    as [Hname ->].
  { unfold getitem in Hu. destruct (credentials !! "username"); [|discriminate].
    now injection Hu as <- <-. }
  clear Hu. exists credentials, username. split; [exact Hsec|]. split; [exact Hname|].
  apply bind_inv_Ok in H as (existing & w3 & Hex & H).
  apply get_existing_tokens_inv in Hex as (Hc3 & Ha3 & Hvalid).
  assert (Hpassword : forall w4 : World, clock w <= clock w4 ->
            (oauth_response <-
               IrAuth.make_oauth_request env credentials "password_limited" None;;
             IrAuth.store_tokens_in_dynamodb env username oauth_response;;
             IrAuth.fresh_response "Authentication successful" oauth_response)%py
              w4 = (Ok r, w') ->
            token_recorded env w username r w').
  { intros w4 Hc4 Hp.
    now apply (exchange_store_respond env credentials "password_limited" None
                 username _ w w4 r w' Hc4) in Hp as [_ Hp]. }
  destruct existing as [[tok tt ei sc rt rei|token]|].
  - injection H as <- <-.
    destruct (Hvalid _ _ _ _ _ _ eq_refl) as (item & Hi & Htok & Httl).
    exists tok, item. split; [reflexivity|]. rewrite Ha3.
    repeat split; try assumption. left. cbn [clock record] in Httl.
    split; [exact Hi|lia].
  - apply bind_inv_Ok in H as (refreshed & w4 & Href & H).
    destruct (Py.truthy_str token).
    + apply (refresh_attempt_inv env credentials username token w)
        in Href as (Hc4 & Hr); [|rewrite Hc3; cbn; lia].
      destruct refreshed as [r0|].
      * injection H as <- <-. now apply Hr.
      * apply (Hpassword w4); [rewrite Hc3 in Hc4; cbn in Hc4; lia|exact H].
    + injection Href as <- <-.
      apply (Hpassword w3); [rewrite Hc3; cbn; lia|exact H].
  - apply bind_inv_Ok in H as (refreshed & w4 & Href & H).
    injection Href as <- <-.
    apply (Hpassword w3); [rewrite Hc3; cbn; lia|exact H].
Qed.

Lemma ensure_token_not_expired_witness :
  exists r w',
    IrAuth.lambda_handler Scenario.granting (Scenario.empty_world 1000) = (Ok r, w')
    /\ token_recorded Scenario.granting (Scenario.empty_world 1000)
         Scenario.username r w'
    /\ token_not_expired 1000 Scenario.username r w'.
Proof.
  destruct (IrAuth.lambda_handler Scenario.granting (Scenario.empty_world 1000))
    as [[r|e] w'] eqn:E; [|vm_compute in E; discriminate].
  exists r, w'. split; [reflexivity|].
  destruct (ensure_token_not_expired Scenario.granting (Scenario.empty_world 1000)
              r w') as (credentials & username & Hs & Hu & Hrec & H).
  - exact E.
  - vm_compute in E. injection E as <- _. reflexivity.
  - injection Hs as <-. vm_compute in Hu. injection Hu as <-.
    split; [exact Hrec|].
    destruct H as [H|(h & form & st & ra & resp & n & Hreply & _ & Hn & Hneg)];
      [exact H|].
    injection Hreply as _ _ <-. injection Hn as <-. lia.
Defined.

(** ** Frames: what a computation leaves as it was *)

Section Frames.

Context (R : World -> World -> Prop) `{!PreOrder R}.

Lemma preserves_ret {A} (a : A) : preserves R (ret a).
Proof. intros w res w' [= <- <-]. reflexivity. Qed.

Lemma preserves_raise {A} e : preserves R (@raise A e).
Proof. intros w res w' [= <- <-]. reflexivity. Qed.

Lemma preserves_gets {A} (f : World -> A) : preserves R (gets f).
Proof. intros w res w' [= <- <-]. reflexivity. Qed.

Lemma preserves_modify f : (forall w, R w (f w)) -> preserves R (modify f).
Proof. intros Hf w res w' [= <- <-]. apply Hf. Qed.

Lemma preserves_bind {A B} (m : M A) (k : A -> M B) :
  preserves R m -> (forall a, preserves R (k a)) -> preserves R (bind m k).
Proof.
  intros Hm Hk w res w' H.
  apply bind_inv in H as [(a & w1 & H1 & H2)|(e & H1 & _)].
  - etransitivity; [eapply Hm|eapply Hk]; eassumption.
  - eapply Hm; eassumption.
Qed.

Lemma preserves_try_except {A} (m : M A) h :
  preserves R m -> (forall e, preserves R (h e)) -> preserves R (try_except m h).
Proof.
  intros Hm Hh w res w' H.
  apply try_except_inv in H as [(a & H1 & _)|(e & w1 & H1 & H2)].
  - eapply Hm; eassumption.
  - etransitivity; [eapply Hm|eapply Hh]; eassumption.
Qed.

Lemma preserves_getitem k d : preserves R (getitem k d).
Proof. unfold getitem. destruct (d !! k); [apply preserves_ret|apply preserves_raise]. Qed.

Lemma preserves_retry_after ra d : preserves R (retry_after_seconds ra d).
Proof. destruct ra; [apply preserves_ret..|apply preserves_raise]. Qed.

End Frames.

Create HintDb frames.

Ltac frame_step :=
  match goal with
  | |- PreOrder _ => exact _
  | |- forall _, _ => intros ?
  | |- preserves _ (ret _) => apply preserves_ret
  | |- preserves _ (raise _) => apply preserves_raise
  | |- preserves _ (gets _) => apply preserves_gets
  | |- preserves _ time_time => apply preserves_gets
  | |- preserves _ (getitem _ _) => apply preserves_getitem
  | |- preserves _ (retry_after_seconds _ _) => apply preserves_retry_after
  | |- preserves _ (bind _ _) => apply preserves_bind
  | |- preserves _ (try_except _ _) => apply preserves_try_except
  | |- preserves _ (match ?x with _ => _ end) => destruct x
  | |- preserves _ (let _ := _ in _) => cbv zeta
  | |- preserves _ _ => solve [eauto with frames typeclass_instances]
  end.

Ltac frame := repeat frame_step.

Section TableFrames.

Context (R : World -> World -> Prop) `{!PreOrder R} `{!TablesOnly R}.

Lemma preserves_emit ev : preserves R (emit ev).
Proof. apply preserves_modify; try assumption. intros w. apply tables_record. Qed.

Lemma preserves_time_sleep d : preserves R (time_sleep d).
Proof.
  unfold time_sleep.
  destruct ((d <? - SLEEP_MAX) || (SLEEP_MAX <? d)); [now apply preserves_raise|].
  destruct (d <? 0); [now apply preserves_raise|].
  apply preserves_bind; try assumption; [apply preserves_emit|intros _].
  apply preserves_modify; try assumption. intros w. apply tables_advance.
Qed.

Lemma preserves_dynamodb_call env ev : preserves R (dynamodb_call env ev).
Proof. pose proof preserves_emit. unfold dynamodb_call. frame. Qed.

Lemma preserves_urlopen {B} ev (service : list Event -> HttpReply B) :
  preserves R (urlopen ev service).
Proof. pose proof preserves_emit. unfold urlopen. frame. Qed.

Lemma preserves_backoff_or_raise {A} attempt (k : M A) e :
  preserves R k -> preserves R (IrCustid.backoff_or_raise attempt k e).
Proof.
  intros Hk. pose proof preserves_time_sleep.
  unfold IrCustid.backoff_or_raise. frame.
Qed.

End TableFrames.

#[export] Hint Resolve preserves_emit preserves_time_sleep
  preserves_dynamodb_call preserves_urlopen preserves_backoff_or_raise : frames.

#[export] Instance caches_kept_preorder : PreOrder caches_kept.
Proof.
  split.
  - intros w. split; reflexivity.
  - intros w1 w2 w3 [H1 H2] [H3 H4]. split; congruence.
Qed.

#[export] Instance caches_kept_tables : TablesOnly caches_kept.
Proof. split; intros; split; reflexivity. Qed.

Lemma auth_credentials_kept env :
  preserves caches_kept (IrAuth.get_oauth_credentials env).
Proof.
  unfold IrAuth.get_oauth_credentials. frame.
  generalize ["client_id"; "client_secret"; "username"; "password"].
  intros keys. induction keys; cbn [IrAuth.check_required]; frame.
Qed.

Lemma oauth_form_kept credentials grant_type refresh_token :
  preserves caches_kept (IrAuth.oauth_form credentials grant_type refresh_token).
Proof. unfold IrAuth.oauth_form. frame. Qed.

Lemma oauth_failure_kept status ra attempt (k : M OAuthResponse) :
  preserves caches_kept k ->
  preserves caches_kept (IrAuth.oauth_failure status ra attempt k).
Proof. intros Hk. unfold IrAuth.oauth_failure. frame. Qed.

#[export] Hint Resolve auth_credentials_kept oauth_form_kept oauth_failure_kept
  : frames.

Lemma oauth_attempts_kept env form attempts :
  preserves caches_kept (IrAuth.oauth_attempts env form attempts).
Proof.
  induction attempts as [|attempt rest IH]; cbn [IrAuth.oauth_attempts]; frame.
Qed.

#[export] Hint Resolve oauth_attempts_kept : frames.

Lemma make_oauth_request_kept env credentials grant_type refresh_token :
  preserves caches_kept
    (IrAuth.make_oauth_request env credentials grant_type refresh_token).
Proof. unfold IrAuth.make_oauth_request. frame. Qed.

Lemma store_tokens_kept env username resp :
  preserves caches_kept (IrAuth.store_tokens_in_dynamodb env username resp).
Proof.
  unfold IrAuth.store_tokens_in_dynamodb. frame.
  apply preserves_modify; try exact _. intros w0. split; reflexivity.
Qed.

Lemma get_existing_tokens_kept env username :
  preserves caches_kept (IrAuth.get_existing_tokens env username).
Proof. unfold IrAuth.get_existing_tokens. frame. Qed.

Lemma fresh_response_kept message resp :
  preserves caches_kept (IrAuth.fresh_response message resp).
Proof. unfold IrAuth.fresh_response. frame. Qed.

#[export] Hint Resolve make_oauth_request_kept store_tokens_kept
  get_existing_tokens_kept fresh_response_kept : frames.

Lemma auth_handler_kept env : preserves caches_kept (IrAuth.lambda_handler env).
Proof. unfold IrAuth.lambda_handler. frame. Qed.

#[export] Hint Resolve auth_handler_kept : frames.

Lemma custid_credentials_kept env :
  preserves caches_kept (IrCustid.get_oauth_credentials env).
Proof. unfold IrCustid.get_oauth_credentials. frame. Qed.

Lemma get_access_token_kept env username :
  preserves caches_kept (IrCustid.get_access_token env username).
Proof. unfold IrCustid.get_access_token. frame. Qed.

Lemma invoke_auth_lambda_kept env :
  preserves caches_kept (IrCustid.invoke_auth_lambda env).
Proof. unfold IrCustid.invoke_auth_lambda. frame. Qed.

#[export] Hint Resolve custid_credentials_kept get_access_token_kept
  invoke_auth_lambda_kept : frames.

Lemma reauthenticate_kept env username message :
  preserves caches_kept (IrCustid.reauthenticate env username message).
Proof. unfold IrCustid.reauthenticate. frame. Qed.

#[export] Hint Resolve reauthenticate_kept : frames.

Lemma acquire_token_kept env : preserves caches_kept (IrCustid.acquire_token env).
Proof. unfold IrCustid.acquire_token. frame. Qed.

#[export] Hint Resolve acquire_token_kept : frames.

(** ** What a resolution returns and writes *)

Lemma resolved_after env term w w1 res w' :
  ir_custid w1 = ir_custid w ->
  resolved env term w1 res w' -> resolved env term w res w'.
Proof. unfold resolved. intros ->. tauto. Qed.

Lemma cache_driver_result_inv env name n w res w' :
  IrCustid.cache_driver_result env name n w = (res, w') ->
  res = Ok tt
  /\ (ir_custid w' = <[name := n]> (ir_custid w)
      \/ (ir_custid w' = ir_custid w /\ exists h, is_Some (dynamodb_error env h))).
Proof.
  unfold IrCustid.cache_driver_result. munfold.
  destruct (dynamodb_error env (trace w)) eqn:E; intros [= <- <-].
  - split; [reflexivity|]. right. split; [reflexivity|]. exists (trace w).
    rewrite E. eauto.
  - split; [reflexivity|]. left. reflexivity.
Qed.

Lemma found_resolved env term d w res w' :
  IrCustid.found env d w = (res, w') -> resolved env term w res w'.
Proof.
  unfold IrCustid.found. intros H.
  apply bind_inv in H as [([] & w1 & Hc & H)|(e & Hc & ->)].
  - injection H as <- <-. apply cache_driver_result_inv in Hc as [_ Hc].
    right. exists d. split; [reflexivity|exact Hc].
  - apply cache_driver_result_inv in Hc as [Hc _]. discriminate.
Qed.

Lemma choose_driver_resolved env term drivers_data w res w' :
  IrCustid.choose_driver env term drivers_data w = (res, w') ->
  resolved env term w res w'.
Proof.
  unfold IrCustid.choose_driver. destruct drivers_data as [|first rest].
  - intros [= <- <-]. left. split; reflexivity.
  - cbv zeta.
    destruct (if 1 <? Z.of_nat (List.length (first :: rest))
              then List.find (fun driver => (display_name driver =? term)%string)
                     (first :: rest)
              else None); apply found_resolved.
Qed.

Lemma backoff_or_raise_resolved env term attempt (k : M json) e w res w' :
  (forall w0 res0 w1, k w0 = (res0, w1) -> resolved env term w0 res0 w1) ->
  IrCustid.backoff_or_raise attempt k e w = (res, w') ->
  resolved env term w res w'.
Proof.
  intros Hk. rewrite backoff_or_raise_eq.
  destruct (attempt <? MAX_RETRIES - 1).
  - intros H. apply bind_inv in H as [([] & w1 & Hs & H)|(e' & Hs & ->)].
    + apply time_sleep_inv in Hs as (_ & _ & Hc & _).
      eapply resolved_after; [exact Hc|]. now apply Hk.
    + now apply time_sleep_inv in Hs as (_ & _ & Hc & _).
  - intros [= <- <-]. reflexivity.
Qed.

Lemma search_attempts_resolved env term tok attempts :
  forall w res w',
    IrCustid.search_attempts env term tok attempts w = (res, w') ->
    resolved env term w res w'.
Proof.
  induction attempts as [|attempt rest IH]; intros w res w'.
  - intros [= <- <-]. reflexivity.
  - cbn [IrCustid.search_attempts]. cbv zeta. unfold urlopen at 1. munfold.
    destruct (lookup_drivers env (trace w) term tok) as [st ra b|code reason ra|reason];
      intros H; apply (resolved_after env term w (record (LookupDrivers term tok) w));
      try reflexivity.
    + destruct (st =? 200).
      * destruct b as [search_data|msg].
        -- destruct (link search_data) as [url|].
           2:{ injection H as <- <-. reflexivity. }
           revert H. unfold urlopen. munfold.
           match goal with |- context [fetch_drivers env ?h url] =>
             destruct (fetch_drivers env h url) as [st2 ra2 b2|code2 reason2 ra2|reason2]
           end; intros H;
             match goal with
             | |- resolved _ _ ?w0 _ _ =>
                 apply (resolved_after env term w0 (record (FetchDrivers url) w0));
                 try reflexivity
             end.
           ++ destruct (st2 =? 200).
              ** destruct b2 as [drivers_data|msg2].
                 --- eapply choose_driver_resolved. exact H.
                 --- eapply backoff_or_raise_resolved; [exact IH|exact H].
              ** revert H. unfold IrCustid.driver_data_failure.
                 destruct (st2 =? 401).
                 --- intros [= <- <-]. reflexivity.
                 --- apply backoff_or_raise_resolved, IH.
           ++ revert H. unfold IrCustid.driver_data_failure.
              destruct (code2 =? 401).
              ** intros [= <- <-]. reflexivity.
              ** apply backoff_or_raise_resolved, IH.
           ++ eapply backoff_or_raise_resolved; [exact IH|exact H].
        -- eapply backoff_or_raise_resolved; [exact IH|exact H].
      * revert H. unfold IrCustid.search_failure.
        destruct (st =? 401); [intros [= <- <-]; reflexivity|].
        destruct (st =? 429); apply backoff_or_raise_resolved, IH.
    + revert H. unfold IrCustid.search_failure.
      destruct (code =? 401); [intros [= <- <-]; reflexivity|].
      destruct (code =? 429); apply backoff_or_raise_resolved, IH.
    + eapply backoff_or_raise_resolved; [exact IH|exact H].
Qed.

Lemma custid_on_exception_not_200 e : statusCode (IrCustid.on_exception e) <> 200.
Proof. destruct e; discriminate. Qed.

(** What a 200 of the resolution handler is: a hit of the identifier
    cache, or a search against the upstream. *)
Lemma custid_handler_inv env event w r w' :
  IrCustid.lambda_handler env event w = (Ok r, w') ->
  statusCode r = 200 ->
  let term := unquote env (default "" (IrCustid.rawQueryString event)) in
  Py.truthy_str term = true
  /\ ((exists n,
          ir_custid w !! term = Some n
          /\ body r = IrCustid.custid_dict (JStr (Py.str n)) term "DynamoDB"
          /\ w' = record (GetItem "ir_custid" term) w)
      \/ (ir_custid w !! term = None /\ resolved env term w (Ok (body r)) w')).
Proof.
  intros H H200 term. unfold IrCustid.lambda_handler in H. fold term in H.
  apply try_except_inv in H as [(r0 & H & [= <-])|(e & w1 & _ & Hh)].
  2:{ injection Hh as <- <-. now apply custid_on_exception_not_200 in H200. }
  destruct (Py.truthy_str term) eqn:Hterm; cbn [negb] in H.
  2:{ injection H as <- <-. discriminate. }
  split; [reflexivity|].
  apply bind_inv_Ok in H as ([] & w1 & Hget & H).
  assert (w1 = record (GetItem "ir_custid" term) w) as ->.
  { revert Hget. unfold dynamodb_call. munfold.
    destruct (dynamodb_error env (trace w)); now intros [= <-]. }
  clear Hget. apply bind_inv_Ok in H as (response & w2 & Hresp & H).
  injection Hresp as <- <-. wsimpl.
  apply bind_inv_Ok in H as (custid & w3 & Hc & H). injection H as <- <-.
  cbn [body]. wsimpl in Hc.
  destruct (ir_custid w !! term) as [n|] eqn:Hlook.
  - injection Hc as <- <-. left. exists n. repeat split.
  - right. split; [reflexivity|].
    apply bind_inv_Ok in Hc as ([username access_token] & w4 & Hacq & Hc).
    apply acquire_token_kept in Hacq as [Hk4 _]. cbn [fst snd] in Hc.
    apply try_except_inv in Hc as [(j & Hs & [= <-])|(e & w5 & Hs & Hh)].
    + apply search_attempts_resolved in Hs.
      eapply resolved_after; [|exact Hs]. exact Hk4.
    + apply search_attempts_resolved in Hs. cbn [resolved] in Hs.
      destruct e; try discriminate.
      apply bind_inv_Ok in Hh as (tok & w6 & Hre & Hs2).
      apply reauthenticate_kept in Hre as [Hk6 _].
      apply search_attempts_resolved in Hs2.
      eapply resolved_after; [|exact Hs2]. wsimpl in Hk4. congruence.
Qed.

Lemma custid_handler_hit env raw w n :
  Py.truthy_str (unquote env raw) = true ->
  dynamodb_error env (trace w) = None ->
  ir_custid w !! unquote env raw = Some n ->
  IrCustid.lambda_handler env {| IrCustid.rawQueryString := Some raw |} w
  = (Ok {| statusCode := 200; headers := IrCustid.json_headers;
           body := IrCustid.custid_dict (JStr (Py.str n)) (unquote env raw)
                     "DynamoDB" |},
     record (GetItem "ir_custid" (unquote env raw)) w).
Proof.
  intros Hterm Hdb Hhit. unfold IrCustid.lambda_handler.
  change (default "" (IrCustid.rawQueryString
                        {| IrCustid.rawQueryString := Some raw |})) with raw.
  rewrite Hterm. cbn [negb]. munfold. rewrite Hdb. wsimpl. now rewrite Hhit.
Qed.

Lemma custid_handler_miss_ok env w credentials username access_token raw j w1 :
  services_up env credentials ->
  credentials !! "username" = Some username ->
  token_ready w username access_token ->
  Py.truthy_str (unquote env raw) = true ->
  ir_custid w !! unquote env raw = None ->
  IrCustid.search_driver_with_auth env (unquote env raw) access_token
    (record (GetItem "ir_auth" username)
       (record GetSecretValue
          (record (GetItem "ir_custid" (unquote env raw)) w)))
  = (Ok j, w1) ->
  IrCustid.lambda_handler env {| IrCustid.rawQueryString := Some raw |} w
  = (Ok {| statusCode := 200; headers := IrCustid.json_headers; body := j |}, w1).
Proof.
  intros Hup Hu Hready Hterm Hmiss Hsearch.
  unfold IrCustid.lambda_handler.
  erewrite try_except_Ok; [reflexivity|].
  change (default "" (IrCustid.rawQueryString
                        {| IrCustid.rawQueryString := Some raw |})) with raw.
  rewrite Hterm. cbn [negb].
  assert (Hget : dynamodb_call env (GetItem "ir_custid" (unquote env raw)) w
                 = (Ok tt, record (GetItem "ir_custid" (unquote env raw)) w)).
  { unfold dynamodb_call. munfold. now rewrite (proj1 Hup). }
  rewrite (bind_Ok _ _ _ _ _ Hget).
  unfold gets at 1. unfold bind at 1. wsimpl. rewrite Hmiss.
  erewrite bind_Ok; [reflexivity|]. cbn iota.
  rewrite (bind_Ok _ _ _ _ _
             (acquire_token_ready env
                (record (GetItem "ir_custid" (unquote env raw)) w) _ _ _
                Hup Hu Hready)).
  cbn [fst snd]. now apply try_except_Ok.
Qed.

Lemma search_no_candidates env term tok w ra ra' url :
  lookup_drivers env (trace w) term tok
  = Response 200 ra (Json {| link := Some url |}) ->
  fetch_drivers env (LookupDrivers term tok :: trace w) url
  = Response 200 ra' (Json []) ->
  IrCustid.search_driver_with_auth env term tok w
  = (Ok (not_found term),
     record (FetchDrivers url) (record (LookupDrivers term tok) w)).
Proof.
  intros H1 H2. unfold IrCustid.search_driver_with_auth.
  change (range MAX_RETRIES) with [0; 1; 2].
  cbn [IrCustid.search_attempts]. munfold. rewrite H1.
  change (200 =? 200) with true. munfold. cbn [link]. wsimpl. rewrite H2.
  reflexivity.
Qed.

(** C9: when the upstream returns no candidate, the resolution answers
    200 with the identifier 0 and the name ["Not found: " + term], makes no
    write (the trace has no [PutItem], the identifier table is as it
    was); and whatever the upstream does, a response whose [custid] is
    the integer 0 leaves the identifier table as it was. *)
Theorem empty_candidates_sentinel_not_cached
    env w credentials username access_token raw ra ra' url :
  let term := unquote env raw in
  let h := GetItem "ir_auth" username :: GetSecretValue
           :: GetItem "ir_custid" term :: trace w in
  services_up env credentials ->
  credentials !! "username" = Some username ->
  token_ready w username access_token ->
  Py.truthy_str term = true ->
  ir_custid w !! term = None ->
  lookup_drivers env h term access_token
  = Response 200 ra (Json {| link := Some url |}) ->
  fetch_drivers env (LookupDrivers term access_token :: h) url
  = Response 200 ra' (Json []) ->
  IrCustid.lambda_handler env {| IrCustid.rawQueryString := Some raw |} w
  = (Ok {| statusCode := 200;
           headers := [("Content-Type", "application/json")];
           body := JDict [("custid", JInt 0);
                          ("name", JStr ("Not found: " +:+ term));
                          ("origin", JStr "iRacing")] |},
     {| clock := clock w; ir_auth := ir_auth w; ir_custid := ir_custid w;
        ir_drivers := ir_drivers w;
        trace := FetchDrivers url :: LookupDrivers term access_token :: h |})
  /\ forall event0 w0 r0 w0' name origin,
       IrCustid.lambda_handler env event0 w0 = (Ok r0, w0') ->
       body r0 = IrCustid.custid_dict (JInt 0) name origin ->
       statusCode r0 = 200 ->
       ir_custid w0' = ir_custid w0.
Proof.
  intros term h Hup Hu Hready Hterm Hmiss Hlookup Hfetch. split.
  - rewrite (custid_handler_miss_ok _ _ _ _ _ _ _ _ Hup Hu Hready Hterm Hmiss
               (search_no_candidates env term access_token
                  (record (GetItem "ir_auth" username)
                     (record GetSecretValue
                        (record (GetItem "ir_custid" term) w)))
                  _ _ _ Hlookup Hfetch)).
    reflexivity.
  - intros event0 w0 r0 w0' name origin H Hbody H200.
    destruct (custid_handler_inv _ _ _ _ _ H H200)
      as (_ & [(n & _ & Hb & _)|(_ & Hres)]).
    + rewrite Hbody in Hb. discriminate.
    + rewrite Hbody in Hres. destruct Hres as [[_ Hk]|(d & Hd & _)].
      * exact Hk.
      * discriminate.
Qed.

Lemma empty_candidates_sentinel_not_cached_witness :
  exists w',
    IrCustid.lambda_handler (Scenario.resolving [])
      {| IrCustid.rawQueryString := Some "Zzyzx" |} (Scenario.signed_in 1000)
    = (Ok {| statusCode := 200;
             headers := [("Content-Type", "application/json")];
             body := JDict [("custid", JInt 0);
                            ("name", JStr "Not found: Zzyzx");
                            ("origin", JStr "iRacing")] |}, w')
    /\ ir_custid w' = ∅.
Proof.
  destruct (empty_candidates_sentinel_not_cached (Scenario.resolving [])
              (Scenario.signed_in 1000) Scenario.credentials Scenario.username
              "access-0" "Zzyzx" NoRetryAfter NoRetryAfter Scenario.drivers_link)
    as [H _].
  - split; intros h; reflexivity.
  - vm_compute. reflexivity.
  - eexists (Scenario.stored_token 1300), 1300. repeat split; reflexivity.
  - reflexivity.
  - vm_compute. reflexivity.
  - reflexivity.
  - reflexivity.
  - eexists. split; [exact H|reflexivity].
Defined.

(** C10: the [custid] of a 200 response of the resolution handler is the
    integer 0, with the name ["Not found: " + term], when the upstream
    had no candidate, and a decimal string otherwise (a candidate from
    the upstream or an entry of the cache); both occur. *)
Theorem custid_wire_type :
  (forall env event w r w',
      IrCustid.lambda_handler env event w = (Ok r, w') ->
      statusCode r = 200 ->
      let term := unquote env (default "" (IrCustid.rawQueryString event)) in
      exists custid name origin,
        body r = JDict [("custid", custid); ("name", JStr name);
                        ("origin", JStr origin)]
        /\ ((custid = JInt 0 /\ name = "Not found: " +:+ term
             /\ origin = "iRacing")
            \/ (exists n, custid = JStr (Py.str n)
                          /\ (origin = "DynamoDB" \/ origin = "iRacing"))))
  /\ (exists w',
         IrCustid.lambda_handler (Scenario.resolving [Scenario.bob_smith])
           {| IrCustid.rawQueryString := Some "bob" |} (Scenario.signed_in 1000)
         = (Ok {| statusCode := 200; headers := IrCustid.json_headers;
                  body := JDict [("custid", JStr "42");
                                 ("name", JStr "Bob Smith");
                                 ("origin", JStr "iRacing")] |}, w'))
  /\ (exists w',
         IrCustid.lambda_handler (Scenario.resolving [])
           {| IrCustid.rawQueryString := Some "bob" |} (Scenario.signed_in 1000)
         = (Ok {| statusCode := 200; headers := IrCustid.json_headers;
                  body := JDict [("custid", JInt 0);
                                 ("name", JStr "Not found: bob");
                                 ("origin", JStr "iRacing")] |}, w')).
Proof.
  split; [|split; eexists; vm_compute; reflexivity].
  intros env event w r w' H H200 term.
  destruct (custid_handler_inv _ _ _ _ _ H H200)
    as (_ & [(n & _ & Hb & _)|(_ & [[Hb _]|(d & Hb & _)])]); fold term in Hb.
  - exists (JStr (Py.str n)), term, "DynamoDB". split; [exact Hb|]. right. eauto.
  - exists (JInt 0), ("Not found: " +:+ term), "iRacing". split; [exact Hb|].
    left. repeat split.
  - exists (JStr (Py.str (cust_id d))), (display_name d), "iRacing".
    split; [exact Hb|]. right. eauto.
Qed.

(** C4, on the code: the candidate is cached under its display name, not
    under the query, so the second resolution of ["bob"] misses the cache
    and goes to the upstream again. *)
Lemma second_resolution_misses_cache :
  let env := Scenario.resolving [Scenario.bob_smith] in
  let event := {| IrCustid.rawQueryString := Some "bob" |} in
  let first := IrCustid.lambda_handler env event (Scenario.signed_in 1000) in
  let second := IrCustid.lambda_handler env event (snd first) in
  fst first
  = Ok {| statusCode := 200; headers := IrCustid.json_headers;
          body := JDict [("custid", JStr "42"); ("name", JStr "Bob Smith");
                         ("origin", JStr "iRacing")] |}
  /\ ir_custid (snd first) !! "Bob Smith" = Some 42
  /\ ir_custid (snd first) !! "bob" = None
  /\ fst second
     = Ok {| statusCode := 200; headers := IrCustid.json_headers;
             body := JDict [("custid", JStr "42"); ("name", JStr "Bob Smith");
                            ("origin", JStr "iRacing")] |}
  /\ trace (snd second)
     = ([PutItem "ir_custid" "Bob Smith"; FetchDrivers Scenario.drivers_link;
         LookupDrivers "bob" "access-0"; GetItem "ir_auth" Scenario.username;
         GetSecretValue; GetItem "ir_custid" "bob"] ++ trace (snd first))%list.
Proof. cbv zeta. repeat split; vm_compute; reflexivity. Qed.

(** C4, as the code has it: when the first resolution of a name answered
    with that same name (a cache entry, or a chosen candidate whose
    display name is the query) and DynamoDB does not fail, the second
    resolution answers the same identifier from the cache, and all it does
    is read the cache. *)
Theorem resolution_idempotent_on_matching_name env raw w r1 w1 id origin :
  let term := unquote env raw in
  let event := {| IrCustid.rawQueryString := Some raw |} in
  (forall h, dynamodb_error env h = None) ->
  IrCustid.lambda_handler env event w = (Ok r1, w1) ->
  statusCode r1 = 200 ->
  body r1 = IrCustid.custid_dict (JStr id) term origin ->
  IrCustid.lambda_handler env event w1
  = (Ok {| statusCode := 200; headers := IrCustid.json_headers;
           body := JDict [("custid", JStr id); ("name", JStr term);
                          ("origin", JStr "DynamoDB")] |},
     record (GetItem "ir_custid" term) w1).
Proof.
  intros term event Hdb H H200 Hbody.
  destruct (custid_handler_inv _ _ _ _ _ H H200) as (Hterm & Hcase).
  change (unquote env (default "" (IrCustid.rawQueryString event)))
    with term in Hterm, Hcase.
  assert (exists n, id = Py.str n /\ ir_custid w1 !! term = Some n)
    as (n & -> & Hn).
  { destruct Hcase as [(n & Hn & Hb & ->)|(_ & [[Hb _]|(d & Hb & Hw)])].
    - rewrite Hbody in Hb. injection Hb as ->. exists n. split; [reflexivity|].
      exact Hn.
    - rewrite Hbody in Hb. discriminate.
    - rewrite Hbody in Hb. injection Hb as -> Hname. exists (cust_id d).
      split; [reflexivity|].
      destruct Hw as [Hw|(_ & h & Hh)].
      + rewrite Hw, Hname. apply lookup_insert_eq.
      + rewrite Hdb in Hh. now destruct Hh. }
  exact (custid_handler_hit env raw w1 n Hterm (Hdb _) Hn).
Qed.

Lemma resolution_idempotent_on_matching_name_witness :
  let env := Scenario.resolving [Scenario.bob_smith; Scenario.bob] in
  let event := {| IrCustid.rawQueryString := Some "bob" |} in
  exists r1 w1 w2,
    IrCustid.lambda_handler env event (Scenario.signed_in 1000) = (Ok r1, w1)
    /\ body r1 = IrCustid.custid_dict (JStr "7") "bob" "iRacing"
    /\ IrCustid.lambda_handler env event w1
       = (Ok {| statusCode := 200; headers := IrCustid.json_headers;
                body := IrCustid.custid_dict (JStr "7") "bob" "DynamoDB" |}, w2)
    /\ trace w2 = GetItem "ir_custid" "bob" :: trace w1.
Proof.
  cbv zeta.
  destruct (IrCustid.lambda_handler
              (Scenario.resolving [Scenario.bob_smith; Scenario.bob])
              {| IrCustid.rawQueryString := Some "bob" |}
              (Scenario.signed_in 1000)) as [[r1|e] w1] eqn:E;
    [|vm_compute in E; discriminate].
  assert (Hr : r1 = {| statusCode := 200; headers := IrCustid.json_headers;
                       body := IrCustid.custid_dict (JStr "7") "bob" "iRacing" |}).
  { vm_compute in E. injection E as <- _. reflexivity. }
  exists r1, w1, (record (GetItem "ir_custid" "bob") w1).
  split; [reflexivity|]. split; [now rewrite Hr|]. split; [|reflexivity].
  apply (resolution_idempotent_on_matching_name
           (Scenario.resolving [Scenario.bob_smith; Scenario.bob]) "bob"
           (Scenario.signed_in 1000) r1 w1 "7" "iRacing").
  - intros h. reflexivity.
  - exact E.
  - now rewrite Hr.
  - now rewrite Hr.
Defined.

(** ** [int(str(n))] *)

Lemma rstrip_no_space s : no_space s = true -> Py.rstrip s = s.
Proof.
  induction s as [|c s IH]; [reflexivity|]. cbn [no_space].
  intros [Hc Hs]%andb_prop. rewrite rstrip_cons, (IH Hs).
  destruct s; [|reflexivity]. now destruct (Py.isspace c).
Qed.

Lemma strip_no_space s : no_space s = true -> Py.strip s = s.
Proof.
  intros H. unfold Py.strip. rewrite (rstrip_no_space _ H).
  destruct s as [|c s]; [reflexivity|]. cbn in H |- *.
  now destruct (Py.isspace c).
Qed.

Lemma string_of_uint_no_space d : no_space (NilEmpty.string_of_uint d) = true.
Proof. induction d; cbn; auto. Qed.

Lemma string_of_int_no_space d : no_space (NilZero.string_of_int d) = true.
Proof.
  destruct d as [d|d]; cbn; (destruct d; [reflexivity|apply string_of_uint_no_space..]).
Qed.

Lemma string_of_int_not_plus d s : NilZero.string_of_int d <> String "+" s.
Proof. destruct d as [d|d]; destruct d; discriminate. Qed.

Lemma int_str n : Py.int (Py.str n) = Some n.
Proof.
  unfold Py.int, Py.str. rewrite (strip_no_space _ (string_of_int_no_space _)).
  assert (H : Z.of_int <$> NilZero.int_of_string
                (NilZero.string_of_int (Z.to_int n)) = Some n).
  { rewrite NilZero.isi.
    - cbn. now rewrite DecimalZ.of_to.
    - destruct n; cbn; try discriminate.
      intros [= H]. now apply Unsigned.to_uint_nonnil in H.
    - destruct n; cbn; try discriminate.
      intros [= H]. now apply Unsigned.to_uint_nonnil in H. }
  pose proof (string_of_int_not_plus (Z.to_int n)) as Hplus.
  destruct (NilZero.string_of_int (Z.to_int n)) as [|c s]; [exact H|].
  destruct (Ascii.eqb_spec c "+"%char) as [->|Hc].
  - now destruct (Hplus s).
  - destruct c as [[] [] [] [] [] [] [] []]; try exact H. now destruct Hc.
Qed.

Lemma str_truthy n : Py.truthy_str (Py.str n) = true.
Proof.
  unfold Py.str. destruct (Z.to_int n) as [d|d]; [|reflexivity].
  destruct d; reflexivity.
Qed.

(** ** The profile service *)

Lemma json_get_set_eq k v kv : Json.get k (Json.set k v kv) = Some v.
Proof.
  induction kv as [|[k' v'] kv IH]; cbn.
  - now rewrite String.eqb_refl.
  - destruct (String.eqb_spec k k') as [->|Hne]; cbn.
    + now rewrite String.eqb_refl.
    + destruct (String.eqb_spec k k'); [contradiction|exact IH].
Qed.

Lemma json_get_set_ne k k' v kv :
  k <> k' -> Json.get k (Json.set k' v kv) = Json.get k kv.
Proof.
  intros Hne. induction kv as [|[k'' v''] kv IH]; cbn.
  - destruct (String.eqb_spec k k'); [contradiction|reflexivity].
  - destruct (String.eqb_spec k' k'') as [<-|Hne']; cbn.
    + destruct (String.eqb_spec k k'); [contradiction|reflexivity].
    + destruct (String.eqb_spec k k''); [reflexivity|exact IH].
Qed.

Lemma backoff_or_raise_Ok {A} attempt (k : M A) e w a w' :
  IrCustid.backoff_or_raise attempt k e w = (Ok a, w') ->
  exists w0, k w0 = (Ok a, w').
Proof.
  rewrite backoff_or_raise_eq. destruct (attempt <? MAX_RETRIES - 1).
  - intros H. apply bind_inv_Ok in H as ([] & w0 & _ & H). eauto.
  - discriminate.
Qed.

(** A profile that the fetch returns is the document of some reply of the
    link. *)
Lemma profile_attempts_fetched env cust_id tok attempts :
  forall w j w',
    IrDrivers.profile_attempts env cust_id tok attempts w = (Ok j, w') ->
    exists h url status ra, fetch_profile env h url = Response status ra (Json j).
Proof.
  induction attempts as [|attempt rest IH]; intros w j w'; [discriminate|].
  cbn [IrDrivers.profile_attempts]. cbv zeta. unfold urlopen at 1. munfold.
  assert (Hback : forall e w0,
    IrCustid.backoff_or_raise attempt
      (IrDrivers.profile_attempts env cust_id tok rest) e w0 = (Ok j, w') ->
    exists h url status ra, fetch_profile env h url = Response status ra (Json j)).
  { intros e w0 H. apply backoff_or_raise_Ok in H as [w1 H]. eapply IH, H. }
  assert (Hfail1 : forall status w0,
    IrDrivers.profile_failure status attempt
      (IrDrivers.profile_attempts env cust_id tok rest) w0 = (Ok j, w') ->
    exists h url status ra, fetch_profile env h url = Response status ra (Json j)).
  { intros status w0. unfold IrDrivers.profile_failure.
    destruct (status =? 401); [discriminate|].
    destruct (status =? 429); apply Hback. }
  assert (Hfail2 : forall status w0,
    IrDrivers.profile_detail_failure status attempt
      (IrDrivers.profile_attempts env cust_id tok rest) w0 = (Ok j, w') ->
    exists h url status ra, fetch_profile env h url = Response status ra (Json j)).
  { intros status w0. unfold IrDrivers.profile_detail_failure.
    destruct (status =? 401); [discriminate|]. apply Hback. }
  destruct (member_profile env (trace w) cust_id tok)
    as [st ra b|code reason ra|reason]; eauto.
  destruct (st =? 200); eauto.
  destruct b as [profile_data|msg]; eauto.
  destruct (link profile_data) as [url|]; [|discriminate].
  unfold urlopen. munfold.
  match goal with |- context [fetch_profile env ?h url] =>
    destruct (fetch_profile env h url) as [st2 ra2 b2|code2 reason2 ra2|reason2] eqn:E
  end; eauto.
  destruct (st2 =? 200); eauto.
  destruct b2 as [driver_profile|msg2]; eauto.
  intros [= <- <-]. eauto.
Qed.

Lemma get_cached_driver_profile_inv env name w res w' :
  IrDrivers.get_cached_driver_profile env name w = (res, w') ->
  exists cached, res = Ok cached
    /\ forall profile, cached = Some profile ->
         exists item, ir_drivers w !! name = Some item /\ pi_profile item = profile
                      /\ clock w < default 0 (pi_ttl item).
Proof.
  unfold IrDrivers.get_cached_driver_profile. munfold.
  destruct (dynamodb_error env (trace w)).
  { intros [= <- <-]. eexists. split; [reflexivity|discriminate]. }
  wsimpl. destruct (ir_drivers w !! name) as [item|].
  2:{ intros [= <- <-]. eexists. split; [reflexivity|discriminate]. }
  munfold. destruct (default 0 (pi_ttl item) >? clock w) eqn:E;
    intros [= <- <-]; eexists; (split; [reflexivity|]); [|discriminate].
  intros profile [= <-]. exists item. repeat split.
  rewrite Z.gtb_ltb in E. now apply Z.ltb_lt in E.
Qed.

Lemma fetch_and_cache_inv env name w0 name' cust_id tok w entry w' :
  IrDrivers.fetch_and_cache env name' cust_id tok w = (Ok entry, w') ->
  is_profile env name w0 entry.
Proof.
  unfold IrDrivers.fetch_and_cache. intros H.
  apply bind_inv_Ok in H as (profile & w1 & Hget & H).
  apply bind_inv_Ok in H as ([] & w2 & _ & H). injection H as <- <-.
  right. eapply profile_attempts_fetched. exact Hget.
Qed.

Lemma profile_with_reauth_inv env name w0 cust_id username tok w entry w' :
  IrDrivers.profile_with_reauth env name cust_id username tok w = (Ok entry, w') ->
  is_profile env name w0 entry.
Proof.
  unfold IrDrivers.profile_with_reauth. intros E.
  apply try_except_inv in E as [(a & E & [= <-])|(e & w6 & _ & E)].
  - eapply fetch_and_cache_inv, E.
  - destruct e; try discriminate.
    apply bind_inv_Ok in E as (tok' & w7 & _ & E).
    eapply fetch_and_cache_inv, E.
Qed.

(** [process_driver] always returns, and what it returns is an entry; when
    its body raises, the entry is the error object of the exception. *)
Lemma process_driver_total env name username tok w :
  exists entry w',
    IrDrivers.process_driver env name username tok w = (Ok entry, w')
    /\ is_entry env name w entry.
Proof.
  unfold IrDrivers.process_driver.
  match goal with |- context [try_except ?m ?h w] =>
    destruct (m w) as [[entry|e] w1] eqn:E
  end.
  - exists entry, w1. split; [now apply try_except_Ok|].
    apply bind_inv_Ok in E as (cached & w2 & Hc & E).
    apply get_cached_driver_profile_inv in Hc as (cached' & [= <-] & Hc).
    assert (Hmiss : forall w2,
      (cached_id <- IrDrivers.get_customer_id_from_cache env name;;
       cust_id <-
         match IrCustid.usable_token cached_id with
         | Some s => ret (JStr s)
         | None => IrDrivers.invoke_custid_lambda env name
         end;;
       invalid <- IrDrivers.invalid_cust_id cust_id;;
       if (invalid : bool) then
         ret (IrDrivers.error_entry ("Driver not found: " +:+ name))
       else IrDrivers.profile_with_reauth env name cust_id username tok)%py w2
      = (Ok entry, w1) -> is_entry env name w entry).
    { intros w0 E0.
      apply bind_inv_Ok in E0 as (cached_id & w3 & _ & E0).
      apply bind_inv_Ok in E0 as (cust_id & w4 & _ & E0).
      apply bind_inv_Ok in E0 as (invalid & w5 & _ & E0).
      destruct invalid.
      - injection E0 as <- <-. left. eauto.
      - right. eapply profile_with_reauth_inv, E0. }
    destruct cached as [profile|]; cbn [IrDrivers.truthy_profile] in E.
    + destruct (Json.truthy profile); [|eapply Hmiss, E].
      injection E as <- <-. right. left. now apply Hc.
    + eapply Hmiss, E.
  - rewrite (try_except_Raise _ _ _ _ _ E).
    destruct e; do 2 eexists; (split; [reflexivity|left; cbn; eauto]).
Qed.

Lemma process_all_spec env username tok drivers :
  forall drivers_info w,
  exists entries w',
    processed env username tok w drivers entries w'
    /\ IrDrivers.process_all env drivers username tok drivers_info w
       = (Ok (set_all entries drivers_info), w').
Proof.
  induction drivers as [|name rest IH]; intros info w.
  - exists [], w. split; [constructor|reflexivity].
  - cbn [IrDrivers.process_all].
    destruct (process_driver_total env name username tok w)
      as (entry & w1 & H & He).
    rewrite (bind_Ok _ _ _ _ _ H).
    destruct (IH (Json.set name entry info) w1) as (entries & w' & Hp & Hall).
    exists ((name, entry) :: entries), w'. split; [|exact Hall].
    econstructor; eassumption.
Qed.

Lemma processed_names env username tok w drivers entries w' :
  processed env username tok w drivers entries w' ->
  List.map fst entries = drivers.
Proof. induction 1; cbn; congruence. Qed.

Lemma get_set_all entries :
  forall info name,
    (name ∈ List.map fst entries ->
     exists entry,
       Json.get name (set_all entries info) = Some entry
       /\ (name, entry) ∈ entries)
    /\ (name ∉ List.map fst entries ->
        Json.get name (set_all entries info) = Json.get name info).
Proof.
  induction entries as [|[n e] rest IH]; intros info name.
  - split; [|reflexivity]. intros H. now apply elem_of_nil in H.
  - change (set_all ((n, e) :: rest) info) with (set_all rest (Json.set n e info)).
    destruct (IH (Json.set n e info) name) as [Hin Hout].
    cbn [List.map fst]. split.
    + intros Hname. destruct (decide (name ∈ List.map fst rest)) as [Hr|Hr].
      * destruct (Hin Hr) as (entry & Hg & He). exists entry.
        split; [exact Hg|]. apply elem_of_cons. now right.
      * apply elem_of_cons in Hname as [->|Hname]; [|contradiction].
        exists e. rewrite (Hout Hr), json_get_set_eq.
        split; [reflexivity|]. apply elem_of_cons. now left.
    + intros Hname. apply not_elem_of_cons in Hname as [Hne Hr].
      now rewrite (Hout Hr), json_get_set_ne.
Qed.

(** C8: once the batch has its token, the handler answers 200 whatever
    happens to the names.  The names are processed in order, each by
    [process_driver] in the world the names before it left; each gets an
    entry, the per-name error object when its processing failed and its
    profile otherwise; and the body maps every name of the query, and no
    other name, to the entry it got. *)
Theorem batch_isolation env event w username access_token w1 :
  IrDrivers.parse_names env event <> [] ->
  IrDrivers.acquire_token env w = (Ok (username, access_token), w1) ->
  exists entries w',
    processed env username access_token w1 (IrDrivers.parse_names env event)
      entries w'
    /\ IrDrivers.lambda_handler env event w
       = (Ok {| statusCode := 200; headers := IrDrivers.cors_headers;
                body := JDict (set_all entries []) |}, w')
    /\ (forall name, name ∈ IrDrivers.parse_names env event ->
          exists entry,
            Json.get name (set_all entries []) = Some entry
            /\ (name, entry) ∈ entries)
    /\ (forall name, is_Some (Json.get name (set_all entries [])) ->
          name ∈ IrDrivers.parse_names env event).
Proof.
  intros Hnames Hacq.
  destruct (process_all_spec env username access_token
              (IrDrivers.parse_names env event) [] w1)
    as (entries & w' & Hp & Hall).
  pose proof (processed_names _ _ _ _ _ _ _ Hp) as Hfst.
  exists entries, w'. split; [exact Hp|]. split; [|split].
  - unfold IrDrivers.lambda_handler. cbv zeta.
    destruct (IrDrivers.parse_names env event) as [|name0 rest] eqn:E;
      [contradiction|].
    erewrite try_except_Ok; [reflexivity|].
    rewrite (bind_Ok _ _ _ _ _ Hacq). cbn [fst snd].
    now rewrite (bind_Ok _ _ _ _ _ Hall).
  - intros name Hname. apply (get_set_all entries [] name). now rewrite Hfst.
  - intros name [entry Hentry].
    destruct (decide (name ∈ IrDrivers.parse_names env event)) as [H|H];
      [exact H|].
    rewrite <- Hfst in H.
    rewrite (proj2 (get_set_all entries [] name) H) in Hentry. discriminate.
Qed.

Lemma batch_isolation_witness :
  exists w',
    IrDrivers.lambda_handler Scenario.profiles Scenario.batch_event
      (Scenario.batch_world 1000)
    = (Ok {| statusCode := 200; headers := IrDrivers.cors_headers;
             body :=
               JDict
                 [("A", Scenario.profile_document (Scenario.profile_link "1"));
                  ("B", IrDrivers.error_entry
                          "iRacing API error for B: Profile request failed: 500");
                  ("C", Scenario.profile_document (Scenario.profile_link "3"))] |},
       w').
Proof.
  destruct (batch_isolation Scenario.profiles Scenario.batch_event
              (Scenario.batch_world 1000) Scenario.username "access-0"
              (record (GetItem "ir_auth" Scenario.username)
                 (record GetSecretValue (Scenario.batch_world 1000))))
    as (entries & w' & _ & H & _).
  - vm_compute. discriminate.
  - vm_compute. reflexivity.
  - exists w'. rewrite H. vm_compute in H. injection H as Hb _.
    apply (f_equal (fun b => (Ok {| statusCode := 200;
                                    headers := IrDrivers.cors_headers;
                                    body := JDict b |}, w'))).
    symmetry. exact Hb.
Defined.

(** ** One name, step by step *)

(** With a good token in the table, [ir_auth] answers 200 from it. *)
Lemma auth_handler_cached env w credentials username tok :
  services_up env credentials ->
  full_credentials credentials ->
  credentials !! "username" = Some username ->
  token_ready w username tok ->
  exists r,
    IrAuth.lambda_handler env w
    = (Ok r, record (GetItem "ir_auth" username) (record GetSecretValue w))
    /\ statusCode r = 200.
Proof.
  intros [Hdb Hsec] Hc Hu (item & ttl & Hi & Httl & Hlt & Htok & _).
  unfold IrAuth.lambda_handler.
  assert (Hex : IrAuth.get_existing_tokens env username (record GetSecretValue w)
                = (Ok (Some (IrAuth.ValidTokens tok
                               (default "Bearer" (ti_token_type item))
                               (default 0 (ti_expires_in item))
                               (default "" (ti_scope item))
                               (ti_refresh_token item)
                               (default 0 (ti_refresh_token_expires_in item)))),
                   record (GetItem "ir_auth" username) (record GetSecretValue w))).
  { unfold IrAuth.get_existing_tokens. munfold. rewrite Hdb. wsimpl.
    rewrite Hi, Httl. change (default 0 (Some ttl)) with ttl. munfold.
    destruct (ttl >? clock w) eqn:E;
      [|rewrite Z.gtb_ltb in E; apply Z.ltb_ge in E; lia].
    now rewrite Htok. }
  eexists. split.
  - erewrite try_except_Ok; [reflexivity|].
    rewrite (bind_Ok _ _ _ _ _ (auth_get_oauth_credentials_ok _ _ _ (Hsec _) Hc)).
    unfold getitem at 1. rewrite Hu.
    rewrite (bind_Ok (ret username) _ _ username _ eq_refl).
    rewrite (bind_Ok _ _ _ _ _ Hex). reflexivity.
  - reflexivity.
Qed.

Lemma invoke_auth_lambda_cached env w credentials username tok :
  services_up env credentials ->
  full_credentials credentials ->
  credentials !! "username" = Some username ->
  lambda_invoke env (trace w) "ir_auth" = InvokeStatusCode 200 ->
  token_ready w username tok ->
  IrCustid.invoke_auth_lambda env w
  = (Ok tt, record (GetItem "ir_auth" username)
              (record GetSecretValue (record (Invoke "ir_auth") w))).
Proof.
  intros Hup Hc Hu Hinv Hready.
  destruct (auth_handler_cached env (record (Invoke "ir_auth") w) _ _ _
              Hup Hc Hu Hready) as (r & Hr & H200).
  unfold IrCustid.invoke_auth_lambda. apply try_except_Ok.
  unfold gets at 1, emit at 1, modify at 1. unfold bind at 1 2. wsimpl.
  rewrite Hinv. rewrite (bind_Ok _ _ _ _ _ Hr).
  change (200 =? 200) with true. cbn [negb]. rewrite H200.
  reflexivity.
Qed.

Lemma reauthenticate_cached env w credentials username tok message :
  services_up env credentials ->
  full_credentials credentials ->
  credentials !! "username" = Some username ->
  lambda_invoke env (trace w) "ir_auth" = InvokeStatusCode 200 ->
  token_ready w username tok ->
  IrCustid.reauthenticate env username message w
  = (Ok tok,
     record (GetItem "ir_auth" username)
       (record (GetItem "ir_auth" username)
          (record GetSecretValue (record (Invoke "ir_auth") w)))).
Proof.
  intros Hup Hc Hu Hinv Hready. unfold IrCustid.reauthenticate.
  rewrite (bind_Ok _ _ _ _ _
             (invoke_auth_lambda_cached _ _ _ _ _ Hup Hc Hu Hinv Hready)).
  erewrite bind_Ok.
  2:{ apply get_access_token_ready; [apply (proj1 Hup)|exact Hready]. }
  unfold IrCustid.usable_token.
  destruct Hready as (_ & _ & _ & _ & _ & _ & Ht). now rewrite Ht.
Qed.

Lemma get_driver_profile_401 env cust_id tok w :
  reply_status (member_profile env (trace w) cust_id tok) = Some 401 ->
  IrDrivers.get_driver_profile_with_auth env cust_id tok w
  = (Raise (AuthenticationError "Access token expired or invalid"),
     record (MemberProfile cust_id tok) w).
Proof.
  intros H. unfold IrDrivers.get_driver_profile_with_auth.
  change (range MAX_RETRIES) with [0; 1; 2].
  cbn [IrDrivers.profile_attempts]. cbv zeta. unfold urlopen at 1. munfold.
  destruct (member_profile env (trace w) cust_id tok) as [st ra b|code reason ra|reason];
    cbn in H; try discriminate; injection H as ->; reflexivity.
Qed.

Lemma get_driver_profile_ok env cust_id tok w ra ra' url profile :
  member_profile env (trace w) cust_id tok
  = Response 200 ra (Json {| link := Some url |}) ->
  fetch_profile env (MemberProfile cust_id tok :: trace w) url
  = Response 200 ra' (Json profile) ->
  IrDrivers.get_driver_profile_with_auth env cust_id tok w
  = (Ok profile, record (FetchProfile url) (record (MemberProfile cust_id tok) w)).
Proof.
  intros H1 H2. unfold IrDrivers.get_driver_profile_with_auth.
  change (range MAX_RETRIES) with [0; 1; 2].
  cbn [IrDrivers.profile_attempts]. cbv zeta. unfold urlopen at 1. munfold.
  rewrite H1. change (200 =? 200) with true. munfold. cbn [link]. wsimpl.
  rewrite H2. reflexivity.
Qed.

Lemma get_customer_id_cached env name n w :
  dynamodb_error env (trace w) = None ->
  ir_custid w !! name = Some n ->
  IrDrivers.get_customer_id_from_cache env name w
  = (Ok (Some (Py.str n)), record (GetItem "ir_custid" name) w).
Proof.
  intros Hdb Hn. unfold IrDrivers.get_customer_id_from_cache. munfold.
  rewrite Hdb. wsimpl. now rewrite Hn.
Qed.

(** After a miss of the profile cache, with a positive identifier in the
    identifier cache, [process_driver] is the fetch with its one
    re-authentication, under the outer [except] clauses. *)
Lemma process_driver_miss env name username tok w cached w1 n :
  IrDrivers.get_cached_driver_profile env name w = (Ok cached, w1) ->
  IrDrivers.truthy_profile cached = None ->
  dynamodb_error env (trace w1) = None ->
  ir_custid w1 !! name = Some n ->
  0 < n ->
  IrDrivers.process_driver env name username tok w
  = try_except
      (IrDrivers.profile_with_reauth env name (JStr (Py.str n)) username tok)
      (fun e => ret (IrDrivers.driver_error name e))
      (record (GetItem "ir_custid" name) w1).
Proof.
  intros Hc Hmiss Hdb Hn Hpos. unfold IrDrivers.process_driver.
  unfold try_except.
  rewrite (bind_Ok _ _ _ _ _ Hc), Hmiss.
  rewrite (bind_Ok _ _ _ _ _ (get_customer_id_cached _ _ _ _ Hdb Hn)).
  unfold IrCustid.usable_token. rewrite str_truthy.
  rewrite (bind_Ok (ret (JStr (Py.str n))) _ _ (JStr (Py.str n)) _ eq_refl).
  assert (Hinv : forall w0,
            IrDrivers.invalid_cust_id (JStr (Py.str n)) w0 = (Ok false, w0)).
  { intros w0. unfold IrDrivers.invalid_cust_id. cbn [Json.truthy Json.int].
    rewrite str_truthy, int_str. cbn [negb].
    destruct (n <=? 0) eqn:E; [apply Z.leb_le in E; lia|reflexivity]. }
  rewrite (bind_Ok _ _ _ _ _ (Hinv _)). reflexivity.
Qed.

Lemma get_cached_driver_profile_absent env name w :
  ir_drivers w !! name = None ->
  IrDrivers.get_cached_driver_profile env name w
  = (Ok None, record (GetItem "ir_drivers" name) w).
Proof.
  intros H. unfold IrDrivers.get_cached_driver_profile. munfold.
  destruct (dynamodb_error env (trace w)); [reflexivity|]. wsimpl.
  now rewrite H.
Qed.

Lemma fetch_and_cache_401 env name cust_id tok w :
  reply_status (member_profile env (trace w) (Json.format cust_id) tok) = Some 401 ->
  IrDrivers.fetch_and_cache env name cust_id tok w
  = (Raise (AuthenticationError "Access token expired or invalid"),
     record (MemberProfile (Json.format cust_id) tok) w).
Proof.
  intros H. unfold IrDrivers.fetch_and_cache.
  now rewrite (bind_Raise _ _ _ _ _ (get_driver_profile_401 _ _ _ _ H)).
Qed.

Lemma cache_driver_profile_ok env name profile w :
  dynamodb_error env (trace w) = None ->
  IrDrivers.cache_driver_profile env name profile w
  = (Ok tt,
     {| clock := clock w; ir_auth := ir_auth w; ir_custid := ir_custid w;
        ir_drivers :=
          <[name := {| pi_profile := profile;
                       pi_ttl := Some (clock w + IrDrivers.CACHE_TTL_SECONDS) |}]>
            (ir_drivers w);
        trace := PutItem "ir_drivers" name :: trace w |}).
Proof.
  intros Hdb. unfold IrDrivers.cache_driver_profile. munfold. now rewrite Hdb.
Qed.

Lemma get_cached_driver_profile_fresh env name profile expiry w :
  dynamodb_error env (trace w) = None ->
  ir_drivers w !! name = Some {| pi_profile := profile; pi_ttl := Some expiry |} ->
  clock w < expiry ->
  IrDrivers.get_cached_driver_profile env name w
  = (Ok (Some profile), record (GetItem "ir_drivers" name) w).
Proof.
  intros Hdb Hi Hlt. unfold IrDrivers.get_cached_driver_profile. munfold.
  rewrite Hdb. wsimpl. rewrite Hi. munfold. cbn [pi_ttl pi_profile].
  change (default 0 (Some expiry)) with expiry.
  destruct (expiry >? clock w) eqn:E; [reflexivity|].
  rewrite Z.gtb_ltb in E. apply Z.ltb_ge in E. lia.
Qed.

Lemma get_cached_driver_profile_stale env name profile expiry w :
  ir_drivers w !! name = Some {| pi_profile := profile; pi_ttl := Some expiry |} ->
  expiry <= clock w ->
  IrDrivers.get_cached_driver_profile env name w
  = (Ok None, record (GetItem "ir_drivers" name) w).
Proof.
  intros Hi Hle. unfold IrDrivers.get_cached_driver_profile. munfold.
  destruct (dynamodb_error env (trace w)); [reflexivity|].
  wsimpl. rewrite Hi. munfold. cbn [pi_ttl pi_profile].
  change (default 0 (Some expiry)) with expiry.
  destruct (expiry >? clock w) eqn:E; [|reflexivity].
  rewrite Z.gtb_ltb in E. apply Z.ltb_lt in E. lia.
Qed.

(** ** Every call site under a constant 429 *)

Lemma search_attempt_link_failure env term tok attempt rest w ra url s :
  lookup_drivers env (trace w) term tok
  = Response 200 ra (Json {| link := Some url |}) ->
  reply_status (fetch_drivers env (LookupDrivers term tok :: trace w) url) = Some s ->
  s <> 200 ->
  IrCustid.search_attempts env term tok (attempt :: rest) w
  = IrCustid.driver_data_failure s attempt
      (IrCustid.search_attempts env term tok rest)
      (record (FetchDrivers url) (record (LookupDrivers term tok) w)).
Proof.
  intros H1 Hs Hne. cbn [IrCustid.search_attempts]. cbv zeta.
  unfold urlopen at 1. munfold. rewrite H1.
  change (200 =? 200) with true. munfold. cbn [link]. wsimpl.
  destruct (fetch_drivers env (LookupDrivers term tok :: trace w) url)
    as [st ra2 b|code reason ra2|reason];
    cbn in Hs; try discriminate; injection Hs as ->.
  - apply Z.eqb_neq in Hne. now rewrite Hne.
  - reflexivity.
Qed.

Lemma search_link_429 env term tok url w :
  (forall h, exists ra,
      lookup_drivers env h term tok
      = Response 200 ra (Json {| link := Some url |})) ->
  (forall h, reply_status (fetch_drivers env h url) = Some 429) ->
  IrCustid.search_driver_with_auth env term tok w
  = (Raise (APIError "Driver data request failed: 429"),
     {| clock := clock w + 1 + 2; ir_auth := ir_auth w;
        ir_custid := ir_custid w; ir_drivers := ir_drivers w;
        trace := [FetchDrivers url; LookupDrivers term tok; Sleep 2;
                  FetchDrivers url; LookupDrivers term tok; Sleep 1;
                  FetchDrivers url; LookupDrivers term tok] ++ trace w |}).
Proof.
  intros Hl Hf. unfold IrCustid.search_driver_with_auth.
  change (range MAX_RETRIES) with [0; 1; 2].
  destruct (Hl (trace w)) as [ra0 H0].
  rewrite (search_attempt_link_failure _ _ _ _ _ _ _ _ _ H0 (Hf _)
             ltac:(discriminate)).
  unfold IrCustid.driver_data_failure at 1. zground. cbn iota.
  rewrite backoff_or_raise_eq. zground. cbn iota. sleep_step.
  match goal with |- context [IrCustid.search_attempts _ _ _ _ ?w1] =>
    destruct (Hl (trace w1)) as [ra1 H1];
    rewrite (search_attempt_link_failure env term tok 1 [2] w1 _ _ _ H1 (Hf _)
               ltac:(discriminate))
  end.
  unfold IrCustid.driver_data_failure at 1. zground. cbn iota.
  rewrite backoff_or_raise_eq. zground. cbn iota. sleep_step.
  match goal with |- context [IrCustid.search_attempts _ _ _ _ ?w1] =>
    destruct (Hl (trace w1)) as [ra2 H2];
    rewrite (search_attempt_link_failure env term tok 2 [] w1 _ _ _ H2 (Hf _)
               ltac:(discriminate))
  end.
  unfold IrCustid.driver_data_failure at 1. zground. cbn iota.
  rewrite backoff_or_raise_eq. zground. reflexivity.
Qed.

Lemma profile_attempt_failure env cust_id tok attempt rest w s :
  reply_status (member_profile env (trace w) cust_id tok) = Some s ->
  s <> 200 ->
  IrDrivers.profile_attempts env cust_id tok (attempt :: rest) w
  = IrDrivers.profile_failure s attempt
      (IrDrivers.profile_attempts env cust_id tok rest)
      (record (MemberProfile cust_id tok) w).
Proof.
  intros Hs Hne. cbn [IrDrivers.profile_attempts]. cbv zeta.
  unfold urlopen at 1. munfold.
  destruct (member_profile env (trace w) cust_id tok) as [st ra b|code reason ra|reason];
    cbn in Hs; try discriminate; injection Hs as ->.
  - apply Z.eqb_neq in Hne. now rewrite Hne.
  - reflexivity.
Qed.

Lemma profile_429 env cust_id tok w :
  (forall h, reply_status (member_profile env h cust_id tok) = Some 429) ->
  IrDrivers.get_driver_profile_with_auth env cust_id tok w
  = (Raise (APIError "Rate limited after maximum retries"),
     {| clock := clock w + 1 + 2; ir_auth := ir_auth w;
        ir_custid := ir_custid w; ir_drivers := ir_drivers w;
        trace := [MemberProfile cust_id tok; Sleep 2; MemberProfile cust_id tok;
                  Sleep 1; MemberProfile cust_id tok] ++ trace w |}).
Proof.
  intros H. unfold IrDrivers.get_driver_profile_with_auth.
  change (range MAX_RETRIES) with [0; 1; 2].
  rewrite (profile_attempt_failure _ _ _ _ _ _ _ (H _) ltac:(discriminate)).
  unfold IrDrivers.profile_failure at 1. zground. cbn iota.
  rewrite backoff_or_raise_eq. zground. cbn iota. sleep_step.
  rewrite (profile_attempt_failure _ _ _ _ _ _ _ (H _) ltac:(discriminate)).
  unfold IrDrivers.profile_failure at 1. zground. cbn iota.
  rewrite backoff_or_raise_eq. zground. cbn iota. sleep_step.
  rewrite (profile_attempt_failure _ _ _ _ _ _ _ (H _) ltac:(discriminate)).
  unfold IrDrivers.profile_failure at 1. zground. cbn iota.
  rewrite backoff_or_raise_eq. zground. reflexivity.
Qed.

Lemma profile_attempt_link_failure env cust_id tok attempt rest w ra url s :
  member_profile env (trace w) cust_id tok
  = Response 200 ra (Json {| link := Some url |}) ->
  reply_status (fetch_profile env (MemberProfile cust_id tok :: trace w) url)
  = Some s ->
  s <> 200 ->
  IrDrivers.profile_attempts env cust_id tok (attempt :: rest) w
  = IrDrivers.profile_detail_failure s attempt
      (IrDrivers.profile_attempts env cust_id tok rest)
      (record (FetchProfile url) (record (MemberProfile cust_id tok) w)).
Proof.
  intros H1 Hs Hne. cbn [IrDrivers.profile_attempts]. cbv zeta.
  unfold urlopen at 1. munfold. rewrite H1.
  change (200 =? 200) with true. munfold. cbn [link]. wsimpl.
  destruct (fetch_profile env (MemberProfile cust_id tok :: trace w) url)
    as [st ra2 b|code reason ra2|reason];
    cbn in Hs; try discriminate; injection Hs as ->.
  - apply Z.eqb_neq in Hne. now rewrite Hne.
  - reflexivity.
Qed.

Lemma profile_link_429 env cust_id tok url w :
  (forall h, exists ra,
      member_profile env h cust_id tok
      = Response 200 ra (Json {| link := Some url |})) ->
  (forall h, reply_status (fetch_profile env h url) = Some 429) ->
  IrDrivers.get_driver_profile_with_auth env cust_id tok w
  = (Raise (APIError "Profile detail request failed: 429"),
     {| clock := clock w + 1 + 2; ir_auth := ir_auth w;
        ir_custid := ir_custid w; ir_drivers := ir_drivers w;
        trace := [FetchProfile url; MemberProfile cust_id tok; Sleep 2;
                  FetchProfile url; MemberProfile cust_id tok; Sleep 1;
                  FetchProfile url; MemberProfile cust_id tok] ++ trace w |}).
Proof.
  intros Hl Hf. unfold IrDrivers.get_driver_profile_with_auth.
  change (range MAX_RETRIES) with [0; 1; 2].
  destruct (Hl (trace w)) as [ra0 H0].
  rewrite (profile_attempt_link_failure _ _ _ _ _ _ _ _ _ H0 (Hf _)
             ltac:(discriminate)).
  unfold IrDrivers.profile_detail_failure at 1. zground. cbn iota.
  rewrite backoff_or_raise_eq. zground. cbn iota. sleep_step.
  match goal with |- context [IrDrivers.profile_attempts _ _ _ _ ?w1] =>
    destruct (Hl (trace w1)) as [ra1 H1];
    rewrite (profile_attempt_link_failure env cust_id tok 1 [2] w1 _ _ _ H1 (Hf _)
               ltac:(discriminate))
  end.
  unfold IrDrivers.profile_detail_failure at 1. zground. cbn iota.
  rewrite backoff_or_raise_eq. zground. cbn iota. sleep_step.
  match goal with |- context [IrDrivers.profile_attempts _ _ _ _ ?w1] =>
    destruct (Hl (trace w1)) as [ra2 H2];
    rewrite (profile_attempt_link_failure env cust_id tok 2 [] w1 _ _ _ H2 (Hf _)
               ltac:(discriminate))
  end.
  unfold IrDrivers.profile_detail_failure at 1. zground. cbn iota.
  rewrite backoff_or_raise_eq. zground. reflexivity.
Qed.

(** * Further properties of the three functions *)

(** ** [ir_auth]: the secret *)

(** X1: a secret that cannot be used ends the token handler at once: 503
    when Secrets Manager fails, 500 when the secret is not JSON or lacks
    one of [client_id], [client_secret], [username], [password]; nothing
    but the reading of the secret has happened. *)
Theorem auth_unusable_secret env w :
  secret_unusable (get_secret_value env (trace w)) ->
  IrAuth.lambda_handler env w
  = (Ok (match get_secret_value env (trace w) with
         | SecretClientError _ =>
             IrAuth.error_response 503 [] "Service unavailable"
               "AWS service temporarily unavailable"
         | _ =>
             IrAuth.error_response 500 [] "Internal server error"
               "An unexpected error occurred"
         end),
     record GetSecretValue w).
Proof.
  intros H. unfold IrAuth.lambda_handler.
  assert (Hc : exists e,
    IrAuth.get_oauth_credentials env w = (Raise e, record GetSecretValue w)
    /\ IrAuth.on_exception e
       = match get_secret_value env (trace w) with
         | SecretClientError _ =>
             IrAuth.error_response 503 [] "Service unavailable"
               "AWS service temporarily unavailable"
         | _ =>
             IrAuth.error_response 500 [] "Internal server error"
               "An unexpected error occurred"
         end).
  { unfold IrAuth.get_oauth_credentials. munfold.
    destruct (get_secret_value env (trace w)) as [msg|msg|credentials];
      [eexists; split; reflexivity..|].
    cbn [IrAuth.check_required]. cbn in H.
    destruct (credentials !! "client_id") as [a|] eqn:Ha;
      [|eexists; split; reflexivity].
    destruct (credentials !! "client_secret") as [b|] eqn:Hb;
      [|eexists; split; reflexivity].
    destruct (credentials !! "username") as [c|] eqn:Hc;
      [|eexists; split; reflexivity].
    destruct (credentials !! "password") as [d|] eqn:Hd;
      [|eexists; split; reflexivity].
    destruct H. repeat split; eauto. }
  destruct Hc as (e & Hc & He).
  erewrite try_except_Raise; [|apply bind_Raise; exact Hc].
  now rewrite <- He.
Qed.

Lemma auth_unusable_secret_witness :
  IrAuth.lambda_handler Faulty.incomplete_secret (Scenario.empty_world 1000)
  = (Ok (IrAuth.error_response 500 [] "Internal server error"
           "An unexpected error occurred"),
     record GetSecretValue (Scenario.empty_world 1000)).
Proof.
  apply (auth_unusable_secret Faulty.incomplete_secret (Scenario.empty_world 1000)).
  cbn. intros (_ & _ & _ & [x Hx]). vm_compute in Hx. discriminate.
Defined.

(** ** [ir_auth]: the first exchange *)

(** With no item for the user, the handler is the password exchange, the
    store and the response, under the [except] clauses. *)
Lemma auth_handler_password env w credentials username :
  get_secret_value env (trace w) = SecretString credentials ->
  full_credentials credentials ->
  credentials !! "username" = Some username ->
  ir_auth w !! username = None ->
  IrAuth.lambda_handler env w
  = try_except
      (oauth_response <-
         IrAuth.make_oauth_request env credentials "password_limited" None;;
       IrAuth.store_tokens_in_dynamodb env username oauth_response;;
       IrAuth.fresh_response "Authentication successful" oauth_response)
      (fun e => ret (IrAuth.on_exception e))
      (record (GetItem "ir_auth" username) (record GetSecretValue w)).
Proof.
  intros Hs Hc Hu Habs. unfold IrAuth.lambda_handler, try_except.
  rewrite (bind_Ok _ _ _ _ _ (auth_get_oauth_credentials_ok _ _ _ Hs Hc)).
  unfold getitem at 1. rewrite Hu.
  rewrite (bind_Ok (ret username) _ _ username _ eq_refl).
  rewrite (bind_Ok _ _ _ _ _
             (get_existing_tokens_absent env username (record GetSecretValue w)
                Habs)).
  rewrite (bind_Ok (ret None) _ _ None _ eq_refl). reflexivity.
Qed.

(** X2: a 401 or a 403 of the token endpoint is not retried: one request,
    no sleep, and the handler answers 401 with the status in the message. *)
Theorem oauth_rejection_not_retried env w credentials username s :
  get_secret_value env (trace w) = SecretString credentials ->
  full_credentials credentials ->
  credentials !! "username" = Some username ->
  ir_auth w !! username = None ->
  s = 401 \/ s = 403 ->
  (forall form,
      reply_status
        (oauth_token env (GetItem "ir_auth" username :: GetSecretValue :: trace w)
           form) = Some s) ->
  exists form,
    IrAuth.oauth_form credentials "password_limited" None w = (Ok form, w)
    /\ IrAuth.lambda_handler env w
       = (Ok (IrAuth.error_response 401 [] "Authentication failed"
                ("Authentication failed: " +:+ Py.str s)),
          {| clock := clock w; ir_auth := ir_auth w;
             ir_custid := ir_custid w; ir_drivers := ir_drivers w;
             trace := [OAuthToken form; GetItem "ir_auth" username;
                       GetSecretValue] ++ trace w |}).
Proof.
  intros Hs Hc Hu Habs Hcode Hreply.
  destruct (oauth_form_password _ Hc) as [form Hform].
  exists form. split; [apply Hform|].
  rewrite (auth_handler_password _ _ _ _ Hs Hc Hu Habs).
  assert (Hreq :
    IrAuth.make_oauth_request env credentials "password_limited" None
      (record (GetItem "ir_auth" username) (record GetSecretValue w))
    = (Raise (AuthenticationError ("Authentication failed: " +:+ Py.str s)),
       record (OAuthToken form)
         (record (GetItem "ir_auth" username) (record GetSecretValue w)))).
  { unfold IrAuth.make_oauth_request.
    rewrite (bind_Ok _ _ _ _ _ (Hform _)).
    change (range MAX_RETRIES) with [0; 1; 2].
    rewrite (oauth_attempt_failure env form 0 [1; 2]
               (record (GetItem "ir_auth" username) (record GetSecretValue w))
               s (Hreply form)
               ltac:(destruct Hcode as [-> | ->]; discriminate)).
    unfold IrAuth.oauth_failure.
    destruct Hcode as [-> | ->]; reflexivity. }
  rewrite (try_except_Raise _ _ _ _ _ (bind_Raise _ _ _ _ _ Hreq)).
  reflexivity.
Qed.

Lemma oauth_rejection_not_retried_witness :
  exists form,
    IrAuth.lambda_handler Faulty.rejecting (Scenario.empty_world 1000)
    = (Ok (IrAuth.error_response 401 [] "Authentication failed"
             "Authentication failed: 403"),
       {| clock := 1000; ir_auth := ∅; ir_custid := ∅; ir_drivers := ∅;
          trace := [OAuthToken form; GetItem "ir_auth" Scenario.username;
                    GetSecretValue] |}).
Proof.
  destruct (oauth_rejection_not_retried Faulty.rejecting
              (Scenario.empty_world 1000) Scenario.credentials
              Scenario.username 403) as (form & _ & H).
  - reflexivity.
  - repeat split; vm_compute; eauto.
  - vm_compute. reflexivity.
  - vm_compute. reflexivity.
  - now right.
  - intros form. reflexivity.
  - exists form. exact H.
Defined.

(** X3: a 429 whose [Retry-After] is not a number of seconds that can be
    slept (a date, a negative number, a number longer than [time.sleep]
    takes) ends the exchange at the first attempt: [int] or [time.sleep]
    raises [ValueError] or [OverflowError], and the handler answers 500. *)
Theorem oauth_unusable_retry_after env w credentials username :
  get_secret_value env (trace w) = SecretString credentials ->
  full_credentials credentials ->
  credentials !! "username" = Some username ->
  ir_auth w !! username = None ->
  (forall form,
      let reply :=
        oauth_token env (GetItem "ir_auth" username :: GetSecretValue :: trace w)
          form in
      reply_status reply = Some 429 /\ unusable_hint (reply_retry_after reply)) ->
  exists form,
    IrAuth.oauth_form credentials "password_limited" None w = (Ok form, w)
    /\ IrAuth.lambda_handler env w
       = (Ok (IrAuth.error_response 500 [] "Internal server error"
                "An unexpected error occurred"),
          {| clock := clock w; ir_auth := ir_auth w;
             ir_custid := ir_custid w; ir_drivers := ir_drivers w;
             trace := [OAuthToken form; GetItem "ir_auth" username;
                       GetSecretValue] ++ trace w |}).
Proof.
  intros Hs Hc Hu Habs Hreply.
  destruct (oauth_form_password _ Hc) as [form Hform].
  exists form. split; [apply Hform|].
  rewrite (auth_handler_password _ _ _ _ Hs Hc Hu Habs).
  destruct (Hreply form) as [H429 Hhint].
  assert (Hreq : exists e,
    IrAuth.make_oauth_request env credentials "password_limited" None
      (record (GetItem "ir_auth" username) (record GetSecretValue w))
    = (Raise e,
       record (OAuthToken form)
         (record (GetItem "ir_auth" username) (record GetSecretValue w)))
    /\ match e with
       | ValueError _ | OverflowError _ => True
       | _ => False
       end).
  { unfold IrAuth.make_oauth_request.
    rewrite (bind_Ok _ _ _ _ _ (Hform _)).
    change (range MAX_RETRIES) with [0; 1; 2].
    rewrite (oauth_attempt_failure env form 0 [1; 2]
               (record (GetItem "ir_auth" username) (record GetSecretValue w))
               429 H429 ltac:(discriminate)).
    unfold IrAuth.oauth_failure. change (429 =? 429) with true. cbn iota.
    wsimpl.
    destruct (reply_retry_after _) as [|n|text]; cbn in Hhint;
      [contradiction| |eexists; split; [reflexivity|exact I]].
    unfold retry_after_seconds.
    rewrite (bind_Ok (ret n) _ _ n _ eq_refl).
    change (0 <? MAX_RETRIES - 1) with true. cbn iota.
    match goal with |- context [bind (time_sleep n) _ ?w0] =>
      destruct (time_sleep_refused n w0 Hhint) as (e & Hsleep & He)
    end.
    exists e. split; [|exact He].
    now rewrite (bind_Raise _ _ _ _ _ Hsleep). }
  destruct Hreq as (e & Hreq & He).
  rewrite (try_except_Raise _ _ _ _ _ (bind_Raise _ _ _ _ _ Hreq)).
  destruct e; try contradiction; reflexivity.
Qed.

Lemma oauth_unusable_retry_after_witness :
  exists form,
    IrAuth.lambda_handler Faulty.throttling_until (Scenario.empty_world 1000)
    = (Ok (IrAuth.error_response 500 [] "Internal server error"
             "An unexpected error occurred"),
       {| clock := 1000; ir_auth := ∅; ir_custid := ∅; ir_drivers := ∅;
          trace := [OAuthToken form; GetItem "ir_auth" Scenario.username;
                    GetSecretValue] |}).
Proof.
  destruct (oauth_unusable_retry_after Faulty.throttling_until
              (Scenario.empty_world 1000) Scenario.credentials
              Scenario.username) as (form & _ & H).
  - reflexivity.
  - repeat split; vm_compute; eauto.
  - vm_compute. reflexivity.
  - vm_compute. reflexivity.
  - intros form. split; [reflexivity|exact I].
  - exists form. exact H.
Defined.

(** A reply that is a decoded document ends the loop at once. *)
Lemma oauth_attempts_granted env form attempt rest w status ra resp :
  oauth_token env (trace w) form = Response status ra (Json resp) ->
  status = 200 ->
  IrAuth.oauth_attempts env form (attempt :: rest) w
  = (Ok resp, record (OAuthToken form) w).
Proof.
  intros H ->. cbn [IrAuth.oauth_attempts]. munfold. rewrite H. reflexivity.
Qed.

(** X4: a 200 of the token endpoint whose document has no [access_token]
    is answered 500, and nothing is written: the [KeyError] comes before
    the [put_item]. *)
Theorem oauth_reply_without_token env w credentials username :
  get_secret_value env (trace w) = SecretString credentials ->
  full_credentials credentials ->
  credentials !! "username" = Some username ->
  ir_auth w !! username = None ->
  (forall form, exists ra resp,
      oauth_token env (GetItem "ir_auth" username :: GetSecretValue :: trace w)
        form = Response 200 ra (Json resp)
      /\ oa_access_token resp = None) ->
  exists form,
    IrAuth.oauth_form credentials "password_limited" None w = (Ok form, w)
    /\ IrAuth.lambda_handler env w
       = (Ok (IrAuth.error_response 500 [] "Internal server error"
                "An unexpected error occurred"),
          {| clock := clock w; ir_auth := ir_auth w;
             ir_custid := ir_custid w; ir_drivers := ir_drivers w;
             trace := [OAuthToken form; GetItem "ir_auth" username;
                       GetSecretValue] ++ trace w |}).
Proof.
  intros Hs Hc Hu Habs Hreply.
  destruct (oauth_form_password _ Hc) as [form Hform].
  exists form. split; [apply Hform|].
  rewrite (auth_handler_password _ _ _ _ Hs Hc Hu Habs).
  destruct (Hreply form) as (ra & resp & Hr & Hnone).
  assert (Hreq :
    IrAuth.make_oauth_request env credentials "password_limited" None
      (record (GetItem "ir_auth" username) (record GetSecretValue w))
    = (Ok resp,
       record (OAuthToken form)
         (record (GetItem "ir_auth" username) (record GetSecretValue w)))).
  { unfold IrAuth.make_oauth_request.
    rewrite (bind_Ok _ _ _ _ _ (Hform _)).
    change (range MAX_RETRIES) with [0; 1; 2].
    now apply (oauth_attempts_granted env form 0 [1; 2]
                 (record (GetItem "ir_auth" username) (record GetSecretValue w))
                 200 ra resp). }
  assert (Hstore : forall w0,
    IrAuth.store_tokens_in_dynamodb env username resp w0
    = (Raise (KeyError "access_token"), w0)).
  { intros w0. unfold IrAuth.store_tokens_in_dynamodb. munfold.
    now rewrite Hnone. }
  erewrite try_except_Raise.
  2:{ rewrite (bind_Ok _ _ _ _ _ Hreq). apply bind_Raise, Hstore. }
  reflexivity.
Qed.

Lemma oauth_reply_without_token_witness :
  exists form,
    IrAuth.lambda_handler Faulty.granting_nothing (Scenario.empty_world 1000)
    = (Ok (IrAuth.error_response 500 [] "Internal server error"
             "An unexpected error occurred"),
       {| clock := 1000; ir_auth := ∅; ir_custid := ∅; ir_drivers := ∅;
          trace := [OAuthToken form; GetItem "ir_auth" Scenario.username;
                    GetSecretValue] |}).
Proof.
  destruct (oauth_reply_without_token Faulty.granting_nothing
              (Scenario.empty_world 1000) Scenario.credentials
              Scenario.username) as (form & _ & H).
  - reflexivity.
  - repeat split; vm_compute; eauto.
  - vm_compute. reflexivity.
  - vm_compute. reflexivity.
  - intros form. exists NoRetryAfter, Faulty.tokenless. split; reflexivity.
  - exists form. exact H.
Defined.

(** X5: when the token has been granted and the [put_item] fails, the
    handler answers 503 and the token table is as it was: the token that
    was obtained is not handed out. *)
Theorem token_store_failure_is_503 env w credentials username msg :
  get_secret_value env (trace w) = SecretString credentials ->
  full_credentials credentials ->
  credentials !! "username" = Some username ->
  ir_auth w !! username = None ->
  (forall form, exists ra resp,
      oauth_token env (GetItem "ir_auth" username :: GetSecretValue :: trace w)
        form = Response 200 ra (Json resp)
      /\ is_Some (oa_access_token resp)) ->
  (forall form,
      dynamodb_error env
        (OAuthToken form :: GetItem "ir_auth" username :: GetSecretValue
         :: trace w) = Some msg) ->
  exists form,
    IrAuth.oauth_form credentials "password_limited" None w = (Ok form, w)
    /\ IrAuth.lambda_handler env w
       = (Ok (IrAuth.error_response 503 [] "Service unavailable"
                "AWS service temporarily unavailable"),
          {| clock := clock w; ir_auth := ir_auth w;
             ir_custid := ir_custid w; ir_drivers := ir_drivers w;
             trace := [PutItem "ir_auth" username; OAuthToken form;
                       GetItem "ir_auth" username; GetSecretValue]
                      ++ trace w |}).
Proof.
  intros Hs Hc Hu Habs Hreply Hdb.
  destruct (oauth_form_password _ Hc) as [form Hform].
  exists form. split; [apply Hform|].
  rewrite (auth_handler_password _ _ _ _ Hs Hc Hu Habs).
  destruct (Hreply form) as (ra & resp & Hr & [tok Htok]).
  assert (Hreq :
    IrAuth.make_oauth_request env credentials "password_limited" None
      (record (GetItem "ir_auth" username) (record GetSecretValue w))
    = (Ok resp,
       record (OAuthToken form)
         (record (GetItem "ir_auth" username) (record GetSecretValue w)))).
  { unfold IrAuth.make_oauth_request.
    rewrite (bind_Ok _ _ _ _ _ (Hform _)).
    change (range MAX_RETRIES) with [0; 1; 2].
    now apply (oauth_attempts_granted env form 0 [1; 2]
                 (record (GetItem "ir_auth" username) (record GetSecretValue w))
                 200 ra resp). }
  erewrite try_except_Raise.
  2:{ rewrite (bind_Ok _ _ _ _ _ Hreq). apply bind_Raise.
      unfold IrAuth.store_tokens_in_dynamodb. munfold.
      rewrite Htok. wsimpl. rewrite (Hdb form). reflexivity. }
  reflexivity.
Qed.

Lemma token_store_failure_is_503_witness :
  exists form,
    IrAuth.lambda_handler Faulty.granting_unstored (Scenario.empty_world 1000)
    = (Ok (IrAuth.error_response 503 [] "Service unavailable"
             "AWS service temporarily unavailable"),
       {| clock := 1000; ir_auth := ∅; ir_custid := ∅; ir_drivers := ∅;
          trace := [PutItem "ir_auth" Scenario.username; OAuthToken form;
                    GetItem "ir_auth" Scenario.username; GetSecretValue] |}).
Proof.
  destruct (token_store_failure_is_503 Faulty.granting_unstored
              (Scenario.empty_world 1000) Scenario.credentials
              Scenario.username "ProvisionedThroughputExceededException")
    as (form & _ & H).
  - reflexivity.
  - repeat split; vm_compute; eauto.
  - vm_compute. reflexivity.
  - vm_compute. reflexivity.
  - intros form. exists NoRetryAfter, Scenario.granted. split; [reflexivity|].
    vm_compute. eauto.
  - intros form. reflexivity.
  - exists form. exact H.
Defined.




(** ** [ir_auth]: the refresh token *)

Lemma credentials_are_full credentials client_id client_secret username password :
  credentials_are credentials client_id client_secret username password ->
  full_credentials credentials.
Proof. intros (H1 & H2 & H3 & H4). repeat split; eauto. Qed.

Lemma oauth_form_refresh credentials client_id client_secret username password
    token w :
  credentials_are credentials client_id client_secret username password ->
  Py.truthy_str token = true ->
  IrAuth.oauth_form credentials "refresh_token" (Some token) w
  = (Ok (refresh_form client_id client_secret token), w).
Proof.
  intros (H1 & H2 & H3 & H4) Ht. unfold IrAuth.oauth_form.
  change ("refresh_token" =? "password_limited")%string with false.
  change ("refresh_token" =? "refresh_token")%string with true.
  cbn iota. rewrite Ht. munfold. now rewrite H1, H2.
Qed.

Lemma oauth_form_password_is credentials client_id client_secret username
    password w :
  credentials_are credentials client_id client_secret username password ->
  IrAuth.oauth_form credentials "password_limited" None w
  = (Ok (password_form client_id client_secret username password), w).
Proof.
  intros (H1 & H2 & H3 & H4). unfold IrAuth.oauth_form.
  change ("password_limited" =? "password_limited")%string with true.
  cbn iota. munfold. now rewrite H1, H2, H3, H4.
Qed.

Lemma get_existing_tokens_expired env username token w :
  dynamodb_error env (trace w) = None ->
  refresh_ready w username token ->
  IrAuth.get_existing_tokens env username w
  = (Ok (Some (IrAuth.ExpiredTokens token)), record (GetItem "ir_auth" username) w).
Proof.
  intros Hdb (item & Hi & Httl & Hrt & Hrttl & _).
  unfold IrAuth.get_existing_tokens. munfold. rewrite Hdb. wsimpl.
  rewrite Hi. munfold.
  destruct (default 0 (ti_ttl item) >? clock w) eqn:E.
  { rewrite Z.gtb_ltb in E. apply Z.ltb_lt in E. lia. }
  rewrite Hrt.
  destruct (default 0 (ti_refresh_token_ttl item) >? clock w) eqn:E2;
    [reflexivity|].
  rewrite Z.gtb_ltb in E2. apply Z.ltb_ge in E2. lia.
Qed.

Lemma store_tokens_ok env username resp tok w :
  oa_access_token resp = Some tok ->
  dynamodb_error env (trace w) = None ->
  exists item,
    stored_item (clock w) resp item
    /\ IrAuth.store_tokens_in_dynamodb env username resp w
       = (Ok tt,
          {| clock := clock w; ir_auth := <[username := item]> (ir_auth w);
             ir_custid := ir_custid w; ir_drivers := ir_drivers w;
             trace := PutItem "ir_auth" username :: trace w |}).
Proof.
  intros Htok Hdb. unfold IrAuth.store_tokens_in_dynamodb. munfold.
  rewrite Htok, Hdb. eexists. split; [|reflexivity].
  repeat split; cbn; try assumption; symmetry; assumption.
Qed.

(** With a refresh token that is still good, the handler is the refresh
    attempt and, when that yields nothing, the password exchange. *)
Lemma auth_handler_refresh env w credentials username token :
  get_secret_value env (trace w) = SecretString credentials ->
  full_credentials credentials ->
  credentials !! "username" = Some username ->
  dynamodb_error env (GetSecretValue :: trace w) = None ->
  refresh_ready w username token ->
  IrAuth.lambda_handler env w
  = try_except
      (refreshed <-
         try_except
           (oauth_response <-
              IrAuth.make_oauth_request env credentials "refresh_token"
                (Some token);;
            IrAuth.store_tokens_in_dynamodb env username oauth_response;;
            r <- IrAuth.fresh_response "Authentication successful (refreshed)"
                   oauth_response;;
            ret (Some r))
           (fun e => match e with
                     | AuthenticationError _ | RateLimitError _ => ret None
                     | _ => raise e
                     end);;
       match refreshed with
       | Some r => ret r
       | None =>
           oauth_response <-
             IrAuth.make_oauth_request env credentials "password_limited" None;;
           IrAuth.store_tokens_in_dynamodb env username oauth_response;;
           IrAuth.fresh_response "Authentication successful" oauth_response
       end)
      (fun e => ret (IrAuth.on_exception e))
      (record (GetItem "ir_auth" username) (record GetSecretValue w)).
Proof.
  intros Hs Hc Hu Hdb Hready. unfold IrAuth.lambda_handler.
  unfold try_except at 1 3.
  rewrite (bind_Ok _ _ _ _ _ (auth_get_oauth_credentials_ok _ _ _ Hs Hc)).
  unfold getitem at 1. rewrite Hu.
  rewrite (bind_Ok (ret username) _ _ username _ eq_refl).
  rewrite (bind_Ok _ _ _ _ _
             (get_existing_tokens_expired env username token
                (record GetSecretValue w) Hdb Hready)).
  destruct Hready as (_ & _ & _ & _ & _ & Ht). rewrite Ht. reflexivity.
Qed.

(** X7: with an expired access token and a refresh token that is still
    good, the handler posts the refresh form, which carries neither the
    username nor the password; when the endpoint grants, the handler
    answers 200 "refreshed" after that one request and replaces the whole
    item, so that a reply without a refresh token leaves none in the
    table. *)
Theorem refresh_token_used_first
    env w credentials client_id client_secret username password token
    ra resp tok :
  let form := refresh_form client_id client_secret token in
  get_secret_value env (trace w) = SecretString credentials ->
  credentials_are credentials client_id client_secret username password ->
  (forall h, dynamodb_error env h = None) ->
  refresh_ready w username token ->
  oauth_token env (GetItem "ir_auth" username :: GetSecretValue :: trace w) form
  = Response 200 ra (Json resp) ->
  oa_access_token resp = Some tok ->
  exists item,
    stored_item (clock w) resp item
    /\ IrAuth.lambda_handler env w
       = (Ok (IrAuth.token_response "Authentication successful (refreshed)" tok
                (default "Bearer" (oa_token_type resp))
                (default IrAuth.ACCESS_TOKEN_LIFETIME (oa_expires_in resp))
                (default "iracing.auth" (oa_scope resp))),
          {| clock := clock w; ir_auth := <[username := item]> (ir_auth w);
             ir_custid := ir_custid w; ir_drivers := ir_drivers w;
             trace := [PutItem "ir_auth" username; OAuthToken form;
                       GetItem "ir_auth" username; GetSecretValue]
                      ++ trace w |}).
Proof.
  intros form Hs Hcred Hdb Hready Hreply Htok.
  pose proof (credentials_are_full _ _ _ _ _ Hcred) as Hc.
  pose proof (proj1 (proj2 (proj2 Hcred))) as Hu.
  rewrite (auth_handler_refresh _ _ _ _ _ Hs Hc Hu (Hdb _) Hready).
  set (w0 := record (GetItem "ir_auth" username) (record GetSecretValue w)).
  assert (Hreq :
    IrAuth.make_oauth_request env credentials "refresh_token" (Some token) w0
    = (Ok resp, record (OAuthToken form) w0)).
  { unfold IrAuth.make_oauth_request.
    destruct Hready as (_ & _ & _ & _ & _ & Ht).
    rewrite (bind_Ok _ _ _ _ _ (oauth_form_refresh _ _ _ _ _ _ w0 Hcred Ht)).
    change (range MAX_RETRIES) with [0; 1; 2].
    now apply (oauth_attempts_granted env form 0 [1; 2] w0 200 ra resp). }
  destruct (store_tokens_ok env username resp tok (record (OAuthToken form) w0)
              Htok (Hdb _)) as (item & Hitem & Hstore).
  exists item. split; [exact Hitem|].
  erewrite try_except_Ok; [reflexivity|].
  erewrite bind_Ok.
  2:{ apply try_except_Ok.
      rewrite (bind_Ok _ _ _ _ _ Hreq), (bind_Ok _ _ _ _ _ Hstore).
      unfold IrAuth.fresh_response. rewrite Htok. reflexivity. }
  reflexivity.
Qed.

Lemma refresh_token_used_first_witness :
  exists item,
    ti_access_token item = Some "access-2"
    /\ ti_refresh_token item = None
    /\ ti_ttl item = Some (1000 + 600)
    /\ IrAuth.lambda_handler Faulty.renewing (Faulty.lapsed 1000)
       = (Ok (IrAuth.token_response "Authentication successful (refreshed)"
                "access-2" "Bearer" 600 "iracing.auth"),
          {| clock := 1000;
             ir_auth := <[Scenario.username := item]>
                          (ir_auth (Faulty.lapsed 1000));
             ir_custid := ∅; ir_drivers := ∅;
             trace := [PutItem "ir_auth" Scenario.username;
                       OAuthToken (refresh_form "forum-addon" "s3cret" "refresh-0");
                       GetItem "ir_auth" Scenario.username; GetSecretValue] |}).
Proof.
  destruct (refresh_token_used_first Faulty.renewing (Faulty.lapsed 1000)
              Scenario.credentials "forum-addon" "s3cret" Scenario.username
              "hunter2" "refresh-0" NoRetryAfter Faulty.renewed "access-2")
    as (item & (Ha & Ht & Hr & _) & H).
  - reflexivity.
  - repeat split; vm_compute; reflexivity.
  - intros h. reflexivity.
  - exists (Faulty.lapsed_token (1000 - 60)).
    split; [vm_compute; reflexivity|]. cbn. repeat split; lia.
  - reflexivity.
  - reflexivity.
  - exists item. repeat split; assumption.
Defined.

(** X8: when the refresh is rejected (401 or 403), the handler falls back
    to the password exchange: one refresh request, then the password form,
    and the answer is the one of a new authentication. *)
Theorem refresh_failure_falls_back
    env w credentials client_id client_secret username password token
    s ra resp tok :
  let rform := refresh_form client_id client_secret token in
  let pform := password_form client_id client_secret username password in
  get_secret_value env (trace w) = SecretString credentials ->
  credentials_are credentials client_id client_secret username password ->
  (forall h, dynamodb_error env h = None) ->
  refresh_ready w username token ->
  s = 401 \/ s = 403 ->
  reply_status
    (oauth_token env (GetItem "ir_auth" username :: GetSecretValue :: trace w)
       rform) = Some s ->
  oauth_token env
    (OAuthToken rform :: GetItem "ir_auth" username :: GetSecretValue :: trace w)
    pform = Response 200 ra (Json resp) ->
  oa_access_token resp = Some tok ->
  exists item,
    stored_item (clock w) resp item
    /\ IrAuth.lambda_handler env w
       = (Ok (IrAuth.token_response "Authentication successful" tok
                (default "Bearer" (oa_token_type resp))
                (default IrAuth.ACCESS_TOKEN_LIFETIME (oa_expires_in resp))
                (default "iracing.auth" (oa_scope resp))),
          {| clock := clock w; ir_auth := <[username := item]> (ir_auth w);
             ir_custid := ir_custid w; ir_drivers := ir_drivers w;
             trace := [PutItem "ir_auth" username; OAuthToken pform;
                       OAuthToken rform; GetItem "ir_auth" username;
                       GetSecretValue] ++ trace w |}).
Proof.
  intros rform pform Hs Hcred Hdb Hready Hcode Hrej Hreply Htok.
  pose proof (credentials_are_full _ _ _ _ _ Hcred) as Hc.
  pose proof (proj1 (proj2 (proj2 Hcred))) as Hu.
  rewrite (auth_handler_refresh _ _ _ _ _ Hs Hc Hu (Hdb _) Hready).
  set (w0 := record (GetItem "ir_auth" username) (record GetSecretValue w)).
  set (w1 := record (OAuthToken rform) w0).
  assert (Hreq1 :
    IrAuth.make_oauth_request env credentials "refresh_token" (Some token) w0
    = (Raise (AuthenticationError ("Authentication failed: " +:+ Py.str s)), w1)).
  { unfold IrAuth.make_oauth_request.
    destruct Hready as (_ & _ & _ & _ & _ & Ht).
    rewrite (bind_Ok _ _ _ _ _ (oauth_form_refresh _ _ _ _ _ _ w0 Hcred Ht)).
    change (range MAX_RETRIES) with [0; 1; 2]. fold rform.
    rewrite (oauth_attempt_failure env rform 0 [1; 2] w0 s Hrej
               ltac:(destruct Hcode as [-> | ->]; discriminate)).
    unfold IrAuth.oauth_failure.
    destruct Hcode as [-> | ->]; reflexivity. }
  assert (Hreq2 :
    IrAuth.make_oauth_request env credentials "password_limited" None w1
    = (Ok resp, record (OAuthToken pform) w1)).
  { unfold IrAuth.make_oauth_request.
    rewrite (bind_Ok _ _ _ _ _ (oauth_form_password_is _ _ _ _ _ w1 Hcred)).
    change (range MAX_RETRIES) with [0; 1; 2].
    now apply (oauth_attempts_granted env pform 0 [1; 2] w1 200 ra resp). }
  destruct (store_tokens_ok env username resp tok (record (OAuthToken pform) w1)
              Htok (Hdb _)) as (item & Hitem & Hstore).
  exists item. split; [exact Hitem|].
  erewrite try_except_Ok; [reflexivity|].
  match goal with |- bind (try_except ?m ?h) ?k w0 = _ =>
    rewrite (bind_Ok (try_except m h) k w0 None w1);
      [|rewrite (try_except_Raise _ _ _ _ _ (bind_Raise _ _ _ _ _ Hreq1));
        reflexivity]
  end.
  rewrite (bind_Ok _ _ _ _ _ Hreq2), (bind_Ok _ _ _ _ _ Hstore).
  unfold IrAuth.fresh_response. rewrite Htok. reflexivity.
Qed.

Lemma refresh_failure_falls_back_witness :
  exists item,
    ti_access_token item = Some "access-1"
    /\ IrAuth.lambda_handler Faulty.not_renewing (Faulty.lapsed 1000)
       = (Ok (IrAuth.token_response "Authentication successful"
                "access-1" "Bearer" 600 "iracing.auth"),
          {| clock := 1000;
             ir_auth := <[Scenario.username := item]>
                          (ir_auth (Faulty.lapsed 1000));
             ir_custid := ∅; ir_drivers := ∅;
             trace := [PutItem "ir_auth" Scenario.username;
                       OAuthToken (password_form "forum-addon" "s3cret"
                                     Scenario.username "hunter2");
                       OAuthToken (refresh_form "forum-addon" "s3cret" "refresh-0");
                       GetItem "ir_auth" Scenario.username; GetSecretValue] |}).
Proof.
  destruct (refresh_failure_falls_back Faulty.not_renewing (Faulty.lapsed 1000)
              Scenario.credentials "forum-addon" "s3cret" Scenario.username
              "hunter2" "refresh-0" 401 NoRetryAfter Scenario.granted "access-1")
    as (item & (Ha & _) & H).
  - reflexivity.
  - repeat split; vm_compute; reflexivity.
  - intros h. reflexivity.
  - exists (Faulty.lapsed_token (1000 - 60)).
    split; [vm_compute; reflexivity|]. cbn. repeat split; lia.
  - now left.
  - reflexivity.
  - reflexivity.
  - reflexivity.
  - exists item. split; assumption.
Defined.

(** ** The token table, written by [ir_auth] and read by the others *)

(** X9: [get_access_token] never raises and does nothing but one
    [get_item]; it returns a token exactly when DynamoDB answers and the
    item of the user has an access token whose expiry is after the clock.
    A failure of DynamoDB and an item without access token read as no
    token. *)
Theorem get_access_token_spec env username w :
  exists r,
    IrCustid.get_access_token env username w
    = (Ok r, record (GetItem "ir_auth" username) w)
    /\ forall tok,
         r = Some tok
         <-> (dynamodb_error env (trace w) = None
              /\ exists item,
                   ir_auth w !! username = Some item
                   /\ ti_access_token item = Some tok
                   /\ clock w < default 0 (ti_ttl item)).
Proof.
  unfold IrCustid.get_access_token. munfold.
  destruct (dynamodb_error env (trace w)) as [msg|] eqn:Hdb.
  { eexists. split; [reflexivity|]. intros tok. split; [discriminate|].
    intros [H _]. discriminate. }
  wsimpl. destruct (ir_auth w !! username) as [item|] eqn:Hi.
  2:{ eexists. split; [reflexivity|]. intros tok. split; [discriminate|].
      intros (_ & item & H & _). discriminate. }
  munfold. destruct (default 0 (ti_ttl item) >? clock w) eqn:E.
  - rewrite Z.gtb_ltb in E. apply Z.ltb_lt in E.
    destruct (ti_access_token item) as [tok0|] eqn:Htok.
    + eexists. split; [reflexivity|]. intros tok. split.
      * intros [= <-]. split; [reflexivity|]. exists item. repeat split; assumption.
      * intros (_ & item' & [= <-] & Ht & _). congruence.
    + eexists. split; [reflexivity|]. intros tok. split; [discriminate|].
      intros (_ & item' & [= <-] & Ht & _). congruence.
  - rewrite Z.gtb_ltb in E. apply Z.ltb_ge in E.
    eexists. split; [reflexivity|]. intros tok. split; [discriminate|].
    intros (_ & item' & [= <-] & _ & Hlt). lia.
Qed.

(** X10: a token stored by [ir_auth] is the one that [ir_custid] and
    [ir_drivers] read back, as long as the clock is before the time of the
    store plus the lifetime of the reply (600 seconds when the reply has
    none); from that time on they read no token. *)
Theorem stored_token_read_until_expiry env username resp w w1 w2 :
  IrAuth.store_tokens_in_dynamodb env username resp w = (Ok tt, w1) ->
  ir_auth w2 !! username = ir_auth w1 !! username ->
  dynamodb_error env (trace w2) = None ->
  IrCustid.get_access_token env username w2
  = (Ok (if clock w2 <? clock w + default IrAuth.ACCESS_TOKEN_LIFETIME
                                    (oa_expires_in resp)
         then oa_access_token resp else None),
     record (GetItem "ir_auth" username) w2).
Proof.
  intros Hstore Hsame Hdb.
  apply store_tokens_inv in Hstore as (_ & tok & item & Htok & Hi & Hit & Httl).
  rewrite Hi in Hsame.
  unfold IrCustid.get_access_token. munfold. rewrite Hdb. wsimpl.
  rewrite Hsame. munfold. rewrite Httl.
  change (default 0 (Some ?x)) with x.
  rewrite Z.gtb_ltb.
  destruct (clock w2 <? _); [|reflexivity].
  now rewrite Hit, Htok.
Qed.

Lemma stored_token_read_until_expiry_witness :
  let w1 := snd (IrAuth.store_tokens_in_dynamodb Scenario.granting
                   Scenario.username Scenario.granted
                   (Scenario.empty_world 1000)) in
  fst (IrCustid.get_access_token Scenario.granting Scenario.username
         (advance 599 w1)) = Ok (Some "access-1")
  /\ fst (IrCustid.get_access_token Scenario.granting Scenario.username
            (advance 600 w1)) = Ok None.
Proof.
  intros w1. split.
  - exact (f_equal fst
             (stored_token_read_until_expiry Scenario.granting
                Scenario.username Scenario.granted (Scenario.empty_world 1000)
                w1 (advance 599 w1) eq_refl eq_refl eq_refl)).
  - exact (f_equal fst
             (stored_token_read_until_expiry Scenario.granting
                Scenario.username Scenario.granted (Scenario.empty_world 1000)
                w1 (advance 600 w1) eq_refl eq_refl eq_refl)).
Defined.

(** X11: with an unexpired access token in the table, [ir_auth] answers
    200 from the item alone: no request goes to the token endpoint,
    nothing is written, and the [expires_in] of the answer is the lifetime
    that was stored, not the time that is left. *)
Theorem unexpired_token_served_from_table env w credentials username item tok :
  services_up env credentials ->
  full_credentials credentials ->
  credentials !! "username" = Some username ->
  ir_auth w !! username = Some item ->
  clock w < default 0 (ti_ttl item) ->
  ti_access_token item = Some tok ->
  IrAuth.lambda_handler env w
  = (Ok (IrAuth.token_response "Authentication successful (cached)" tok
           (default "Bearer" (ti_token_type item))
           (default 0 (ti_expires_in item))
           (default "" (ti_scope item))),
     record (GetItem "ir_auth" username) (record GetSecretValue w)).
Proof.
  intros [Hdb Hsec] Hc Hu Hi Hlt Htok.
  unfold IrAuth.lambda_handler.
  assert (Hex : IrAuth.get_existing_tokens env username (record GetSecretValue w)
                = (Ok (Some (IrAuth.ValidTokens tok
                               (default "Bearer" (ti_token_type item))
                               (default 0 (ti_expires_in item))
                               (default "" (ti_scope item))
                               (ti_refresh_token item)
                               (default 0 (ti_refresh_token_expires_in item)))),
                   record (GetItem "ir_auth" username) (record GetSecretValue w))).
  { unfold IrAuth.get_existing_tokens. munfold. rewrite Hdb. wsimpl.
    rewrite Hi. munfold.
    destruct (default 0 (ti_ttl item) >? clock w) eqn:E;
      [|rewrite Z.gtb_ltb in E; apply Z.ltb_ge in E; lia].
    now rewrite Htok. }
  erewrite try_except_Ok; [reflexivity|].
  rewrite (bind_Ok _ _ _ _ _ (auth_get_oauth_credentials_ok _ _ _ (Hsec _) Hc)).
  unfold getitem at 1. rewrite Hu.
  rewrite (bind_Ok (ret username) _ _ username _ eq_refl).
  rewrite (bind_Ok _ _ _ _ _ Hex). reflexivity.
Qed.

Lemma unexpired_token_served_from_table_witness :
  IrAuth.lambda_handler Scenario.down (advance 299 (Scenario.signed_in 1000))
  = (Ok (IrAuth.token_response "Authentication successful (cached)" "access-0"
           "Bearer" 600 "iracing.auth"),
     record (GetItem "ir_auth" Scenario.username)
       (record GetSecretValue (advance 299 (Scenario.signed_in 1000)))).
Proof.
  apply (unexpired_token_served_from_table Scenario.down
           (advance 299 (Scenario.signed_in 1000)) Scenario.credentials
           Scenario.username (Scenario.stored_token (1000 + 300)) "access-0").
  - split; intros h; reflexivity.
  - repeat split; vm_compute; eauto.
  - vm_compute. reflexivity.
  - vm_compute. reflexivity.
  - vm_compute. reflexivity.
  - reflexivity.
Defined.

(** ** What the handlers and the invocations can answer *)

Lemma fresh_response_is message resp w r w' :
  IrAuth.fresh_response message resp w = (Ok r, w') ->
  statusCode r = 200 /\ headers r = IrAuth.json_headers.
Proof.
  unfold IrAuth.fresh_response. munfold.
  destruct (oa_access_token resp); [|discriminate].
  intros [= <- <-]. split; reflexivity.
Qed.

Lemma auth_on_exception_is e :
  let r := IrAuth.on_exception e in
  (statusCode r = 429
   /\ headers r = (IrAuth.json_headers ++ [("Retry-After", "60")])%list)
  \/ ((statusCode r = 401 \/ statusCode r = 503 \/ statusCode r = 500)
      /\ headers r = IrAuth.json_headers).
Proof. destruct e; cbn; auto. Qed.

Lemma get_access_token_returns env username w :
  exists r,
    IrCustid.get_access_token env username w
    = (Ok r, record (GetItem "ir_auth" username) w).
Proof.
  unfold IrCustid.get_access_token. munfold.
  destruct (dynamodb_error env (trace w)); [eauto|]. wsimpl.
  destruct (ir_auth w !! username) as [item|]; [|eauto]. munfold.
  destruct (default 0 (ti_ttl item) >? clock w); [|eauto].
  destruct (ti_access_token item); eauto.
Qed.

Lemma invoke_auth_lambda_raises env w e w' :
  IrCustid.invoke_auth_lambda env w = (Raise e, w') ->
  exists msg, e = AuthenticationError msg.
Proof.
  unfold IrCustid.invoke_auth_lambda. intros H.
  apply try_except_inv in H as [(a & _ & [=])|(e0 & w1 & _ & H)].
  destruct e0; injection H as <- <-; eauto.
Qed.

Lemma reauthenticate_raises env username message w e w' :
  IrCustid.reauthenticate env username message w = (Raise e, w') ->
  exists msg, e = AuthenticationError msg.
Proof.
  unfold IrCustid.reauthenticate. intros H.
  apply bind_inv in H as [([] & w1 & _ & H)|(e0 & H & [= <-])].
  2:{ eapply invoke_auth_lambda_raises, H. }
  destruct (get_access_token_returns env username w1) as [r Hr].
  rewrite (bind_Ok _ _ _ _ _ Hr) in H.
  destruct (IrCustid.usable_token r); [discriminate|].
  injection H as <- <-. eauto.
Qed.

Lemma acquire_token_raises env w e w' :
  IrCustid.acquire_token env w = (Raise e, w') -> token_failure e.
Proof.
  unfold IrCustid.acquire_token. intros H.
  apply bind_inv in H as [(credentials & w1 & _ & H)|(e0 & H & [= <-])].
  2:{ revert H. unfold IrCustid.get_oauth_credentials. munfold.
      destruct (get_secret_value env (trace w)) as [msg|msg|credentials];
        try (intros [= <- <-]; exact I).
      destruct (credentials !! "username"); [discriminate|].
      intros [= <- <-]. exact I. }
  apply bind_inv in H as [(username & w2 & _ & H)|(e0 & H & [= <-])].
  2:{ revert H. unfold getitem. destruct (credentials !! "username");
        [discriminate|]. intros [= <- <-]. exact I. }
  destruct (get_access_token_returns env username w2) as [r Hr].
  rewrite (bind_Ok _ _ _ _ _ Hr) in H.
  apply bind_inv in H as [(tok & w3 & _ & H)|(e0 & H & [= <-])];
    [discriminate|].
  destruct (IrCustid.usable_token r); [discriminate|].
  apply reauthenticate_raises in H as [msg ->]. exact I.
Qed.

Lemma auth_handler_body_ok env w r w' :
  IrAuth.lambda_handler env w = (Ok r, w') ->
  (statusCode r = 200 /\ headers r = IrAuth.json_headers)
  \/ exists e, r = IrAuth.on_exception e.
Proof.
  unfold IrAuth.lambda_handler. intros H.
  apply try_except_inv in H as [(r0 & H & [= <-])|(e & w1 & _ & H)].
  2:{ injection H as <- <-. eauto. }
  left.
  apply bind_inv_Ok in H as (credentials & w1 & _ & H).
  apply bind_inv_Ok in H as (username & w2 & _ & H).
  apply bind_inv_Ok in H as (existing & w3 & _ & H).
  assert (Hrest : forall refreshed w4,
    match refreshed with
    | Some r => ret r
    | None =>
        (oauth_response <-
           IrAuth.make_oauth_request env credentials "password_limited" None;;
         IrAuth.store_tokens_in_dynamodb env username oauth_response;;
         IrAuth.fresh_response "Authentication successful" oauth_response)%py
    end w4 = (Ok r, w') ->
    (forall r0, refreshed = Some r0 ->
       statusCode r0 = 200 /\ headers r0 = IrAuth.json_headers) ->
    statusCode r = 200 /\ headers r = IrAuth.json_headers).
  { intros [r0|] w4 H4 Hr.
    - injection H4 as <- <-. now apply Hr.
    - apply bind_inv_Ok in H4 as (resp & w5 & _ & H4).
      apply bind_inv_Ok in H4 as ([] & w6 & _ & H4).
      eapply fresh_response_is, H4. }
  destruct existing as [[tok tt ei sc rt rei|token]|].
  - injection H as <- <-. split; reflexivity.
  - apply bind_inv_Ok in H as (refreshed & w4 & Hre & H).
    eapply Hrest; [exact H|]. intros r0 ->.
    destruct (Py.truthy_str token); [|discriminate].
    apply try_except_inv in Hre as [(a & Hre & [= <-])|(e & w5 & _ & Hre)].
    + apply bind_inv_Ok in Hre as (resp & w5 & _ & Hre).
      apply bind_inv_Ok in Hre as ([] & w6 & _ & Hre).
      apply bind_inv_Ok in Hre as (r1 & w7 & Hf & Hre).
      injection Hre as <- <-. eapply fresh_response_is, Hf.
    + destruct e; discriminate.
  - apply bind_inv_Ok in H as (refreshed & w4 & Hre & H).
    injection Hre as <- <-.
    eapply (Hrest None); [exact H|]. discriminate.
Qed.

(** X12: the three handlers always return a response, whatever the
    services do.  [ir_auth] answers 200, 401, 429, 503 or 500, and its 429
    alone carries [Retry-After: 60]; [ir_custid] answers 200, 400, 401,
    502, 503 or 500; [ir_drivers] answers 200, 400, 401, 503 or 500, with
    the CORS headers: its clause for [APIError] (502) is never taken, since
    every such error is caught per name. *)
Theorem handlers_always_answer env :
  (forall w, exists r w',
      IrAuth.lambda_handler env w = (Ok r, w')
      /\ In (statusCode r) [200; 401; 429; 503; 500]
      /\ headers r
         = (IrAuth.json_headers
            ++ if statusCode r =? 429 then [("Retry-After", "60")] else [])%list)
  /\ (forall event w, exists r w',
         IrCustid.lambda_handler env event w = (Ok r, w')
         /\ In (statusCode r) [200; 400; 401; 502; 503; 500]
         /\ headers r = IrCustid.json_headers)
  /\ (forall event w, exists r w',
         IrDrivers.lambda_handler env event w = (Ok r, w')
         /\ In (statusCode r) [200; 400; 401; 503; 500]
         /\ headers r = IrDrivers.cors_headers).
Proof.
  split; [|split].
  - intros w.
    destruct (IrAuth.lambda_handler env w) as [[r|e] w'] eqn:H.
    2:{ exfalso. revert H. unfold IrAuth.lambda_handler, try_except.
        match goal with |- context [match ?m with _ => _ end] =>
          destruct m as [[r|e'] w1] end; discriminate. }
    exists r, w'. split; [reflexivity|].
    apply auth_handler_body_ok in H as [[H200 Hh]|[e ->]].
    + rewrite H200, Hh. cbn. auto.
    + destruct e; cbn; auto 10.
  - intros event w. unfold IrCustid.lambda_handler.
    match goal with |- context [try_except ?m ?h w] =>
      destruct (m w) as [[r|e] w1] eqn:H
    end.
    + exists r, w1. split; [now rewrite (try_except_Ok _ _ _ _ _ H)|].
      destruct (negb (Py.truthy_str _)).
      * injection H as <- <-. cbn. auto.
      * apply bind_inv_Ok in H as ([] & w2 & _ & H).
        apply bind_inv_Ok in H as (response & w3 & _ & H).
        apply bind_inv_Ok in H as (custid & w4 & _ & H).
        injection H as <- <-. cbn. auto.
    + eexists _, w1. split; [now rewrite (try_except_Raise _ _ _ _ _ H)|].
      destruct e; cbn; auto 10.
  - intros event w. unfold IrDrivers.lambda_handler.
    match goal with |- context [try_except ?m ?h w] =>
      destruct (m w) as [[r|e] w1] eqn:H
    end.
    + exists r, w1. split; [now rewrite (try_except_Ok _ _ _ _ _ H)|].
      cbv zeta in H. destruct (IrDrivers.parse_names env event).
      * injection H as <- <-. cbn. auto.
      * apply bind_inv_Ok in H as (token & w2 & _ & H).
        apply bind_inv_Ok in H as (info & w3 & _ & H).
        injection H as <- <-. cbn. auto.
    + eexists _, w1. split; [now rewrite (try_except_Raise _ _ _ _ _ H)|].
      cbv zeta in H. destruct (IrDrivers.parse_names env event) as [|n ns];
        [discriminate|].
      apply bind_inv in H as [(token & w2 & _ & H)|(e0 & H & [= <-])].
      * destruct (process_all_spec env (fst token) (snd token) (n :: ns) [] w2)
          as (entries & w3 & _ & Hall).
        rewrite (bind_Ok _ _ _ _ _ Hall) in H. discriminate.
      * apply acquire_token_raises in H. destruct e; cbn in H |- *;
          try contradiction; auto 10.
Qed.

Lemma invoke_custid_lambda_raises env name w e w' :
  IrDrivers.invoke_custid_lambda env name w = (Raise e, w') ->
  exists msg, e = APIError msg.
Proof.
  unfold IrDrivers.invoke_custid_lambda. intros H.
  apply try_except_inv in H as [(a & _ & [=])|(e0 & w1 & _ & H)].
  destruct e0; injection H as <- <-; eauto.
Qed.

(** X13: the invocation of [ir_auth] fails with [AuthenticationError] and
    nothing else, and the one of [ir_custid] with [APIError] and nothing
    else.  When the invoked handler answers with a status other than 200,
    the error raised inside the [try] is caught by its own
    [except Exception] and wrapped once more, so that the message reads
    "Authentication invocation failed: ir_auth Lambda failed: " (or
    "Customer ID lookup failed: ir_custid Lambda failed: ") and then the
    body of the answer. *)
Theorem invocations_wrap_failures env :
  (forall w e w',
      IrCustid.invoke_auth_lambda env w = (Raise e, w') ->
      exists msg, e = AuthenticationError msg)
  /\ (forall name w e w',
         IrDrivers.invoke_custid_lambda env name w = (Raise e, w') ->
         exists msg, e = APIError msg)
  /\ (forall w r w1,
         lambda_invoke env (trace w) "ir_auth" = InvokeStatusCode 200 ->
         IrAuth.lambda_handler env (record (Invoke "ir_auth") w) = (Ok r, w1) ->
         statusCode r <> 200 ->
         IrCustid.invoke_auth_lambda env w
         = (Raise (AuthenticationError
                     ("Authentication invocation failed: ir_auth Lambda failed: "
                      +:+ Json.dumps (body r))), w1))
  /\ (forall name w r w1,
         lambda_invoke env (trace w) "ir_custid" = InvokeStatusCode 200 ->
         IrCustid.lambda_handler env {| IrCustid.rawQueryString := Some name |}
           (record (Invoke "ir_custid") w) = (Ok r, w1) ->
         statusCode r <> 200 ->
         IrDrivers.invoke_custid_lambda env name w
         = (Raise (APIError
                     ("Customer ID lookup failed: ir_custid Lambda failed: "
                      +:+ Json.dumps (body r))), w1)).
Proof.
  split; [|split; [|split]].
  - intros w e w'. apply invoke_auth_lambda_raises.
  - intros name w e w'. apply invoke_custid_lambda_raises.
  - intros w r w1 Hinv Hr Hne. unfold IrCustid.invoke_auth_lambda.
    erewrite try_except_Raise.
    2:{ unfold gets at 1, emit at 1, modify at 1. unfold bind at 1 2. wsimpl.
        rewrite Hinv, (bind_Ok _ _ _ _ _ Hr).
        change (200 =? 200) with true. cbn [negb].
        apply Z.eqb_neq in Hne. rewrite Hne. reflexivity. }
    reflexivity.
  - intros name w r w1 Hinv Hr Hne. unfold IrDrivers.invoke_custid_lambda.
    erewrite try_except_Raise.
    2:{ unfold gets at 1, emit at 1, modify at 1. unfold bind at 1 2. wsimpl.
        rewrite Hinv, (bind_Ok _ _ _ _ _ Hr).
        change (200 =? 200) with true. cbn [negb].
        apply Z.eqb_neq in Hne. rewrite Hne. reflexivity. }
    reflexivity.
Qed.

Lemma invocations_wrap_failures_witness :
  exists w1,
    IrCustid.invoke_auth_lambda Scenario.down (Scenario.empty_world 1000)
    = (Raise (AuthenticationError
                ("Authentication invocation failed: ir_auth Lambda failed: "
                 +:+ Json.dumps
                       (body (IrAuth.error_response 401 []
                                "Authentication failed"
                                "OAuth request failed after 3 attempts")))),
       w1).
Proof.
  destruct (invocations_wrap_failures Scenario.down) as (_ & _ & H & _).
  eexists. apply H.
  - reflexivity.
  - vm_compute. reflexivity.
  - discriminate.
Defined.

(** ** [ir_custid]: before the search *)

(** X14: the resolution answers 400 to an empty search term without
    doing anything, and 503 when the lookup in the identifier cache fails,
    without reading the secret or calling the upstream. *)
Theorem resolution_early_answers env event w :
  let term := unquote env (default "" (IrCustid.rawQueryString event)) in
  (Py.truthy_str term = false ->
   IrCustid.lambda_handler env event w
   = (Ok (IrCustid.error_response 400 "Bad Request" "Search term is required"),
      w))
  /\ (Py.truthy_str term = true ->
      is_Some (dynamodb_error env (trace w)) ->
      IrCustid.lambda_handler env event w
      = (Ok (IrCustid.error_response 503 "Service unavailable"
               "AWS service temporarily unavailable"),
         record (GetItem "ir_custid" term) w)).
Proof.
  intros term. split.
  - intros Hterm. unfold IrCustid.lambda_handler. fold term.
    rewrite Hterm. reflexivity.
  - intros Hterm [msg Hdb]. unfold IrCustid.lambda_handler. fold term.
    rewrite Hterm. cbn [negb].
    erewrite try_except_Raise.
    2:{ apply bind_Raise. unfold dynamodb_call. munfold. rewrite Hdb.
        reflexivity. }
    reflexivity.
Qed.

Lemma resolution_early_answers_witness :
  IrCustid.lambda_handler Scenario.down {| IrCustid.rawQueryString := None |}
    (Scenario.empty_world 1000)
  = (Ok (IrCustid.error_response 400 "Bad Request" "Search term is required"),
     Scenario.empty_world 1000)
  /\ IrCustid.lambda_handler Faulty.no_dynamodb
       {| IrCustid.rawQueryString := Some "Bob" |} (Scenario.empty_world 1000)
     = (Ok (IrCustid.error_response 503 "Service unavailable"
              "AWS service temporarily unavailable"),
        record (GetItem "ir_custid" "Bob") (Scenario.empty_world 1000)).
Proof.
  split.
  - apply (proj1 (resolution_early_answers Scenario.down
                    {| IrCustid.rawQueryString := None |}
                    (Scenario.empty_world 1000))).
    reflexivity.
  - apply (proj2 (resolution_early_answers Faulty.no_dynamodb
                    {| IrCustid.rawQueryString := Some "Bob" |}
                    (Scenario.empty_world 1000))).
    + reflexivity.
    + vm_compute. eauto.
Defined.

(** ** [ir_custid]: the choice among the candidates *)

Lemma find_some_in {A} (f : A -> bool) l x :
  List.find f l = Some x -> In x l /\ f x = true.
Proof. apply List.find_some. Qed.

Lemma choose_driver_chosen env term first rest w :
  IrCustid.choose_driver env term (first :: rest) w
  = IrCustid.found env (chosen term first rest) w.
Proof.
  unfold IrCustid.choose_driver, chosen. cbv zeta.
  destruct (1 <? Z.of_nat (List.length (first :: rest))) eqn:E.
  - now destruct (List.find _ (first :: rest)).
  - destruct rest as [|second rest].
    + cbn [List.find]. now destruct (display_name first =? term)%string.
    + apply Z.ltb_ge in E. cbn [List.length] in E. lia.
Qed.

(** X15: among the candidates of the upstream, the answer is the first
    one whose display name is the search term, and the first candidate
    when no name matches; the test on the number of candidates changes
    nothing.  The identifier is answered as a string and written to the
    cache under the display name of that candidate. *)
Theorem first_exact_match_else_first env term first rest w :
  let driver := chosen term first rest in
  IrCustid.choose_driver env term (first :: rest) w
  = (Ok (found_dict driver),
     snd (IrCustid.cache_driver_result env (display_name driver)
            (cust_id driver) w))
  /\ In driver (first :: rest)
  /\ ((exists d, In d (first :: rest) /\ display_name d = term) ->
      display_name driver = term
      /\ exists before after,
           first :: rest = (before ++ driver :: after)%list
           /\ forall d, In d before -> display_name d <> term)
  /\ ((forall d, In d (first :: rest) -> display_name d <> term) ->
      driver = first).
Proof.
  intros driver. split; [|split; [|split]].
  - rewrite choose_driver_chosen. fold driver. unfold IrCustid.found.
    destruct (IrCustid.cache_driver_result env (display_name driver)
                (cust_id driver) w) as [res w1] eqn:Hc.
    pose proof Hc as Hc'. apply cache_driver_result_inv in Hc' as [-> _].
    now rewrite (bind_Ok _ _ _ _ _ Hc).
  - subst driver. unfold chosen.
    destruct (List.find _ (first :: rest)) as [d|] eqn:E; cbn.
    + now apply find_some_in in E.
    + now left.
  - intros (d & Hd & Hname). subst driver. unfold chosen.
    destruct (List.find _ (first :: rest)) as [d'|] eqn:E.
    + cbn. split.
      * apply find_some_in in E as [_ E]. now apply String.eqb_eq in E.
      * clear Hd Hname d. revert E. generalize (first :: rest). intros l.
        induction l as [|x l IH]; [discriminate|]. cbn [List.find].
        destruct (display_name x =? term)%string eqn:Ex.
        -- intros [= ->]. exists [], l. split; [reflexivity|]. intros d [].
        -- intros E. destruct (IH E) as (before & after & -> & Hb).
           exists (x :: before), after. split; [reflexivity|].
           intros d [<-|Hin]; [now apply String.eqb_neq in Ex|now apply Hb].
    + exfalso. apply (List.find_none _ _ E) in Hd.
      apply String.eqb_neq in Hd. contradiction.
  - intros Hnone. subst driver. unfold chosen.
    destruct (List.find _ (first :: rest)) as [d|] eqn:E; [|reflexivity].
    apply find_some_in in E as [Hin E]. apply String.eqb_eq in E.
    now destruct (Hnone d Hin).
Qed.

Lemma first_exact_match_else_first_witness :
  chosen "bob" Scenario.bob_smith [Scenario.bob] = Scenario.bob
  /\ fst (IrCustid.choose_driver (Scenario.resolving []) "bob"
            [Scenario.bob_smith; Scenario.bob] (Scenario.signed_in 1000))
     = Ok (found_dict Scenario.bob).
Proof.
  destruct (first_exact_match_else_first (Scenario.resolving []) "bob"
              Scenario.bob_smith [Scenario.bob] (Scenario.signed_in 1000))
    as (H & _ & Hexact & _).
  split; [reflexivity|].
  destruct Hexact as [_ _].
  - exists Scenario.bob. split; [right; left|]; reflexivity.
  - exact (f_equal fst H).
Defined.

(** ** The caches cannot be written *)

Lemma search_found env term tok w ra ra' url first rest :
  lookup_drivers env (trace w) term tok
  = Response 200 ra (Json {| link := Some url |}) ->
  fetch_drivers env (LookupDrivers term tok :: trace w) url
  = Response 200 ra' (Json (first :: rest)) ->
  IrCustid.search_driver_with_auth env term tok w
  = IrCustid.found env (chosen term first rest)
      (record (FetchDrivers url) (record (LookupDrivers term tok) w)).
Proof.
  intros H1 H2. unfold IrCustid.search_driver_with_auth.
  change (range MAX_RETRIES) with [0; 1; 2].
  cbn [IrCustid.search_attempts]. cbv zeta. unfold urlopen at 1. munfold.
  rewrite H1. change (200 =? 200) with true. cbn iota. cbn [link].
  unfold urlopen. munfold. rewrite H2.
  change (200 =? 200) with true. cbn iota.
  apply choose_driver_chosen.
Qed.

(** X16: a cache that cannot be written does not break the answer.  When
    the [put_item] of the identifier fails, the search still returns the
    candidate, and when the one of the profile fails, the fetch still
    returns the profile; the tables are as they were. *)
Theorem cache_write_failure_tolerated
    env term tok w ra ra' url first rest
    env2 name cust_id tok2 w2 ra2 ra2' url2 profile :
  lookup_drivers env (trace w) term tok
  = Response 200 ra (Json {| link := Some url |}) ->
  fetch_drivers env (LookupDrivers term tok :: trace w) url
  = Response 200 ra' (Json (first :: rest)) ->
  is_Some (dynamodb_error env
             (FetchDrivers url :: LookupDrivers term tok :: trace w)) ->
  member_profile env2 (trace w2) (Json.format cust_id) tok2
  = Response 200 ra2 (Json {| link := Some url2 |}) ->
  fetch_profile env2 (MemberProfile (Json.format cust_id) tok2 :: trace w2) url2
  = Response 200 ra2' (Json profile) ->
  is_Some (dynamodb_error env2
             (FetchProfile url2 :: MemberProfile (Json.format cust_id) tok2
              :: trace w2)) ->
  let driver := chosen term first rest in
  IrCustid.search_driver_with_auth env term tok w
  = (Ok (found_dict driver),
     {| clock := clock w; ir_auth := ir_auth w; ir_custid := ir_custid w;
        ir_drivers := ir_drivers w;
        trace := [PutItem "ir_custid" (display_name driver); FetchDrivers url;
                  LookupDrivers term tok] ++ trace w |})
  /\ IrDrivers.fetch_and_cache env2 name cust_id tok2 w2
     = (Ok profile,
        {| clock := clock w2; ir_auth := ir_auth w2; ir_custid := ir_custid w2;
           ir_drivers := ir_drivers w2;
           trace := [PutItem "ir_drivers" name; FetchProfile url2;
                     MemberProfile (Json.format cust_id) tok2] ++ trace w2 |}).
Proof.
  intros H1 H2 [msg Hdb] H3 H4 [msg2 Hdb2] driver. split.
  - rewrite (search_found _ _ _ _ _ _ _ _ _ H1 H2). fold driver.
    unfold IrCustid.found, IrCustid.cache_driver_result. munfold.
    rewrite Hdb. reflexivity.
  - unfold IrDrivers.fetch_and_cache.
    rewrite (bind_Ok _ _ _ _ _ (get_driver_profile_ok _ _ _ _ _ _ _ _ H3 H4)).
    unfold IrDrivers.cache_driver_profile. munfold. rewrite Hdb2. reflexivity.
Qed.

Lemma cache_write_failure_tolerated_witness :
  IrCustid.search_driver_with_auth Faulty.resolving_unstored "bob" "access-0"
    (Scenario.signed_in 1000)
  = (Ok (found_dict Scenario.bob),
     {| clock := 1000; ir_auth := ir_auth (Scenario.signed_in 1000);
        ir_custid := ∅; ir_drivers := ∅;
        trace := [PutItem "ir_custid" "bob";
                  FetchDrivers Scenario.drivers_link;
                  LookupDrivers "bob" "access-0"] |})
  /\ IrDrivers.fetch_and_cache (Faulty.with_dynamodb Faulty.read_only
                                  Scenario.profiles)
       "A" (JStr "1") "access-0" (Scenario.signed_in 1000)
     = (Ok (Scenario.profile_document (Scenario.profile_link "1")),
        {| clock := 1000; ir_auth := ir_auth (Scenario.signed_in 1000);
           ir_custid := ∅; ir_drivers := ∅;
           trace := [PutItem "ir_drivers" "A";
                     FetchProfile (Scenario.profile_link "1");
                     MemberProfile "1" "access-0"] |}).
Proof.
  apply (cache_write_failure_tolerated
           Faulty.resolving_unstored "bob" "access-0" (Scenario.signed_in 1000)
           NoRetryAfter NoRetryAfter Scenario.drivers_link
           Scenario.bob_smith [Scenario.bob]
           (Faulty.with_dynamodb Faulty.read_only Scenario.profiles)
           "A" (JStr "1") "access-0" (Scenario.signed_in 1000)
           NoRetryAfter NoRetryAfter (Scenario.profile_link "1")
           (Scenario.profile_document (Scenario.profile_link "1")));
    try reflexivity; vm_compute; eauto.
Defined.

(** ** [ir_custid]: the token is rejected *)

Lemma search_401 env term tok w :
  reply_status (lookup_drivers env (trace w) term tok) = Some 401 ->
  IrCustid.search_driver_with_auth env term tok w
  = (Raise (AuthenticationError "Access token expired or invalid"),
     record (LookupDrivers term tok) w).
Proof.
  intros H. unfold IrCustid.search_driver_with_auth.
  change (range MAX_RETRIES) with [0; 1; 2].
  now rewrite (search_attempt_failure _ _ _ _ _ _ _ H ltac:(discriminate)).
Qed.

(** X17: when the lookup answers 401 to every token, the resolution makes
    exactly two lookups, with one invocation of [ir_auth] between them,
    and answers 401; the second 401 is not followed by a third attempt. *)
Theorem lookup_rejection_retried_once
    env w credentials username stored raw :
  let term := unquote env raw in
  services_up env credentials ->
  full_credentials credentials ->
  credentials !! "username" = Some username ->
  (forall h, lambda_invoke env h "ir_auth" = InvokeStatusCode 200) ->
  token_ready w username stored ->
  Py.truthy_str term = true ->
  ir_custid w !! term = None ->
  (forall h tok, reply_status (lookup_drivers env h term tok) = Some 401) ->
  IrCustid.lambda_handler env {| IrCustid.rawQueryString := Some raw |} w
  = (Ok (IrCustid.error_response 401 "Authentication failed"
           "Access token expired or invalid"),
     {| clock := clock w; ir_auth := ir_auth w; ir_custid := ir_custid w;
        ir_drivers := ir_drivers w;
        trace := [LookupDrivers term stored;
                  GetItem "ir_auth" username;
                  GetItem "ir_auth" username; GetSecretValue;
                  Invoke "ir_auth";
                  LookupDrivers term stored;
                  GetItem "ir_auth" username; GetSecretValue;
                  GetItem "ir_custid" term] ++ trace w |}).
Proof.
  intros term Hup Hc Hu Hinv Hready Hterm Hmiss H401.
  unfold IrCustid.lambda_handler.
  change (default "" (IrCustid.rawQueryString
                        {| IrCustid.rawQueryString := Some raw |})) with raw.
  fold term. rewrite Hterm. cbn [negb].
  set (w1 := record (GetItem "ir_custid" term) w).
  set (w2 := record (GetItem "ir_auth" username) (record GetSecretValue w1)).
  set (w3 := record (LookupDrivers term stored) w2).
  assert (Hget : dynamodb_call env (GetItem "ir_custid" term) w = (Ok tt, w1)).
  { unfold dynamodb_call. munfold. now rewrite (proj1 Hup). }
  assert (Hre : IrCustid.reauthenticate env username
                  "Failed to obtain access token after re-authentication" w3
                = (Ok stored,
                   record (GetItem "ir_auth" username)
                     (record (GetItem "ir_auth" username)
                        (record GetSecretValue
                           (record (Invoke "ir_auth") w3))))).
  { apply (reauthenticate_cached env w3 credentials); try assumption.
    apply Hinv. }
  erewrite try_except_Raise.
  2:{ rewrite (bind_Ok _ _ _ _ _ Hget).
      unfold gets at 1. unfold bind at 1. wsimpl.
      change (ir_custid w1 !! term) with (ir_custid w !! term). rewrite Hmiss.
      apply bind_Raise. cbn iota.
      rewrite (bind_Ok _ _ _ _ _
                 (acquire_token_ready env w1 _ _ _ Hup Hu Hready)).
      cbn [fst snd]. fold w2.
      rewrite (try_except_Raise _ _ _ _ _ (search_401 env term stored w2 (H401 _ _))).
      fold w3. rewrite (bind_Ok _ _ _ _ _ Hre).
      apply search_401, H401. }
  reflexivity.
Qed.

Lemma lookup_rejection_retried_once_witness :
  IrCustid.lambda_handler Faulty.lookup_unauthorized
    {| IrCustid.rawQueryString := Some "Bob" |} (Scenario.signed_in 1000)
  = (Ok (IrCustid.error_response 401 "Authentication failed"
           "Access token expired or invalid"),
     {| clock := 1000; ir_auth := ir_auth (Scenario.signed_in 1000);
        ir_custid := ∅; ir_drivers := ∅;
        trace := [LookupDrivers "Bob" "access-0";
                  GetItem "ir_auth" Scenario.username;
                  GetItem "ir_auth" Scenario.username; GetSecretValue;
                  Invoke "ir_auth";
                  LookupDrivers "Bob" "access-0";
                  GetItem "ir_auth" Scenario.username; GetSecretValue;
                  GetItem "ir_custid" "Bob"] |}).
Proof.
  apply (lookup_rejection_retried_once Faulty.lookup_unauthorized
           (Scenario.signed_in 1000) Scenario.credentials Scenario.username
           "access-0" "Bob").
  - split; intros h; reflexivity.
  - repeat split; vm_compute; eauto.
  - vm_compute. reflexivity.
  - intros h. reflexivity.
  - exists (Scenario.stored_token (1000 + 300)), (1000 + 300).
    repeat split; try reflexivity; cbn; lia.
  - reflexivity.
  - reflexivity.
  - intros h tok. reflexivity.
Defined.

(** ** A reply without a link *)

Lemma search_without_link env term tok w ra :
  lookup_drivers env (trace w) term tok
  = Response 200 ra (Json {| link := None |}) ->
  IrCustid.search_driver_with_auth env term tok w
  = (Raise (APIError "Invalid search response format"),
     record (LookupDrivers term tok) w).
Proof.
  intros H. unfold IrCustid.search_driver_with_auth.
  change (range MAX_RETRIES) with [0; 1; 2].
  cbn [IrCustid.search_attempts]. cbv zeta. unfold urlopen at 1. munfold.
  rewrite H. reflexivity.
Qed.

Lemma profile_without_link env cust_id tok w ra :
  member_profile env (trace w) cust_id tok
  = Response 200 ra (Json {| link := None |}) ->
  IrDrivers.get_driver_profile_with_auth env cust_id tok w
  = (Raise (APIError "Invalid profile response format"),
     record (MemberProfile cust_id tok) w).
Proof.
  intros H. unfold IrDrivers.get_driver_profile_with_auth.
  change (range MAX_RETRIES) with [0; 1; 2].
  cbn [IrDrivers.profile_attempts]. cbv zeta. unfold urlopen at 1. munfold.
  rewrite H. reflexivity.
Qed.

(** X18: a 200 of the data API whose document has no [link] is not
    retried.  The resolution answers 502 "Invalid search response format"
    after one lookup; the profile service gives the name its error entry
    after one profile request. *)
Theorem reply_without_link_not_retried
    env w credentials username access_token raw ra
    env2 w2 name n username2 access_token2 ra2 :
  let term := unquote env raw in
  services_up env credentials ->
  credentials !! "username" = Some username ->
  token_ready w username access_token ->
  Py.truthy_str term = true ->
  ir_custid w !! term = None ->
  lookup_drivers env
    (GetItem "ir_auth" username :: GetSecretValue :: GetItem "ir_custid" term
     :: trace w) term access_token
  = Response 200 ra (Json {| link := None |}) ->
  (forall h, dynamodb_error env2 h = None) ->
  ir_drivers w2 !! name = None ->
  ir_custid w2 !! name = Some n ->
  0 < n ->
  member_profile env2
    (GetItem "ir_custid" name :: GetItem "ir_drivers" name :: trace w2)
    (Py.str n) access_token2
  = Response 200 ra2 (Json {| link := None |}) ->
  IrCustid.lambda_handler env {| IrCustid.rawQueryString := Some raw |} w
  = (Ok (IrCustid.error_response 502 "API error"
           "Invalid search response format"),
     {| clock := clock w; ir_auth := ir_auth w; ir_custid := ir_custid w;
        ir_drivers := ir_drivers w;
        trace := [LookupDrivers term access_token;
                  GetItem "ir_auth" username; GetSecretValue;
                  GetItem "ir_custid" term] ++ trace w |})
  /\ IrDrivers.process_driver env2 name username2 access_token2 w2
     = (Ok (IrDrivers.error_entry
              ("iRacing API error for " +:+ name
               +:+ ": Invalid profile response format")),
        {| clock := clock w2; ir_auth := ir_auth w2; ir_custid := ir_custid w2;
           ir_drivers := ir_drivers w2;
           trace := [MemberProfile (Py.str n) access_token2;
                     GetItem "ir_custid" name; GetItem "ir_drivers" name]
                    ++ trace w2 |}).
Proof.
  intros term Hup Hu Hready Hterm Hmiss Hlookup Hdb Hmiss2 Hn Hpos Hprofile.
  split.
  - rewrite (custid_handler_miss_raises env w credentials username access_token
               raw (APIError "Invalid search response format")
               (record (LookupDrivers term access_token)
                  (record (GetItem "ir_auth" username)
                     (record GetSecretValue
                        (record (GetItem "ir_custid" term) w))))
               Hup Hu Hready Hterm Hmiss ltac:(intros; discriminate)).
    + reflexivity.
    + now apply (search_without_link env term access_token _ ra).
  - rewrite (process_driver_miss env2 name username2 access_token2 w2 None _ n
               (get_cached_driver_profile_absent _ _ _ Hmiss2) eq_refl
               (Hdb _) Hn Hpos).
    erewrite try_except_Raise.
    2:{ unfold IrDrivers.profile_with_reauth.
        erewrite try_except_Raise.
        2:{ unfold IrDrivers.fetch_and_cache. apply bind_Raise.
            now apply (profile_without_link env2 (Py.str n) access_token2 _ ra2). }
        reflexivity. }
    reflexivity.
Qed.

Lemma reply_without_link_not_retried_witness :
  IrCustid.lambda_handler Faulty.linkless
    {| IrCustid.rawQueryString := Some "Bob" |} (Scenario.signed_in 1000)
  = (Ok (IrCustid.error_response 502 "API error"
           "Invalid search response format"),
     {| clock := 1000; ir_auth := ir_auth (Scenario.signed_in 1000);
        ir_custid := ∅; ir_drivers := ∅;
        trace := [LookupDrivers "Bob" "access-0";
                  GetItem "ir_auth" Scenario.username; GetSecretValue;
                  GetItem "ir_custid" "Bob"] |})
  /\ IrDrivers.process_driver Faulty.linkless "A" Scenario.username "access-0"
       (Scenario.batch_world 1000)
     = (Ok (IrDrivers.error_entry
              "iRacing API error for A: Invalid profile response format"),
        {| clock := 1000; ir_auth := ir_auth (Scenario.batch_world 1000);
           ir_custid := ir_custid (Scenario.batch_world 1000);
           ir_drivers := ∅;
           trace := [MemberProfile "1" "access-0";
                     GetItem "ir_custid" "A"; GetItem "ir_drivers" "A"] |}).
Proof.
  apply (reply_without_link_not_retried Faulty.linkless
           (Scenario.signed_in 1000) Scenario.credentials Scenario.username
           "access-0" "Bob" NoRetryAfter
           Faulty.linkless (Scenario.batch_world 1000) "A" 1
           Scenario.username "access-0" NoRetryAfter).
  - split; intros h; reflexivity.
  - vm_compute. reflexivity.
  - exists (Scenario.stored_token (1000 + 300)), (1000 + 300).
    repeat split; try reflexivity; cbn; lia.
  - reflexivity.
  - reflexivity.
  - reflexivity.
  - intros h. reflexivity.
  - reflexivity.
  - vm_compute. reflexivity.
  - lia.
  - reflexivity.
Defined.

(** ** [ir_drivers]: the names of the query *)

Lemma split_comma_nonempty s : Py.split_comma s <> [].
Proof.
  destruct s as [|c s]; [discriminate|]. cbn.
  destruct (Ascii.eqb c ","); [discriminate|].
  destruct (Py.split_comma s); discriminate.
Qed.

Lemma split_comma_no_comma s :
  forall piece, In piece (Py.split_comma s) -> no_comma piece = true.
Proof.
  induction s as [|c s IH]; intros piece.
  - intros [<-|[]]. reflexivity.
  - cbn [Py.split_comma]. destruct (Ascii.eqb c ",") eqn:E.
    + intros [<-|H]; [reflexivity|now apply IH].
    + pose proof (split_comma_nonempty s) as Hne.
      destruct (Py.split_comma s) as [|p ps]; [contradiction|].
      intros [<-|H].
      * cbn. rewrite E. cbn. apply IH. now left.
      * apply IH. now right.
Qed.

Lemma lstrip_no_comma s : no_comma s = true -> no_comma (Py.lstrip s) = true.
Proof.
  induction s as [|c s IH]; [reflexivity|]. cbn [no_comma Py.lstrip].
  intros [Hc Hs]%andb_prop. destruct (Py.isspace c); [now apply IH|].
  cbn [no_comma]. now rewrite Hc, Hs.
Qed.

Lemma rstrip_no_comma s : no_comma s = true -> no_comma (Py.rstrip s) = true.
Proof.
  induction s as [|c s IH]; [reflexivity|]. cbn [no_comma].
  intros [Hc Hs]%andb_prop. rewrite rstrip_cons.
  destruct (Py.rstrip s) as [|c' r] eqn:E.
  - destruct (Py.isspace c); [reflexivity|]. cbn. now rewrite Hc.
  - cbn [no_comma]. rewrite Hc. apply (IH Hs).
Qed.

Lemma strip_no_comma s : no_comma s = true -> no_comma (Py.strip s) = true.
Proof. intros H. unfold Py.strip. now apply lstrip_no_comma, rstrip_no_comma. Qed.

(** X19: every name that the handler takes from the query is not empty,
    has no whitespace at either end and has no comma; the names come in
    the order of the query, and a piece that is blank names nobody. *)
Theorem parsed_names_are_clean env event name :
  In name (IrDrivers.parse_names env event) ->
  Py.truthy_str name = true
  /\ Py.strip name = name
  /\ no_comma name = true
  /\ exists params piece,
       IrDrivers.queryStringParameters event = Some params
       /\ In piece (Py.split_comma (names_param env params))
       /\ ~ blank piece
       /\ name = Py.strip piece.
Proof.
  unfold IrDrivers.parse_names.
  destruct (IrDrivers.queryStringParameters event) as [params|]; [|intros []].
  destruct (bool_decide (params = ∅)); [intros []|]. cbv zeta.
  intros H. apply in_map_iff in H as (piece & <- & H).
  apply filter_In in H as [Hin Htruthy].
  split; [exact Htruthy|]. split; [apply strip_idem|].
  split; [apply strip_no_comma, (split_comma_no_comma _ _ Hin)|].
  exists params, piece. split; [reflexivity|]. split; [exact Hin|].
  split; [|reflexivity].
  unfold blank. intros Hb. rewrite Hb in Htruthy. discriminate.
Qed.

Lemma parsed_names_are_clean_witness :
  Py.truthy_str "bob smith" = true /\ Py.strip "bob smith" = "bob smith"
  /\ no_comma "bob smith" = true.
Proof.
  destruct (parsed_names_are_clean Scenario.down
              {| IrDrivers.queryStringParameters :=
                   Some {[ "names" := " A ,, bob smith ," ]} |} "bob smith")
    as (H1 & H2 & H3 & _).
  - vm_compute. right. left. reflexivity.
  - repeat split; assumption.
Defined.

Lemma truthy_str_false s : Py.truthy_str s = false <-> s = "".
Proof. destruct s; cbn; split; congruence. Qed.

Lemma filter_nil_iff {A} (f : A -> bool) l :
  List.filter f l = [] <-> forall x, In x l -> f x = false.
Proof.
  induction l as [|a l IH]; cbn.
  - split; [intros _ x []|reflexivity].
  - destruct (f a) eqn:E.
    + split; [discriminate|]. intros H. specialize (H a (or_introl eq_refl)).
      congruence.
    + rewrite IH. split.
      * intros H x [<-|Hx]; [exact E|now apply H].
      * intros H x Hx. apply H. now right.
Qed.

(** X20: the query names nobody exactly when it has no parameters at
    all, or every piece between the commas of [names] is blank; the
    handler then answers 400 and does nothing: no secret is read, no token
    is looked up. *)
Theorem no_names_is_400 env event w :
  (IrDrivers.parse_names env event = []
   <-> match IrDrivers.queryStringParameters event with
       | None => True
       | Some params =>
           params = ∅
           \/ forall piece,
                In piece (Py.split_comma (names_param env params)) ->
                blank piece
       end)
  /\ (IrDrivers.parse_names env event = [] ->
      IrDrivers.lambda_handler env event w
      = (Ok (IrDrivers.error_response 400 "Bad Request"
               ("Driver names are required in query parameter "
                +:+ Json.quote "names")),
         w)).
Proof.
  split.
  - unfold IrDrivers.parse_names.
    destruct (IrDrivers.queryStringParameters event) as [params|]; [|tauto].
    destruct (bool_decide_reflect (params = ∅)) as [->|Hne]; [tauto|].
    cbv zeta. fold (names_param env params). split.
    + intros H. right. apply map_eq_nil in H.
      intros piece Hin. apply truthy_str_false.
      revert piece Hin. now apply filter_nil_iff.
    + intros [->|H]; [contradiction|].
      replace (List.filter _ _) with (@nil string); [reflexivity|].
      symmetry. apply filter_nil_iff. intros piece Hin.
      apply truthy_str_false. now apply H.
  - intros H. unfold IrDrivers.lambda_handler. cbv zeta. rewrite H.
    reflexivity.
Qed.

Lemma no_names_is_400_witness :
  IrDrivers.lambda_handler Scenario.down
    {| IrDrivers.queryStringParameters := Some {[ "names" := " , ," ]} |}
    (Scenario.empty_world 1000)
  = (Ok (IrDrivers.error_response 400 "Bad Request"
           ("Driver names are required in query parameter "
            +:+ Json.quote "names")),
     Scenario.empty_world 1000).
Proof.
  apply (proj2 (no_names_is_400 Scenario.down
                  {| IrDrivers.queryStringParameters :=
                       Some {[ "names" := " , ," ]} |}
                  (Scenario.empty_world 1000))).
  vm_compute. reflexivity.
Defined.

(** ** [ir_drivers]: a name that cannot be resolved *)

Lemma invoke_custid_lambda_ok env name w r w1 kv :
  lambda_invoke env (trace w) "ir_custid" = InvokeStatusCode 200 ->
  IrCustid.lambda_handler env {| IrCustid.rawQueryString := Some name |}
    (record (Invoke "ir_custid") w) = (Ok r, w1) ->
  statusCode r = 200 ->
  body r = JDict kv ->
  IrDrivers.invoke_custid_lambda env name w
  = (Ok (default (JStr "0") (Json.get "custid" kv)), w1).
Proof.
  intros Hinv Hr H200 Hbody. unfold IrDrivers.invoke_custid_lambda.
  apply try_except_Ok.
  unfold gets at 1, emit at 1, modify at 1. unfold bind at 1 2. wsimpl.
  rewrite Hinv, (bind_Ok _ _ _ _ _ Hr).
  change (200 =? 200) with true. cbn [negb]. rewrite H200.
  change (200 =? 200) with true. cbn [negb]. now rewrite Hbody.
Qed.

Lemma get_customer_id_absent env name w :
  ir_custid w !! name = None ->
  IrDrivers.get_customer_id_from_cache env name w
  = (Ok None, record (GetItem "ir_custid" name) w).
Proof.
  intros H. unfold IrDrivers.get_customer_id_from_cache. munfold.
  destruct (dynamodb_error env (trace w)); [reflexivity|]. wsimpl.
  now rewrite H.
Qed.

(** X21: a name without a valid identifier gets the entry
    "Driver not found" and no profile is requested for it.  This is so
    when [ir_custid], invoked for a name that is in neither cache, finds
    no candidate and answers the identifier 0; and when the identifier
    cache holds for the name a number that is not positive, in which case
    [ir_custid] is not even invoked. *)
Theorem name_without_identifier_not_found
    env w credentials username stored name access_token ra ra' url
    w2 n username2 :
  let term := unquote env name in
  services_up env credentials ->
  credentials !! "username" = Some username ->
  token_ready w username stored ->
  (forall h, lambda_invoke env h "ir_custid" = InvokeStatusCode 200) ->
  ir_drivers w !! name = None ->
  ir_custid w !! name = None ->
  Py.truthy_str term = true ->
  ir_custid w !! term = None ->
  (forall h, lookup_drivers env h term stored
             = Response 200 ra (Json {| link := Some url |})) ->
  (forall h, fetch_drivers env h url = Response 200 ra' (Json [])) ->
  ir_drivers w2 !! name = None ->
  ir_custid w2 !! name = Some n ->
  n <= 0 ->
  IrDrivers.process_driver env name username access_token w
  = (Ok (IrDrivers.error_entry ("Driver not found: " +:+ name)),
     {| clock := clock w; ir_auth := ir_auth w; ir_custid := ir_custid w;
        ir_drivers := ir_drivers w;
        trace := [FetchDrivers url; LookupDrivers term stored;
                  GetItem "ir_auth" username; GetSecretValue;
                  GetItem "ir_custid" term; Invoke "ir_custid";
                  GetItem "ir_custid" name; GetItem "ir_drivers" name]
                 ++ trace w |})
  /\ IrDrivers.process_driver env name username2 access_token w2
     = (Ok (IrDrivers.error_entry ("Driver not found: " +:+ name)),
        {| clock := clock w2; ir_auth := ir_auth w2; ir_custid := ir_custid w2;
           ir_drivers := ir_drivers w2;
           trace := [GetItem "ir_custid" name; GetItem "ir_drivers" name]
                    ++ trace w2 |}).
Proof.
  intros term Hup Hu Hready Hinv Hmiss Hid Hterm Hidt Hlook Hfetch
    Hmiss2 Hn Hle.
  split.
  - set (w1 := record (GetItem "ir_custid" name)
                 (record (GetItem "ir_drivers" name) w)).
    set (w3 := record (Invoke "ir_custid") w1).
    assert (Hsearch :
      IrCustid.search_driver_with_auth env term stored
        (record (GetItem "ir_auth" username)
           (record GetSecretValue (record (GetItem "ir_custid" term) w3)))
      = (Ok (not_found term),
         record (FetchDrivers url)
           (record (LookupDrivers term stored)
              (record (GetItem "ir_auth" username)
                 (record GetSecretValue
                    (record (GetItem "ir_custid" term) w3)))))).
    { apply (search_no_candidates env term stored _ ra ra' url);
        [apply Hlook|apply Hfetch]. }
    pose proof (custid_handler_miss_ok env w3 credentials username stored name
                  _ _ Hup Hu Hready Hterm Hidt Hsearch) as Hhandler.
    pose proof (invoke_custid_lambda_ok env name w1 _ _ _ (Hinv _) Hhandler
                  eq_refl eq_refl) as Hcust.
    cbn [Json.get String.eqb Ascii.eqb Bool.eqb default from_option] in Hcust.
    unfold IrDrivers.process_driver.
    erewrite try_except_Ok; [reflexivity|].
    rewrite (bind_Ok _ _ _ _ _ (get_cached_driver_profile_absent _ _ _ Hmiss)).
    cbn [IrDrivers.truthy_profile].
    rewrite (bind_Ok _ _ _ _ _
               (get_customer_id_absent env name
                  (record (GetItem "ir_drivers" name) w) Hid)).
    cbn [IrCustid.usable_token]. fold w1.
    rewrite (bind_Ok _ _ _ _ _ Hcust). reflexivity.
  - unfold IrDrivers.process_driver.
    erewrite try_except_Ok; [reflexivity|].
    rewrite (bind_Ok _ _ _ _ _ (get_cached_driver_profile_absent _ _ _ Hmiss2)).
    cbn [IrDrivers.truthy_profile].
    rewrite (bind_Ok _ _ _ _ _
               (get_customer_id_cached env name n
                  (record (GetItem "ir_drivers" name) w2)
                  (proj1 Hup _) Hn)).
    unfold IrCustid.usable_token. rewrite str_truthy.
    rewrite (bind_Ok (ret (JStr (Py.str n))) _ _ (JStr (Py.str n)) _ eq_refl).
    unfold IrDrivers.invalid_cust_id. cbn [Json.truthy Json.int].
    rewrite str_truthy, int_str. cbn [negb].
    apply Z.leb_le in Hle.
    rewrite (bind_Ok (ret (n <=? 0)) _ _ true _ (f_equal (fun b => (Ok b, _)) Hle)).
    reflexivity.
Qed.

Lemma name_without_identifier_not_found_witness :
  IrDrivers.process_driver (Scenario.resolving []) "Ghost" Scenario.username
    "access-0" (Scenario.signed_in 1000)
  = (Ok (IrDrivers.error_entry "Driver not found: Ghost"),
     {| clock := 1000; ir_auth := ir_auth (Scenario.signed_in 1000);
        ir_custid := ∅; ir_drivers := ∅;
        trace := [FetchDrivers Scenario.drivers_link;
                  LookupDrivers "Ghost" "access-0";
                  GetItem "ir_auth" Scenario.username; GetSecretValue;
                  GetItem "ir_custid" "Ghost"; Invoke "ir_custid";
                  GetItem "ir_custid" "Ghost"; GetItem "ir_drivers" "Ghost"] |})
  /\ IrDrivers.process_driver (Scenario.resolving []) "Ghost" Scenario.username
       "access-0" (Faulty.zero_cached 1000)
     = (Ok (IrDrivers.error_entry "Driver not found: Ghost"),
        {| clock := 1000; ir_auth := ir_auth (Faulty.zero_cached 1000);
           ir_custid := ir_custid (Faulty.zero_cached 1000); ir_drivers := ∅;
           trace := [GetItem "ir_custid" "Ghost";
                     GetItem "ir_drivers" "Ghost"] |}).
Proof.
  apply (name_without_identifier_not_found (Scenario.resolving [])
           (Scenario.signed_in 1000) Scenario.credentials Scenario.username
           "access-0" "Ghost" "access-0" NoRetryAfter NoRetryAfter
           Scenario.drivers_link (Faulty.zero_cached 1000) 0 Scenario.username).
  - split; intros h; reflexivity.
  - vm_compute. reflexivity.
  - exists (Scenario.stored_token (1000 + 300)), (1000 + 300).
    repeat split; try reflexivity; cbn; lia.
  - intros h. reflexivity.
  - reflexivity.
  - reflexivity.
  - reflexivity.
  - reflexivity.
  - intros h. reflexivity.
  - intros h. reflexivity.
  - reflexivity.
  - vm_compute. reflexivity.
  - lia.
Defined.

(** ** [ir_drivers]: a name given more than once *)

Lemma json_set_keys k v kv :
  List.map fst (Json.set k v kv)
  = if bool_decide (k ∈ List.map fst kv)
    then List.map fst kv
    else (List.map fst kv ++ [k])%list.
Proof.
  induction kv as [|[k' v'] kv IH]; [reflexivity|]. cbn [Json.set].
  destruct (String.eqb_spec k k') as [<-|Hne].
  - cbn [List.map fst]. rewrite bool_decide_eq_true_2; [reflexivity|].
    apply elem_of_cons. now left.
  - cbn [List.map fst]. rewrite IH.
    destruct (bool_decide_reflect (k ∈ List.map fst kv)) as [Hin|Hout].
    + rewrite bool_decide_eq_true_2; [reflexivity|].
      apply elem_of_cons. now right.
    + rewrite bool_decide_eq_false_2; [reflexivity|].
      intros [Heq|Hin]%elem_of_cons; [now apply Hne|contradiction].
Qed.

Lemma json_set_nodup k v kv :
  NoDup (List.map fst kv) -> NoDup (List.map fst (Json.set k v kv)).
Proof.
  intros H. rewrite json_set_keys.
  destruct (bool_decide_reflect (k ∈ List.map fst kv)) as [Hin|Hout];
    [exact H|].
  apply NoDup_app. split; [exact H|]. split.
  - intros x Hx ->%list_elem_of_singleton. contradiction.
  - apply NoDup_singleton.
Qed.

Lemma json_set_length k v kv :
  (List.length (Json.set k v kv) <= S (List.length kv))%nat.
Proof.
  induction kv as [|[k' v'] kv IH]; cbn [Json.set List.length]; [lia|].
  destruct (k =? k')%string; cbn [List.length]; lia.
Qed.

Lemma set_all_nodup entries :
  forall info, NoDup (List.map fst info) ->
               NoDup (List.map fst (set_all entries info)).
Proof.
  induction entries as [|[k v] entries IH]; intros info H; [exact H|].
  apply (IH (Json.set k v info)), json_set_nodup, H.
Qed.

Lemma set_all_length entries :
  forall info,
    (List.length (set_all entries info)
     <= List.length info + List.length entries)%nat.
Proof.
  induction entries as [|[k v] entries IH]; intros info; cbn [List.length].
  - cbn. lia.
  - change (set_all ((k, v) :: entries) info)
      with (set_all entries (Json.set k v info)).
    pose proof (IH (Json.set k v info)). pose proof (json_set_length k v info).
    lia.
Qed.

Lemma set_all_app before after info :
  set_all (before ++ after) info = set_all after (set_all before info).
Proof. unfold set_all. apply fold_left_app. Qed.

(** X22: the response has one entry per distinct name.  A name that the
    query gives more than once is processed each time, in order, and the
    body keeps the entry of its last processing; no key occurs twice, and
    there are no more entries than names. *)
Theorem repeated_name_keeps_last_entry env username access_token drivers w :
  exists entries w',
    processed env username access_token w drivers entries w'
    /\ IrDrivers.process_all env drivers username access_token [] w
       = (Ok (set_all entries []), w')
    /\ NoDup (List.map fst (set_all entries []))
    /\ (List.length (set_all entries []) <= List.length drivers)%nat
    /\ forall before name entry after,
         entries = (before ++ (name, entry) :: after)%list ->
         ~ In name (List.map fst after) ->
         Json.get name (set_all entries []) = Some entry.
Proof.
  destruct (process_all_spec env username access_token drivers [] w)
    as (entries & w' & Hp & Hall).
  exists entries, w'. split; [exact Hp|]. split; [exact Hall|].
  split; [apply set_all_nodup; constructor|]. split.
  - pose proof (set_all_length entries []) as Hlen.
    apply processed_names in Hp. rewrite <- Hp, length_map. cbn in Hlen. lia.
  - intros before name entry after -> Hlast.
    rewrite set_all_app.
    change (set_all ((name, entry) :: after) (set_all before []))
      with (set_all after (Json.set name entry (set_all before []))).
    destruct (get_set_all after (Json.set name entry (set_all before [])) name)
      as [_ Hout].
    rewrite Hout; [apply json_get_set_eq|].
    intros Hin. apply Hlast. now apply list_elem_of_In.
Qed.

(** ** Which table a function writes *)

#[export] Instance profiles_kept_preorder : PreOrder profiles_kept.
Proof.
  split.
  - intros w. reflexivity.
  - intros w1 w2 w3 H1 H2. unfold profiles_kept in *. congruence.
Qed.

#[export] Instance profiles_kept_tables : TablesOnly profiles_kept.
Proof. split; intros; reflexivity. Qed.

#[export] Instance profiles_kept_outside_preorder names :
  PreOrder (profiles_kept_outside names).
Proof.
  split.
  - intros w other _. reflexivity.
  - intros w1 w2 w3 H1 H2 other Ho. rewrite (H2 other Ho). now apply H1.
Qed.

#[export] Instance profiles_kept_outside_tables names :
  TablesOnly (profiles_kept_outside names).
Proof. split; intros; intros other _; reflexivity. Qed.

Lemma preserves_weaken {A} (R R' : World -> World -> Prop) (m : M A) :
  (forall w w', R w w' -> R' w w') -> preserves R m -> preserves R' m.
Proof. intros HR Hm w res w' H. eapply HR, Hm, H. Qed.

Lemma caches_kept_profiles {A} (m : M A) :
  preserves caches_kept m -> preserves profiles_kept m.
Proof. apply preserves_weaken. now intros w w' [_ H]. Qed.

Lemma profiles_kept_outside_of {A} names (m : M A) :
  preserves profiles_kept m -> preserves (profiles_kept_outside names) m.
Proof.
  apply preserves_weaken. intros w w' H other _. unfold profiles_kept in H.
  now rewrite H.
Qed.

Lemma cache_driver_result_profiles env name n :
  preserves profiles_kept (IrCustid.cache_driver_result env name n).
Proof.
  unfold IrCustid.cache_driver_result. frame.
  apply preserves_modify; try exact _. intros w0. reflexivity.
Qed.

#[export] Hint Resolve cache_driver_result_profiles : frames.

Lemma search_attempts_profiles env term tok attempts :
  preserves profiles_kept (IrCustid.search_attempts env term tok attempts).
Proof.
  induction attempts as [|attempt rest IH]; cbn [IrCustid.search_attempts];
    [frame|].
  cbv zeta.
  unfold IrCustid.search_failure, IrCustid.driver_data_failure,
    IrCustid.choose_driver, IrCustid.found.
  frame.
Qed.

#[export] Hint Resolve search_attempts_profiles : frames.

Lemma custid_handler_profiles env event :
  preserves profiles_kept (IrCustid.lambda_handler env event).
Proof.
  pose proof (fun u m => caches_kept_profiles _ (reauthenticate_kept env u m)).
  pose proof (caches_kept_profiles _ (acquire_token_kept env)).
  unfold IrCustid.lambda_handler, IrCustid.search_driver_with_auth. frame.
Qed.

Lemma invoke_custid_lambda_profiles env name :
  preserves profiles_kept (IrDrivers.invoke_custid_lambda env name).
Proof.
  pose proof (custid_handler_profiles env).
  unfold IrDrivers.invoke_custid_lambda. frame.
Qed.

Lemma profile_attempts_profiles env cust_id tok attempts :
  preserves profiles_kept (IrDrivers.profile_attempts env cust_id tok attempts).
Proof.
  induction attempts as [|attempt rest IH]; cbn [IrDrivers.profile_attempts];
    [frame|].
  cbv zeta. unfold IrDrivers.profile_failure, IrDrivers.profile_detail_failure.
  frame.
Qed.

Lemma cache_driver_profile_outside env names name profile :
  In name names ->
  preserves (profiles_kept_outside names)
    (IrDrivers.cache_driver_profile env name profile).
Proof.
  intros Hin. unfold IrDrivers.cache_driver_profile. frame.
  apply preserves_modify; try exact _. intros w0 other Ho. cbn.
  apply lookup_insert_ne. intros ->. contradiction.
Qed.

Lemma process_driver_outside env names name username tok :
  In name names ->
  preserves (profiles_kept_outside names)
    (IrDrivers.process_driver env name username tok).
Proof.
  intros Hin.
  pose proof (profiles_kept_outside_of names _
                (invoke_custid_lambda_profiles env name)).
  pose proof (fun c t => profiles_kept_outside_of names _
                (profile_attempts_profiles env c t (range MAX_RETRIES))).
  pose proof (fun p => cache_driver_profile_outside env names name p Hin).
  pose proof (fun u m => profiles_kept_outside_of names _
                (caches_kept_profiles _ (reauthenticate_kept env u m))).
  unfold IrDrivers.process_driver, IrDrivers.get_cached_driver_profile,
    IrDrivers.get_customer_id_from_cache, IrDrivers.invalid_cust_id,
    IrDrivers.profile_with_reauth, IrDrivers.fetch_and_cache,
    IrDrivers.get_driver_profile_with_auth.
  frame.
Qed.

Lemma process_all_outside env names drivers username tok :
  (forall name, In name drivers -> In name names) ->
  forall info,
    preserves (profiles_kept_outside names)
      (IrDrivers.process_all env drivers username tok info).
Proof.
  induction drivers as [|name rest IH]; intros Hsub info;
    cbn [IrDrivers.process_all]; [frame|].
  apply preserves_bind; [exact _| |].
  - apply process_driver_outside, Hsub. now left.
  - intros entry. apply IH. intros n Hn. apply Hsub. now right.
Qed.

(** X23: each function writes its own table and nothing else.  The token
    handler leaves the identifier cache and the profile cache as they
    were; the resolution leaves the profile cache as it was; processing a
    name changes the profile cache for that name at most, and a batch
    changes it for the names of the query at most: the profile cached for
    anybody else is never touched. *)
Theorem writes_stay_in_their_table env :
  (forall w res w',
      IrAuth.lambda_handler env w = (res, w') ->
      ir_custid w' = ir_custid w /\ ir_drivers w' = ir_drivers w)
  /\ (forall event w res w',
         IrCustid.lambda_handler env event w = (res, w') ->
         ir_drivers w' = ir_drivers w)
  /\ (forall name username access_token w res w' other,
         IrDrivers.process_driver env name username access_token w = (res, w') ->
         other <> name ->
         ir_drivers w' !! other = ir_drivers w !! other)
  /\ (forall event w res w' other,
         IrDrivers.lambda_handler env event w = (res, w') ->
         ~ In other (IrDrivers.parse_names env event) ->
         ir_drivers w' !! other = ir_drivers w !! other).
Proof.
  split; [|split; [|split]].
  - intros w res w' H. now apply auth_handler_kept in H.
  - intros event w res w' H. now apply custid_handler_profiles in H.
  - intros name username access_token w res w' other H Hne.
    apply (process_driver_outside env [name] name username access_token
             (or_introl eq_refl)) in H.
    apply H. intros [->|[]]. now apply Hne.
  - intros event w res w' other H Hout.
    assert (Hp : preserves (profiles_kept_outside (IrDrivers.parse_names env event))
                   (IrDrivers.lambda_handler env event)).
    { pose proof (profiles_kept_outside_of (IrDrivers.parse_names env event) _
                    (caches_kept_profiles _ (acquire_token_kept env))).
      pose proof (fun u t info =>
                    process_all_outside env (IrDrivers.parse_names env event)
                      (IrDrivers.parse_names env event) u t (fun _ Hn => Hn) info).
      unfold IrDrivers.lambda_handler, IrDrivers.acquire_token. cbv zeta.
      destruct (IrDrivers.parse_names env event) eqn:E; [frame|].
      rewrite <- E in *. frame. }
    apply Hp in H. now apply H.
Qed.

(** ** How much a retry loop can do *)

Section Costs.

Context (cost : Event -> Z).

Lemma total_app l1 l2 : total cost (l1 ++ l2) = total cost l1 + total cost l2.
Proof.
  unfold total. induction l1 as [|ev l1 IH]; cbn; [reflexivity|].
  rewrite IH. lia.
Qed.

Lemma charged_here n w : 0 <= n -> charged cost n w w.
Proof. intros Hn. exists []. split; [reflexivity|exact Hn]. Qed.

Lemma charged_trans n1 n2 n w1 w2 w3 :
  charged cost n1 w1 w2 -> charged cost n2 w2 w3 -> n1 + n2 <= n ->
  charged cost n w1 w3.
Proof.
  intros (l1 & H1 & Hc1) (l2 & H2 & Hc2) Hn. exists (l2 ++ l1)%list. split.
  - rewrite H2, H1. apply app_assoc.
  - rewrite total_app. lia.
Qed.

Lemma charged_record n ev w w' :
  charged cost n (record ev w) w' -> charged cost (cost ev + n) w w'.
Proof.
  intros (l & H & Hc). exists (l ++ [ev])%list. split.
  - rewrite H. cbn. now rewrite <- app_assoc.
  - rewrite total_app. cbn. lia.
Qed.

Lemma charged_advance n d w w' :
  charged cost n (advance d w) w' -> charged cost n w w'.
Proof. intros H. exact H. Qed.

Lemma charged_le n n' w w' : charged cost n w w' -> n <= n' -> charged cost n' w w'.
Proof. intros (l & H & Hc) Hn. exists l. split; [exact H|lia]. Qed.

Lemma costs_le {A} n n' (m : M A) : costs cost n m -> n <= n' -> costs cost n' m.
Proof. intros Hm Hn w res w' H. eapply charged_le; [eapply Hm, H|exact Hn]. Qed.

Lemma costs_ret {A} (a : A) : costs cost 0 (ret a).
Proof. intros w res w' [= <- <-]. now apply charged_here. Qed.

Lemma costs_raise {A} e : costs cost 0 (@raise A e).
Proof. intros w res w' [= <- <-]. now apply charged_here. Qed.

Lemma costs_bind {A B} n1 n2 (m : M A) (k : A -> M B) :
  costs cost n1 m -> (forall a, costs cost n2 (k a)) -> 0 <= n2 ->
  costs cost (n1 + n2) (bind m k).
Proof.
  intros Hm Hk Hn w res w' H.
  apply bind_inv in H as [(a & w1 & H1 & H2)|(e & H1 & _)].
  - eapply charged_trans; [eapply Hm, H1|eapply Hk, H2|lia].
  - eapply charged_le; [eapply Hm, H1|lia].
Qed.

Lemma costs_urlopen {B} ev (service : list Event -> HttpReply B) :
  costs cost (cost ev) (urlopen ev service).
Proof.
  intros w res w'. unfold urlopen. munfold. intros [= <- <-].
  exists [ev]. split; [reflexivity|]. cbn. lia.
Qed.

Lemma costs_time_sleep d n :
  0 <= n -> cost (Sleep d) <= n -> costs cost n (time_sleep d).
Proof.
  intros Hn Hd w res w'. unfold time_sleep.
  destruct ((d <? - SLEEP_MAX) || (SLEEP_MAX <? d));
    [intros [= <- <-]; now apply charged_here|].
  destruct (d <? 0).
  - intros [= <- <-]. now apply charged_here.
  - munfold. intros [= <- <-]. exists [Sleep d]. split; [reflexivity|].
    cbn. lia.
Qed.

Lemma costs_backoff_or_raise {A} attempt (k : M A) e each n :
  (forall d, cost (Sleep d) <= each d) ->
  (forall d, 0 <= each d) ->
  0 <= n ->
  costs cost n k ->
  costs cost
    ((if attempt <? MAX_RETRIES - 1
      then each (BASE_BACKOFF_DELAY * 2 ^ attempt) else 0) + n)
    (IrCustid.backoff_or_raise attempt k e).
Proof.
  intros Heach Hpos Hn Hk. unfold IrCustid.backoff_or_raise.
  destruct (attempt <? MAX_RETRIES - 1).
  - apply costs_bind; [|intros _; exact Hk|exact Hn].
    apply costs_time_sleep; [apply Hpos|apply Heach].
  - eapply costs_le; [apply costs_raise|lia].
Qed.

Lemma backoffs_nonneg each attempts :
  (forall d, 0 <= each d) -> 0 <= backoffs each attempts.
Proof.
  intros Hpos. induction attempts as [|a l IH]; [cbn; lia|].
  change (backoffs each (a :: l))
    with ((if a <? MAX_RETRIES - 1
           then each (BASE_BACKOFF_DELAY * 2 ^ a) else 0) + backoffs each l).
  destruct (a <? MAX_RETRIES - 1); [pose proof (Hpos (BASE_BACKOFF_DELAY * 2 ^ a))|];
    lia.
Qed.

(** The token exchange: one request per attempt, and a sleep after each
    attempt but the last. *)
Lemma oauth_attempts_costs env form request each attempts :
  cost (OAuthToken form) <= request ->
  0 <= request ->
  (forall d, cost (Sleep d) <= each d) ->
  (forall d, 0 <= each d) ->
  (forall d d', each d = each d') ->
  costs cost
    (request * Z.of_nat (List.length attempts) + backoffs each attempts)
    (IrAuth.oauth_attempts env form attempts).
Proof.
  intros Hreq Hreq0 Heach Hpos Hflat.
  induction attempts as [|attempt rest IH].
  - eapply costs_le; [apply costs_raise|cbn; lia].
  - pose proof (backoffs_nonneg each rest Hpos) as Hb.
    set (n := request * Z.of_nat (List.length rest) + backoffs each rest) in *.
    assert (Hn : 0 <= n) by (unfold n; nia).
    set (slot := if attempt <? MAX_RETRIES - 1
                 then each (BASE_BACKOFF_DELAY * 2 ^ attempt) else 0).
    assert (Hslot : 0 <= slot).
    { unfold slot. destruct (attempt <? MAX_RETRIES - 1); [apply Hpos|lia]. }
    assert (Hfail : forall status ra,
      costs cost (slot + n)
        (IrAuth.oauth_failure status ra attempt
           (IrAuth.oauth_attempts env form rest))).
    { intros status ra. unfold IrAuth.oauth_failure.
      destruct (status =? 429).
      - intros w res w' H.
        apply bind_inv in H as [(d & w1 & Hd & H)|(e & Hd & _)].
        + assert (w1 = w) as ->.
          { destruct ra; cbn in Hd; injection Hd; congruence. }
          revert H. unfold slot. destruct (attempt <? MAX_RETRIES - 1).
          * apply costs_bind; [|intros _; exact IH|exact Hn].
            apply costs_time_sleep; [apply Hpos|].
            rewrite (Hflat _ d). apply Heach.
          * intros [= <- <-]. apply charged_here. lia.
        + destruct ra; cbn in Hd; try discriminate.
          injection Hd as <- <-. apply charged_here. lia.
      - destruct ((status =? 401) || (status =? 403)).
        + eapply costs_le; [apply costs_raise|lia].
        + unfold slot. destruct (attempt <? MAX_RETRIES - 1).
          * apply costs_bind; [|intros _; exact IH|exact Hn].
            apply costs_time_sleep; [apply Hpos|apply Heach].
          * eapply costs_le; [apply costs_raise|lia]. }
    assert (Hback : forall e,
      costs cost (slot + n)
        (if attempt <? MAX_RETRIES - 1
         then (time_sleep (BASE_BACKOFF_DELAY * 2 ^ attempt);;
               IrAuth.oauth_attempts env form rest)%py
         else raise e)).
    { intros e. unfold slot. destruct (attempt <? MAX_RETRIES - 1).
      - apply costs_bind; [|intros _; exact IH|exact Hn].
        apply costs_time_sleep; [apply Hpos|apply Heach].
      - eapply costs_le; [apply costs_raise|lia]. }
    change (backoffs each (attempt :: rest)) with (slot + backoffs each rest).
    cbn [IrAuth.oauth_attempts List.length].
    eapply costs_le.
    + apply (costs_bind request (slot + n)); [| |lia].
      * eapply costs_le; [apply costs_urlopen|exact Hreq].
      * intros [status ra b|code reason ra|reason].
        -- destruct (status =? 200); [|apply Hfail].
           destruct b as [resp|msg]; [|apply Hback].
           eapply costs_le; [apply costs_ret|lia].
        -- apply Hfail.
        -- apply Hback.
    + unfold n. lia.
Qed.

Lemma costs_try_except {A} n1 n2 (m : M A) h :
  costs cost n1 m -> (forall e, costs cost n2 (h e)) -> 0 <= n2 ->
  costs cost (n1 + n2) (try_except m h).
Proof.
  intros Hm Hh Hn w res w' H.
  apply try_except_inv in H as [(a & H1 & _)|(e & w1 & H1 & H2)].
  - eapply charged_le; [eapply Hm, H1|lia].
  - eapply charged_trans; [eapply Hm, H1|eapply Hh, H2|lia].
Qed.

Lemma costs_dynamodb_call env ev : costs cost (cost ev) (dynamodb_call env ev).
Proof.
  intros w res w'. unfold dynamodb_call. munfold.
  destruct (dynamodb_error env (trace w)); intros [= <- <-];
    (exists [ev]; split; [reflexivity|cbn; lia]).
Qed.

Lemma costs_found env driver put :
  (forall name, cost (PutItem "ir_custid" name) <= put) ->
  costs cost put (IrCustid.found env driver).
Proof.
  intros Hput. unfold IrCustid.found, IrCustid.cache_driver_result.
  replace put with ((put + 0 + 0) + 0) by lia.
  apply costs_bind; [|intros _; apply costs_ret|lia].
  apply costs_try_except; [| |lia].
  - apply costs_bind; [| |lia].
    + eapply costs_le; [apply costs_dynamodb_call|apply Hput].
    + intros _ w res w' [= <- <-]. exists []. split; [reflexivity|cbn; lia].
  - intros e. destruct e; first [apply costs_ret|apply costs_raise].
Qed.

(** The search: a lookup and a fetch per attempt, a sleep after each
    attempt but the last, and one write at most. *)
Lemma search_attempts_costs env term tok lookup fetch put each attempts :
  cost (LookupDrivers term tok) <= lookup ->
  (forall url, cost (FetchDrivers url) <= fetch) ->
  (forall name, cost (PutItem "ir_custid" name) <= put) ->
  0 <= lookup -> 0 <= fetch -> 0 <= put ->
  (forall d, cost (Sleep d) <= each d) ->
  (forall d, 0 <= each d) ->
  costs cost
    (put + (lookup + fetch) * Z.of_nat (List.length attempts)
     + backoffs each attempts)
    (IrCustid.search_attempts env term tok attempts).
Proof.
  intros Hl Hf Hp Hl0 Hf0 Hp0 Heach Hpos.
  induction attempts as [|attempt rest IH].
  - eapply costs_le; [apply costs_raise|cbn; lia].
  - pose proof (backoffs_nonneg each rest Hpos) as Hb.
    set (n := put + (lookup + fetch) * Z.of_nat (List.length rest)
              + backoffs each rest) in *.
    assert (Hn : 0 <= n) by (unfold n; nia).
    set (slot := if attempt <? MAX_RETRIES - 1
                 then each (BASE_BACKOFF_DELAY * 2 ^ attempt) else 0).
    assert (Hslot : 0 <= slot).
    { unfold slot. destruct (attempt <? MAX_RETRIES - 1); [apply Hpos|lia]. }
    assert (Hback : forall e,
      costs cost (slot + n)
        (IrCustid.backoff_or_raise attempt
           (IrCustid.search_attempts env term tok rest) e)).
    { intros e. now apply costs_backoff_or_raise. }
    assert (Hfail1 : forall status,
      costs cost (slot + n)
        (IrCustid.search_failure status attempt
           (IrCustid.search_attempts env term tok rest))).
    { intros status. unfold IrCustid.search_failure.
      destruct (status =? 401); [eapply costs_le; [apply costs_raise|lia]|].
      destruct (status =? 429); apply Hback. }
    assert (Hfail2 : forall status,
      costs cost (slot + n)
        (IrCustid.driver_data_failure status attempt
           (IrCustid.search_attempts env term tok rest))).
    { intros status. unfold IrCustid.driver_data_failure.
      destruct (status =? 401); [eapply costs_le; [apply costs_raise|lia]|].
      apply Hback. }
    change (backoffs each (attempt :: rest)) with (slot + backoffs each rest).
    cbn [IrCustid.search_attempts List.length]. cbv zeta.
    eapply costs_le.
    + apply (costs_bind lookup (fetch + (slot + n))); [| |lia].
      * eapply costs_le; [apply costs_urlopen|exact Hl].
      * assert (Hsecond : forall search_data,
          costs cost (fetch + (slot + n))
            match link search_data with
            | None => raise (APIError "Invalid search response format")
            | Some driver_url =>
                (reply <- urlopen (FetchDrivers driver_url)
                            (fun h => fetch_drivers env h driver_url);;
                 match reply with
                 | Response status _ body =>
                     if status =? 200 then
                       match body with
                       | Json drivers_data =>
                           IrCustid.choose_driver env term drivers_data
                       | BadJson msg =>
                           IrCustid.backoff_or_raise attempt
                             (IrCustid.search_attempts env term tok rest)
                             (APIError
                                ("Invalid JSON response after 3 attempts: "
                                 +:+ msg))
                       end
                     else IrCustid.driver_data_failure status attempt
                            (IrCustid.search_attempts env term tok rest)
                 | HTTPError code _ _ =>
                     IrCustid.driver_data_failure code attempt
                       (IrCustid.search_attempts env term tok rest)
                 | URLError reason =>
                     IrCustid.backoff_or_raise attempt
                       (IrCustid.search_attempts env term tok rest)
                       (APIError
                          ("Request failed after 3 attempts: <urlopen error "
                           +:+ reason +:+ ">"))
                 end)%py
            end).
        { intros search_data. destruct (link search_data) as [url|].
          2:{ eapply costs_le; [apply costs_raise|lia]. }
          apply costs_bind; [| |lia].
          - eapply costs_le; [apply costs_urlopen|apply Hf].
          - intros [status ra b|code reason ra|reason];
              [|apply Hfail2|apply Hback].
            destruct (status =? 200); [|apply Hfail2].
            destruct b as [drivers_data|msg]; [|apply Hback].
            unfold IrCustid.choose_driver.
            destruct drivers_data as [|first others].
            + eapply costs_le; [apply costs_ret|lia].
            + cbv zeta.
              destruct (if 1 <? Z.of_nat (List.length (first :: others))
                        then List.find _ (first :: others) else None);
                (eapply costs_le; [apply costs_found, Hp|unfold n; nia]). }
        intros [status ra b|code reason ra|reason].
        -- destruct (status =? 200).
           ++ destruct b as [search_data|msg]; [apply Hsecond|].
              eapply costs_le; [apply Hback|lia].
           ++ eapply costs_le; [apply Hfail1|lia].
        -- eapply costs_le; [apply Hfail1|lia].
        -- eapply costs_le; [apply Hback|lia].
    + unfold n. lia.
Qed.

(** The profile: a request and a fetch per attempt, a sleep after each
    attempt but the last. *)
Lemma profile_attempts_costs env cust_id tok request fetch each attempts :
  cost (MemberProfile cust_id tok) <= request ->
  (forall url, cost (FetchProfile url) <= fetch) ->
  0 <= request -> 0 <= fetch ->
  (forall d, cost (Sleep d) <= each d) ->
  (forall d, 0 <= each d) ->
  costs cost
    ((request + fetch) * Z.of_nat (List.length attempts)
     + backoffs each attempts)
    (IrDrivers.profile_attempts env cust_id tok attempts).
Proof.
  intros Hl Hf Hl0 Hf0 Heach Hpos.
  induction attempts as [|attempt rest IH].
  - eapply costs_le; [apply costs_raise|cbn; lia].
  - pose proof (backoffs_nonneg each rest Hpos) as Hb.
    set (n := (request + fetch) * Z.of_nat (List.length rest)
              + backoffs each rest) in *.
    assert (Hn : 0 <= n) by (unfold n; nia).
    set (slot := if attempt <? MAX_RETRIES - 1
                 then each (BASE_BACKOFF_DELAY * 2 ^ attempt) else 0).
    assert (Hslot : 0 <= slot).
    { unfold slot. destruct (attempt <? MAX_RETRIES - 1); [apply Hpos|lia]. }
    assert (Hback : forall e,
      costs cost (slot + n)
        (IrCustid.backoff_or_raise attempt
           (IrDrivers.profile_attempts env cust_id tok rest) e)).
    { intros e. now apply costs_backoff_or_raise. }
    assert (Hfail1 : forall status,
      costs cost (slot + n)
        (IrDrivers.profile_failure status attempt
           (IrDrivers.profile_attempts env cust_id tok rest))).
    { intros status. unfold IrDrivers.profile_failure.
      destruct (status =? 401); [eapply costs_le; [apply costs_raise|lia]|].
      destruct (status =? 429); apply Hback. }
    assert (Hfail2 : forall status,
      costs cost (slot + n)
        (IrDrivers.profile_detail_failure status attempt
           (IrDrivers.profile_attempts env cust_id tok rest))).
    { intros status. unfold IrDrivers.profile_detail_failure.
      destruct (status =? 401); [eapply costs_le; [apply costs_raise|lia]|].
      apply Hback. }
    change (backoffs each (attempt :: rest)) with (slot + backoffs each rest).
    cbn [IrDrivers.profile_attempts List.length]. cbv zeta.
    eapply costs_le.
    + apply (costs_bind request (fetch + (slot + n))); [| |lia].
      * eapply costs_le; [apply costs_urlopen|exact Hl].
      * assert (Hsecond : forall profile_data,
          costs cost (fetch + (slot + n))
            match link profile_data with
            | None => raise (APIError "Invalid profile response format")
            | Some profile_detail_url =>
                (reply <- urlopen (FetchProfile profile_detail_url)
                            (fun h => fetch_profile env h profile_detail_url);;
                 match reply with
                 | Response status _ body =>
                     if status =? 200 then
                       match body with
                       | Json driver_profile => ret driver_profile
                       | BadJson msg =>
                           IrCustid.backoff_or_raise attempt
                             (IrDrivers.profile_attempts env cust_id tok rest)
                             (APIError
                                ("Invalid JSON response after 3 attempts: "
                                 +:+ msg))
                       end
                     else IrDrivers.profile_detail_failure status attempt
                            (IrDrivers.profile_attempts env cust_id tok rest)
                 | HTTPError code _ _ =>
                     IrDrivers.profile_detail_failure code attempt
                       (IrDrivers.profile_attempts env cust_id tok rest)
                 | URLError reason =>
                     IrCustid.backoff_or_raise attempt
                       (IrDrivers.profile_attempts env cust_id tok rest)
                       (APIError
                          ("Request failed after 3 attempts: <urlopen error "
                           +:+ reason +:+ ">"))
                 end)%py
            end).
        { intros profile_data. destruct (link profile_data) as [url|].
          2:{ eapply costs_le; [apply costs_raise|lia]. }
          apply costs_bind; [| |lia].
          - eapply costs_le; [apply costs_urlopen|apply Hf].
          - intros [status ra b|code reason ra|reason];
              [|apply Hfail2|apply Hback].
            destruct (status =? 200); [|apply Hfail2].
            destruct b as [driver_profile|msg]; [|apply Hback].
            eapply costs_le; [apply costs_ret|lia]. }
        intros [status ra b|code reason ra|reason].
        -- destruct (status =? 200).
           ++ destruct b as [profile_data|msg]; [apply Hsecond|].
              eapply costs_le; [apply Hback|lia].
           ++ eapply costs_le; [apply Hfail1|lia].
        -- eapply costs_le; [apply Hfail1|lia].
        -- eapply costs_le; [apply Hback|lia].
    + unfold n. lia.
Qed.

End Costs.

Lemma charged_same cost1 cost2 n1 n2 w w' :
  charged cost1 n1 w w' -> charged cost2 n2 w w' ->
  exists l, trace w' = (l ++ trace w)%list
            /\ total cost1 l <= n1 /\ total cost2 l <= n2.
Proof.
  intros (l1 & H1 & Hc1) (l2 & H2 & Hc2).
  assert (l2 = l1) as -> by (apply (app_inv_tail (trace w)); congruence).
  exists l1. repeat split; assumption.
Qed.

Ltac cost_side := intros; cbn; lia.

(** X24: whatever the upstream answers, a retry loop is bounded.  One
    call of [make_oauth_request] posts at most three requests and sleeps at
    most twice, and does nothing else; one call of
    [search_driver_with_auth] makes at most three lookups and three
    fetches, writes the cache at most once and sleeps three seconds at
    most; one call of [get_driver_profile_with_auth] makes at most three
    profile requests and three fetches, writes nothing and sleeps three
    seconds at most. *)
Theorem retry_loops_are_bounded env :
  (forall credentials grant_type refresh_token w res w',
      IrAuth.make_oauth_request env credentials grant_type refresh_token w
      = (res, w') ->
      exists l,
        trace w' = (l ++ trace w)%list
        /\ total (one is_oauth_token) l <= 3
        /\ total (one is_sleep) l <= 2
        /\ total (one (fun ev => negb (is_oauth_token ev || is_sleep ev))) l <= 0)
  /\ (forall term tok w res w',
         IrCustid.search_driver_with_auth env term tok w = (res, w') ->
         exists l,
           trace w' = (l ++ trace w)%list
           /\ total (one is_lookup) l <= 3
           /\ total (one is_fetch_drivers) l <= 3
           /\ total (one is_put) l <= 1
           /\ total seconds l <= 3)
  /\ (forall cust_id tok w res w',
         IrDrivers.get_driver_profile_with_auth env cust_id tok w = (res, w') ->
         exists l,
           trace w' = (l ++ trace w)%list
           /\ total (one is_member_profile) l <= 3
           /\ total (one is_fetch_profile) l <= 3
           /\ total (one is_put) l <= 0
           /\ total seconds l <= 3).
Proof.
  split; [|split].
  - intros credentials grant_type refresh_token w res w' H.
    unfold IrAuth.make_oauth_request in H.
    apply bind_inv in H as [(form & w1 & Hf & H)|(e & Hf & _)].
    2:{ apply oauth_form_inv in Hf as ->. exists []. cbn. repeat split; lia. }
    apply oauth_form_inv in Hf as ->.
    pose proof (oauth_attempts_costs (one is_oauth_token) env form 1
                  (fun _ => 0) (range MAX_RETRIES)
                  ltac:(cost_side) ltac:(cost_side) ltac:(cost_side)
                  ltac:(cost_side) ltac:(reflexivity) _ _ _ H) as H1.
    pose proof (oauth_attempts_costs (one is_sleep) env form 0
                  (fun _ => 1) (range MAX_RETRIES)
                  ltac:(cost_side) ltac:(cost_side) ltac:(cost_side)
                  ltac:(cost_side) ltac:(reflexivity) _ _ _ H) as H2.
    pose proof (oauth_attempts_costs
                  (one (fun ev => negb (is_oauth_token ev || is_sleep ev)))
                  env form 0 (fun _ => 0) (range MAX_RETRIES)
                  ltac:(cost_side) ltac:(cost_side) ltac:(cost_side)
                  ltac:(cost_side) ltac:(reflexivity) _ _ _ H) as H3.
    destruct (charged_same _ _ _ _ _ _ H1 H2) as (l & Hl & Hc1 & Hc2).
    destruct H3 as (l3 & Hl3 & Hc3).
    assert (l3 = l) as -> by (apply (app_inv_tail (trace w)); congruence).
    exists l. repeat split; assumption.
  - intros term tok w res w' H. unfold IrCustid.search_driver_with_auth in H.
    pose proof (search_attempts_costs (one is_lookup) env term tok 1 0 0
                  (fun _ => 0) (range MAX_RETRIES)
                  ltac:(cost_side) ltac:(cost_side) ltac:(cost_side)
                  ltac:(lia) ltac:(lia) ltac:(lia)
                  ltac:(cost_side) ltac:(cost_side) _ _ _ H) as H1.
    pose proof (search_attempts_costs (one is_fetch_drivers) env term tok 0 1 0
                  (fun _ => 0) (range MAX_RETRIES)
                  ltac:(cost_side) ltac:(cost_side) ltac:(cost_side)
                  ltac:(lia) ltac:(lia) ltac:(lia)
                  ltac:(cost_side) ltac:(cost_side) _ _ _ H) as H2.
    pose proof (search_attempts_costs (one is_put) env term tok 0 0 1
                  (fun _ => 0) (range MAX_RETRIES)
                  ltac:(cost_side) ltac:(cost_side) ltac:(cost_side)
                  ltac:(lia) ltac:(lia) ltac:(lia)
                  ltac:(cost_side) ltac:(cost_side) _ _ _ H) as H3.
    pose proof (search_attempts_costs seconds env term tok 0 0 0
                  (Z.max 0) (range MAX_RETRIES)
                  ltac:(cost_side) ltac:(cost_side) ltac:(cost_side)
                  ltac:(lia) ltac:(lia) ltac:(lia)
                  ltac:(cost_side) ltac:(cost_side) _ _ _ H) as H4.
    destruct (charged_same _ _ _ _ _ _ H1 H2) as (l & Hl & Hc1 & Hc2).
    destruct (charged_same _ _ _ _ _ _ H3 H4) as (l' & Hl' & Hc3 & Hc4).
    assert (l' = l) as -> by (apply (app_inv_tail (trace w)); congruence).
    exists l. repeat split; assumption.
  - intros cust_id tok w res w' H.
    unfold IrDrivers.get_driver_profile_with_auth in H.
    pose proof (profile_attempts_costs (one is_member_profile) env cust_id tok
                  1 0 (fun _ => 0) (range MAX_RETRIES)
                  ltac:(cost_side) ltac:(cost_side) ltac:(lia) ltac:(lia)
                  ltac:(cost_side) ltac:(cost_side) _ _ _ H) as H1.
    pose proof (profile_attempts_costs (one is_fetch_profile) env cust_id tok
                  0 1 (fun _ => 0) (range MAX_RETRIES)
                  ltac:(cost_side) ltac:(cost_side) ltac:(lia) ltac:(lia)
                  ltac:(cost_side) ltac:(cost_side) _ _ _ H) as H2.
    pose proof (profile_attempts_costs (one is_put) env cust_id tok
                  0 0 (fun _ => 0) (range MAX_RETRIES)
                  ltac:(cost_side) ltac:(cost_side) ltac:(lia) ltac:(lia)
                  ltac:(cost_side) ltac:(cost_side) _ _ _ H) as H3.
    pose proof (profile_attempts_costs seconds env cust_id tok
                  0 0 (Z.max 0) (range MAX_RETRIES)
                  ltac:(cost_side) ltac:(cost_side) ltac:(lia) ltac:(lia)
                  ltac:(cost_side) ltac:(cost_side) _ _ _ H) as H4.
    destruct (charged_same _ _ _ _ _ _ H1 H2) as (l & Hl & Hc1 & Hc2).
    destruct (charged_same _ _ _ _ _ _ H3 H4) as (l' & Hl' & Hc3 & Hc4).
    assert (l' = l) as -> by (apply (app_inv_tail (trace w)); congruence).
    exists l. repeat split; assumption.
Qed.

(** ** [ir_drivers]: a cached profile that is not served *)

(** X25: a profile that is in the cache and has not expired is still not
    served when the read of the cache fails or when the cached document is
    one that Python takes for false (the empty object): the name is
    fetched from the upstream again and the cache is overwritten. *)
Theorem unusable_cached_profile_is_refetched
    env name item w username access_token n ra ra' url fresh :
  let h := GetItem "ir_custid" name :: GetItem "ir_drivers" name :: trace w in
  ir_drivers w !! name = Some item ->
  clock w < default 0 (pi_ttl item) ->
  is_Some (dynamodb_error env (trace w)) \/ Json.truthy (pi_profile item) = false ->
  dynamodb_error env (GetItem "ir_drivers" name :: trace w) = None ->
  ir_custid w !! name = Some n ->
  0 < n ->
  member_profile env h (Py.str n) access_token
  = Response 200 ra (Json {| link := Some url |}) ->
  fetch_profile env (MemberProfile (Py.str n) access_token :: h) url
  = Response 200 ra' (Json fresh) ->
  dynamodb_error env
    (FetchProfile url :: MemberProfile (Py.str n) access_token :: h) = None ->
  IrDrivers.process_driver env name username access_token w
  = (Ok fresh,
     {| clock := clock w; ir_auth := ir_auth w; ir_custid := ir_custid w;
        ir_drivers :=
          <[name := {| pi_profile := fresh; pi_ttl := Some (clock w + 3600) |}]>
            (ir_drivers w);
        trace := PutItem "ir_drivers" name :: FetchProfile url
                 :: MemberProfile (Py.str n) access_token :: h |}).
Proof.
  intros h Hitem Hfresh Hcase Hdb Hn Hpos Hmember Hfetch Hput.
  assert (Hcached : exists cached,
    IrDrivers.get_cached_driver_profile env name w
    = (Ok cached, record (GetItem "ir_drivers" name) w)
    /\ IrDrivers.truthy_profile cached = None).
  { unfold IrDrivers.get_cached_driver_profile. munfold.
    destruct (dynamodb_error env (trace w)) as [msg|] eqn:E.
    { exists None. split; reflexivity. }
    destruct Hcase as [[msg Hmsg]|Hfalse]; [discriminate|].
    wsimpl. rewrite Hitem. munfold.
    destruct (default 0 (pi_ttl item) >? clock w).
    - exists (Some (pi_profile item)). split; [reflexivity|].
      cbn [IrDrivers.truthy_profile]. now rewrite Hfalse.
    - exists None. split; reflexivity. }
  destruct Hcached as (cached & Hcached & Hnone).
  rewrite (process_driver_miss env name username access_token w cached _ n
             Hcached Hnone Hdb Hn Hpos).
  apply try_except_Ok. unfold IrDrivers.profile_with_reauth.
  apply try_except_Ok. unfold IrDrivers.fetch_and_cache. cbn [Json.format].
  rewrite (bind_Ok _ _ _ _ _
             (get_driver_profile_ok env (Py.str n) access_token
                (record (GetItem "ir_custid" name)
                   (record (GetItem "ir_drivers" name) w))
                ra ra' url fresh Hmember Hfetch)).
  rewrite (bind_Ok _ _ _ _ _
             (cache_driver_profile_ok env name fresh
                (record (FetchProfile url)
                   (record (MemberProfile (Py.str n) access_token)
                      (record (GetItem "ir_custid" name)
                         (record (GetItem "ir_drivers" name) w))))
                Hput)).
  reflexivity.
Qed.

Lemma unusable_cached_profile_is_refetched_witness :
  fst (IrDrivers.process_driver Scenario.profiles "A" Scenario.username
         "access-0" (Faulty.empty_profile_cached 1000))
  = Ok (Scenario.profile_document (Scenario.profile_link "1")).
Proof.
  refine (f_equal fst
            (unusable_cached_profile_is_refetched Scenario.profiles "A"
               {| pi_profile := JDict []; pi_ttl := Some (1000 + 1800) |}
               (Faulty.empty_profile_cached 1000) Scenario.username "access-0"
               1 NoRetryAfter NoRetryAfter (Scenario.profile_link "1")
               (Scenario.profile_document (Scenario.profile_link "1"))
               _ _ _ _ _ _ _ _ _)).
  - reflexivity.
  - cbn. lia.
  - now right.
  - reflexivity.
  - reflexivity.
  - lia.
  - reflexivity.
  - reflexivity.
  - reflexivity.
Defined.

(** ** [ir_drivers]: the token of the batch has expired *)

(** X26: when the profile request is answered 401 for the token of the
    batch, [ir_auth] is invoked once and the request is made again with
    the token that is then read from the table; when the upstream accepts
    that one, the profile is returned and cached, after two profile
    requests in all. *)
Theorem profile_fetched_with_new_token
    env w credentials username stored name n access_token ra ra' url profile :
  let h0 := GetItem "ir_custid" name :: GetItem "ir_drivers" name :: trace w in
  let h1 := GetItem "ir_auth" username :: GetItem "ir_auth" username
            :: GetSecretValue :: Invoke "ir_auth"
            :: MemberProfile (Py.str n) access_token :: h0 in
  services_up env credentials ->
  full_credentials credentials ->
  credentials !! "username" = Some username ->
  (forall h, lambda_invoke env h "ir_auth" = InvokeStatusCode 200) ->
  token_ready w username stored ->
  ir_drivers w !! name = None ->
  ir_custid w !! name = Some n ->
  0 < n ->
  reply_status (member_profile env h0 (Py.str n) access_token) = Some 401 ->
  member_profile env h1 (Py.str n) stored
  = Response 200 ra (Json {| link := Some url |}) ->
  fetch_profile env (MemberProfile (Py.str n) stored :: h1) url
  = Response 200 ra' (Json profile) ->
  IrDrivers.process_driver env name username access_token w
  = (Ok profile,
     {| clock := clock w; ir_auth := ir_auth w; ir_custid := ir_custid w;
        ir_drivers :=
          <[name := {| pi_profile := profile; pi_ttl := Some (clock w + 3600) |}]>
            (ir_drivers w);
        trace := PutItem "ir_drivers" name :: FetchProfile url
                 :: MemberProfile (Py.str n) stored :: h1 |}).
Proof.
  intros h0 h1 Hup Hc Hu Hinv Hready Hmiss Hn Hpos H401 Hmember Hfetch.
  rewrite (process_driver_miss env name username access_token w None _ n
             (get_cached_driver_profile_absent _ _ _ Hmiss) eq_refl
             (proj1 Hup _) Hn Hpos).
  set (w0 := record (GetItem "ir_custid" name)
               (record (GetItem "ir_drivers" name) w)).
  set (w1 := record (MemberProfile (Py.str n) access_token) w0).
  assert (Hre : IrCustid.reauthenticate env username
                  "Failed to obtain access token after re-authentication" w1
                = (Ok stored,
                   record (GetItem "ir_auth" username)
                     (record (GetItem "ir_auth" username)
                        (record GetSecretValue
                           (record (Invoke "ir_auth") w1))))).
  { apply (reauthenticate_cached env w1 credentials); try assumption.
    apply Hinv. }
  apply try_except_Ok. unfold IrDrivers.profile_with_reauth.
  rewrite (try_except_Raise _ _ _ _ _
             (fetch_and_cache_401 env name (JStr (Py.str n)) access_token w0 H401)).
  fold w1. rewrite (bind_Ok _ _ _ _ _ Hre).
  unfold IrDrivers.fetch_and_cache. cbn [Json.format].
  erewrite bind_Ok.
  2:{ apply (get_driver_profile_ok env (Py.str n) stored _ ra ra' url profile);
        [exact Hmember|exact Hfetch]. }
  rewrite (bind_Ok _ _ _ _ _ (cache_driver_profile_ok _ _ _ _ (proj1 Hup _))).
  reflexivity.
Qed.

Lemma profile_fetched_with_new_token_witness :
  fst (IrDrivers.process_driver Faulty.accepting_stored "A" Scenario.username
         "access-old" (Scenario.batch_world 1000))
  = Ok (Scenario.profile_document (Scenario.profile_link "1")).
Proof.
  refine (f_equal fst
            (profile_fetched_with_new_token Faulty.accepting_stored
               (Scenario.batch_world 1000) Scenario.credentials
               Scenario.username "access-0" "A" 1 "access-old"
               NoRetryAfter NoRetryAfter (Scenario.profile_link "1")
               (Scenario.profile_document (Scenario.profile_link "1"))
               _ _ _ _ _ _ _ _ _ _ _)).
  - split; intros h; reflexivity.
  - repeat split; vm_compute; eauto.
  - vm_compute. reflexivity.
  - intros h. reflexivity.
  - exists (Scenario.stored_token (1000 + 300)), (1000 + 300).
    repeat split; try reflexivity; cbn; lia.
  - reflexivity.
  - vm_compute. reflexivity.
  - lia.
  - reflexivity.
  - reflexivity.
  - reflexivity.
Defined.

(** ** A cold start: no token in the table *)

Lemma custid_credentials_ok env w credentials username :
  get_secret_value env (trace w) = SecretString credentials ->
  credentials !! "username" = Some username ->
  IrCustid.get_oauth_credentials env w = (Ok credentials, record GetSecretValue w).
Proof.
  intros Hs Hu. unfold IrCustid.get_oauth_credentials. munfold.
  now rewrite Hs, Hu.
Qed.

Lemma get_access_token_absent env username w :
  ir_auth w !! username = None ->
  IrCustid.get_access_token env username w
  = (Ok None, record (GetItem "ir_auth" username) w).
Proof.
  intros H. unfold IrCustid.get_access_token. munfold.
  destruct (dynamodb_error env (trace w)); [reflexivity|]. wsimpl.
  now rewrite H.
Qed.

(** X27: with no token in the table, [ir_custid] and [ir_drivers] invoke
    [ir_auth] once, which exchanges the password for a token and stores
    it, and then read the token back.  When the lifetime of the grant is
    positive they go on with that token; when it is not, the token has
    expired as soon as it is stored, and they fail with
    "Failed to obtain access token after authentication". *)
Theorem cold_start_acquires_token
    env w credentials client_id client_secret username password ra resp tok :
  let form := password_form client_id client_secret username password in
  let lifetime := default IrAuth.ACCESS_TOKEN_LIFETIME (oa_expires_in resp) in
  let done :=
    [GetItem "ir_auth" username; PutItem "ir_auth" username; OAuthToken form;
     GetItem "ir_auth" username; GetSecretValue; Invoke "ir_auth";
     GetItem "ir_auth" username; GetSecretValue] in
  services_up env credentials ->
  credentials_are credentials client_id client_secret username password ->
  (forall h, lambda_invoke env h "ir_auth" = InvokeStatusCode 200) ->
  ir_auth w !! username = None ->
  (forall h, oauth_token env h form = Response 200 ra (Json resp)) ->
  oa_access_token resp = Some tok ->
  Py.truthy_str tok = true ->
  exists item,
    stored_item (clock w) resp item
    /\ let w' := {| clock := clock w;
                    ir_auth := <[username := item]> (ir_auth w);
                    ir_custid := ir_custid w; ir_drivers := ir_drivers w;
                    trace := (done ++ trace w)%list |} in
       (0 < lifetime ->
        IrCustid.acquire_token env w = (Ok (username, tok), w'))
       /\ (lifetime <= 0 ->
           IrCustid.acquire_token env w
           = (Raise (AuthenticationError
                       "Failed to obtain access token after authentication"),
              w')).
Proof.
  intros form lifetime done [Hdb Hsec] Hcred Hinv Habs Hreply Htok Htruthy.
  pose proof (credentials_are_full _ _ _ _ _ Hcred) as Hc.
  pose proof (proj1 (proj2 (proj2 Hcred))) as Hu.
  set (w1 := record (GetItem "ir_auth" username) (record GetSecretValue w)).
  set (w2 := record (Invoke "ir_auth") w1).
  set (w3 := record (GetItem "ir_auth" username) (record GetSecretValue w2)).
  set (w4 := record (OAuthToken form) w3).
  destruct (store_tokens_ok env username resp tok w4 Htok (Hdb _))
    as (item & Hitem & Hstore).
  exists item. split; [exact Hitem|]. cbv zeta.
  assert (Hreq :
    IrAuth.make_oauth_request env credentials "password_limited" None w3
    = (Ok resp, w4)).
  { unfold IrAuth.make_oauth_request.
    rewrite (bind_Ok _ _ _ _ _ (oauth_form_password_is _ _ _ _ _ w3 Hcred)).
    change (range MAX_RETRIES) with [0; 1; 2]. fold form.
    now apply (oauth_attempts_granted env form 0 [1; 2] w3 200 ra resp). }
  set (w5 := {| clock := clock w4; ir_auth := <[username := item]> (ir_auth w4);
                ir_custid := ir_custid w4; ir_drivers := ir_drivers w4;
                trace := PutItem "ir_auth" username :: trace w4 |}) in *.
  assert (Hauth : exists r,
    IrAuth.lambda_handler env w2 = (Ok r, w5) /\ statusCode r = 200).
  { eexists. split.
    - rewrite (auth_handler_password env w2 credentials username
                 (Hsec _) Hc Hu Habs).
      apply try_except_Ok. fold w3.
      rewrite (bind_Ok _ _ _ _ _ Hreq), (bind_Ok _ _ _ _ _ Hstore).
      unfold IrAuth.fresh_response. rewrite Htok. reflexivity.
    - reflexivity. }
  destruct Hauth as (r & Hauth & H200).
  assert (Hinvoke : IrCustid.invoke_auth_lambda env w1 = (Ok tt, w5)).
  { unfold IrCustid.invoke_auth_lambda. apply try_except_Ok.
    unfold gets at 1, emit at 1, modify at 1. unfold bind at 1 2. wsimpl.
    rewrite (Hinv _). fold w2. rewrite (bind_Ok _ _ _ _ _ Hauth).
    change (200 =? 200) with true. cbn [negb]. rewrite H200. reflexivity. }
  assert (Hread :
    IrCustid.get_access_token env username w5
    = (Ok (if clock w <? clock w + lifetime then Some tok else None),
       record (GetItem "ir_auth" username) w5)).
  { unfold IrCustid.get_access_token. munfold. rewrite (Hdb _). wsimpl.
    unfold w5 at 1. cbn [ir_auth]. rewrite lookup_insert_eq. munfold.
    destruct Hitem as (Hia & Hit & _). rewrite Hit.
    change (default 0 (Some ?x)) with x.
    change (clock w5) with (clock w). change (clock w4) with (clock w).
    rewrite Z.gtb_ltb. fold lifetime.
    destruct (clock w <? clock w + lifetime); [|reflexivity].
    now rewrite Hia, Htok. }
  assert (Hstart : forall k : string -> string -> M (string * string),
    (credentials <- IrCustid.get_oauth_credentials env;;
     username <- getitem "username" credentials;;
     access_token <- IrCustid.get_access_token env username;;
     access_token <-
       match IrCustid.usable_token access_token with
       | Some t => ret t
       | None =>
           IrCustid.reauthenticate env username
             "Failed to obtain access token after authentication"
       end;;
     k username access_token)%py w
    = (access_token <-
         IrCustid.reauthenticate env username
           "Failed to obtain access token after authentication";;
       k username access_token)%py w1).
  { intros k.
    rewrite (bind_Ok _ _ _ _ _ (custid_credentials_ok env w _ _ (Hsec _) Hu)).
    unfold getitem at 1. rewrite Hu.
    rewrite (bind_Ok (ret username) _ _ username _ eq_refl).
    rewrite (bind_Ok _ _ _ _ _
               (get_access_token_absent env username (record GetSecretValue w)
                  Habs)).
    reflexivity. }
  unfold IrCustid.acquire_token.
  rewrite (Hstart (fun username access_token => ret (username, access_token))).
  unfold IrCustid.reauthenticate.
  split.
  - intros Hpos.
    assert (E : (clock w <? clock w + lifetime) = true) by (apply Z.ltb_lt; lia).
    rewrite E in Hread.
    erewrite bind_Ok.
    2:{ rewrite (bind_Ok _ _ _ _ _ Hinvoke), (bind_Ok _ _ _ _ _ Hread).
        unfold IrCustid.usable_token. rewrite Htruthy. reflexivity. }
    reflexivity.
  - intros Hle.
    assert (E : (clock w <? clock w + lifetime) = false) by (apply Z.ltb_ge; lia).
    rewrite E in Hread.
    erewrite bind_Raise.
    2:{ rewrite (bind_Ok _ _ _ _ _ Hinvoke), (bind_Ok _ _ _ _ _ Hread).
        reflexivity. }
    reflexivity.
Qed.

Lemma cold_start_acquires_token_witness :
  fst (IrCustid.acquire_token Scenario.granting (Scenario.empty_world 1000))
  = Ok (Scenario.username, "access-1")
  /\ fst (IrCustid.acquire_token Faulty.granting_expired
            (Scenario.empty_world 1000))
     = Raise (AuthenticationError
                "Failed to obtain access token after authentication").
Proof.
  split.
  - destruct (cold_start_acquires_token Scenario.granting
                (Scenario.empty_world 1000) Scenario.credentials
                "forum-addon" "s3cret" Scenario.username "hunter2"
                NoRetryAfter Scenario.granted "access-1")
      as (item & _ & H & _).
    + split; intros h; reflexivity.
    + repeat split; vm_compute; reflexivity.
    + intros h. reflexivity.
    + reflexivity.
    + intros h. reflexivity.
    + reflexivity.
    + reflexivity.
    + rewrite H; [reflexivity|cbn; lia].
  - destruct (cold_start_acquires_token Faulty.granting_expired
                (Scenario.empty_world 1000) Scenario.credentials
                "forum-addon" "s3cret" Scenario.username "hunter2"
                NoRetryAfter Faulty.expired_grant "access-3")
      as (item & _ & _ & H).
    + split; intros h; reflexivity.
    + repeat split; vm_compute; reflexivity.
    + intros h. reflexivity.
    + reflexivity.
    + intros h. reflexivity.
    + reflexivity.
    + reflexivity.
    + rewrite H; [reflexivity|cbn; lia].
Defined.

(** * The retry policies, the re-authentication and the refetch, in general *)

Lemma happened_three ev d0 d1 w :
  seconds ev = 0 ->
  happened (three ev d0 d1) w
  = {| clock := clock w + d0 + d1; ir_auth := ir_auth w;
       ir_custid := ir_custid w; ir_drivers := ir_drivers w;
       trace := [ev; Sleep d1; ev; Sleep d0; ev] ++ trace w |}.
Proof.
  intros H. unfold happened, three, total. cbn [fold_right seconds].
  rewrite H. f_equal. lia.
Qed.

Lemma happened_three_pairs request fetch d0 d1 w :
  seconds request = 0 -> seconds fetch = 0 ->
  happened (three_pairs request fetch d0 d1) w
  = {| clock := clock w + d0 + d1; ir_auth := ir_auth w;
       ir_custid := ir_custid w; ir_drivers := ir_drivers w;
       trace := [fetch; request; Sleep d1; fetch; request; Sleep d0;
                 fetch; request] ++ trace w |}.
Proof.
  intros H1 H2. unfold happened, three_pairs, total. cbn [fold_right seconds].
  rewrite H1, H2. f_equal. lia.
Qed.

(** ** [ir_auth]: from the table to the exchanges *)

Lemma get_existing_tokens_world env username w res w' :
  IrAuth.get_existing_tokens env username w = (res, w') ->
  w' = record (GetItem "ir_auth" username) w.
Proof.
  unfold IrAuth.get_existing_tokens. munfold.
  destruct (dynamodb_error env (trace w)); [now intros [= <- <-]|].
  wsimpl. destruct (ir_auth w !! username) as [item|]; [|now intros [= <- <-]].
  munfold. destruct (default 0 (ti_ttl item) >? clock w).
  - destruct (ti_access_token item); now intros [= <- <-].
  - destruct (ti_refresh_token item); [|now intros [= <- <-]].
    destruct (default 0 (ti_refresh_token_ttl item) >? clock w);
      now intros [= <- <-].
Qed.

(** With no valid access token in the table, the handler is the refresh
    attempt, when there is a refresh token to try, and then the password
    exchange, under the [except] clauses. *)
Lemma auth_handler_exchanges env w credentials username existing :
  get_secret_value env (trace w) = SecretString credentials ->
  full_credentials credentials ->
  credentials !! "username" = Some username ->
  fst (IrAuth.get_existing_tokens env username (record GetSecretValue w))
  = Ok existing ->
  no_valid_token existing ->
  IrAuth.lambda_handler env w
  = try_except
      (refreshed <-
         match refresh_candidate existing with
         | Some token =>
             try_except
               (oauth_response <-
                  IrAuth.make_oauth_request env credentials "refresh_token"
                    (Some token);;
                IrAuth.store_tokens_in_dynamodb env username oauth_response;;
                r <- IrAuth.fresh_response
                       "Authentication successful (refreshed)" oauth_response;;
                ret (Some r))
               (fun e => match e with
                         | AuthenticationError _ | RateLimitError _ => ret None
                         | _ => raise e
                         end)
         | None => ret None
         end;;
       match refreshed with
       | Some r => ret r
       | None => password_exchange env credentials username
       end)
      (fun e => ret (IrAuth.on_exception e))
      (record (GetItem "ir_auth" username) (record GetSecretValue w)).
Proof.
  intros Hs Hc Hu Hex Hvalid. unfold IrAuth.lambda_handler.
  unfold try_except at 1 3.
  rewrite (bind_Ok _ _ _ _ _ (auth_get_oauth_credentials_ok _ _ _ Hs Hc)).
  unfold getitem at 1. rewrite Hu.
  rewrite (bind_Ok (ret username) _ _ username _ eq_refl).
  destruct (IrAuth.get_existing_tokens env username (record GetSecretValue w))
    as [res w0] eqn:E.
  pose proof (get_existing_tokens_world _ _ _ _ _ E) as ->.
  cbn [fst] in Hex. subst res.
  rewrite (bind_Ok _ _ _ _ _ E).
  destruct existing as [[tok tt ei sc rt rei|token]|]; cbn in Hvalid;
    try contradiction; cbn [refresh_candidate].
  - destruct (Py.truthy_str token); reflexivity.
  - reflexivity.
Qed.

Lemma auth_handler_no_refresh env w credentials username existing :
  get_secret_value env (trace w) = SecretString credentials ->
  full_credentials credentials ->
  credentials !! "username" = Some username ->
  fst (IrAuth.get_existing_tokens env username (record GetSecretValue w))
  = Ok existing ->
  no_valid_token existing ->
  refresh_candidate existing = None ->
  IrAuth.lambda_handler env w
  = try_except (password_exchange env credentials username)
      (fun e => ret (IrAuth.on_exception e))
      (record (GetItem "ir_auth" username) (record GetSecretValue w)).
Proof.
  intros Hs Hc Hu Hex Hvalid Hnone.
  rewrite (auth_handler_exchanges _ _ _ _ _ Hs Hc Hu Hex Hvalid), Hnone.
  reflexivity.
Qed.

(** The refresh exchange raised what its [except] clause takes: the
    handler goes on with the password exchange, from where the refresh
    exchange ended. *)
Lemma auth_handler_refresh_swallowed env w credentials username existing
    token e w1 :
  get_secret_value env (trace w) = SecretString credentials ->
  full_credentials credentials ->
  credentials !! "username" = Some username ->
  fst (IrAuth.get_existing_tokens env username (record GetSecretValue w))
  = Ok existing ->
  no_valid_token existing ->
  refresh_candidate existing = Some token ->
  IrAuth.make_oauth_request env credentials "refresh_token" (Some token)
    (record (GetItem "ir_auth" username) (record GetSecretValue w))
  = (Raise e, w1) ->
  (exists msg, e = AuthenticationError msg \/ e = RateLimitError msg) ->
  IrAuth.lambda_handler env w
  = try_except (password_exchange env credentials username)
      (fun e => ret (IrAuth.on_exception e)) w1.
Proof.
  intros Hs Hc Hu Hex Hvalid Hsome Hreq (msg & He).
  rewrite (auth_handler_exchanges _ _ _ _ _ Hs Hc Hu Hex Hvalid), Hsome.
  unfold try_except at 1 3.
  match goal with |- context [bind (try_except ?m ?h) ?k ?w0] =>
    rewrite (bind_Ok (try_except m h) k w0 None w1)
  end; [reflexivity|].
  rewrite (try_except_Raise _ _ _ _ _ (bind_Raise _ _ _ _ _ Hreq)).
  destruct He as [-> | ->]; reflexivity.
Qed.

Lemma password_exchange_raises env credentials username w e w1 :
  IrAuth.make_oauth_request env credentials "password_limited" None w
  = (Raise e, w1) ->
  try_except (password_exchange env credentials username)
    (fun e => ret (IrAuth.on_exception e)) w
  = (Ok (IrAuth.on_exception e), w1).
Proof.
  intros H. unfold password_exchange.
  now rewrite (try_except_Raise _ _ _ _ _ (bind_Raise _ _ _ _ _ H)).
Qed.

(** ** An OAuth exchange under transient statuses *)


Lemma refresh_candidate_truthy existing token :
  refresh_candidate existing = Some token -> Py.truthy_str token = true.
Proof.
  destruct existing as [[| token']|]; cbn; try discriminate.
  destruct (Py.truthy_str token') eqn:E; [|discriminate]. now intros [= <-].
Qed.



(** ** Three attempts under a constant 429 *)

Lemma make_oauth_request_429 env credentials grant_type refresh_token form w :
  IrAuth.oauth_form credentials grant_type refresh_token w = (Ok form, w) ->
  (forall h, reply_status (oauth_token env h form) = Some 429
             /\ usable_hint (reply_retry_after (oauth_token env h form))) ->
  IrAuth.make_oauth_request env credentials grant_type refresh_token w
  = (Raise (RateLimitError "Rate limited after 3 attempts"),
     throttled env form w).
Proof.
  intros Hform Hreply. unfold IrAuth.make_oauth_request.
  rewrite (bind_Ok _ _ _ _ _ Hform).
  pose proof (oauth_attempts_429 env form w Hreply) as H. cbv zeta in H.
  rewrite H. unfold throttled. now rewrite happened_three.
Qed.

Lemma search_429 env term tok w :
  (forall h, reply_status (lookup_drivers env h term tok) = Some 429) ->
  IrCustid.search_driver_with_auth env term tok w
  = (Raise (APIError "Rate limited after maximum retries"),
     happened (three (LookupDrivers term tok) 1 2) w).
Proof.
  intros H. rewrite (search_attempts_429 env term tok w H).
  now rewrite happened_three.
Qed.

Lemma search_link_throttled env term tok url w :
  (forall h, exists ra,
      lookup_drivers env h term tok
      = Response 200 ra (Json {| link := Some url |})) ->
  (forall h, reply_status (fetch_drivers env h url) = Some 429) ->
  IrCustid.search_driver_with_auth env term tok w
  = (Raise (APIError "Driver data request failed: 429"),
     happened (three_pairs (LookupDrivers term tok) (FetchDrivers url) 1 2) w).
Proof.
  intros H1 H2. rewrite (search_link_429 env term tok url w H1 H2).
  now rewrite happened_three_pairs.
Qed.

Lemma profile_throttled env cust_id tok w :
  (forall h, reply_status (member_profile env h cust_id tok) = Some 429) ->
  IrDrivers.get_driver_profile_with_auth env cust_id tok w
  = (Raise (APIError "Rate limited after maximum retries"),
     happened (three (MemberProfile cust_id tok) 1 2) w).
Proof.
  intros H. rewrite (profile_429 env cust_id tok w H).
  now rewrite happened_three.
Qed.

Lemma profile_link_throttled env cust_id tok url w :
  (forall h, exists ra,
      member_profile env h cust_id tok
      = Response 200 ra (Json {| link := Some url |})) ->
  (forall h, reply_status (fetch_profile env h url) = Some 429) ->
  IrDrivers.get_driver_profile_with_auth env cust_id tok w
  = (Raise (APIError "Profile detail request failed: 429"),
     happened (three_pairs (MemberProfile cust_id tok) (FetchProfile url) 1 2) w).
Proof.
  intros H1 H2. rewrite (profile_link_429 env cust_id tok url w H1 H2).
  now rewrite happened_three_pairs.
Qed.

(** A miss in the identifier cache, a token, and a search that raises an
    [APIError]: the handler of [ir_custid] answers 502. *)
Lemma custid_handler_api_error env raw w username tok w1 msg w2 :
  let term := unquote env raw in
  Py.truthy_str term = true ->
  dynamodb_error env (trace w) = None ->
  ir_custid w !! term = None ->
  IrCustid.acquire_token env (record (GetItem "ir_custid" term) w)
  = (Ok (username, tok), w1) ->
  IrCustid.search_driver_with_auth env term tok w1 = (Raise (APIError msg), w2) ->
  IrCustid.lambda_handler env {| IrCustid.rawQueryString := Some raw |} w
  = (Ok (IrCustid.error_response 502 "API error" msg), w2).
Proof.
  intros term Hterm Hdb Hmiss Htoken Hsearch.
  unfold IrCustid.lambda_handler.
  rewrite (try_except_Raise _ _ _ (APIError msg) w2); [reflexivity|].
  change (default "" (IrCustid.rawQueryString
                        {| IrCustid.rawQueryString := Some raw |})) with raw.
  fold term. rewrite Hterm. cbn [negb].
  assert (Hget : dynamodb_call env (GetItem "ir_custid" term) w
                 = (Ok tt, record (GetItem "ir_custid" term) w)).
  { unfold dynamodb_call. munfold. now rewrite Hdb. }
  rewrite (bind_Ok _ _ _ _ _ Hget).
  unfold gets at 1. unfold bind at 1. wsimpl. rewrite Hmiss.
  apply bind_Raise. cbn iota.
  rewrite (bind_Ok _ _ _ _ _ Htoken). cbn [fst snd].
  now rewrite (try_except_Raise _ _ _ _ _ Hsearch).
Qed.

(** A miss in the profile cache and a valid identifier: [process_driver]
    is the fetch with its one re-authentication, under the outer [except]
    clauses. *)
Lemma process_driver_fetch env name username tok w cached w1 cust_id w2 :
  IrDrivers.get_cached_driver_profile env name w = (Ok cached, w1) ->
  IrDrivers.truthy_profile cached = None ->
  customer_id env name w1 = (Ok cust_id, w2) ->
  IrDrivers.invalid_cust_id cust_id w2 = (Ok false, w2) ->
  IrDrivers.process_driver env name username tok w
  = try_except
      (IrDrivers.profile_with_reauth env name cust_id username tok)
      (fun e => ret (IrDrivers.driver_error name e)) w2.
Proof.
  intros Hc Hmiss Hid Hvalid. unfold IrDrivers.process_driver.
  unfold try_except.
  rewrite (bind_Ok _ _ _ _ _ Hc), Hmiss.
  unfold customer_id in Hid.
  apply bind_inv_Ok in Hid as (cached_id & w3 & Hcache & Hid).
  rewrite (bind_Ok _ _ _ _ _ Hcache), (bind_Ok _ _ _ _ _ Hid).
  now rewrite (bind_Ok _ _ _ _ _ Hvalid).
Qed.

Lemma process_driver_api_error env name username tok w cached w1 cust_id w2
    msg w3 :
  IrDrivers.get_cached_driver_profile env name w = (Ok cached, w1) ->
  IrDrivers.truthy_profile cached = None ->
  customer_id env name w1 = (Ok cust_id, w2) ->
  IrDrivers.invalid_cust_id cust_id w2 = (Ok false, w2) ->
  IrDrivers.get_driver_profile_with_auth env (Json.format cust_id) tok w2
  = (Raise (APIError msg), w3) ->
  IrDrivers.process_driver env name username tok w
  = (Ok (IrDrivers.error_entry
           ("iRacing API error for " +:+ name +:+ ": " +:+ msg)), w3).
Proof.
  intros Hc Hmiss Hid Hvalid Hfetch.
  rewrite (process_driver_fetch _ _ _ _ _ _ _ _ _ Hc Hmiss Hid Hvalid).
  rewrite (try_except_Raise _ _ _ (APIError msg) w3); [reflexivity|].
  unfold IrDrivers.profile_with_reauth, IrDrivers.fetch_and_cache.
  now rewrite (try_except_Raise _ _ _ _ _ (bind_Raise _ _ _ _ _ Hfetch)).
Qed.

(** C3, as the code has it.  When the upstream always answers 429, every
    call site makes exactly three attempts and then fails.  An OAuth
    exchange of [ir_auth], of either grant type, whose [Retry-After] is
    absent or a number of seconds that [time.sleep] takes, sleeps between
    the posts for those seconds when the reply has them and for
    [1 * 2 ^ attempt] otherwise, and raises [RateLimitError]; the handler,
    after the refresh exchange when the table has a refresh token to try
    and the password exchange in any case, answers 429 with
    [Retry-After: 60].  The four call sites of [ir_custid] and [ir_drivers]
    (lookup, profile request, and their links) sleep 1 and 2 seconds
    whatever the reply says and raise [APIError]; the handler of
    [ir_custid] answers an [APIError] of the search with 502 and no
    [Retry-After] header, [process_driver] gives the name its error
    entry. *)
Theorem rate_limit_three_attempts env :
  let throttling form :=
    forall h, reply_status (oauth_token env h form) = Some 429
              /\ usable_hint (reply_retry_after (oauth_token env h form)) in
  (forall credentials grant_type refresh_token form w,
      IrAuth.oauth_form credentials grant_type refresh_token w = (Ok form, w) ->
      throttling form ->
      IrAuth.make_oauth_request env credentials grant_type refresh_token w
      = (Raise (RateLimitError "Rate limited after 3 attempts"),
         throttled env form w))
  /\ (forall credentials client_id client_secret username password w existing,
         credentials_are credentials client_id client_secret username password ->
         get_secret_value env (trace w) = SecretString credentials ->
         fst (IrAuth.get_existing_tokens env username (record GetSecretValue w))
         = Ok existing ->
         no_valid_token existing ->
         (forall form, throttling form) ->
         let w0 := record (GetItem "ir_auth" username) (record GetSecretValue w) in
         let w1 := match refresh_candidate existing with
                   | Some token =>
                       throttled env (refresh_form client_id client_secret token) w0
                   | None => w0
                   end in
         IrAuth.lambda_handler env w
         = (Ok {| statusCode := 429;
                  headers := [("Content-Type", "application/json");
                              ("Retry-After", "60")];
                  body := JDict [("error", JStr "Rate limited");
                                 ("message",
                                  JStr "Rate limited after 3 attempts")] |},
            throttled env (password_form client_id client_secret username password)
              w1))
  /\ (forall term tok w,
         (forall h, reply_status (lookup_drivers env h term tok) = Some 429) ->
         IrCustid.search_driver_with_auth env term tok w
         = (Raise (APIError "Rate limited after maximum retries"),
            happened (three (LookupDrivers term tok) 1 2) w))
  /\ (forall term tok url w,
         (forall h, exists ra,
             lookup_drivers env h term tok
             = Response 200 ra (Json {| link := Some url |})) ->
         (forall h, reply_status (fetch_drivers env h url) = Some 429) ->
         IrCustid.search_driver_with_auth env term tok w
         = (Raise (APIError "Driver data request failed: 429"),
            happened (three_pairs (LookupDrivers term tok) (FetchDrivers url) 1 2)
              w))
  /\ (forall raw w username tok w1 msg w2,
         let term := unquote env raw in
         Py.truthy_str term = true ->
         dynamodb_error env (trace w) = None ->
         ir_custid w !! term = None ->
         IrCustid.acquire_token env (record (GetItem "ir_custid" term) w)
         = (Ok (username, tok), w1) ->
         IrCustid.search_driver_with_auth env term tok w1
         = (Raise (APIError msg), w2) ->
         IrCustid.lambda_handler env {| IrCustid.rawQueryString := Some raw |} w
         = (Ok {| statusCode := 502;
                  headers := [("Content-Type", "application/json")];
                  body := JDict [("error", JStr "API error");
                                 ("message", JStr msg)] |}, w2))
  /\ (forall cust_id tok w,
         (forall h, reply_status (member_profile env h cust_id tok) = Some 429) ->
         IrDrivers.get_driver_profile_with_auth env cust_id tok w
         = (Raise (APIError "Rate limited after maximum retries"),
            happened (three (MemberProfile cust_id tok) 1 2) w))
  /\ (forall cust_id tok url w,
         (forall h, exists ra,
             member_profile env h cust_id tok
             = Response 200 ra (Json {| link := Some url |})) ->
         (forall h, reply_status (fetch_profile env h url) = Some 429) ->
         IrDrivers.get_driver_profile_with_auth env cust_id tok w
         = (Raise (APIError "Profile detail request failed: 429"),
            happened (three_pairs (MemberProfile cust_id tok) (FetchProfile url)
                        1 2) w))
  /\ (forall name username tok w cached w1 cust_id w2 msg w3,
         IrDrivers.get_cached_driver_profile env name w = (Ok cached, w1) ->
         IrDrivers.truthy_profile cached = None ->
         customer_id env name w1 = (Ok cust_id, w2) ->
         IrDrivers.invalid_cust_id cust_id w2 = (Ok false, w2) ->
         IrDrivers.get_driver_profile_with_auth env (Json.format cust_id) tok w2
         = (Raise (APIError msg), w3) ->
         IrDrivers.process_driver env name username tok w
         = (Ok (JDict [("error",
                        JStr ("iRacing API error for " +:+ name +:+ ": "
                              +:+ msg))]), w3)).
Proof.
  intros throttling.
  split; [|split; [|split; [|split; [|split; [|split; [|split]]]]]].
  - intros credentials grant_type refresh_token form w.
    apply make_oauth_request_429.
  - intros credentials client_id client_secret username password w existing
      Hcred Hs Hex Hvalid Hreply w0 w1.
    pose proof (credentials_are_full _ _ _ _ _ Hcred) as Hc.
    pose proof (proj1 (proj2 (proj2 Hcred))) as Hu.
    assert (Hpassword :
      IrAuth.make_oauth_request env credentials "password_limited" None w1
      = (Raise (RateLimitError "Rate limited after 3 attempts"),
         throttled env (password_form client_id client_secret username password)
           w1)).
    { apply make_oauth_request_429; [|apply Hreply].
      now apply oauth_form_password_is. }
    subst w1. destruct (refresh_candidate existing) as [token|] eqn:Hcand.
    + rewrite (auth_handler_refresh_swallowed env w credentials username
                 existing token
                 (RateLimitError "Rate limited after 3 attempts")
                 (throttled env (refresh_form client_id client_secret token) w0)
                 Hs Hc Hu Hex Hvalid Hcand).
      * now rewrite (password_exchange_raises _ _ _ _ _ _ Hpassword).
      * apply make_oauth_request_429; [|apply Hreply].
        apply (oauth_form_refresh _ _ _ _ _ _ _ Hcred).
        now apply (refresh_candidate_truthy existing).
      * eauto.
    + rewrite (auth_handler_no_refresh _ _ _ _ _ Hs Hc Hu Hex Hvalid Hcand).
      now rewrite (password_exchange_raises _ _ _ _ _ _ Hpassword).
  - intros term tok w. apply search_429.
  - intros term tok url w. apply search_link_throttled.
  - intros raw w username tok w1 msg w2.
    apply custid_handler_api_error.
  - intros cust_id tok w. apply profile_throttled.
  - intros cust_id tok url w. apply profile_link_throttled.
  - intros name username tok w cached w1 cust_id w2 msg w3.
    apply process_driver_api_error.
Qed.

Lemma rate_limit_three_attempts_witness :
  (exists w',
      IrAuth.lambda_handler Scenario.throttling (Faulty.lapsed 1000)
      = (Ok (IrAuth.error_response 429 [("Retry-After", "60")] "Rate limited"
               "Rate limited after 3 attempts"), w')
      /\ clock w' = 1000 + 5 + 5 + 5 + 5
      /\ total (one is_oauth_token) (trace w') = 6)
  /\ (exists w',
         IrCustid.lambda_handler Scenario.lookup_throttling
           {| IrCustid.rawQueryString := Some "Bob" |} (Scenario.signed_in 1000)
         = (Ok (IrCustid.error_response 502 "API error"
                  "Rate limited after maximum retries"), w')
         /\ clock w' = 1000 + 1 + 2
         /\ total (one is_lookup) (trace w') = 3)
  /\ (exists w',
         IrDrivers.process_driver Scenario.profile_throttling "A"
           Scenario.username "access-0" (Scenario.batch_world 1000)
         = (Ok (IrDrivers.error_entry
                  "iRacing API error for A: Rate limited after maximum retries"),
            w')
         /\ clock w' = 1000 + 1 + 2
         /\ total (one is_member_profile) (trace w') = 3)
  /\ IrCustid.search_driver_with_auth Scenario.link_throttling "Bob" "access-0"
       (Scenario.signed_in 1000)
     = (Raise (APIError "Driver data request failed: 429"),
        happened (three_pairs (LookupDrivers "Bob" "access-0")
                    (FetchDrivers Scenario.drivers_link) 1 2)
          (Scenario.signed_in 1000))
  /\ IrDrivers.get_driver_profile_with_auth Scenario.profile_link_throttling
       "1" "access-0" (Scenario.batch_world 1000)
     = (Raise (APIError "Profile detail request failed: 429"),
        happened (three_pairs (MemberProfile "1" "access-0")
                    (FetchProfile (Scenario.profile_link "1")) 1 2)
          (Scenario.batch_world 1000)).
Proof.
  split; [|split; [|split; [|split]]].
  4:{ destruct (rate_limit_three_attempts Scenario.link_throttling)
        as (_ & _ & _ & H & _).
      apply H; intros h; [eexists|]; reflexivity. }
  4:{ destruct (rate_limit_three_attempts Scenario.profile_link_throttling)
        as (_ & _ & _ & _ & _ & _ & H & _).
      apply H; intros h; [eexists|]; reflexivity. }
  - destruct (rate_limit_three_attempts Scenario.throttling)
      as (_ & H & _).
    eexists. split; [|split].
    + apply (H Scenario.credentials "forum-addon" "s3cret" Scenario.username
               "hunter2" (Faulty.lapsed 1000)
               (Some (IrAuth.ExpiredTokens "refresh-0")));
        [repeat split; vm_compute; reflexivity|reflexivity
        |vm_compute; reflexivity|exact I|].
      intros form h. split; [reflexivity|]. vm_compute. split; discriminate.
    + vm_compute. reflexivity.
    + vm_compute. reflexivity.
  - destruct (rate_limit_three_attempts Scenario.lookup_throttling)
      as (_ & _ & Hsearch & _ & H & _).
    eexists. split; [|split].
    + apply (H "Bob" (Scenario.signed_in 1000) Scenario.username "access-0"
               (record (GetItem "ir_auth" Scenario.username)
                  (record GetSecretValue
                     (record (GetItem "ir_custid" "Bob")
                        (Scenario.signed_in 1000)))));
        [reflexivity|reflexivity|reflexivity|vm_compute; reflexivity|].
      apply Hsearch. intros h. reflexivity.
    + vm_compute. reflexivity.
    + vm_compute. reflexivity.
  - destruct (rate_limit_three_attempts Scenario.profile_throttling)
      as (_ & _ & _ & _ & _ & Hfetch & _ & H).
    eexists. split; [|split].
    + apply (H "A" Scenario.username "access-0" (Scenario.batch_world 1000)
               None
               (record (GetItem "ir_drivers" "A") (Scenario.batch_world 1000))
               (JStr "1")
               (record (GetItem "ir_custid" "A")
                  (record (GetItem "ir_drivers" "A")
                     (Scenario.batch_world 1000))));
        [vm_compute; reflexivity|reflexivity|vm_compute; reflexivity
        |vm_compute; reflexivity|].
      apply Hfetch. intros h. reflexivity.
    + vm_compute. reflexivity.
    + vm_compute. reflexivity.
Defined.

(** ** Which events a computation makes *)

Section Only.

Context (ok : Event -> bool).

#[export] Instance only_preorder : PreOrder (only ok).
Proof.
  split.
  - intros w. exists []. split; [reflexivity|constructor].
  - intros w1 w2 w3 (l1 & H1 & Hl1) (l2 & H2 & Hl2).
    exists (l2 ++ l1)%list. split.
    + rewrite H2, H1. apply app_assoc.
    + apply Forall_app. split; assumption.
Qed.

Lemma only_emit ev : ok ev = true -> preserves (only ok) (emit ev).
Proof.
  intros Hev w res w' [= <- <-]. exists [ev]. split; [reflexivity|].
  now constructor.
Qed.

Lemma only_tables f :
  (forall w, trace (f w) = trace w) -> preserves (only ok) (modify f).
Proof.
  intros Hf w res w' [= <- <-]. exists []. split; [apply Hf|constructor].
Qed.

Lemma only_time_sleep d : ok (Sleep d) = true -> preserves (only ok) (time_sleep d).
Proof.
  intros Hev. unfold time_sleep.
  destruct ((d <? - SLEEP_MAX) || (SLEEP_MAX <? d));
    [apply preserves_raise; exact _|].
  destruct (d <? 0); [apply preserves_raise; exact _|].
  apply preserves_bind; [exact _|now apply only_emit|intros _].
  now apply only_tables.
Qed.

Lemma only_dynamodb_call env ev :
  ok ev = true -> preserves (only ok) (dynamodb_call env ev).
Proof.
  intros Hev. pose proof (only_emit ev Hev). unfold dynamodb_call. frame.
Qed.

Lemma only_urlopen {B} ev (service : list Event -> HttpReply B) :
  ok ev = true -> preserves (only ok) (urlopen ev service).
Proof.
  intros Hev. pose proof (only_emit ev Hev). unfold urlopen. frame.
Qed.

Lemma only_backoff_or_raise {A} attempt (k : M A) e :
  (forall d, ok (Sleep d) = true) ->
  preserves (only ok) k ->
  preserves (only ok) (IrCustid.backoff_or_raise attempt k e).
Proof.
  intros Hsleep Hk. pose proof (fun d => only_time_sleep d (Hsleep d)).
  unfold IrCustid.backoff_or_raise. frame.
Qed.

End Only.

Ltac only_step :=
  match goal with
  | |- preserves (only _) (emit _) => apply only_emit
  | |- preserves (only _) (time_sleep _) => apply only_time_sleep
  | |- preserves (only _) (dynamodb_call _ _) => apply only_dynamodb_call
  | |- preserves (only _) (urlopen _ _) => apply only_urlopen
  | |- preserves (only _) (IrCustid.backoff_or_raise _ _ _) =>
      apply only_backoff_or_raise
  | |- preserves (only _) (modify _) => apply only_tables; reflexivity
  | H : forall ev, _ = true -> ?ok ev = true |- ?ok _ = true =>
      apply H; reflexivity
  | |- _ = true => reflexivity
  end.

Ltac quiet := repeat first [only_step | frame_step].

(** *** The events of [ir_auth] and of a read of the token table *)

Section OnlyAuth.

Context (ok : Event -> bool).
Hypothesis Hauth : forall ev, auth_event ev = true -> ok ev = true.

Lemma auth_credentials_only env :
  preserves (only ok) (IrAuth.get_oauth_credentials env).
Proof.
  unfold IrAuth.get_oauth_credentials. quiet.
  generalize ["client_id"; "client_secret"; "username"; "password"].
  intros keys. induction keys; cbn [IrAuth.check_required]; quiet.
Qed.

Lemma oauth_form_only credentials grant_type refresh_token :
  preserves (only ok) (IrAuth.oauth_form credentials grant_type refresh_token).
Proof. unfold IrAuth.oauth_form. quiet. Qed.

Lemma oauth_failure_only status ra attempt (k : M OAuthResponse) :
  preserves (only ok) k ->
  preserves (only ok) (IrAuth.oauth_failure status ra attempt k).
Proof. intros Hk. unfold IrAuth.oauth_failure. quiet. Qed.

Lemma oauth_attempts_only env form attempts :
  preserves (only ok) (IrAuth.oauth_attempts env form attempts).
Proof.
  induction attempts as [|attempt rest IH]; cbn [IrAuth.oauth_attempts];
    pose proof oauth_failure_only; quiet.
Qed.

Lemma make_oauth_request_only env credentials grant_type refresh_token :
  preserves (only ok)
    (IrAuth.make_oauth_request env credentials grant_type refresh_token).
Proof.
  pose proof oauth_form_only. pose proof oauth_attempts_only.
  unfold IrAuth.make_oauth_request. quiet.
Qed.

Lemma store_tokens_only env username resp :
  preserves (only ok) (IrAuth.store_tokens_in_dynamodb env username resp).
Proof. unfold IrAuth.store_tokens_in_dynamodb. quiet. Qed.

Lemma get_existing_tokens_only env username :
  preserves (only ok) (IrAuth.get_existing_tokens env username).
Proof. unfold IrAuth.get_existing_tokens. quiet. Qed.

Lemma fresh_response_only message resp :
  preserves (only ok) (IrAuth.fresh_response message resp).
Proof. unfold IrAuth.fresh_response. quiet. Qed.

Lemma auth_handler_only env : preserves (only ok) (IrAuth.lambda_handler env).
Proof.
  pose proof auth_credentials_only. pose proof make_oauth_request_only.
  pose proof store_tokens_only. pose proof get_existing_tokens_only.
  pose proof fresh_response_only.
  unfold IrAuth.lambda_handler. quiet.
Qed.

Lemma get_access_token_only env username :
  preserves (only ok) (IrCustid.get_access_token env username).
Proof. unfold IrCustid.get_access_token. quiet. Qed.

End OnlyAuth.

(** *** One invocation of [ir_auth], then its events *)

Lemma invoke_auth_lambda_events env w res w' :
  IrCustid.invoke_auth_lambda env w = (res, w') ->
  only auth_event (record (Invoke "ir_auth") w) w'.
Proof.
  pose proof (auth_handler_only auth_event (fun _ H => H) env) as Hhandler.
  assert (Hp : forall h,
    preserves (only auth_event)
      (try_except
         (match lambda_invoke env h "ir_auth" with
          | InvokeClientError msg => raise (ClientError msg)
          | InvokeStatusCode status =>
              payload <- IrAuth.lambda_handler env;;
              if negb (status =? 200) then
                raise (AuthenticationError
                         ("ir_auth Lambda returned status " +:+ Py.str status))
              else if negb (statusCode payload =? 200) then
                raise (AuthenticationError
                         ("ir_auth Lambda failed: " +:+ Json.dumps (body payload)))
              else ret tt
          end)
         (fun e => match e with
                   | ClientError msg =>
                       raise (AuthenticationError
                                ("Failed to invoke authentication: " +:+ msg))
                   | _ =>
                       raise (AuthenticationError
                                ("Authentication invocation failed: "
                                 +:+ str_exn e))
                   end))).
  { intros h. quiet. }
  intros H. exact (Hp (trace w) _ _ _ H).
Qed.

Lemma reauthenticate_events env username message w res w' :
  IrCustid.reauthenticate env username message w = (res, w') ->
  only auth_event (record (Invoke "ir_auth") w) w'.
Proof.
  unfold IrCustid.reauthenticate. intros H.
  apply bind_inv in H as [([] & w1 & Hinv & H)|(e & Hinv & _)].
  2:{ eapply invoke_auth_lambda_events, Hinv. }
  apply invoke_auth_lambda_events in Hinv.
  etransitivity; [exact Hinv|].
  assert (Hp : preserves (only auth_event)
                 (access_token <- IrCustid.get_access_token env username;;
                  match IrCustid.usable_token access_token with
                  | Some t => ret t
                  | None => raise (AuthenticationError message)
                  end)).
  { pose proof (get_access_token_only auth_event (fun _ H => H)).
    quiet. }
  eapply Hp, H.
Qed.

(** *** No profile request before the fetch *)

Lemma auth_event_not_member_profile ev :
  auth_event ev = true -> not_member_profile ev = true.
Proof. destruct ev; cbn; congruence. Qed.

Lemma only_weaken (ok ok' : Event -> bool) w w' :
  (forall ev, ok ev = true -> ok' ev = true) -> only ok w w' -> only ok' w w'.
Proof.
  intros Hok (l & H & Hl). exists l. split; [exact H|].
  eapply Forall_impl; [exact Hl|]. exact Hok.
Qed.

Lemma only_record ok ev w w' :
  ok ev = true -> only ok (record ev w) w' -> only ok w w'.
Proof.
  intros Hev (l & H & Hl). exists (l ++ [ev])%list. split.
  - rewrite H. cbn. now rewrite <- app_assoc.
  - apply Forall_app. split; [exact Hl|]. now repeat constructor.
Qed.

Lemma reauthenticate_quiet env username message :
  preserves (only not_member_profile)
    (IrCustid.reauthenticate env username message).
Proof.
  intros w res w' H. apply reauthenticate_events in H.
  apply (only_record _ (Invoke "ir_auth")); [reflexivity|].
  eapply only_weaken; [apply auth_event_not_member_profile|exact H].
Qed.

Lemma acquire_token_quiet env :
  preserves (only not_member_profile) (IrCustid.acquire_token env).
Proof.
  pose proof (get_access_token_only _ auth_event_not_member_profile).
  pose proof reauthenticate_quiet.
  unfold IrCustid.acquire_token, IrCustid.get_oauth_credentials. quiet.
Qed.

Lemma search_attempts_quiet env term tok attempts :
  preserves (only not_member_profile)
    (IrCustid.search_attempts env term tok attempts).
Proof.
  induction attempts as [|attempt rest IH]; cbn [IrCustid.search_attempts];
    [quiet|].
  cbv zeta.
  unfold IrCustid.search_failure, IrCustid.driver_data_failure,
    IrCustid.choose_driver, IrCustid.found, IrCustid.cache_driver_result.
  quiet.
Qed.

Lemma custid_handler_quiet env event :
  preserves (only not_member_profile) (IrCustid.lambda_handler env event).
Proof.
  pose proof acquire_token_quiet. pose proof reauthenticate_quiet.
  pose proof search_attempts_quiet.
  unfold IrCustid.lambda_handler, IrCustid.search_driver_with_auth. quiet.
Qed.

Lemma invoke_custid_lambda_quiet env name :
  preserves (only not_member_profile) (IrDrivers.invoke_custid_lambda env name).
Proof.
  pose proof custid_handler_quiet.
  unfold IrDrivers.invoke_custid_lambda. quiet.
Qed.

Lemma get_cached_driver_profile_quiet env name :
  preserves (only not_member_profile)
    (IrDrivers.get_cached_driver_profile env name).
Proof. unfold IrDrivers.get_cached_driver_profile. quiet. Qed.

Lemma customer_id_quiet env name :
  preserves (only not_member_profile) (customer_id env name).
Proof.
  pose proof invoke_custid_lambda_quiet.
  unfold customer_id, IrDrivers.get_customer_id_from_cache. quiet.
Qed.

Lemma invalid_cust_id_world cust_id w res w' :
  IrDrivers.invalid_cust_id cust_id w = (res, w') -> w' = w.
Proof.
  unfold IrDrivers.invalid_cust_id.
  destruct (negb (Json.truthy cust_id)); [now intros [= <- <-]|].
  destruct (Json.int cust_id); now intros [= <- <-].
Qed.

Lemma only_total p l :
  Forall (fun ev => negb (p ev) = true) l -> total (one p) l = 0.
Proof.
  unfold total. induction 1 as [|ev l Hev _ IH]; [reflexivity|].
  cbn [fold_right]. rewrite IH. unfold one.
  destruct (p ev); [discriminate|reflexivity].
Qed.

(** ** The fetch of a name when every profile request is answered 401 *)

Lemma profile_with_reauth_401 env name cust_id username tok w :
  (forall h c t, reply_status (member_profile env h c t) = Some 401) ->
  let request t := MemberProfile (Json.format cust_id) t in
  let reauth :=
    IrCustid.reauthenticate env username no_token_after_reauth
      (record (request tok) w) in
  IrDrivers.profile_with_reauth env name cust_id username tok w
  = match fst reauth with
    | Ok new_token =>
        (Raise (AuthenticationError "Access token expired or invalid"),
         record (request new_token) (snd reauth))
    | Raise e => (Raise e, snd reauth)
    end.
Proof.
  intros H401 request reauth. unfold IrDrivers.profile_with_reauth.
  rewrite (try_except_Raise _ _ _ _ _
             (fetch_and_cache_401 env name cust_id tok w (H401 _ _ _))).
  fold (request tok). unfold no_token_after_reauth in reauth.
  destruct (IrCustid.reauthenticate env username
              "Failed to obtain access token after re-authentication"
              (record (request tok) w)) as [[new_token|e] w2] eqn:E;
    subst reauth; cbn [fst snd].
  - rewrite (bind_Ok _ _ _ _ _ E).
    apply (fetch_and_cache_401 env name cust_id), H401.
  - now rewrite (bind_Raise _ _ _ _ _ E).
Qed.

(** The profile requests between two worlds. *)
Lemma requests_none w w' :
  only not_member_profile w w' ->
  exists l, trace w' = (l ++ trace w)%list /\ total (one is_member_profile) l = 0.
Proof.
  intros (l & H & Hl). exists l. split; [exact H|]. now apply only_total.
Qed.

Lemma requests_trans n1 n2 w1 w2 w3 :
  (exists l, trace w2 = (l ++ trace w1)%list
             /\ total (one is_member_profile) l = n1) ->
  (exists l, trace w3 = (l ++ trace w2)%list
             /\ total (one is_member_profile) l = n2) ->
  exists l, trace w3 = (l ++ trace w1)%list
            /\ total (one is_member_profile) l = n1 + n2.
Proof.
  intros (l1 & H1 & Hn1) (l2 & H2 & Hn2). exists (l2 ++ l1)%list. split.
  - rewrite H2, H1. apply app_assoc.
  - rewrite total_app. lia.
Qed.

Lemma requests_one c t w :
  exists l, trace (record (MemberProfile c t) w) = (l ++ trace w)%list
            /\ total (one is_member_profile) l = 1.
Proof. exists [MemberProfile c t]. split; reflexivity. Qed.

(** With every profile request answered 401, the fetch of a name raises
    an authentication error after one or two profile requests. *)
Lemma profile_with_reauth_requests env name cust_id username tok w res w' :
  (forall h c t, reply_status (member_profile env h c t) = Some 401) ->
  IrDrivers.profile_with_reauth env name cust_id username tok w = (res, w') ->
  (exists msg, res = Raise (AuthenticationError msg))
  /\ exists l, trace w' = (l ++ trace w)%list
               /\ 1 <= total (one is_member_profile) l <= 2.
Proof.
  intros H401. rewrite (profile_with_reauth_401 _ _ _ _ _ _ H401). cbv zeta.
  destruct (IrCustid.reauthenticate env username no_token_after_reauth
              (record (MemberProfile (Json.format cust_id) tok) w))
    as [[new_token|e] w2] eqn:E; cbn [fst snd]; intros [= <- <-].
  - split; [eauto|].
    apply reauthenticate_quiet, requests_none in E.
    destruct (requests_trans _ _ _ _ _
                (requests_trans _ _ _ _ _ (requests_one _ _ w) E)
                (requests_one (Json.format cust_id) new_token w2))
      as (l & H & Hn).
    exists l. split; [exact H|lia].
  - split.
    { destruct (reauthenticate_raises _ _ _ _ _ _ E) as [msg ->]. eauto. }
    apply reauthenticate_quiet, requests_none in E.
    destruct (requests_trans _ _ _ _ _ (requests_one _ _ w) E) as (l & H & Hn).
    exists l. split; [exact H|lia].
Qed.

Lemma bind_assoc {A B C} (m : M A) (f : A -> M B) (g : B -> M C) w :
  bind (bind m f) g w = bind m (fun a => bind (f a) g) w.
Proof. unfold bind. destruct (m w) as [[a|e] w1]; reflexivity. Qed.

(** The body of [process_driver]: no profile request before the fetch,
    one or two in it. *)
Lemma process_driver_requests env name username tok w :
  (forall h c t, reply_status (member_profile env h c t) = Some 401) ->
  exists entry w' l,
    IrDrivers.process_driver env name username tok w = (Ok entry, w')
    /\ trace w' = (l ++ trace w)%list
    /\ 0 <= total (one is_member_profile) l <= 2
    /\ (0 < total (one is_member_profile) l ->
        exists msg,
          entry = IrDrivers.error_entry
                    ("iRacing API error for " +:+ name +:+ ": " +:+ msg)).
Proof.
  intros H401.
  assert (Hbody : forall res w',
    (cached_profile <- IrDrivers.get_cached_driver_profile env name;;
     match IrDrivers.truthy_profile cached_profile with
     | Some profile => ret profile
     | None =>
         cust_id <- customer_id env name;;
         invalid <- IrDrivers.invalid_cust_id cust_id;;
         if (invalid : bool) then
           ret (IrDrivers.error_entry ("Driver not found: " +:+ name))
         else IrDrivers.profile_with_reauth env name cust_id username tok
     end)%py w = (res, w') ->
    exists l, trace w' = (l ++ trace w)%list
              /\ 0 <= total (one is_member_profile) l <= 2
              /\ (0 < total (one is_member_profile) l ->
                  exists msg, res = Raise (AuthenticationError msg))).
  { intros res w' H.
    assert (Hnone : forall w0 : World,
      only not_member_profile w w0 -> w' = w0 ->
      exists l, trace w' = (l ++ trace w)%list
                /\ 0 <= total (one is_member_profile) l <= 2
                /\ (0 < total (one is_member_profile) l ->
                    exists msg, res = Raise (AuthenticationError msg))).
    { intros w0 Hq ->. destruct (requests_none _ _ Hq) as (l & Hl & Hn).
      exists l. split; [exact Hl|]. split; lia. }
    apply bind_inv in H as [(cached & w1 & Hc & H)|(e & Hc & _)].
    2:{ apply get_cached_driver_profile_quiet in Hc. now apply (Hnone w'). }
    apply get_cached_driver_profile_quiet in Hc.
    destruct (IrDrivers.truthy_profile cached) as [profile|].
    { injection H as <- <-. now apply (Hnone w1). }
    apply bind_inv in H as [(cust_id & w2 & Hid & H)|(e & Hid & _)].
    2:{ apply customer_id_quiet in Hid.
        apply (Hnone w'); [etransitivity; eassumption|reflexivity]. }
    apply customer_id_quiet in Hid.
    assert (Hq2 : only not_member_profile w w2) by (etransitivity; eassumption).
    apply bind_inv in H as [(invalid & w3 & Hinv & H)|(e & Hinv & _)].
    2:{ apply invalid_cust_id_world in Hinv as ->. now apply (Hnone w2). }
    apply invalid_cust_id_world in Hinv as ->.
    destruct invalid.
    { injection H as <- <-. now apply (Hnone w2). }
    apply (profile_with_reauth_requests env) in H as ((msg & ->) & Hl);
      [|exact H401].
    destruct Hl as (l & Hl & Hn).
    destruct (requests_trans _ _ _ _ _ (requests_none _ _ Hq2)
                (ex_intro _ l (conj Hl eq_refl))) as (l' & Hl' & Hn').
    exists l'. split; [exact Hl'|]. split; [lia|]. eauto. }
  unfold IrDrivers.process_driver.
  match goal with |- context [try_except ?m ?h w] =>
    assert (Heq : forall w0, m w0
      = (cached_profile <- IrDrivers.get_cached_driver_profile env name;;
         match IrDrivers.truthy_profile cached_profile with
         | Some profile => ret profile
         | None =>
             cust_id <- customer_id env name;;
             invalid <- IrDrivers.invalid_cust_id cust_id;;
             if (invalid : bool) then
               ret (IrDrivers.error_entry ("Driver not found: " +:+ name))
             else IrDrivers.profile_with_reauth env name cust_id username tok
         end)%py w0);
    [|destruct (m w) as [[entry|e] w'] eqn:E]
  end.
  { intros w0. unfold bind at 1 5.
    destruct (IrDrivers.get_cached_driver_profile env name w0) as [[cached|e] w1];
      [|reflexivity].
    destruct (IrDrivers.truthy_profile cached); [reflexivity|].
    unfold customer_id. now rewrite bind_assoc. }
  - pose proof E as E'. rewrite Heq in E'.
    destruct (Hbody _ _ E') as (l & Hl & Hn & Hfail).
    exists entry, w', l. split; [now apply try_except_Ok|].
    split; [exact Hl|]. split; [exact Hn|].
    intros Hpos. destruct (Hfail Hpos) as [msg [=]].
  - pose proof E as E'. rewrite Heq in E'.
    destruct (Hbody _ _ E') as (l & Hl & Hn & Hfail).
    exists (IrDrivers.driver_error name e), w', l.
    split; [now rewrite (try_except_Raise _ _ _ _ _ E)|].
    split; [exact Hl|]. split; [exact Hn|].
    intros Hpos. destruct (Hfail Hpos) as [msg [= ->]]. eauto.
Qed.

(** C2, on the code: the token of the table has expired and the token
    endpoint answers 500, so that the re-authentication fails; the profile
    request answered 401 is then the only one. *)
Lemma reauthentication_failure_single_request :
  let rw := IrDrivers.process_driver Scenario.unauthorized "A" Scenario.username
              "access-0" (Faulty.lapsed_batch 1000) in
  let rform := refresh_form "forum-addon" "s3cret" "refresh-0" in
  let pform := password_form "forum-addon" "s3cret" Scenario.username "hunter2" in
  (forall h cust_id tok,
      reply_status (member_profile Scenario.unauthorized h cust_id tok) = Some 401)
  /\ fst rw
     = Ok (IrDrivers.error_entry
             ("iRacing API error for A: Authentication invocation failed: "
              +:+ "ir_auth Lambda failed: "
              +:+ Json.dumps
                    (body (IrAuth.error_response 401 [] "Authentication failed"
                             "OAuth request failed after 3 attempts"))))
  /\ trace (snd rw)
     = (three (OAuthToken pform) 1 2 ++ three (OAuthToken rform) 1 2
        ++ [GetItem "ir_auth" Scenario.username; GetSecretValue;
            Invoke "ir_auth"; MemberProfile "1" "access-0";
            GetItem "ir_custid" "A"; GetItem "ir_drivers" "A"])%list
  /\ total (one is_member_profile) (trace (snd rw)) = 1.
Proof.
  cbv zeta. split; [reflexivity|]. repeat split; vm_compute; reflexivity.
Qed.

(** C2, as the code has it.  When every profile request is answered 401,
    the fetch of a name makes its first request with the token of the
    batch and then re-authenticates once: one invocation of [ir_auth],
    followed only by what [ir_auth] does and by the read of the token
    table.  When that gives a token, one more request is made with it and
    the authentication error of its 401 is raised, two requests in all;
    when it gives none, the authentication error of the re-authentication
    is raised after the one request.  [process_driver] gives a name that
    reaches the fetch (not served from the profile cache, its identifier
    valid) the per-name error of that exception.  Whatever the name,
    [process_driver] answers: it makes at most two profile requests, and
    whenever it made one the entry of the name is the per-name error. *)
Theorem auth_failure_retried_once env :
  (forall h cust_id tok,
      reply_status (member_profile env h cust_id tok) = Some 401) ->
  (forall name cust_id username tok w,
      let request t := MemberProfile (Json.format cust_id) t in
      let reauth :=
        IrCustid.reauthenticate env username no_token_after_reauth
          (record (request tok) w) in
      only auth_event (record (Invoke "ir_auth") (record (request tok) w))
        (snd reauth)
      /\ (forall e, fst reauth = Raise e -> exists msg, e = AuthenticationError msg)
      /\ IrDrivers.profile_with_reauth env name cust_id username tok w
         = match fst reauth with
           | Ok new_token =>
               (Raise (AuthenticationError "Access token expired or invalid"),
                record (request new_token) (snd reauth))
           | Raise e => (Raise e, snd reauth)
           end)
  /\ (forall name username tok w cached w1 cust_id w2,
         IrDrivers.get_cached_driver_profile env name w = (Ok cached, w1) ->
         IrDrivers.truthy_profile cached = None ->
         customer_id env name w1 = (Ok cust_id, w2) ->
         IrDrivers.invalid_cust_id cust_id w2 = (Ok false, w2) ->
         let request t := MemberProfile (Json.format cust_id) t in
         let reauth :=
           IrCustid.reauthenticate env username no_token_after_reauth
             (record (request tok) w2) in
         let failure message :=
           JDict [("error",
                   JStr ("iRacing API error for " +:+ name +:+ ": "
                         +:+ message))] in
         IrDrivers.process_driver env name username tok w
         = match fst reauth with
           | Ok new_token =>
               (Ok (failure "Access token expired or invalid"),
                record (request new_token) (snd reauth))
           | Raise e => (Ok (failure (str_exn e)), snd reauth)
           end)
  /\ (forall name username tok w,
         exists entry w' l,
           IrDrivers.process_driver env name username tok w = (Ok entry, w')
           /\ trace w' = (l ++ trace w)%list
           /\ 0 <= total (one is_member_profile) l <= 2
           /\ (0 < total (one is_member_profile) l ->
               exists msg,
                 entry = JDict [("error",
                                 JStr ("iRacing API error for " +:+ name +:+ ": "
                                       +:+ msg))])).
Proof.
  intros H401. split; [|split].
  - intros name cust_id username tok w request reauth.
    split; [|split].
    + subst reauth.
      destruct (IrCustid.reauthenticate env username no_token_after_reauth
                  (record (request tok) w)) as [res w2] eqn:E.
      eapply reauthenticate_events, E.
    + intros e He. subst reauth.
      destruct (IrCustid.reauthenticate env username no_token_after_reauth
                  (record (request tok) w)) as [res w2] eqn:E.
      cbn [fst] in He. subst res. eapply reauthenticate_raises, E.
    + now apply profile_with_reauth_401.
  - intros name username tok w cached w1 cust_id w2 Hc Hmiss Hid Hvalid
      request reauth failure.
    rewrite (process_driver_fetch _ _ _ _ _ _ _ _ _ Hc Hmiss Hid Hvalid).
    unfold try_except.
    rewrite (profile_with_reauth_401 _ _ _ _ _ _ H401). cbv zeta.
    fold (request tok). fold reauth.
    destruct (fst reauth) as [new_token|e] eqn:E; [reflexivity|].
    subst reauth.
    destruct (IrCustid.reauthenticate env username no_token_after_reauth
                (record (request tok) w2)) as [res w3] eqn:Hre.
    cbn [fst snd] in *. subst res.
    now destruct (reauthenticate_raises _ _ _ _ _ _ Hre) as [msg ->].
  - intros name username tok w. now apply process_driver_requests.
Qed.

Lemma auth_failure_retried_once_witness :
  let rform := refresh_form "forum-addon" "s3cret" "refresh-0" in
  let first := IrDrivers.process_driver Faulty.rejecting_profiles "A"
                 Scenario.username "access-0" (Faulty.lapsed_batch 1000) in
  let second := IrDrivers.process_driver Faulty.rejecting_profiles "Bob"
                  Scenario.username "access-0" (Scenario.empty_world 1000) in
  (fst first
   = Ok (IrDrivers.error_entry
           "iRacing API error for A: Access token expired or invalid")
   /\ trace (snd first)
      = [MemberProfile "1" "access-1"; GetItem "ir_auth" Scenario.username;
         PutItem "ir_auth" Scenario.username; OAuthToken rform;
         GetItem "ir_auth" Scenario.username; GetSecretValue; Invoke "ir_auth";
         MemberProfile "1" "access-0";
         GetItem "ir_custid" "A"; GetItem "ir_drivers" "A"])
  /\ (fst second
      = Ok (IrDrivers.error_entry
              "iRacing API error for Bob: Access token expired or invalid")
      /\ total (one is_member_profile) (trace (snd second)) = 2
      /\ total (one is_oauth_token) (trace (snd second)) = 1
      /\ total (one is_lookup) (trace (snd second)) = 1).
Proof.
  cbv zeta.
  destruct (auth_failure_retried_once Faulty.rejecting_profiles)
    as (_ & _ & H); [intros h cust_id tok; reflexivity|].
  split.
  - destruct (H "A" Scenario.username "access-0" (Faulty.lapsed_batch 1000))
      as (entry & w' & l & Hrun & _).
    pose proof Hrun as Hc. vm_compute in Hc. injection Hc as <- <-.
    rewrite Hrun. split; reflexivity.
  - destruct (H "Bob" Scenario.username "access-0" (Scenario.empty_world 1000))
      as (entry & w' & l & Hrun & _).
    pose proof Hrun as Hc. vm_compute in Hc. injection Hc as <- <-.
    rewrite Hrun. repeat split.
Defined.

(** ** The profile cache: what happens to a record that is not served *)

(** A profile that the fetch returns is the document of the reply to the
    last two events: the request and the fetch of its link. *)
Lemma profile_attempts_ok env cust_id tok attempts :
  forall w j w',
    IrDrivers.profile_attempts env cust_id tok attempts w = (Ok j, w') ->
    exists url ra rest,
      trace w' = FetchProfile url :: MemberProfile cust_id tok :: rest
      /\ fetch_profile env (MemberProfile cust_id tok :: rest) url
         = Response 200 ra (Json j).
Proof.
  induction attempts as [|attempt rest IH]; intros w j w'; [discriminate|].
  cbn [IrDrivers.profile_attempts]. cbv zeta. unfold urlopen at 1. munfold.
  assert (Hback : forall e w0,
    IrCustid.backoff_or_raise attempt
      (IrDrivers.profile_attempts env cust_id tok rest) e w0 = (Ok j, w') ->
    exists url ra rest,
      trace w' = FetchProfile url :: MemberProfile cust_id tok :: rest
      /\ fetch_profile env (MemberProfile cust_id tok :: rest) url
         = Response 200 ra (Json j)).
  { intros e w0 H. apply backoff_or_raise_Ok in H as [w1 H]. eapply IH, H. }
  assert (Hfail1 : forall status w0,
    IrDrivers.profile_failure status attempt
      (IrDrivers.profile_attempts env cust_id tok rest) w0 = (Ok j, w') ->
    exists url ra rest,
      trace w' = FetchProfile url :: MemberProfile cust_id tok :: rest
      /\ fetch_profile env (MemberProfile cust_id tok :: rest) url
         = Response 200 ra (Json j)).
  { intros status w0. unfold IrDrivers.profile_failure.
    destruct (status =? 401); [discriminate|].
    destruct (status =? 429); apply Hback. }
  assert (Hfail2 : forall status w0,
    IrDrivers.profile_detail_failure status attempt
      (IrDrivers.profile_attempts env cust_id tok rest) w0 = (Ok j, w') ->
    exists url ra rest,
      trace w' = FetchProfile url :: MemberProfile cust_id tok :: rest
      /\ fetch_profile env (MemberProfile cust_id tok :: rest) url
         = Response 200 ra (Json j)).
  { intros status w0. unfold IrDrivers.profile_detail_failure.
    destruct (status =? 401); [discriminate|]. apply Hback. }
  destruct (member_profile env (trace w) cust_id tok)
    as [st ra b|code reason ra|reason]; eauto.
  destruct (st =? 200); eauto.
  destruct b as [profile_data|msg]; eauto.
  destruct (link profile_data) as [url|]; [|discriminate].
  unfold urlopen. munfold.
  match goal with |- context [fetch_profile env ?h url] =>
    destruct (fetch_profile env h url) as [st2 ra2 b2|code2 reason2 ra2|reason2] eqn:E
  end; eauto.
  destruct (st2 =? 200) eqn:E200; eauto.
  destruct b2 as [driver_profile|msg2]; eauto.
  intros [= <- <-]. apply Z.eqb_eq in E200 as ->.
  eexists url, ra2, (trace w). split; [reflexivity|exact E].
Qed.

(** The fetch and the write: a profile is refetched, or an exception
    leaves the profile cache as it was. *)
Lemma fetch_and_cache_refetched env name cust_id tok w res w' :
  (forall h, dynamodb_error env h = None) ->
  IrDrivers.fetch_and_cache env name cust_id tok w = (res, w') ->
  match res with
  | Ok entry => refetched env name entry w'
  | Raise _ => ir_drivers w' = ir_drivers w
  end.
Proof.
  intros Hdb. unfold IrDrivers.fetch_and_cache. intros H.
  apply bind_inv in H as [(profile & w1 & Hget & H)|(e & Hget & ->)].
  2:{ now apply profile_attempts_profiles in Hget. }
  rewrite (bind_Ok _ _ _ _ _ (cache_driver_profile_ok _ _ _ _ (Hdb _))) in H.
  injection H as <- <-.
  apply profile_attempts_ok in Hget as (url & ra & rest & Htrace & Hreply).
  exists (Json.format cust_id), tok, url, ra, rest. cbn [trace clock ir_drivers].
  rewrite Htrace. split; [reflexivity|]. split; [exact Hreply|].
  apply lookup_insert_eq.
Qed.

Lemma profile_with_reauth_refetched env name cust_id username tok w res w' :
  (forall h, dynamodb_error env h = None) ->
  IrDrivers.profile_with_reauth env name cust_id username tok w = (res, w') ->
  match res with
  | Ok entry => refetched env name entry w'
  | Raise _ => ir_drivers w' = ir_drivers w
  end.
Proof.
  intros Hdb. unfold IrDrivers.profile_with_reauth. intros H.
  apply try_except_inv in H as [(entry & H & ->)|(e & w1 & H & Hh)].
  - now apply (fetch_and_cache_refetched env) in H.
  - apply (fetch_and_cache_refetched env) in H; [|exact Hdb].
    cbn iota in H.
    destruct e; try (injection Hh as <- <-; exact H).
    apply bind_inv in Hh as [(new_token & w2 & Hre & Hh)|(e & Hre & ->)].
    + apply (caches_kept_profiles _ (reauthenticate_kept env _ _)) in Hre.
      apply (fetch_and_cache_refetched env) in Hh; [|exact Hdb].
      destruct res; [exact Hh|]. unfold profiles_kept in Hre. congruence.
    + apply (caches_kept_profiles _ (reauthenticate_kept env _ _)) in Hre.
      unfold profiles_kept in Hre. congruence.
Qed.

Lemma customer_id_profiles env name :
  preserves profiles_kept (customer_id env name).
Proof.
  pose proof (invoke_custid_lambda_profiles env).
  unfold customer_id, IrDrivers.get_customer_id_from_cache. frame.
Qed.

Lemma get_cached_driver_profile_world env name w res w' :
  IrDrivers.get_cached_driver_profile env name w = (res, w') ->
  w' = record (GetItem "ir_drivers" name) w.
Proof.
  unfold IrDrivers.get_cached_driver_profile. munfold.
  destruct (dynamodb_error env (trace w)); [now intros [= <- <-]|].
  wsimpl. destruct (ir_drivers w !! name) as [item|]; [|now intros [= <- <-]].
  munfold. destruct (default 0 (pi_ttl item) >? clock w); now intros [= <- <-].
Qed.

(** After a read of the profile cache that serves nothing, [process_driver]
    answers with the per-name error and leaves the profile cache as it
    was, or with a profile refetched from the upstream. *)
Lemma process_driver_refetch env name username tok w cached w1 :
  (forall h, dynamodb_error env h = None) ->
  IrDrivers.get_cached_driver_profile env name w = (Ok cached, w1) ->
  IrDrivers.truthy_profile cached = None ->
  exists entry w',
    IrDrivers.process_driver env name username tok w = (Ok entry, w')
    /\ (((exists message, entry = IrDrivers.error_entry message)
         /\ ir_drivers w' = ir_drivers w)
        \/ refetched env name entry w').
Proof.
  intros Hdb Hc Hmiss.
  pose proof (get_cached_driver_profile_world _ _ _ _ _ Hc) as ->.
  unfold IrDrivers.process_driver. unfold try_except.
  rewrite (bind_Ok _ _ _ _ _ Hc), Hmiss.
  match goal with |- context [match ?m ?w0 with _ => _ end] =>
    destruct (m w0) as [[entry|e] w'] eqn:E
  end.
  - exists entry, w'. split; [reflexivity|].
    apply bind_inv_Ok in E as (cached_id & w2 & Hid1 & E).
    apply bind_inv_Ok in E as (cust_id & w3 & Hid2 & E).
    assert (Hid : customer_id env name (record (GetItem "ir_drivers" name) w)
                  = (Ok cust_id, w3)).
    { unfold customer_id. now rewrite (bind_Ok _ _ _ _ _ Hid1). }
    apply customer_id_profiles in Hid. unfold profiles_kept in Hid.
    cbn [ir_drivers record] in Hid.
    apply bind_inv_Ok in E as (invalid & w4 & Hinv & E).
    apply invalid_cust_id_world in Hinv as ->.
    destruct invalid.
    + injection E as <- <-. left. split; [eauto|exact Hid].
    + right. now apply (profile_with_reauth_refetched env) in E.
  - exists (IrDrivers.driver_error name e), w'. split; [reflexivity|]. left.
    split; [destruct e; cbn; eauto|].
    apply bind_inv in E as [(cached_id & w2 & Hid1 & E)|(e0 & Hid1 & _)].
    2:{ assert (Hp : preserves profiles_kept
                       (IrDrivers.get_customer_id_from_cache env name))
          by (unfold IrDrivers.get_customer_id_from_cache; frame).
        now apply Hp in Hid1. }
    apply bind_inv in E as [(cust_id & w3 & Hid2 & E)|(e0 & Hid2 & _)].
    2:{ assert (Hid : customer_id env name (record (GetItem "ir_drivers" name) w)
                      = (Raise e0, w')).
        { unfold customer_id. now rewrite (bind_Ok _ _ _ _ _ Hid1). }
        now apply customer_id_profiles in Hid. }
    assert (Hid : customer_id env name (record (GetItem "ir_drivers" name) w)
                  = (Ok cust_id, w3)).
    { unfold customer_id. now rewrite (bind_Ok _ _ _ _ _ Hid1). }
    apply customer_id_profiles in Hid. unfold profiles_kept in Hid.
    cbn [ir_drivers record] in Hid.
    apply bind_inv in E as [(invalid & w4 & Hinv & E)|(e0 & Hinv & _)].
    2:{ now apply invalid_cust_id_world in Hinv as ->. }
    apply invalid_cust_id_world in Hinv as ->.
    destruct invalid; [discriminate|].
    apply (profile_with_reauth_refetched env) in E; [|exact Hdb].
    cbn iota in E. congruence.
Qed.

(** C7, on the code: an empty profile document, cached and not expired, is
    not served: the name is fetched from the upstream again. *)
Lemma empty_cached_profile_is_not_served :
  let w := Faulty.empty_profile_cached 1000 in
  let rw := IrDrivers.process_driver Scenario.profiles "A" Scenario.username
              "access-0" w in
  ir_drivers w !! "A" = Some {| pi_profile := JDict []; pi_ttl := Some 2800 |}
  /\ clock w < 2800
  /\ fst rw = Ok (Scenario.profile_document (Scenario.profile_link "1"))
  /\ fst rw <> Ok (JDict [])
  /\ trace (snd rw)
     = [PutItem "ir_drivers" "A"; FetchProfile (Scenario.profile_link "1");
        MemberProfile "1" "access-0"; GetItem "ir_custid" "A";
        GetItem "ir_drivers" "A"].
Proof.
  cbv zeta. split; [vm_compute; reflexivity|]. split; [reflexivity|].
  split; [vm_compute; reflexivity|]. split; [vm_compute; discriminate|].
  vm_compute. reflexivity.
Qed.

(** C7, as the code has it.  A profile written at time [t0] is recorded
    with the expiry [t0 + 3600].  While that record is in the table, a read
    before the expiry returns the profile from the cache, and does nothing
    but read the cache, when the profile is a document that Python takes
    for true; a read at or after the expiry finds the cache empty.  When
    the record is not served, for its expiry or for its document,
    [process_driver] answers with the per-name error, leaving the profile
    cache as it was, or with a profile taken from the upstream in this
    call and written with the expiry [now + 3600]; the latter whenever the
    identifier of the name, from the identifier cache or from [ir_custid],
    is valid and the fetch returns a profile. *)
Theorem profile_cache_respects_ttl env name profile w0 :
  (forall h, dynamodb_error env h = None) ->
  let expiry := clock w0 + 3600 in
  let written := {| pi_profile := profile; pi_ttl := Some expiry |} in
  ir_drivers (snd (IrDrivers.cache_driver_profile env name profile w0)) !! name
  = Some written
  /\ forall w username access_token,
       ir_drivers w !! name = Some written ->
       let w1 := record (GetItem "ir_drivers" name) w in
       (clock w < expiry -> Json.truthy profile = true ->
        IrDrivers.process_driver env name username access_token w
        = (Ok profile, w1))
       /\ (expiry <= clock w ->
           IrDrivers.get_cached_driver_profile env name w = (Ok None, w1))
       /\ (expiry <= clock w \/ Json.truthy profile = false ->
           (exists entry w',
               IrDrivers.process_driver env name username access_token w
               = (Ok entry, w')
               /\ (((exists message, entry = IrDrivers.error_entry message)
                    /\ ir_drivers w' = ir_drivers w)
                   \/ refetched env name entry w'))
           /\ forall cust_id w2 fresh w3,
                customer_id env name w1 = (Ok cust_id, w2) ->
                IrDrivers.invalid_cust_id cust_id w2 = (Ok false, w2) ->
                IrDrivers.get_driver_profile_with_auth env (Json.format cust_id)
                  access_token w2 = (Ok fresh, w3) ->
                IrDrivers.process_driver env name username access_token w
                = (Ok fresh,
                   {| clock := clock w3; ir_auth := ir_auth w3;
                      ir_custid := ir_custid w3;
                      ir_drivers :=
                        <[name := {| pi_profile := fresh;
                                     pi_ttl := Some (clock w3 + 3600) |}]>
                          (ir_drivers w3);
                      trace := PutItem "ir_drivers" name :: trace w3 |})).
Proof.
  intros Hdb expiry written. split.
  - rewrite (cache_driver_profile_ok _ _ _ _ (Hdb _)). cbn [snd ir_drivers].
    apply lookup_insert_eq.
  - intros w username access_token Hw w1. split; [|split].
    + intros Hlt Htruthy. unfold IrDrivers.process_driver. apply try_except_Ok.
      rewrite (bind_Ok _ _ _ _ _
                 (get_cached_driver_profile_fresh _ _ _ _ _ (Hdb _) Hw Hlt)).
      cbn [IrDrivers.truthy_profile]. now rewrite Htruthy.
    + intros Hle. now apply (get_cached_driver_profile_stale env _ profile expiry).
    + intros Hcase.
      assert (Hread : exists cached,
        IrDrivers.get_cached_driver_profile env name w = (Ok cached, w1)
        /\ IrDrivers.truthy_profile cached = None).
      { destruct (Z.lt_ge_cases (clock w) expiry) as [Hlt|Hle].
        - destruct Hcase as [Hle|Hfalsy]; [lia|].
          exists (Some profile). split.
          + now apply (get_cached_driver_profile_fresh env _ _ expiry).
          + cbn [IrDrivers.truthy_profile]. now rewrite Hfalsy.
        - exists None. split; [|reflexivity].
          now apply (get_cached_driver_profile_stale env _ profile expiry). }
      destruct Hread as (cached & Hread & Hmiss). split.
      * now apply (process_driver_refetch env name username access_token w
                     cached w1).
      * intros cust_id w2 fresh w3 Hid Hvalid Hfetch.
        rewrite (process_driver_fetch _ _ _ _ _ _ _ _ _ Hread Hmiss Hid Hvalid).
        apply try_except_Ok. unfold IrDrivers.profile_with_reauth.
        apply try_except_Ok. unfold IrDrivers.fetch_and_cache.
        rewrite (bind_Ok _ _ _ _ _ Hfetch).
        rewrite (bind_Ok _ _ _ _ _ (cache_driver_profile_ok _ _ _ _ (Hdb _))).
        reflexivity.
Qed.

Lemma profile_cache_respects_ttl_witness :
  let profile := Scenario.profile_document (Scenario.profile_link "1") in
  let w1 := snd (IrDrivers.cache_driver_profile Scenario.profiles "A" profile
                   (Scenario.batch_world 1000)) in
  let stale := Scenario.profile_document "old" in
  let w2 := snd (IrDrivers.cache_driver_profile Faulty.serving "Bob" stale
                   (Scenario.signed_in 1000)) in
  (exists w',
      IrDrivers.process_driver Scenario.profiles "A" Scenario.username
        "access-0" (advance 3599 w1) = (Ok profile, w')
      /\ trace w' = GetItem "ir_drivers" "A" :: trace w1)
  /\ (exists w',
         IrDrivers.process_driver Scenario.profiles "A" Scenario.username
           "access-0" (advance 3600 w1) = (Ok profile, w')
         /\ trace w'
            = PutItem "ir_drivers" "A"
              :: FetchProfile (Scenario.profile_link "1")
              :: MemberProfile "1" "access-0"
              :: GetItem "ir_custid" "A" :: GetItem "ir_drivers" "A" :: trace w1
         /\ ir_drivers w' !! "A"
            = Some {| pi_profile := profile; pi_ttl := Some (4600 + 3600) |})
  /\ (exists entry w',
         IrDrivers.process_driver Faulty.serving "Bob" Scenario.username
           "access-0" (advance 3600 w2) = (Ok entry, w')
         /\ entry = Scenario.profile_document (Scenario.profile_link "42")
         /\ refetched Faulty.serving "Bob" entry w'
         /\ total (one is_invoke) (trace w') = 2).
Proof.
  cbv zeta.
  set (profile := Scenario.profile_document (Scenario.profile_link "1")).
  set (w1 := snd (IrDrivers.cache_driver_profile Scenario.profiles "A" profile
                    (Scenario.batch_world 1000))).
  set (stale := Scenario.profile_document "old").
  set (w2 := snd (IrDrivers.cache_driver_profile Faulty.serving "Bob" stale
                    (Scenario.signed_in 1000))).
  split; [|split].
  - destruct (profile_cache_respects_ttl Scenario.profiles "A" profile
                (Scenario.batch_world 1000)) as [Hwritten Hread];
      [intros h; reflexivity|].
    destruct (Hread (advance 3599 w1) Scenario.username "access-0" Hwritten)
      as [Hhit _].
    eexists. split; [apply Hhit; vm_compute; reflexivity|reflexivity].
  - destruct (profile_cache_respects_ttl Scenario.profiles "A" profile
                (Scenario.batch_world 1000)) as [Hwritten Hread];
      [intros h; reflexivity|].
    destruct (Hread (advance 3600 w1) Scenario.username "access-0" Hwritten)
      as (_ & _ & Hstale).
    destruct Hstale as [_ Hfetch]; [left; vm_compute; discriminate|].
    eexists. split; [|split].
    + apply (Hfetch (JStr "1")
               (record (GetItem "ir_custid" "A")
                  (record (GetItem "ir_drivers" "A") (advance 3600 w1)))
               profile
               (record (FetchProfile (Scenario.profile_link "1"))
                  (record (MemberProfile "1" "access-0")
                     (record (GetItem "ir_custid" "A")
                        (record (GetItem "ir_drivers" "A") (advance 3600 w1))))));
        vm_compute; reflexivity.
    + reflexivity.
    + vm_compute. reflexivity.
  - destruct (profile_cache_respects_ttl Faulty.serving "Bob" stale
                (Scenario.signed_in 1000)) as [Hwritten Hread];
      [intros h; reflexivity|].
    destruct (Hread (advance 3600 w2) Scenario.username "access-0" Hwritten)
      as (_ & _ & Hstale).
    destruct Hstale as [(entry & w' & Hrun & Hcase) _];
      [left; vm_compute; discriminate|].
    exists entry, w'. split; [exact Hrun|].
    pose proof Hrun as Hc. vm_compute in Hc. injection Hc as <- <-.
    split; [reflexivity|]. split; [|vm_compute; reflexivity].
    destruct Hcase as [[[message Hm] _]|Hre]; [discriminate Hm|exact Hre].
Defined.
